(* ===== verification/_CoqProject ===== *)
-Q . S2P
Prelude.v
Platform.v
TicketValues.v
TicketNumbers.v
Ticket.v
TicketProofs.v
JsDate.v
BusinessHours.v
TicketSla.v
TicketRepo.v
TicketRepoProofs.v
TicketStore.v
TicketSlaService.v
TicketService.v
TicketApprovalService.v
TicketAssignmentService.v
TicketIsolation.v
TicketServiceProofs.v
TicketSlaProofs.v
TicketApprovalProofs.v
TicketSamples.v
AgentAssignment.v
AgentAssignmentProofs.v
JsValue.v
Workflow.v
WorkflowEngine.v
WorkflowProofs.v
Connector.v
ConnectorEngine.v
ConnectorProofs.v
Conversation.v
ConversationRepo.v
ConversationStore.v
ConversationService.v
ConversationRefinement.v
ConversationProofs.v
Crawler.v
Message.v
MessageRepo.v
MessageStore.v
MessageService.v
MessageProofs.v
MessageCounts.v
MessageSamples.v
Settings.v
SettingsRepo.v
SettingsEngine.v
SettingsService.v
SettingsProofs.v
SettingsIsolation.v
SettingsSpec.v
SettingsEngineProofs.v
SettingsHours.v
SettingsSamples.v
Sql.v
SqlText.v
Double.v
Customer.v
CustomerRepo.v
CustomerService.v
CustomerIsolation.v
CustomerViews.v
CustomerProofs.v
CustomerMetrics.v
CustomerLists.v
CustomerQueries.v
CustomerPages.v
CustomerSamples.v
Inbox.v
InboxRepo.v
InboxQueries.v
InboxProjection.v
InboxServices.v
InboxIsolation.v
InboxProofs.v
InboxReplay.v
InboxSweep.v
InboxFeed.v
InboxSamples.v
