(* ===== verification/Prelude.v ===== *)
(** * EasyDev support platform: verification library

    A model in Rocq of the core of the support platform under [src/]: a
    multi-tenant help desk in TypeScript (NestJS, Drizzle over PostgreSQL,
    BullMQ over Redis).  HTTP controllers and queue workers call services;
    services load aggregates from repositories, change them, save them, publish
    their events as jobs, write an audit log and broadcast to sockets.  Tickets,
    teams, workflows, connectors, conversations, messages, customers, the inbox, the
    website crawler and the settings of tenants are modelled; each module sees its own
    tables and the platform below it.

    ** How the code is embedded

    A TypeScript function that may throw or touch a store is a term of
    [M S A := S -> result A * S]; a throw keeps the writes made before it, as in
    JavaScript.  The methods of an entity run in [M] over its record, [exec] and
    [call] run them on a local object, and services run in [M (World Db)], where
    [World] holds the tables [Db] of the module, the queues, the audit log, the
    broadcasts and the ambient tenant.  [undefined] and [null] are [None], an
    object patch distinguishes a missing key from a present [undefined]
    ([patch]), [a || b] and [a ?? b] are [js_or] and [nullish], enums are
    inductive types with the guard of their value object ([JsEnum]).  Numbers are
    integers, rationals where the code has fractions, IEEE doubles where it stores
    floating-point sums ([Double]), and are cut to 32 bits where it shifts them; dates are milliseconds since 1970; [new Date()],
    [randomUUID()] and the BullMQ client are parameters ([Env]).  An [await]
    returns before the next statement runs; statements of different requests are
    interleaved only where a theorem says so ([concurrent_creates_collide],
    [concurrent_first_saves]).

    ** Files

    - [Prelude]: the effect monad, JavaScript operators, record update, the
      [keeps] calculus for frames and invariants, lists, stable sorting, strings.
    - [Platform]: [packages/shared-queues] (queues, retry policies, [addJob],
      dead letters, [BaseWorker.process]), [packages/shared-kernel] (tenant
      context and resolver), the audit log and broadcasts.
    - Tickets, [src/modules/tickets]: [TicketValues] (status machine, priority,
      number), [TicketNumbers] (their properties), [Ticket] (the aggregate and
      its approvals), [TicketProofs]; [JsDate] and [BusinessHours] (the
      business-minute loop), [TicketSla] (the SLA clock); [TicketRepo] (tables,
      mapper, statements) and [TicketRepoProofs]; [TicketStore] (repository as
      effects, publisher), [TicketSlaService], [TicketService],
      [TicketApprovalService], [TicketAssignmentService] (with escalation and the
      queue processor); [TicketIsolation], [TicketServiceProofs],
      [TicketSlaProofs], [TicketApprovalProofs]; [TicketSamples] (concrete runs).
    - Teams, [src/modules/teams]: [AgentAssignment] (assignment engine,
      availability, load jobs) and [AgentAssignmentProofs].
    - Workflows, [src/modules/workflows]: [JsValue] (conversions of JSON values),
      [Workflow] (data, tables, execution service), [WorkflowEngine] (triggers,
      conditions, actions, retries, runs, decisions, sweep), [WorkflowProofs].
    - Connectors, [src/modules/connectors]: [Connector] (circuit breaker, rate
      limit, Redis script), [ConnectorEngine] (execution engine, retry jobs),
      [ConnectorProofs].
    - Conversations, [src/modules/conversations]: [Conversation] (the aggregate),
      [ConversationRepo] (tables, mapper, statements), [ConversationStore]
      (publisher, summaries), [ConversationService] (services and worker);
      [ConversationRefinement] (typing of rows, the abstract specification and the
      refinement), [ConversationProofs].
    - Knowledge base: [Crawler], the website crawler of
      [knowledge-base/services/crawler.service.ts].
    - Messages, [src/modules/messages]: [Message] (the aggregate, templates and
      drafts), [MessageRepo] (tables and statements), [MessageStore] (publisher,
      read model), [MessageService] (services and worker); [MessageProofs],
      [MessageCounts] (the inbox counters), [MessageSamples].
    - Tenant settings, [src/modules/settings]: [Settings] (the thirteen entities,
      [domain/entities.ts]), [SettingsRepo] (tables and repository),
      [SettingsEngine] (feature flags, business hours), [SettingsService]
      (services, publisher and worker); [SettingsProofs] (the laws of tables, what
      a call keeps), [SettingsIsolation], [SettingsSpec] (services as registers of
      a tenant), [SettingsEngineProofs] (flags and plan limits), [SettingsHours]
      (business time), [SettingsSamples].
    - Tables: [Sql] (a table as the list of its rows, statements, unique keys,
      transactions, the [triple] calculus), [SqlText] (collation, [LIKE], order with
      nulls), [Double] (binary64 by [SpecFloat], [decimal] columns).
    - Customers, [src/modules/customers]: [Customer] (the aggregate, profile, metrics,
      segments, their values), [CustomerRepo] (tables, joins, repository),
      [CustomerQueries] (lists and searches), [CustomerService] (the services and the
      worker); [CustomerIsolation] (what a call may touch), [CustomerViews] (what a
      save writes and a query reads), [CustomerProofs], [CustomerMetrics] (merges and
      metrics), [CustomerLists] (export of CSV, segments), [CustomerPages] (cursors),
      [CustomerSamples].
    - Inbox, [src/modules/inbox]: [Inbox] (the view aggregate and the entities),
      [InboxRepo] (eight tables and the repository), [InboxQueries] (lists and counts),
      [InboxProjection] (publisher, activity, projection, event consumer),
      [InboxServices] (assignment, snooze, presence, bookmarks, search, [InboxService],
      the worker and the scheduler); [InboxIsolation] (what a call may touch),
      [InboxProofs], [InboxReplay] (the projection as a fold), [InboxSweep],
      [InboxFeed] (the conversations' events, taken by the inbox worker),
      [InboxSamples].

    The modules meet at interfaces: the ticket services are proved against
    [TicketDeps] (customers, conversations, settings, holidays, workflow triggers)
    and [AssignmentEngine]; workflow actions call [WorkflowDeps]; the connector
    engine calls [ConnectorEnv]; the conversation and message services call
    [ConvDeps] and [MsgDeps] (customers, storage, widget sessions, the workflow
    engine), the crawler the pages of [Web], the settings services [SettingsDeps]
    (billing, IAM, mail) with the environment of the process ([ProcessEnv]) and the
    server's clock ([LocalTime]).  [ConvSql], [MsgSql] and [SettingsSql] hold what
    PostgreSQL decides: the order of a scan and of ties, the rounding of a column;
    [RegExp] and [JsonNumber] the parts of the language that are not modelled.
    [CustDeps] and [InboxDeps] are what customers and the inbox call (workflow
    triggers, the assignment engine, drafts, parsing of imports and of dates),
    [SqlScan] and [Collation] the order of a scan and of texts, [JsonDouble] how a
    double is printed.  Inside the settings the tables share an interface, and
    [SettingsService] states what seven services promise.  Every interface states
    only what the client relies on, and the witnesses instantiate it.

    ** What the theorems show

    - Tickets: no call made for one tenant touches another one's rows; the status
      machine is respected by every guarded operation along every run, terminal
      statuses are final until a reopening, and exactly which operations escape the
      machine; tags and watchers stay distinct; resolving on every branch; what
      is saved is found again; numbering is collision-free in sequence and
      collides when two creations race; bulk updates equal single ones.
    - SLA: [addBusinessMinutes] against a counting specification, the clock shifts
      deadlines by exactly the stopped time, the deadlines configuration gives,
      and what the breach sweep flags, counts, misses and loses.
    - Workers: what a failing job leaves, in which tenant it ran, and when it is
      dead-lettered.
    - Teams: which agent each strategy picks and the counters it leaves; the load
      balancer repairs a row; round robin repeats; the idle sync erases hours.
    - Workflows: every run settles; decisions on every branch; two approval steps
      never complete; retries; the approval sweep unblocks what waits; numeric
      conditions on missing fields hold.
    - Connectors: when the breaker trips and what it then refuses; the stored
      window bounds calls; the Redis limiter bounds none; the two retry mechanisms
      multiply.
    - Conversations: the services refine an abstract specification of views and
      commands; stored rows stay typed; calls are isolated by tenant; what the
      offline sweep reaches, refuses and leaves.
    - Crawler: the crawl ends and visits each page once, within its bounds.
    - Messages: inbound messages are ingested once; dispatch on every branch; the
      counters of the inbox are exact after any sequence of calls but the two that
      are named; templates, receipts, drafts and the cursor.
    - Settings: any sequence of calls keeps the tables well formed and other
      tenants' rows as they are; each service is a register per tenant; two first
      requests at once block it; flags are rolled out by exact buckets, a saved
      flag takes effect, and one user's answer is everybody's while it is cached;
      plan limits are enforced whatever fails; business time against a count of
      open milliseconds.
    - Customers: calls are isolated by tenant and keep profiles, metrics and segment
      members with their customers; what is saved is found again, normalised; an e-mail
      is taken once; a channel identity finds the same customer again, and which two
      identities collide; what a merge adds up and what it leaves at the source; the
      metrics job invents revenue; an export is read back by a reader of CSV; a run of a
      dynamic segment leaves exactly the matching customers in it; cursors skip
      customers.
    - Inbox: calls and jobs are isolated by tenant; a conversation taken over from the
      AI stays so until it is handed back; the projection is the fold of the events of
      each conversation, whatever the interleaving; a sweep wakes exactly what is due;
      what the views show of the conversations' own events.

    ** Bounds and fuel

    [addBusinessMinutes] runs with the fuel [maxIterations] of the code, the
    minutes of 366 days; the theorem says what happens when it is used up.
    [business_loop] runs the [daysSafety] rounds of the code, and its theorem says
    what is returned when they do not suffice.  [crawl_loop] takes any fuel;
    [crawl_terminates] shows that from every address some amount ends the loop and
    more changes nothing.  [next_open] looks at the
    30 days of the code.  [interpolate] has the length of the text as fuel and uses
    a character at each step.  Other recursions are structural.

    ** What is not modelled

    Controllers, DTO validation, modules and dependency injection; logging and
    metrics; the sockets of the realtime gateways; foreign keys and cascades, but those
    of customer segments; that a [uuid] column refuses other texts; the expiry of Redis
    keys; dashboard queries and the search of tickets; the timeline of a customer;
    ticket attachments; the request builder of the connectors, the bulkhead of
    [src/common/resilience], the administration of teams and of workflow templates; and
    the modules admin, ai-integration, analytics, audit queries, channels, hardening,
    iam, the rest of knowledge-base, notifications, public-help and widget.  Services
    of these appear as parameters where modelled code calls them; the rest of these
    modules is CRUD over their own tables or calls of outside services. *)

From Stdlib Require Export ZArith Lia.
From Stdlib Require Export Ascii.
From stdpp Require Export base gmap strings list sorting pretty.

(** ** Exceptions

    A thrown JavaScript value is an [Error] object: its class (what
    [instanceof] inspects) and its message.  [HttpException] carries the
    status code it is constructed with. *)
Inductive exn_class :=
  | JsError
  | JsTypeError
  | InvalidTicketTransitionError
  | NotFoundException
  | BadRequestException
  | ForbiddenException
  | HttpException (status : Z).

#[export] Instance exn_class_eq_dec : EqDecision exn_class.
Proof. solve_decision. Defined.

Record exn := Exn { exn_kind : exn_class; exn_message : string }.

#[export] Instance exn_eq_dec : EqDecision exn.
Proof. solve_decision. Defined.

(** A completed (synchronous or awaited) call: a value or a thrown error. *)
Inductive result (A : Type) : Type :=
  | Ok (a : A)
  | Throw (e : exn).
Arguments Ok {A} a.
Arguments Throw {A} e.

Definition result_map {A B} (f : A → B) (r : result A) : result B :=
  match r with Ok a => Ok (f a) | Throw e => Throw e end.

Definition is_ok {A} (r : result A) : bool :=
  match r with Ok _ => true | Throw _ => false end.

(** ** The effect monad

    [M S A] is imperative TypeScript over a mutable store [S]: it returns or
    throws, and the writes made before a throw stay in the store, as they do
    in JavaScript. *)
Definition M (S A : Type) : Type := S → result A * S.

#[export] Instance M_ret {S} : MRet (M S) := λ A a s, (Ok a, s).
#[export] Instance M_bind {S} : MBind (M S) := λ A B k m s,
  match m s with
  | (Ok a, s') => k a s'
  | (Throw e, s') => (Throw e, s')
  end.
#[export] Instance M_fmap {S} : FMap (M S) := λ A B f m s,
  match m s with
  | (Ok a, s') => (Ok (f a), s')
  | (Throw e, s') => (Throw e, s')
  end.

Section monad_operations.
Context {S : Type}.

Definition gets {A} (f : S → A) : M S A := λ s, (Ok (f s), s).
Definition modify (f : S → S) : M S unit := λ s, (Ok tt, f s).
Definition throw {A} (e : exn) : M S A := λ s, (Throw e, s).
Definition of_result {A} (r : result A) : M S A := λ s, (r, s).

(** [try { m } catch (err) { h(err) }] *)
Definition try_catch {A} (m : M S A) (h : exn → M S A) : M S A := λ s,
  match m s with
  | (Ok a, s') => (Ok a, s')
  | (Throw e, s') => h e s'
  end.

(** [if (b) { m }] *)
Definition when (b : bool) (m : M S unit) : M S unit :=
  if b then m else mret tt.

(** [for (const x of l) { f(x) }] *)
Fixpoint for_each {A} (l : list A) (f : A → M S unit) : M S unit :=
  match l with
  | [] => mret tt
  | x :: l' => f x ;; for_each l' f
  end.

(** [for (const x of l) { acc = f(acc, x) }], the shape of the loops that
    accumulate counters. *)
Fixpoint fold_each {A B} (l : list A) (acc : B) (f : B → A → M S B) : M S B :=
  match l with
  | [] => mret acc
  | x :: l' => acc' ← f acc x; fold_each l' acc' f
  end.

(** Runs a method of a local object: the object's new value is returned to
    the caller, a throw propagates. *)
Definition call {T A} (m : M T A) (t : T) : M S (T * A) := λ s,
  match m t with
  | (Ok a, t') => (Ok (t', a), s)
  | (Throw e, _) => (Throw e, s)
  end.

Definition exec {T} (m : M T unit) (t : T) : M S T := λ s,
  match m t with
  | (Ok _, t') => (Ok t', s)
  | (Throw e, _) => (Throw e, s)
  end.
End monad_operations.

(** The store after running [m], and its outcome. *)
Definition final {S A} (m : M S A) (s : S) : S := (m s).2.
Definition outcome {S A} (m : M S A) (s : S) : result A := (m s).1.

(** ** JavaScript truthiness: [a || b], [!!a], [a ?? b] *)
Class Truthy (A : Type) := truthy : A → bool.

#[export] Instance bool_truthy : Truthy bool := λ b, b.
#[export] Instance string_truthy : Truthy string := λ s, negb (String.eqb s "").
#[export] Instance Z_truthy : Truthy Z := λ z, negb (Z.eqb z 0).
#[export] Instance option_truthy {A} `{Truthy A} : Truthy (option A) := λ o,
  match o with Some a => truthy a | None => false end.

(** [a || b] where [a] may be [undefined] or falsy. *)
Definition js_or {A} `{Truthy A} (a : option A) (b : A) : A :=
  match a with Some x => if truthy x then x else b | None => b end.
(** [a || undefined] and [a || null]. *)
Definition js_or_undef {A} `{Truthy A} (a : option A) : option A :=
  match a with Some x => if truthy x then Some x else None | None => None end.
(** [a ?? b] *)
Definition nullish {A} (a : option A) (b : A) : A := default b a.

Lemma js_or_undef_idem {A} `{Truthy A} (o : option A) :
  js_or_undef (js_or_undef o) = js_or_undef o.
Proof. destruct o as [s|]; [|done]. cbn. destruct (truthy s) eqn:E; cbn; by rewrite ?E. Qed.

(** ** Object spread [{ ...props, ...patch }]

    A key of [patch] can be missing, present with the value [undefined], or
    present with a value.  Spreading a present [undefined] overwrites. *)
Inductive patch (A : Type) :=
  | Absent
  | Undef
  | Put (a : A).
Arguments Absent {A}.
Arguments Undef {A}.
Arguments Put {A} a.

Definition spread {A} (p : patch A) (old : option A) : option A :=
  match p with Absent => old | Undef => None | Put a => Some a end.

(** The key [k: v] of an object literal is always present, even if [v] is
    [undefined]. *)
Definition present {A} (v : option A) : patch A :=
  match v with Some a => Put a | None => Undef end.

(** ** Functional record update

    [Eta R] rebuilds a record from its projections; the setter of a
    projection is obtained by abstracting that projection in [eta]. *)
Class Eta (R : Type) := eta : R → R.
Class Setter {R T} (proj : R → T) := Set_field { modify_field : (T → T) → R → R }.

Ltac derive_setter :=
  match goal with
  | |- @Setter ?R ?T ?proj =>
      let e := constr:(_ : Eta R) in
      let e := eval hnf in e in
      let g := eval pattern proj in e in
      lazymatch g with
      | (fun _ => ?b) _ => fail "no setter"
      | ?h _ =>
          let r := eval cbv beta in
            (fun (f : T → T) => h (fun r : R => f (proj r))) in
          exact (Set_field _ _ proj r)
      end
  end.
#[export] Hint Extern 1 (Setter _) => derive_setter : typeclass_instances.

Declare Scope js_scope.
Delimit Scope js_scope with js.
Notation "r <| proj := v |>" := (modify_field (proj := proj) (λ _, v) r)
  (at level 1, left associativity) : js_scope.
Notation "r <| proj ::= f |>" := (modify_field (proj := proj) f r)
  (at level 1, left associativity) : js_scope.
Open Scope js_scope.

(** [this.f = v] *)
Notation "'assign' proj v" :=
  (modify (λ this, this <| proj := v |>))
  (at level 10, proj at level 9, v at level 9) : js_scope.

(** ** Reasoning about effects

    [keeps R m]: whatever [m] returns or throws, the store it leaves is
    related to the store it started from.  For a preorder [R] this composes
    through every construct of the monad, early exits included; it is how
    frame conditions and monotonicity are stated. *)
Definition keeps {S A} (R : S → S → Prop) (m : M S A) : Prop :=
  ∀ s, R s (final m s).

Create HintDb keeps.

Section keeps.
Context {S : Type} (R : S → S → Prop) `{!PreOrder R}.

Lemma keeps_ret {A} (a : A) : keeps R (mret a : M S A).
Proof. intros s. reflexivity. Qed.

Lemma keeps_gets {A} (f : S → A) : keeps R (gets f).
Proof. intros s. reflexivity. Qed.

Lemma keeps_throw {A} e : keeps R (throw e : M S A).
Proof. intros s. reflexivity. Qed.

Lemma keeps_of_result {A} (r : result A) : keeps R (of_result r).
Proof. intros s. reflexivity. Qed.

Lemma keeps_call {T A} (m : M T A) t : keeps R (call m t).
Proof. intros s. unfold final, call. by destruct (m t) as [[]]. Qed.

Lemma keeps_exec {T} (m : M T unit) t : keeps R (exec m t).
Proof. intros s. unfold final, exec. by destruct (m t) as [[]]. Qed.

Lemma keeps_modify f : (∀ s, R s (f s)) → keeps R (modify f).
Proof. intros Hf s. apply Hf. Qed.

Lemma keeps_bind {A B} (m : M S A) (k : A → M S B) :
  keeps R m → (∀ a, keeps R (k a)) → keeps R (m ≫= k).
Proof.
  intros Hm Hk s. unfold final, mbind, M_bind.
  specialize (Hm s). unfold final in Hm.
  destruct (m s) as [[a|e] s'] eqn:E; cbn in *; [|done].
  etransitivity; [exact Hm|]. apply Hk.
Qed.

Lemma keeps_fmap {A B} (f : A → B) (m : M S A) :
  keeps R m → keeps R (f <$> m).
Proof.
  intros Hm s. specialize (Hm s). unfold final, fmap, M_fmap in *.
  by destruct (m s) as [[a|e] s'].
Qed.

Lemma keeps_try_catch {A} (m : M S A) h :
  keeps R m → (∀ e, keeps R (h e)) → keeps R (try_catch m h).
Proof.
  intros Hm Hh s. specialize (Hm s). unfold final, try_catch in *.
  destruct (m s) as [[a|e] s']; cbn in *; [done|].
  etransitivity; [exact Hm|]. apply Hh.
Qed.

Lemma keeps_when b m : keeps R m → keeps R (when b m).
Proof. intros Hm. destruct b; [done|]. apply keeps_ret. Qed.

Lemma keeps_for_each {A} (l : list A) f :
  (∀ x, keeps R (f x)) → keeps R (for_each l f).
Proof.
  intros Hf. induction l as [|x l IH]; cbn [for_each]; [apply keeps_ret|].
  apply keeps_bind; auto.
Qed.

Lemma keeps_fold_each {A B} (l : list A) (acc : B) f :
  (∀ acc x, keeps R (f acc x)) → keeps R (fold_each l acc f).
Proof.
  intros Hf. revert acc.
  induction l as [|x l IH]; intros acc; cbn [fold_each]; [apply keeps_ret|].
  apply keeps_bind; auto.
Qed.
End keeps.

#[export] Hint Resolve keeps_ret keeps_gets keeps_throw keeps_of_result
  keeps_call keeps_exec keeps_bind keeps_fmap keeps_try_catch keeps_when
  keeps_for_each keeps_fold_each : keeps.

(** [returns m P]: whenever [m] returns, what it returns satisfies [P]. *)
Definition returns {S A} (m : M S A) (P : A → Prop) : Prop :=
  ∀ s a s', m s = (Ok a, s') → P a.

Lemma returns_bind {S A B} (m : M S A) (k : A → M S B) P :
  (∀ a, returns (k a) P) → returns (m ≫= k) P.
Proof.
  intros Hk s b s''. unfold mbind, M_bind.
  destruct (m s) as [[a|e] s']; [|done]. apply Hk.
Qed.

Lemma returns_catch {S A} (m : M S A) h P :
  returns m P → (∀ e, returns (h e) P) → returns (try_catch m h) P.
Proof.
  intros Hm Hh s b s''. specialize (Hm s). unfold try_catch.
  destruct (m s) as [[a|e] s']; [|apply Hh]. intros [= <- <-]. by eapply Hm.
Qed.

Lemma returns_throw {S A} e (P : A → Prop) : returns (throw e : M S A) P.
Proof. done. Qed.

Lemma returns_exec {S T} (R : T → T → Prop) (m : M T unit) t :
  keeps R m → returns (exec m t : M S T) (R t).
Proof.
  intros Hm s t' s'. specialize (Hm t). unfold exec, final in *.
  destruct (m t) as [[]]; [|done]. by intros [= <- _].
Qed.

Lemma keeps_bind_returns {S A B} (R : S → S → Prop) `{!PreOrder R} P
    (m : M S A) (k : A → M S B) :
  returns m P → keeps R m → (∀ a, P a → keeps R (k a)) → keeps R (m ≫= k).
Proof.
  intros HP Hm Hk s. specialize (Hm s). unfold final, mbind, M_bind in *.
  destruct (m s) as [[a|e] s'] eqn:E; cbn in *; [|done].
  etransitivity; [exact Hm|]. by eapply Hk, HP.
Qed.

Lemma keeps_mono {S A} (R R' : S → S → Prop) (m : M S A) :
  (∀ s s', R s s' → R' s s') → keeps R m → keeps R' m.
Proof. intros H Hm s. apply H, Hm. Qed.

(** Equality of a projection of the store is a preorder: the frame relation. *)
Definition same {S T} (f : S → T) : S → S → Prop := λ s s', f s' = f s.

#[export] Instance same_preorder {S T} (f : S → T) : PreOrder (same f).
Proof. split; unfold same; [done | by intros ??? -> ->]. Qed.

(** Walks through a program with the [keeps] hints, splitting the
    conditionals and the matches it meets. *)
Ltac keeps_step :=
  match goal with
  | |- keeps _ (match ?x with _ => _ end) => destruct x
  | |- keeps _ (if ?x then _ else _) => destruct x
  | |- keeps _ (_ ≫= _) => apply keeps_bind; [..|intros ?]
  | |- keeps _ (try_catch _ _) => apply keeps_try_catch; [..|intros ?]
  | |- keeps _ (for_each _ _) => apply keeps_for_each; [..|intros ?]
  | |- keeps _ (fold_each _ _ _) => apply keeps_fold_each; [..|intros ? ?]
  | |- keeps _ (when _ _) => apply keeps_when
  | |- keeps _ _ => solve [eauto with keeps typeclass_instances]
  end.
Ltac solve_keeps := repeat (keeps_step; try done; try apply _).

(** Running a sequence whose first step is known. *)
Lemma bind_ok {S A B} (m : M S A) (k : A → M S B) s a s' :
  m s = (Ok a, s') → (m ≫= k) s = k a s'.
Proof. intros H. unfold mbind, M_bind. by rewrite H. Qed.

Lemma bind_throw {S A B} (m : M S A) (k : A → M S B) s e s' :
  m s = (Throw e, s') → (m ≫= k) s = (Throw e, s').
Proof. intros H. unfold mbind, M_bind. by rewrite H. Qed.

(** The parts of a run that evaluation shows. *)
Lemma returned {S A} (m : M S A) s a : outcome m s = Ok a → m s = (Ok a, final m s).
Proof. unfold outcome, final. destruct (m s). cbn. by intros ->. Qed.

(** Sequencing is associative. *)
Lemma bind_assoc {S A B C} (m : M S A) (f : A → M S B) (g : B → M S C) s :
  ((m ≫= f) ≫= g) s = (m ≫= (λ a, f a ≫= g)) s.
Proof. unfold mbind, M_bind. by destruct (m s) as [[a|e] s']. Qed.

(** What swallows its errors always returns. *)
Lemma swallow_ok {S} (m : M S unit) s : outcome (try_catch m (λ _, mret tt)) s = Ok tt.
Proof. unfold outcome, try_catch. by destruct (m s) as [[[]|e] s']. Qed.

Lemma for_each_ok {S A} (l : list A) (f : A → M S unit) s :
  (∀ x s, outcome (f x) s = Ok tt) → outcome (for_each l f) s = Ok tt.
Proof.
  intros Hf. revert s. induction l as [|x l IH]; intros s; cbn [for_each]; [done|].
  specialize (Hf x s). specialize (IH (f x s).2).
  unfold outcome, mbind, M_bind in *. by destruct (f x s) as [[[]|e] s'].
Qed.

(** Reading the store. *)
Lemma gets_bind {S A B} (f : S → A) (k : A → M S B) s :
  (gets f ≫= k) s = k (f s) s.
Proof. done. Qed.

Lemma final_gets_bind {S A B} (f : S → A) (k : A → M S B) s :
  final (gets f ≫= k) s = final (k (f s)) s.
Proof. done. Qed.

(** The store a sequence leaves. *)
Lemma final_bind {S A B} (m : M S A) (k : A → M S B) s :
  final (m ≫= k) s = match m s with (Ok a, s') => final (k a) s' | (Throw _, s') => s' end.
Proof. unfold final, mbind, M_bind. by destruct (m s) as [[a|e] s']. Qed.

(** A method of a local object that returns. *)
Lemma exec_ok {S T} (p : M T unit) (t : T) (s : S) :
  outcome p t = Ok tt → exec p t s = (Ok (final p t), s).
Proof. unfold outcome, exec, final. destruct (p t) as [[]]; cbn; by intros [= ->]. Qed.

(** A sequence that returned ran every step. *)
Lemma bind_inv {S A B} (m : M S A) (k : A → M S B) s b s'' :
  (m ≫= k) s = (Ok b, s'') → ∃ a s', m s = (Ok a, s') ∧ k a s' = (Ok b, s'').
Proof.
  unfold mbind, M_bind. destruct (m s) as [[a|e] s']; [by eauto|done].
Qed.

(** Splits a hypothesis [p s = (Ok b, s')] along the steps of [p]. *)
Ltac run_inv H :=
  repeat match type of H with
  | (_ ≫= _) _ = (Ok _, _) =>
      let a := fresh "a" in let s := fresh "s" in let H1 := fresh "Hrun" in
      apply bind_inv in H as (a & s & H1 & H)
  end.

(** ** Lists *)
Section lists.
Context {A : Type}.

(** [Array.prototype.some] and [every]. *)
Definition some (p : A → bool) (l : list A) : bool := existsb p l.
Definition every (p : A → bool) (l : list A) : bool := forallb p l.
(** [Array.prototype.filter] with a boolean callback. *)
Definition js_filter (p : A → bool) (l : list A) : list A := List.filter p l.
(** [Array.prototype.find]. *)
Definition js_find (p : A → bool) (l : list A) : option A := List.find p l.

Lemma some_false p l : some p l = false ↔ ∀ x, x ∈ l → p x = false.
Proof.
  unfold some. rewrite <- not_true_iff_false, existsb_exists. split.
  - intros H x Hx. apply not_true_iff_false. intros Hp.
    apply H. exists x. by rewrite <- list_elem_of_In.
  - intros H (x & Hx & Hp). apply list_elem_of_In in Hx.
    by rewrite H in Hp.
Qed.

Lemma some_ext p q l : (∀ x, p x = q x) → some p l = some q l.
Proof. intros E. unfold some. induction l as [|x l IH]; [done|]. cbn. by rewrite E, IH. Qed.

Lemma js_filter_elem p l x : x ∈ js_filter p l ↔ x ∈ l ∧ p x = true.
Proof. unfold js_filter. by rewrite !list_elem_of_In, filter_In. Qed.

Lemma js_filter_sublist p l : js_filter p l `sublist_of` l.
Proof.
  induction l as [|x l IH]; cbn; [constructor|].
  destruct (p x); by constructor.
Qed.

Lemma js_filter_all p l : (∀ x, x ∈ l → p x = true) → js_filter p l = l.
Proof.
  induction l as [|x l IH]; intros H; cbn; [done|].
  rewrite (H x) by constructor. f_equal. apply IH.
  intros y Hy. apply H. by constructor.
Qed.

(** What [p] does not see does not matter to [find]. *)
Lemma js_find_fmap p (g : A → A) l :
  (∀ x, p (g x) = p x) → js_find p (g <$> l) = g <$> js_find p l.
Proof.
  intros Hp. induction l as [|x l IH]; [done|]. unfold js_find in *. cbn.
  rewrite Hp. by destruct (p x).
Qed.

Lemma js_find_app p l l' :
  js_find p (l ++ l') = match js_find p l with Some x => Some x | None => js_find p l' end.
Proof. induction l as [|x l IH]; [done|]. unfold js_find in *. cbn. by destruct (p x). Qed.

Lemma js_find_some p l : some p l = bool_decide (is_Some (js_find p l)).
Proof.
  induction l as [|x l IH]; [done|]. unfold js_find in *. cbn. destruct (p x); [done|exact IH].
Qed.

Lemma js_filter_ext p q l : (∀ x, x ∈ l → p x = q x) → js_filter p l = js_filter q l.
Proof.
  intros Hpq. unfold js_filter. apply filter_ext_in. intros x Hx.
  by apply Hpq, list_elem_of_In.
Qed.
End lists.

(** [Array.prototype.sort], which is stable, by insertion. *)
Fixpoint sort_insert {A} (cmp : A → A → Z) (x : A) (l : list A) : list A :=
  match l with
  | [] => [x]
  | y :: l' => if (cmp x y <=? 0)%Z then x :: l else y :: sort_insert cmp x l'
  end.

Definition js_sort {A} (cmp : A → A → Z) (l : list A) : list A :=
  foldr (sort_insert cmp) [] l.

(** A comparator is consistent if it orders totally and transitively. *)
Class Comparator {A} (cmp : A → A → Z) : Prop := {
  cmp_total a b : (cmp a b ≤ 0 ∨ cmp b a ≤ 0)%Z;
  cmp_trans a b c : (cmp a b ≤ 0 → cmp b c ≤ 0 → cmp a c ≤ 0)%Z;
}.

Section js_sort.
Context {A : Type} (cmp : A → A → Z).

Lemma sort_insert_perm x l : sort_insert cmp x l ≡ₚ x :: l.
Proof.
  induction l as [|y l IH]; cbn; [done|].
  destruct (_ <=? _)%Z; [done|]. rewrite IH. apply Permutation_swap.
Qed.

Lemma js_sort_perm l : js_sort cmp l ≡ₚ l.
Proof.
  induction l as [|x l IH]; cbn; [done|]. by rewrite sort_insert_perm, IH.
Qed.

Lemma js_sort_elem l x : x ∈ js_sort cmp l ↔ x ∈ l.
Proof. by rewrite js_sort_perm. Qed.

Lemma js_sort_sorted `{!Comparator cmp} l :
  StronglySorted (λ a b, cmp a b ≤ 0)%Z (js_sort cmp l).
Proof.
  induction l as [|x l IH]; cbn; [constructor|].
  change (foldr (sort_insert cmp) [] l) with (js_sort cmp l).
  generalize dependent (js_sort cmp l). intros sl IH.
  induction IH as [|y l' Hl' IH' Hy]; cbn; [by repeat constructor|].
  destruct (Z.leb_spec (cmp x y) 0) as [Hle|Hgt].
  - constructor; [by constructor|]. constructor; [done|].
    eapply Forall_impl; [exact Hy|]. intros z Hz. exact (cmp_trans _ _ _ Hle Hz).
  - constructor; [done|]. rewrite Forall_forall. intros z.
    rewrite sort_insert_perm, elem_of_cons. intros [->|Hz].
    + destruct (cmp_total x y); [lia|done].
    + by eapply Forall_forall in Hy.
Qed.

(** The head of a sorted list is a least element. *)
Lemma js_sort_head `{!Comparator cmp} l c rest :
  js_sort cmp l = c :: rest → c ∈ l ∧ ∀ x, x ∈ l → (cmp c x ≤ 0)%Z.
Proof.
  intros E. pose proof (js_sort_sorted l) as Hs. rewrite E in Hs.
  apply StronglySorted_inv in Hs as [_ Hall]. rewrite Forall_forall in Hall.
  split.
  - apply js_sort_elem. rewrite E. by left.
  - intros x Hx. apply js_sort_elem in Hx. rewrite E in Hx.
    apply elem_of_cons in Hx as [->|Hx]; [|by apply Hall].
    destruct (cmp_total c c); lia.
Qed.

Lemma js_sort_nil l : js_sort cmp l = [] → l = [].
Proof. intros E. pose proof (js_sort_perm l) as Hp. rewrite E in Hp. by apply Permutation_nil_l in Hp. Qed.

(** Sorting commutes with a map that does not change the order. *)
Lemma js_sort_fmap (f : A → A) l :
  (∀ a b, cmp (f a) (f b) = cmp a b) → js_sort cmp (f <$> l) = f <$> js_sort cmp l.
Proof.
  intros Hf. induction l as [|x l IH]; [done|].
  unfold js_sort in *. cbn. rewrite IH. clear IH.
  induction (foldr (sort_insert cmp) [] l) as [|y l' IH]; [done|].
  cbn. rewrite Hf. destruct (_ <=? _)%Z; [done|]. cbn. by rewrite IH.
Qed.
End js_sort.

(** Adding a key that is not there keeps keys distinct; filtering does too. *)
Lemma nodup_fmap_snoc {A B} (f : A → B) l x :
  NoDup (f <$> l) → f x ∉ f <$> l → NoDup (f <$> (l ++ [x])).
Proof.
  intros Hl Hx. rewrite fmap_app. apply NoDup_app. split; [done|].
  split; [|apply NoDup_singleton].
  intros y Hy. cbn. rewrite list_elem_of_singleton. by intros ->.
Qed.

Lemma nodup_fmap_filter {A B} (f : A → B) p l :
  NoDup (f <$> l) → NoDup (f <$> js_filter p l).
Proof.
  intros H. eapply sublist_NoDup; [exact H|].
  apply fmap_sublist, js_filter_sublist.
Qed.

(** ** String enums

    A TypeScript string enum: its members in declaration order and the string
    each stands for.  Value objects guard their constructor with
    [Object.values(E).includes(value)]; [parse_enum] is that guard. *)
Class JsEnum (A : Type) := {
  enum_values : list A;
  enum_str : A → string;
  enum_values_all : ∀ a, a ∈ enum_values;
  enum_str_inj :: Inj (=) (=) enum_str;
}.

Definition parse_enum {A} `{JsEnum A} (raw : string) : option A :=
  js_find (λ a, String.eqb (enum_str a) raw) enum_values.

Lemma parse_enum_Some {A} `{JsEnum A} raw (a : A) :
  parse_enum raw = Some a ↔ raw = enum_str a.
Proof.
  unfold parse_enum, js_find. split.
  - intros Hf. apply find_some in Hf as [_ Heq].
    by apply String.eqb_eq in Heq.
  - intros ->. destruct (find _ _) as [b|] eqn:E.
    + apply find_some in E as [_ Heq]. apply String.eqb_eq in Heq.
      by apply (inj enum_str) in Heq as ->.
    + exfalso. eapply find_none in E;
        [|apply list_elem_of_In, (enum_values_all a)].
      cbn in E. by rewrite String.eqb_refl in E.
Qed.

Lemma parse_enum_str {A} `{JsEnum A} (a : A) : parse_enum (enum_str a) = Some a.
Proof. by apply parse_enum_Some. Qed.

Ltac solve_enum :=
  first [ solve [intros []; cbn; set_solver]
        | solve [intros [] []; cbn; congruence] ].

(** ** Strings *)

(** White space removed by [String.prototype.trim], among the Latin-1 code
    units: tab to carriage return, space, and the no-break space. *)
Definition js_is_space (c : ascii) : bool :=
  let n := Ascii.N_of_ascii c in
  ((9 <=? n) && (n <=? 13) || (n =? 32) || (n =? 160))%N.

Fixpoint trim_start (s : string) : string :=
  match s with
  | EmptyString => EmptyString
  | String c s' => if js_is_space c then trim_start s' else s
  end.

Fixpoint string_rev_app (s acc : string) : string :=
  match s with
  | EmptyString => acc
  | String c s' => string_rev_app s' (String c acc)
  end.
Definition js_rev (s : string) : string := string_rev_app s "".

Definition js_trim (s : string) : string :=
  js_rev (trim_start (js_rev (trim_start s))).

Fixpoint map_ascii (f : ascii → ascii) (s : string) : string :=
  match s with
  | EmptyString => EmptyString
  | String c s' => String (f c) (map_ascii f s')
  end.

(** [toUpperCase] and [toLowerCase] on ASCII letters. *)
Definition ascii_upper (c : ascii) : ascii :=
  let n := Ascii.N_of_ascii c in
  if ((97 <=? n) && (n <=? 122))%N then Ascii.ascii_of_N (n - 32) else c.
Definition ascii_lower (c : ascii) : ascii :=
  let n := Ascii.N_of_ascii c in
  if ((65 <=? n) && (n <=? 90))%N then Ascii.ascii_of_N (n + 32) else c.
Definition js_upper : string → string := map_ascii ascii_upper.
Definition js_lower : string → string := map_ascii ascii_lower.

Definition js_length (s : string) : Z := Z.of_nat (String.length s).

Fixpoint string_repeat (n : nat) (c : ascii) : string :=
  match n with O => "" | S n' => String c (string_repeat n' c) end.

(** [s.padStart(n, c)] *)
Definition padStart (n : nat) (c : ascii) (s : string) : string :=
  string_repeat (n - String.length s) c +:+ s.

(** [arr.join(',')] *)
Fixpoint js_join (sep : string) (l : list string) : string :=
  match l with
  | [] => ""
  | [s] => s
  | s :: l' => s +:+ sep +:+ js_join sep l'
  end.

Lemma string_app_nil_r s : s +:+ "" = s.
Proof. induction s as [|c s IH]; [done|]. by apply (f_equal (String c)). Qed.

Lemma string_app_assoc s1 s2 s3 : s1 +:+ (s2 +:+ s3) = (s1 +:+ s2) +:+ s3.
Proof. induction s1 as [|c s1 IH]; [done|]. by apply (f_equal (String c)). Qed.

Lemma string_length_app s1 s2 :
  String.length (s1 +:+ s2) = String.length s1 + String.length s2.
Proof. induction s1 as [|c s1 IH]; [done|]. by apply (f_equal S). Qed.

Lemma string_length_repeat n c : String.length (string_repeat n c) = n.
Proof. induction n as [|n IH]; [done|]. by apply (f_equal S). Qed.

Lemma padStart_length n c s :
  String.length (padStart n c s) = max n (String.length s).
Proof. unfold padStart. rewrite string_length_app, string_length_repeat. lia. Qed.

(** Trimming and changing case, through the list of characters. *)
Abbreviation chars := String.list_ascii_of_string.

(** [\w] *)
Definition is_word (c : ascii) : bool :=
  let n := Ascii.N_of_ascii c in
  ((48 <=? n) && (n <=? 57) || (65 <=? n) && (n <=? 90)
   || (97 <=? n) && (n <=? 122) || (n =? 95))%N.

(** [l.startsWith(p)] *)
Fixpoint starts (p l : list ascii) : bool :=
  match p, l with
  | [], _ => true
  | x :: p', y :: l' => bool_decide (x = y) && starts p' l'
  | _ :: _, [] => false
  end.

Fixpoint drop_space (l : list ascii) : list ascii :=
  match l with
  | [] => []
  | c :: l' => if js_is_space c then drop_space l' else l
  end.

Lemma chars_inj s s' : chars s = chars s' → s = s'.
Proof.
  intros H. rewrite <- (String.string_of_list_ascii_of_string s), H.
  apply String.string_of_list_ascii_of_string.
Qed.

Lemma chars_rev s : chars (js_rev s) = rev (chars s).
Proof.
  unfold js_rev. enough (∀ acc, chars (string_rev_app s acc) = rev (chars s) ++ chars acc)
    as -> by apply app_nil_r.
  induction s as [|c s IH]; intros acc; cbn; [done|].
  rewrite IH. cbn. by rewrite <- app_assoc.
Qed.

Lemma chars_trim_start s : chars (trim_start s) = drop_space (chars s).
Proof. induction s as [|c s IH]; cbn; [done|]. by destruct (js_is_space c). Qed.

Lemma chars_map f s : chars (map_ascii f s) = f <$> chars s.
Proof. induction s as [|c s IH]; cbn; [done|]. by f_equal. Qed.

Lemma drop_space_idem l : drop_space (drop_space l) = drop_space l.
Proof.
  induction l as [|c l IH]; cbn; [done|].
  destruct (js_is_space c) eqn:E; [done|]. cbn. by rewrite E.
Qed.

Lemma drop_space_suffix l : ∃ p, l = p ++ drop_space l.
Proof.
  induction l as [|c l [p IH]]; cbn; [by exists []|].
  destruct (js_is_space c); [|by exists []]. exists (c :: p). cbn. by f_equal.
Qed.

Lemma drop_space_prefix l l' :
  drop_space (l ++ l') = l ++ l' → drop_space l = l.
Proof.
  destruct l as [|c l]; [done|]. cbn. destruct (js_is_space c) eqn:E; [|done].
  intros H. exfalso. destruct (drop_space_suffix (l ++ l')) as [p Hp].
  rewrite H in Hp. apply (f_equal length) in Hp. rewrite !length_app in Hp. cbn in Hp. rewrite length_app in Hp. lia.
Qed.

Lemma js_trim_idem s : js_trim (js_trim s) = js_trim s.
Proof.
  apply chars_inj. unfold js_trim.
  repeat first [rewrite chars_rev | rewrite chars_trim_start].
  set (a := drop_space (chars s)). set (b := drop_space (rev a)).
  assert (drop_space (rev b) = rev b) as ->.
  { destruct (drop_space_suffix (rev a)) as [p Hp]. fold b in Hp.
    apply (drop_space_prefix _ (rev p)). rewrite <- rev_app_distr, <- Hp, rev_involutive.
    apply drop_space_idem. }
  rewrite rev_involutive. unfold b. by rewrite drop_space_idem.
Qed.

Lemma drop_space_map f l :
  (∀ c, js_is_space (f c) = js_is_space c) →
  drop_space (f <$> l) = f <$> drop_space l.
Proof.
  intros Hf. induction l as [|c l IH]; cbn; [done|].
  rewrite Hf. by destruct (js_is_space c).
Qed.

Lemma js_trim_map f s :
  (∀ c, js_is_space (f c) = js_is_space c) →
  js_trim (map_ascii f s) = map_ascii f (js_trim s).
Proof.
  intros Hf. apply chars_inj. unfold js_trim.
  repeat first [rewrite chars_map | rewrite chars_rev | rewrite chars_trim_start].
  assert (∀ l, rev (f <$> l) = f <$> rev l) as Hrev by (intros l; symmetry; apply map_rev).
  by rewrite drop_space_map, Hrev, drop_space_map, Hrev.
Qed.

Lemma ascii_upper_space c : js_is_space (ascii_upper c) = js_is_space c.
Proof. by destruct c as [[] [] [] [] [] [] [] []]. Qed.

Lemma ascii_upper_idem c : ascii_upper (ascii_upper c) = ascii_upper c.
Proof. by destruct c as [[] [] [] [] [] [] [] []]. Qed.

Lemma js_upper_trim_idem s :
  js_upper (js_trim (js_upper (js_trim s))) = js_upper (js_trim s).
Proof.
  unfold js_upper. rewrite js_trim_map, js_trim_idem by apply ascii_upper_space.
  induction (js_trim s) as [|c s' IH]; cbn; [done|].
  by rewrite ascii_upper_idem, IH.
Qed.

Lemma ascii_lower_space c : js_is_space (ascii_lower c) = js_is_space c.
Proof. by destruct c as [[] [] [] [] [] [] [] []]. Qed.

Lemma ascii_lower_idem c : ascii_lower (ascii_lower c) = ascii_lower c.
Proof. by destruct c as [[] [] [] [] [] [] [] []]. Qed.

Lemma js_lower_trim_idem s :
  js_lower (js_trim (js_lower (js_trim s))) = js_lower (js_trim s).
Proof.
  unfold js_lower. rewrite js_trim_map, js_trim_idem by apply ascii_lower_space.
  induction (js_trim s) as [|c s' IH]; cbn; [done|].
  by rewrite ascii_lower_idem, IH.
Qed.

(** Executes a program symbolically. *)
Ltac run_unfold :=
  cbv [mbind M_bind mret M_ret gets modify throw of_result try_catch when
       final outcome modify_field] in *.
Ltac run := run_unfold; cbn in *.
