(* ===== verification/Platform.v ===== *)
(** * The platform the modules run on

    [packages/shared-kernel] (tenant context, tenant validation and
    resolution), [packages/shared-queues] (queue names, retry policies, the
    queue service and the base worker), the audit log, and the ambient
    services of Node the code relies on: the clock, [randomUUID] and the
    BullMQ client.  The last three are parameters, the class [Env].

    A module's services run in the monad [M (World Db)], where [Db] is the
    database that module sees. *)

From S2P Require Import Prelude.
Open Scope Z_scope.

(** ** JSON values, as they are stored in [jsonb] columns and job payloads *)
Inductive json :=
  | JNull
  | JBool (b : bool)
  | JNum (z : Z)
  | JStr (s : string)
  | JArr (l : list json)
  | JObj (fields : list (string * json)).

(** A key whose value is [undefined] is dropped by serialisation. *)
Definition opt_field (k : string) (v : option string) : list (string * json) :=
  match v with Some s => [(k, JStr s)] | None => [] end.

(** [obj[k]] on a serialised object. *)
Definition field (k : string) (o : list (string * json)) : option json :=
  snd <$> js_find (λ kv, String.eqb kv.1 k) o.
Definition str_field (k : string) (o : list (string * json)) : option string :=
  match field k o with Some (JStr s) => Some s | _ => None end.

(** [[...((v as string[]) || []), x]]: a JSON value in a spread. *)
Definition spread_array (v : option json) : result (list json) :=
  match v with
  | None | Some JNull | Some (JBool false) | Some (JNum 0) => Ok []
  | Some (JArr l) => Ok l
  | Some (JStr s) => Ok ((λ c, JStr (String c "")) <$> String.list_ascii_of_string s)
  | Some _ => Throw (Exn JsTypeError "Spread syntax requires ...iterable[Symbol.iterator] to be a function")
  end.

(** ** Queues *)
Inductive QueueName :=
  | CONVERSATION | MESSAGE | TICKET | KNOWLEDGE | CONNECTOR | WORKFLOW
  | ANALYTICS | NOTIFICATION | CUSTOMER | TEAM | CHANNEL | SETTINGS | INBOX
  | ADMIN | WIDGET | AI | DEAD_LETTER.

#[export] Instance QueueName_eq_dec : EqDecision QueueName.
Proof. solve_decision. Defined.

#[export, program] Instance QUEUES : JsEnum QueueName := {|
  enum_values := [CONVERSATION; MESSAGE; TICKET; KNOWLEDGE; CONNECTOR;
    WORKFLOW; ANALYTICS; NOTIFICATION; CUSTOMER; TEAM; CHANNEL; SETTINGS;
    INBOX; ADMIN; WIDGET; AI; DEAD_LETTER];
  enum_str q := match q with
    | CONVERSATION => "conversation-queue" | MESSAGE => "message-queue"
    | TICKET => "ticket-queue" | KNOWLEDGE => "knowledge-queue"
    | CONNECTOR => "connector-queue" | WORKFLOW => "workflow-queue"
    | ANALYTICS => "analytics-queue" | NOTIFICATION => "notification-queue"
    | CUSTOMER => "customer-queue" | TEAM => "team-queue"
    | CHANNEL => "channel-queue" | SETTINGS => "settings-queue"
    | INBOX => "inbox-queue" | ADMIN => "admin-queue"
    | WIDGET => "widget-queue" | AI => "ai-queue"
    | DEAD_LETTER => "dead-letter-queue" end |}.
Solve All Obligations with solve_enum.

(** [JobsOptions]: the fields the code sets. *)
Record JobsOptions := {
  attempts : option Z;
  backoffDelay : option Z;
  delay : option Z;
  removeOnComplete : bool;
  removeOnFail : bool;
}.
#[export] Instance JobsOptions_Eta : Eta JobsOptions := λ o,
  Build_JobsOptions (attempts o) (backoffDelay o) (delay o)
    (removeOnComplete o) (removeOnFail o).

Module RETRY_POLICIES.
Definition DEFAULT : Z * option Z := (3, Some 2000).
Definition CRITICAL : Z * option Z := (5, Some 5000).
Definition NONE : Z * option Z := (1, None).
End RETRY_POLICIES.

Definition with_policy (p : Z * option Z) (complete failed : bool) : JobsOptions :=
  {| attempts := Some p.1; backoffDelay := p.2; delay := None;
     removeOnComplete := complete; removeOnFail := failed |}.

Definition DEFAULT_JOB_OPTIONS : JobsOptions :=
  with_policy RETRY_POLICIES.DEFAULT true false.
Definition DEAD_LETTER_JOB_OPTIONS : JobsOptions :=
  with_policy RETRY_POLICIES.NONE false false.

(** A job as it sits in a queue. *)
Record Job := {
  job_queue : QueueName;
  job_name : string;
  job_data : list (string * json);
  job_opts : JobsOptions;
  attemptsMade : Z;
}.
#[export] Instance Job_Eta : Eta Job := λ j,
  Build_Job (job_queue j) (job_name j) (job_data j) (job_opts j)
    (attemptsMade j).

(** ** The ambient environment *)
Class Env := {
  (** What the [n]-th [new Date()] reads, in milliseconds. *)
  env_clock : nat → Z;
  (** The [n]-th value of [randomUUID()]. *)
  env_uuid : nat → string;
  (** What the BullMQ client throws when this job is added, if it throws. *)
  env_queue_add : Job → option exn;
}.

Record AuditEntry := {
  audit_tenantId : string;
  audit_userId : option string;
  audit_action : string;
  audit_details : string;
}.

Record World (Db : Type) := mkWorld {
  db : Db;
  ticks : nat;
  uuids : nat;
  jobs : list Job;
  audits : list AuditEntry;
  realtime : list (string * string);
  tenantContext : option string;
}.
Arguments mkWorld {Db}.
Arguments db {Db}. Arguments ticks {Db}. Arguments uuids {Db}.
Arguments jobs {Db}. Arguments audits {Db}. Arguments realtime {Db}.
Arguments tenantContext {Db}.
#[export] Instance World_Eta {Db} : Eta (World Db) := λ w,
  mkWorld (db w) (ticks w) (uuids w) (jobs w) (audits w) (realtime w)
    (tenantContext w).

(** An environment for concrete runs: the clock ticks every second and the
    queue accepts every job. *)
Definition ticking_env : Env :=
  {| env_clock := λ n, 1767000000000 + 1000 * Z.of_nat n;
     env_uuid := λ n, "uuid-" +:+ pretty n;
     env_queue_add := λ _, None |}.

Definition fresh_world {Db} (d : Db) : World Db :=
  {| db := d; ticks := 0; uuids := 0; jobs := []; audits := []; realtime := [];
     tenantContext := None |}.

Section platform.
Context `{Env} {Db : Type}.
Implicit Types (w : World Db).

(** [new Date()] *)
Definition new_Date : M (World Db) Z := λ w,
  (Ok (env_clock (ticks w)), w <| ticks ::= S |>).

(** [randomUUID()] *)
Definition randomUUID : M (World Db) string := λ w,
  (Ok (env_uuid (uuids w)), w <| uuids ::= S |>).

(** [TenantContext.getTenantId], [getRequiredTenantId] and [run]. *)
Definition getTenantId : M (World Db) (option string) := gets tenantContext.

Definition getRequiredTenantId : M (World Db) string :=
  tenantId ← getTenantId;
  match tenantId with
  | Some t => if truthy t then mret t
              else throw (Exn JsError "Tenant context is missing or not set")
  | None => throw (Exn JsError "Tenant context is missing or not set")
  end.

Definition TenantContext_run {A} (tenantId : string) (callback : M (World Db) A)
    : M (World Db) A := λ w,
  let '(r, w') := callback (w <| tenantContext := Some tenantId |>) in
  (r, w' <| tenantContext := tenantContext w |>).

(** [QueueService.addJob]: the payload gets the ambient tenant, the options
    are the defaults overridden by [opts]. *)
Definition addJob (queueName : QueueName) (jobName : string)
    (data : list (string * json)) (opts : JobsOptions → JobsOptions)
    : M (World Db) unit :=
  tenantId ← getTenantId;
  let payload := data ++
    [("_tenantContext", JObj (opt_field "tenantId" tenantId))] in
  let job := {| job_queue := queueName; job_name := jobName;
                job_data := payload; job_opts := opts DEFAULT_JOB_OPTIONS;
                attemptsMade := 0 |} in
  match env_queue_add job with
  | Some e => throw e
  | None => modify (λ w, w <| jobs ::= λ js, js ++ [job] |>)
  end.

(** [AuditService.log] *)
Definition audit_log (tenantId : string) (userId : option string)
    (action details : string) : M (World Db) unit :=
  modify (λ w, w <| audits ::= λ l, l ++
    [{| audit_tenantId := tenantId; audit_userId := userId;
        audit_action := action; audit_details := details |}] |>).

(** A broadcast to the sockets of a tenant. *)
Definition broadcast (tenantId payload : string) : M (World Db) unit :=
  modify (λ w, w <| realtime ::= λ l, l ++ [(tenantId, payload)] |>).

(** *** The base worker *)

(** [job.data?._tenantContext?.tenantId] *)
Definition job_tenant (job : Job) : option string :=
  match field "_tenantContext" (job_data job) with
  | Some (JObj c) => str_field "tenantId" c
  | _ => None
  end.

(** The dead-letter job for [job]: the failure metadata and the original
    payload. *)
Definition dead_letter_job (sourceQueue : QueueName) (job : Job) (error : exn)
    (failedAt : Z) (tenantId : option string) : Job :=
  {| job_queue := DEAD_LETTER;
     job_name := "dead:" +:+ enum_str sourceQueue +:+ ":" +:+ job_name job;
     job_data :=
       [("sourceQueue", JStr (enum_str sourceQueue));
        ("jobName", JStr (job_name job));
        ("attemptsMade", JNum (attemptsMade job));
        ("failedReason", JStr (exn_message error));
        ("failedAt", JNum failedAt)] ++ opt_field "tenantId" tenantId ++
       [("data", JObj (job_data job))];
     job_opts := DEAD_LETTER_JOB_OPTIONS;
     attemptsMade := 0 |}.

(** [QueueService.moveToDeadLetter] *)
Definition moveToDeadLetter (sourceQueue : QueueName) (job : Job) (error : exn)
    : M (World Db) unit :=
  ambient ← getTenantId;
  failedAt ← new_Date;
  let tenantId := match job_tenant job with
                  | Some t => Some t
                  | None => ambient
                  end in
  let dead := dead_letter_job sourceQueue job error failedAt tenantId in
  match env_queue_add dead with
  | Some e => throw e
  | None => modify (λ w, w <| jobs ::= λ js, js ++ [dead] |>)
  end.

(** [BaseWorker.routeToDeadLetter] *)
Definition routeToDeadLetter (source : option QueueName) (job : Job) (error : exn)
    : M (World Db) unit :=
  match source with
  | Some q => try_catch (moveToDeadLetter q job error) (λ _, mret tt)
  | None => mret tt
  end.

(** [BaseWorker.handleFailure] *)
Definition handleFailure (source : option QueueName) (job : Job) (error : exn)
    : M (World Db) unit :=
  let maxAttempts := nullish (attempts (job_opts job)) 1 in
  if attemptsMade job <? maxAttempts then mret tt
  else routeToDeadLetter source job error.

(** [BaseWorker.process] *)
Definition process {A} (source : option QueueName)
    (handleJob : Job → M (World Db) A) (job : Job) : M (World Db) A :=
  let run := try_catch (handleJob job)
               (λ err, handleFailure source job err ;; throw err) in
  match job_tenant job with
  | Some t => if truthy t then TenantContext_run t run else run
  | None => run
  end.
End platform.

(** *** Tenant validation and resolution *)

(** [TenantValidationService.validateTenant]: the UUID pattern, 8-4-4-4-12
    hexadecimal digits, case-insensitive. *)
Definition is_hex (c : ascii) : bool :=
  let n := Ascii.N_of_ascii c in
  ((48 <=? n) && (n <=? 57) || (97 <=? n) && (n <=? 102)
   || (65 <=? n) && (n <=? 70))%N.

Fixpoint match_groups (groups : list nat) (s : string) {struct groups} : bool :=
  match groups with
  | [] => String.eqb s ""
  | n :: rest =>
      (fix digits (n : nat) (s : string) : bool :=
         match n, s with
         | O, s => match rest with
                   | [] => String.eqb s ""
                   | _ => match s with
                          | String "-" s' => match_groups rest s'
                          | _ => false
                          end
                   end
         | S n', String c s' => is_hex c && digits n' s'
         | S _, EmptyString => false
         end) n s
  end.

Definition validateTenant (tenantId : string) : bool :=
  match_groups [8; 4; 4; 4; 12]%nat tenantId.

(** [TenantResolver.resolve] on the parts of the request it reads. *)
Record HttpRequest := {
  header_tenant_id : option string;
  header_tenant_slug : option string;
  user_tenantId : option string;
  query_tenantId : option string;
  query_tenant_id : option string;
}.

Definition resolve_tenant (request : option HttpRequest) : option string :=
  match request with
  | None => None
  | Some r =>
    match js_or_undef (header_tenant_id r), js_or_undef (header_tenant_slug r) with
    | Some t, _ | None, Some t => Some t
    | None, None =>
      match js_or_undef (user_tenantId r) with
      | Some t => Some t
      | None =>
        match js_or_undef (query_tenantId r) with
        | Some t => Some t
        | None => js_or_undef (query_tenant_id r)
        end
      end
    end
  end.

(** ** The platform keeps the database *)
Section frames.
Context `{Env} {Db : Type}.

Lemma new_Date_db : keeps (same (db (Db := Db))) new_Date.
Proof. done. Qed.
Lemma randomUUID_db : keeps (same (db (Db := Db))) randomUUID.
Proof. done. Qed.
Lemma addJob_db q n d o : keeps (same (db (Db := Db))) (addJob q n d o).
Proof.
  unfold addJob, getTenantId. solve_keeps.
Qed.
Lemma audit_log_db t u a d : keeps (same (db (Db := Db))) (audit_log t u a d).
Proof. done. Qed.
Lemma broadcast_db t p : keeps (same (db (Db := Db))) (broadcast t p).
Proof. done. Qed.
End frames.
#[export] Hint Resolve new_Date_db randomUUID_db addJob_db audit_log_db
  broadcast_db : keeps.

(** Any relation on databases lifts to worlds; the platform operations keep
    every such lifted preorder. *)
Definition db_rel {Db} (R : Db → Db → Prop) : World Db → World Db → Prop :=
  λ w w', R (db w) (db w').

#[export] Instance db_rel_preorder {Db} (R : Db → Db → Prop) `{!PreOrder R} :
  PreOrder (db_rel R).
Proof.
  split; [intros w; unfold db_rel; reflexivity|].
  intros a b c H1 H2. unfold db_rel in *. by etransitivity.
Qed.

Lemma keeps_db_rel {Db A} (R : Db → Db → Prop) `{!PreOrder R}
    (m : M (World Db) A) : keeps (same db) m → keeps (db_rel R) m.
Proof. intros Hm w. unfold db_rel. rewrite (Hm w). reflexivity. Qed.

(** ** The worker and the dead-letter queue *)
Module Worker.
Section worker.
Context `{Env} {Db A : Type}.
Implicit Types (w : World Db) (job : Job) (h : Job → M (World Db) A).

(** The queue as the dead-letter routing leaves it. *)
Definition dead_lettered (q : QueueName) (job : Job) (e : exn) w : list Job :=
  let maxAttempts := nullish (attempts (job_opts job)) 1 in
  if attemptsMade job <? maxAttempts then jobs w
  else
    let dead := dead_letter_job q job e (env_clock (ticks w))
      (match job_tenant job with Some t => Some t | None => tenantContext w end) in
    match env_queue_add dead with
    | Some _ => jobs w
    | None => jobs w ++ [dead]
    end.

(** Dead-letter routing never throws, whatever the queue client does. *)
Lemma handleFailure_total q job e w :
  ∃ w', handleFailure (Some q) job e w = (Ok tt, w')
    ∧ jobs w' = dead_lettered q job e w ∧ db w' = db w
    ∧ tenantContext w' = tenantContext w.
Proof.
  unfold handleFailure, dead_lettered.
  destruct (_ <? _); [by exists w|].
  unfold routeToDeadLetter, moveToDeadLetter, getTenantId, new_Date. run.
  destruct (env_queue_add _); eexists; by repeat split.
Qed.

(** C33: A worker that takes a job of a tenant runs the handler inside that
    tenant's context; if the handler throws, the same error is rethrown, the
    caller's tenant context is restored, the handler's database writes stay,
    and the job is put on the dead-letter queue exactly when its attempts
    are used up (and the queue accepts it). *)
Theorem process_failed_job (q : QueueName) h job t e w w1 :
  job_tenant job = Some t →
  t ≠ "" →
  h job (w <| tenantContext := Some t |>) = (Throw e, w1) →
  ∃ w', process (Some q) h job w = (Throw e, w')
    ∧ tenantContext w' = tenantContext w
    ∧ db w' = db w1
    ∧ jobs w' = dead_lettered q job e w1.
Proof.
  intros Ht Hne Hh. unfold process. rewrite Ht.
  replace (truthy t) with true
    by (symmetry; apply negb_true_iff, String.eqb_neq; done).
  unfold TenantContext_run, try_catch. rewrite Hh.
  destruct (handleFailure_total q job e w1) as (w2 & E & Hj & Hdb & _).
  rewrite (bind_ok _ _ _ _ _ E). run. by eexists.
Qed.
End worker.
End Worker.
