(* ===== verification/TicketValues.v ===== *)
(** * Ticket value objects

    [src/modules/tickets/domain/value-objects.ts].  A value object around an
    enum is represented by the enum itself (its constructor rejects every
    other string, see [create]); [TicketNumber] and [TicketCategory] by the
    cleaned string they hold. *)

From S2P Require Import Prelude.
Open Scope Z_scope.

Module TicketStatusEnum.
Inductive TicketStatusEnum :=
  | OPEN | ASSIGNED | IN_PROGRESS | WAITING_CUSTOMER | WAITING_INTERNAL
  | APPROVAL_PENDING | RESOLVED | CLOSED | REOPENED | CANCELLED.

#[export] Instance eq_dec : EqDecision TicketStatusEnum.
Proof. solve_decision. Defined.

#[export, program] Instance enum : JsEnum TicketStatusEnum := {|
  enum_values := [OPEN; ASSIGNED; IN_PROGRESS; WAITING_CUSTOMER;
    WAITING_INTERNAL; APPROVAL_PENDING; RESOLVED; CLOSED; REOPENED; CANCELLED];
  enum_str s := match s with
    | OPEN => "OPEN" | ASSIGNED => "ASSIGNED" | IN_PROGRESS => "IN_PROGRESS"
    | WAITING_CUSTOMER => "WAITING_CUSTOMER"
    | WAITING_INTERNAL => "WAITING_INTERNAL"
    | APPROVAL_PENDING => "APPROVAL_PENDING" | RESOLVED => "RESOLVED"
    | CLOSED => "CLOSED" | REOPENED => "REOPENED"
    | CANCELLED => "CANCELLED" end |}.
Solve All Obligations with solve_enum.
End TicketStatusEnum.
Export (hints) TicketStatusEnum.
Abbreviation TicketStatusEnum := TicketStatusEnum.TicketStatusEnum.

(** A status is always truthy: the object tests [if (props.status)]. *)
#[export] Instance TicketStatusEnum_truthy : Truthy TicketStatusEnum := λ _, true.

Module TicketStatus.
Import TicketStatusEnum.

Definition create (raw : string) : result TicketStatusEnum :=
  match parse_enum raw with
  | Some s => Ok s
  | None => Throw (Exn JsError ("Invalid ticket status: " +:+ raw))
  end.

Definition TERMINAL_STATUSES : list TicketStatusEnum := [CLOSED; CANCELLED].

Definition isTerminal (s : TicketStatusEnum) : bool :=
  bool_decide (s ∈ TERMINAL_STATUSES).

Definition isResolved (s : TicketStatusEnum) : bool := bool_decide (s = RESOLVED).

Definition canTransitionTo (s next : TicketStatusEnum) : bool :=
  if isTerminal s then bool_decide (next = REOPENED)
  else if bool_decide (next = REOPENED) then bool_decide (s = RESOLVED)
  else true.

Definition transition_error (from to : TicketStatusEnum) : exn :=
  Exn InvalidTicketTransitionError
    ("Cannot transition ticket from " +:+ enum_str from +:+ " to " +:+ enum_str to).

Definition assertCanTransitionTo (s next : TicketStatusEnum) : result unit :=
  if canTransitionTo s next then Ok tt else Throw (transition_error s next).
End TicketStatus.
#[global] Arguments TicketStatus.canTransitionTo : simpl never.
#[global] Arguments TicketStatus.isTerminal : simpl never.
#[global] Arguments TicketStatus.isResolved : simpl never.

Module TicketPriorityEnum.
Inductive TicketPriorityEnum := LOW | MEDIUM | HIGH | URGENT | CRITICAL.

#[export] Instance eq_dec : EqDecision TicketPriorityEnum.
Proof. solve_decision. Defined.

#[export, program] Instance enum : JsEnum TicketPriorityEnum := {|
  enum_values := [LOW; MEDIUM; HIGH; URGENT; CRITICAL];
  enum_str p := match p with
    | LOW => "LOW" | MEDIUM => "MEDIUM" | HIGH => "HIGH"
    | URGENT => "URGENT" | CRITICAL => "CRITICAL" end |}.
Solve All Obligations with solve_enum.
End TicketPriorityEnum.
Export (hints) TicketPriorityEnum.
Abbreviation TicketPriorityEnum := TicketPriorityEnum.TicketPriorityEnum.

Module TicketPriority.
Import TicketPriorityEnum.

Definition create (raw : string) : result TicketPriorityEnum :=
  match parse_enum raw with
  | Some p => Ok p
  | None => Throw (Exn JsError ("Invalid ticket priority: " +:+ raw))
  end.

Definition weight (p : TicketPriorityEnum) : Z :=
  match p with LOW => 1 | MEDIUM => 2 | HIGH => 3 | URGENT => 4 | CRITICAL => 5 end.

Definition PRIORITY_ORDER : list TicketPriorityEnum :=
  [LOW; MEDIUM; HIGH; URGENT; CRITICAL].

(** [PRIORITY_ORDER.indexOf(p)]: -1 when missing. *)
Fixpoint index_of (p : TicketPriorityEnum) (l : list TicketPriorityEnum) : Z :=
  match l with
  | [] => -1
  | q :: l' => if decide (p = q) then 0
               else let i := index_of p l' in if i =? -1 then -1 else i + 1
  end.

(** The index expression is in range for every priority, so the default of
    the lookup is never taken ([escalated_in_range]). *)
Definition escalated (p : TicketPriorityEnum) : TicketPriorityEnum :=
  let idx := index_of p PRIORITY_ORDER in
  let i := Z.min (idx + 1) (Z.of_nat (length PRIORITY_ORDER) - 1) in
  default p (PRIORITY_ORDER !! Z.to_nat i).
End TicketPriority.

Module TicketSourceEnum.
Inductive TicketSourceEnum :=
  | MANUAL | CONVERSATION | AI_ESCALATION | EMAIL | WHATSAPP | WEBCHAT | API
  | WORKFLOW.

#[export] Instance eq_dec : EqDecision TicketSourceEnum.
Proof. solve_decision. Defined.

#[export, program] Instance enum : JsEnum TicketSourceEnum := {|
  enum_values := [MANUAL; CONVERSATION; AI_ESCALATION; EMAIL; WHATSAPP;
    WEBCHAT; API; WORKFLOW];
  enum_str s := match s with
    | MANUAL => "MANUAL" | CONVERSATION => "CONVERSATION"
    | AI_ESCALATION => "AI_ESCALATION" | EMAIL => "EMAIL"
    | WHATSAPP => "WHATSAPP" | WEBCHAT => "WEBCHAT" | API => "API"
    | WORKFLOW => "WORKFLOW" end |}.
Solve All Obligations with solve_enum.
End TicketSourceEnum.
Export (hints) TicketSourceEnum.
Abbreviation TicketSourceEnum := TicketSourceEnum.TicketSourceEnum.

Module TicketSource.
Definition create (raw : string) : result TicketSourceEnum :=
  match parse_enum raw with
  | Some s => Ok s
  | None => Throw (Exn JsError ("Invalid ticket source: " +:+ raw))
  end.
End TicketSource.

Module TicketNumber.
Definition create (value : string) : result string :=
  let cleaned := js_upper (js_trim value) in
  if negb (truthy cleaned) || (50 <? js_length cleaned)
  then Throw (Exn JsError ("Invalid ticket number: " +:+ value))
  else Ok cleaned.

(** [TicketNumber.generate(sequence, prefix = 'TKT')] *)
Definition generate (sequence : Z) (prefix : string) : result string :=
  let padded := padStart 6 "0" (pretty sequence) in
  create (prefix +:+ "-" +:+ padded).
End TicketNumber.

Module TicketCategory.
Definition create (value : string) : result string :=
  let cleaned := js_trim value in
  if negb (truthy cleaned) || (255 <? js_length cleaned)
  then Throw (Exn JsError ("Invalid ticket category: " +:+ value))
  else Ok cleaned.
End TicketCategory.

(** ** The status machine *)
Module StatusMachine.
Import TicketStatusEnum TicketStatus.

(** The transition rule in words: from a terminal status only to
    [REOPENED]; to [REOPENED] only from [RESOLVED] or a terminal status;
    everything else is free. *)
Definition allowed (s next : TicketStatusEnum) : Prop :=
  (isTerminal s = true → next = REOPENED) ∧
  (next = REOPENED → s = RESOLVED ∨ isTerminal s = true).

(** The guard [canTransitionTo] is exactly that rule. *)
Lemma canTransitionTo_spec s next :
  canTransitionTo s next = true ↔ allowed s next.
Proof.
  unfold allowed. destruct s, next; vm_compute; naive_solver.
Qed.

(** Steps of a ticket's status that go through the guard. *)
Inductive guarded : TicketStatusEnum → TicketStatusEnum → Prop :=
  | guarded_step s next :
      assertCanTransitionTo s next = Ok tt → guarded s next.

Lemma assert_ok s next :
  assertCanTransitionTo s next = Ok tt ↔ canTransitionTo s next = true.
Proof. unfold assertCanTransitionTo. by destruct (canTransitionTo s next). Qed.

(** A guarded run of statuses. *)
Inductive run : TicketStatusEnum → list TicketStatusEnum → TicketStatusEnum → Prop :=
  | run_nil s : run s [] s
  | run_cons s next l s' : guarded s next → run next l s' → run s (next :: l) s'.

(** From [CLOSED] or [CANCELLED], a run of guarded transitions cannot
    leave the terminal status without first going through [REOPENED]. *)
Theorem terminal_left_only_by_reopen s l s' :
  isTerminal s = true → run s l s' → s' ≠ s → ∃ l', l = REOPENED :: l'.
Proof.
  intros Ht Hr Hne. destruct Hr as [|s next l s' [? ? Hg] _]; [done|].
  apply assert_ok, canTransitionTo_spec in Hg as [Hg _].
  rewrite (Hg Ht). by eexists.
Qed.

Lemma terminal_left_only_by_reopen_witness :
  ∃ l', [REOPENED; IN_PROGRESS] = REOPENED :: l'.
Proof.
  apply (terminal_left_only_by_reopen CLOSED _ IN_PROGRESS);
    [vm_compute; reflexivity| |discriminate].
  repeat econstructor.
Defined.
End StatusMachine.

(** ** Priorities *)
Module Priorities.
Import TicketPriorityEnum TicketPriority.

Lemma escalated_in_range p :
  ∃ q, PRIORITY_ORDER !! Z.to_nat (Z.min (index_of p PRIORITY_ORDER + 1)
         (Z.of_nat (length PRIORITY_ORDER) - 1)) = Some q.
Proof. destruct p; vm_compute; by eexists. Qed.

(** Escalating raises the weight by one, capped at [CRITICAL]. *)
Lemma escalated_weight p : weight (escalated p) = Z.min 5 (weight p + 1).
Proof. by destruct p. Qed.

Lemma weight_inj : Inj (=) (=) weight.
Proof. by intros [] []. Qed.

Lemma weight_bounds p : 1 ≤ weight p ≤ 5.
Proof. destruct p; cbn; lia. Qed.
End Priorities.
