(* ===== verification/TicketNumbers.v ===== *)
(** * Ticket numbers

    The numbers [TicketNumber.generate] makes from a sequence number can be
    read back, so two sequence numbers never give the same ticket number, and
    cleaning a number twice is cleaning it once. *)

From S2P Require Import Prelude TicketValues.
Open Scope Z_scope.

Module Numbers.

(** Cleaning is idempotent: a number that was accepted is accepted again,
    unchanged, when it is read back. *)
Lemma create_idem v n : TicketNumber.create v = Ok n → TicketNumber.create n = Ok n.
Proof.
  unfold TicketNumber.create. destruct (_ || _) eqn:E; [done|].
  intros [= <-]. by rewrite js_upper_trim_idem, E.
Qed.

(** The value of a string of decimal digits, after [acc]. *)
Fixpoint dec (acc : N) (s : string) : N :=
  match s with
  | "" => acc
  | String c s' => dec (10 * acc + (N_of_ascii c - 48)) s'
  end.

Lemma dec_app acc s s' : dec acc (s +:+ s') = dec (dec acc s) s'.
Proof. revert acc. induction s as [|c s IH]; intros acc; cbn; [done|]. apply IH. Qed.

Lemma dec_zeros n : dec 0 (string_repeat n "0") = 0%N.
Proof. by induction n as [|n IH]. Qed.

Lemma digit_value x : (x < 10)%N → (N_of_ascii (pretty_N_char x) - 48)%N = x.
Proof.
  intros Hx. assert (x = 0 ∨ x = 1 ∨ x = 2 ∨ x = 3 ∨ x = 4 ∨ x = 5 ∨ x = 6 ∨ x = 7
    ∨ x = 8 ∨ x = 9)%N as Hc by lia.
  naive_solver.
Qed.

Lemma dec_pretty_go x s : dec 0 (pretty_N_go x s) = dec x s.
Proof.
  revert s. induction (N.lt_wf_0 x) as [x _ IH]; intros s.
  assert (x = 0 ∨ 0 < x)%N as [->|Hx] by lia; [done|].
  rewrite pretty_N_go_step by done. rewrite IH by (apply N.div_lt; lia). cbn [dec].
  rewrite digit_value by (apply N.mod_lt; lia).
  by rewrite <- N.div_mod by lia.
Qed.

Lemma dec_pretty (x : N) : dec 0 (pretty x) = x.
Proof.
  unfold pretty, pretty_N. case_decide; [by subst|]. apply dec_pretty_go.
Qed.

(** Digits are neither white space nor letters. *)
Definition plain (c : ascii) : Prop := js_is_space c = false ∧ ascii_upper c = c.

Lemma digit_plain x : plain (pretty_N_char x).
Proof. unfold pretty_N_char. repeat case_match; by split. Qed.

Lemma go_plain x s : Forall plain (chars s) → Forall plain (chars (pretty_N_go x s)).
Proof.
  revert s. induction (N.lt_wf_0 x) as [x _ IH]; intros s Hs.
  assert (x = 0 ∨ 0 < x)%N as [->|Hx] by lia; [done|].
  rewrite pretty_N_go_step by done. apply IH; [apply N.div_lt; lia|].
  constructor; [apply digit_plain|done].
Qed.

Lemma drop_space_plain l : Forall plain l → drop_space l = l.
Proof. destruct 1 as [|c l [Hc _] _]; cbn; [done|]. by rewrite Hc. Qed.

Lemma clean_plain s : Forall plain (chars s) → js_upper (js_trim s) = s.
Proof.
  intros Hs. apply chars_inj. unfold js_upper, js_trim.
  repeat first [rewrite chars_map | rewrite chars_rev | rewrite chars_trim_start].
  assert (Forall plain (rev (chars s))) as Hr.
  { rewrite Forall_forall in *. intros c Hc%list_elem_of_In%in_rev.
    by apply Hs, list_elem_of_In. }
  rewrite (drop_space_plain (chars s)), drop_space_plain, rev_involutive by done.
  induction Hs as [|c l [_ Hc] _ IH]; [done|]. cbn. rewrite Hc. f_equal. apply IH.
  cbn in Hr. by apply Forall_app in Hr as [? _].
Qed.

(** The text [generate] builds. *)
Definition numbered (n : Z) : string := "TKT-" +:+ padStart 6 "0" (pretty n).

Lemma pretty_Z_nonneg (n : Z) : 0 ≤ n → pretty n = pretty (Z.to_N n).
Proof. by destruct n. Qed.

Lemma chars_app s s' : chars (s +:+ s') = chars s ++ chars s'.
Proof. induction s as [|c s IH]; [done|]. exact (f_equal (cons c) IH). Qed.

Lemma numbered_plain n : 0 ≤ n → Forall plain (chars (numbered n)).
Proof.
  intros Hn. unfold numbered, padStart. rewrite !chars_app.
  apply Forall_app; split; [by repeat constructor|].
  apply Forall_app; split.
  - induction (6 - _)%nat as [|k IH]; [constructor|]. by constructor.
  - rewrite pretty_Z_nonneg by done. unfold pretty, pretty_N.
    case_decide; [by repeat constructor|]. apply go_plain. constructor.
Qed.

(** The sequence number a generated number was made from. *)
Definition sequence_of (number : string) : Z :=
  Z.of_N (dec 0 (String.substring 4 (String.length number) number)).

Lemma substring_all s n : (String.length s ≤ n)%nat → String.substring 0 n s = s.
Proof.
  revert n. induction s as [|c s IH]; intros [|n] Hn; cbn in *; try done; [lia|].
  rewrite IH; [done|lia].
Qed.

Lemma sequence_of_numbered n : 0 ≤ n → sequence_of (numbered n) = n.
Proof.
  intros Hn. unfold sequence_of, numbered.
  set (digits := padStart 6 "0" (pretty n)).
  change (String.substring 4 ?k ("TKT-" +:+ digits)) with (String.substring 0 k digits).
  rewrite substring_all by (rewrite string_length_app; lia). subst digits.
  unfold padStart. rewrite dec_app, dec_zeros, pretty_Z_nonneg, dec_pretty by done. lia.
Qed.

Lemma generate_numbered n s :
  0 ≤ n → TicketNumber.generate n "TKT" = Ok s → s = numbered n.
Proof.
  intros Hn. unfold TicketNumber.generate, TicketNumber.create.
  change ("TKT" +:+ "-" +:+ padStart 6 "0" (pretty n)) with (numbered n).
  rewrite clean_plain by by apply numbered_plain.
  destruct (_ || _); [done|]. by intros [= <-].
Qed.

(** A number below [10^k] has at most [k] digits. *)
Lemma go_length k x s :
  (x < 10 ^ N.of_nat k)%N → (String.length (pretty_N_go x s) ≤ k + String.length s)%nat.
Proof.
  revert x s. induction k as [|k IH]; intros x s Hx.
  - replace x with 0%N by (cbn in Hx; lia). rewrite pretty_N_go_0. lia.
  - assert (x = 0 ∨ 0 < x)%N as [->|H0] by lia; [rewrite pretty_N_go_0; lia|].
    rewrite pretty_N_go_step by done. etrans; [apply IH|cbn; lia].
    rewrite Nat2N.inj_succ, N.pow_succ_r' in Hx.
    apply N.Div0.div_lt_upper_bound. lia.
Qed.

(** Generating a ticket number succeeds for every sequence number below
    [10^46], and the sequence number is read back from it: two sequence
    numbers never give the same ticket number. *)
Theorem generate_roundtrip n :
  0 ≤ n < 10 ^ 46 →
  ∃ s, TicketNumber.generate n "TKT" = Ok s ∧ sequence_of s = n
       ∧ TicketNumber.create s = Ok s.
Proof.
  intros Hn. exists (numbered n).
  assert (TicketNumber.generate n "TKT" = Ok (numbered n)) as Hg.
  { unfold TicketNumber.generate, TicketNumber.create.
    change ("TKT" +:+ "-" +:+ padStart 6 "0" (pretty n)) with (numbered n).
    rewrite clean_plain by (apply numbered_plain; lia).
    replace (50 <? js_length (numbered n)) with false; [done|].
    symmetry. apply Z.ltb_ge. unfold js_length, numbered.
    rewrite string_length_app, padStart_length, pretty_Z_nonneg by lia.
    enough (String.length (pretty (Z.to_N n)) ≤ 46)%nat by (cbn [String.length]; lia).
    unfold pretty, pretty_N. case_decide; [cbn; lia|].
    etrans; [apply (go_length 46)|cbn; lia]. lia. }
  split_and!; [done|apply sequence_of_numbered; lia|by eapply create_idem].
Qed.

Lemma generate_roundtrip_witness :
  ∃ s, TicketNumber.generate 42 "TKT" = Ok s ∧ sequence_of s = 42
       ∧ TicketNumber.create s = Ok s.
Proof. apply (generate_roundtrip 42). lia. Defined.

End Numbers.
