(* ===== verification/Ticket.v ===== *)
(** * The ticket aggregate

    [src/modules/tickets/domain/ticket.aggregate.ts] and its child entities.

    A method of the class is a program in [M Ticket]: the store is [this].
    The instant of the call, the value of every [new Date()] it evaluates, is
    the argument [now].  The fields a caller of [update] can overwrite with
    [undefined] are options, and reading [.value] of an undefined status or
    priority throws the [TypeError] JavaScript throws. *)

From S2P Require Import Prelude Platform TicketValues.
Import TicketStatusEnum.
Open Scope Z_scope.

(** ** Child entities *)

Module ApprovalStatusEnum.
Inductive ApprovalStatusEnum := PENDING | APPROVED | REJECTED | CANCELLED.
#[export] Instance eq_dec : EqDecision ApprovalStatusEnum.
Proof. solve_decision. Defined.
#[export, program] Instance enum : JsEnum ApprovalStatusEnum := {|
  enum_values := [PENDING; APPROVED; REJECTED; CANCELLED];
  enum_str s := match s with
    | PENDING => "PENDING" | APPROVED => "APPROVED"
    | REJECTED => "REJECTED" | CANCELLED => "CANCELLED" end |}.
Solve All Obligations with solve_enum.
End ApprovalStatusEnum.
Export (hints) ApprovalStatusEnum.
Abbreviation ApprovalStatusEnum := ApprovalStatusEnum.ApprovalStatusEnum.

Module ApprovalTypeEnum.
Inductive ApprovalTypeEnum := REFUND | CREDIT | ESCALATION | CUSTOM.
#[export] Instance eq_dec : EqDecision ApprovalTypeEnum.
Proof. solve_decision. Defined.
#[export, program] Instance enum : JsEnum ApprovalTypeEnum := {|
  enum_values := [REFUND; CREDIT; ESCALATION; CUSTOM];
  enum_str s := match s with
    | REFUND => "REFUND" | CREDIT => "CREDIT"
    | ESCALATION => "ESCALATION" | CUSTOM => "CUSTOM" end |}.
Solve All Obligations with solve_enum.
End ApprovalTypeEnum.
Export (hints) ApprovalTypeEnum.
Abbreviation ApprovalTypeEnum := ApprovalTypeEnum.ApprovalTypeEnum.

Module TicketApproval.
Record TicketApproval := {
  id : string;
  tenantId : string;
  ticketId : string;
  approverId : string;
  status : ApprovalStatusEnum;
  type : ApprovalTypeEnum;
  comments : option string;
  approvedAt : option Z;
  createdAt : Z;
  updatedAt : Z;
}.
#[export] Instance TicketApproval_Eta : Eta TicketApproval := λ a,
  Build_TicketApproval (id a) (tenantId a) (ticketId a) (approverId a)
    (status a) (type a) (comments a) (approvedAt a) (createdAt a) (updatedAt a).

Definition isPending (a : TicketApproval) : bool :=
  bool_decide (status a = ApprovalStatusEnum.PENDING).

Definition already_decided (a : TicketApproval) : exn :=
  Exn JsError ("Approval " +:+ id a +:+ " is already " +:+ enum_str (status a)).

Definition approve (now : Z) (decision : option string) : M TicketApproval unit :=
  this ← gets (λ a, a);
  if isPending this then
    assign status ApprovalStatusEnum.APPROVED ;;
    assign comments (match decision with Some c => Some c | None => comments this end) ;;
    assign approvedAt (Some now) ;;
    assign updatedAt now
  else throw (already_decided this).

Definition reject (now : Z) (decision : option string) : M TicketApproval unit :=
  this ← gets (λ a, a);
  if isPending this then
    assign status ApprovalStatusEnum.REJECTED ;;
    assign comments (match decision with Some c => Some c | None => comments this end) ;;
    assign approvedAt (Some now) ;;
    assign updatedAt now
  else throw (already_decided this).

Definition cancel (now : Z) : M TicketApproval unit :=
  this ← gets (λ a, a);
  if isPending this then
    assign status ApprovalStatusEnum.CANCELLED ;;
    assign updatedAt now
  else throw (already_decided this).
End TicketApproval.
Export (hints) TicketApproval.
Abbreviation TicketApproval := TicketApproval.TicketApproval.

Record TicketComment := {
  comment_id : string;
  comment_tenantId : string;
  comment_ticketId : string;
  authorId : string;
  comment : string;
  visibility : string;
  attachmentsCount : Z;
  comment_createdAt : Z;
  comment_updatedAt : Z;
}.

Record TicketTag := {
  tag_id : string;
  tag_tenantId : string;
  tag_ticketId : string;
  tag : string;
  color : option string;
  tag_createdAt : Z;
  tag_updatedAt : Z;
}.
#[export] Instance TicketTag_Eta : Eta TicketTag := λ x,
  Build_TicketTag (tag_id x) (tag_tenantId x) (tag_ticketId x) (tag x) (color x)
    (tag_createdAt x) (tag_updatedAt x).

Record TicketWatcher := {
  watcher_id : string;
  watcher_tenantId : string;
  watcher_ticketId : string;
  userId : string;
  notificationPreferences : gmap string json;
  watcher_createdAt : Z;
  watcher_updatedAt : Z;
}.

(** ** The aggregate *)

(** Domain events: [packages/shared-events/src/events.ts]. *)
Inductive TicketEvent :=
  | TicketCreatedEvent (tenantId ticketId : string) (title : option string) (priority status : string)
  | TicketUpdatedEvent (tenantId ticketId status priority : string)
  | TicketAssignedEvent (tenantId ticketId agentId : string) (teamId : option string)
  | TicketTransferredEvent (tenantId ticketId : string) (fromAgentId : option string) (toAgentId : string)
  | TicketCommentedEvent (tenantId ticketId commentId authorId visibility : string)
  | TicketEscalatedEvent (tenantId ticketId reason priority : string)
  | TicketResolvedEvent (tenantId ticketId resolvedBy : string)
  | TicketClosedEvent (tenantId ticketId : string) (closedBy : option string)
  | TicketReopenedEvent (tenantId ticketId : string) (reopenedBy : option string)
  | TicketApprovalRequestedEvent (tenantId ticketId approvalId approverId type : string)
  | TicketApprovedEvent (tenantId ticketId approvalId approverId : string)
  | TicketRejectedEvent (tenantId ticketId approvalId approverId : string)
  | SlaBreachedEvent (tenantId ticketId slaId breachType : string).

Record Ticket := {
  id : string;
  tenantId : string;
  ticketNumber : string;
  customerId : option string;
  conversationId : option string;
  assignedAgentId : option string;
  assignedTeamId : option string;
  categoryId : option string;
  priority : option TicketPriorityEnum;
  status : option TicketStatusEnum;
  source : TicketSourceEnum;
  subject : option string;
  description : option string;
  resolutionSummary : option string;
  openedAt : Z;
  firstResponseAt : option Z;
  resolvedAt : option Z;
  closedAt : option Z;
  metadata : option (gmap string json);
  createdAt : Z;
  updatedAt : Z;
  deletedAt : option Z;
  version : Z;
  comments : list TicketComment;
  tags : list TicketTag;
  watchers : list TicketWatcher;
  approvals : list TicketApproval;
  domainEvents : list TicketEvent;
}.
#[export] Instance Ticket_Eta : Eta Ticket := λ t,
  Build_Ticket (id t) (tenantId t) (ticketNumber t) (customerId t)
    (conversationId t) (assignedAgentId t) (assignedTeamId t) (categoryId t)
    (priority t) (status t) (source t) (subject t) (description t)
    (resolutionSummary t) (openedAt t) (firstResponseAt t) (resolvedAt t)
    (closedAt t) (metadata t) (createdAt t) (updatedAt t) (deletedAt t)
    (version t) (comments t) (tags t) (watchers t) (approvals t)
    (domainEvents t).

(** The constructor's argument, with the optional keys of the interface, and
    the constructor with its defaults. *)
Module TicketProps.
Record TicketProps := {
  tenantId : string;
  ticketNumber : string;
  customerId : option string;
  conversationId : option string;
  assignedAgentId : option string;
  assignedTeamId : option string;
  categoryId : option string;
  priority : TicketPriorityEnum;
  status : TicketStatusEnum;
  source : TicketSourceEnum;
  subject : option string;
  description : option string;
  resolutionSummary : option string;
  openedAt : option Z;
  firstResponseAt : option Z;
  resolvedAt : option Z;
  closedAt : option Z;
  metadata : option (gmap string json);
  createdAt : option Z;
  updatedAt : option Z;
  deletedAt : option Z;
  version : option Z;
  comments : option (list TicketComment);
  tags : option (list TicketTag);
  watchers : option (list TicketWatcher);
  approvals : option (list TicketApproval);
}.
End TicketProps.
Abbreviation TicketProps := TicketProps.TicketProps.

Definition new_Ticket (now : Z) (id : string) (props : TicketProps) : Ticket :=
  {| id := id;
     tenantId := TicketProps.tenantId props;
     ticketNumber := TicketProps.ticketNumber props;
     customerId := TicketProps.customerId props;
     conversationId := TicketProps.conversationId props;
     assignedAgentId := TicketProps.assignedAgentId props;
     assignedTeamId := TicketProps.assignedTeamId props;
     categoryId := TicketProps.categoryId props;
     priority := Some (TicketProps.priority props);
     status := Some (TicketProps.status props);
     source := TicketProps.source props;
     subject := TicketProps.subject props;
     description := TicketProps.description props;
     resolutionSummary := TicketProps.resolutionSummary props;
     openedAt := default now (TicketProps.openedAt props);
     firstResponseAt := TicketProps.firstResponseAt props;
     resolvedAt := TicketProps.resolvedAt props;
     closedAt := TicketProps.closedAt props;
     metadata := Some (default ∅ (TicketProps.metadata props));
     createdAt := default now (TicketProps.createdAt props);
     updatedAt := default now (TicketProps.updatedAt props);
     deletedAt := TicketProps.deletedAt props;
     version := js_or (TicketProps.version props) 1;
     comments := default [] (TicketProps.comments props);
     tags := default [] (TicketProps.tags props);
     watchers := default [] (TicketProps.watchers props);
     approvals := default [] (TicketProps.approvals props);
     domainEvents := [] |}.

(** The argument of the generic [update]. *)
Record TicketPatch := {
  p_subject : patch string;
  p_description : patch string;
  p_priority : patch TicketPriorityEnum;
  p_categoryId : patch string;
  p_status : patch TicketStatusEnum;
  p_metadata : patch (gmap string json);
}.

Definition no_patch : TicketPatch :=
  Build_TicketPatch Absent Absent Absent Absent Absent Absent.

(** Reading a property of [undefined]. *)
Definition undefined_read (prop : string) : exn :=
  Exn JsTypeError
    ("Cannot read properties of undefined (reading '" +:+ prop +:+ "')").

(** [this.status.m(...)] and [this.priority.m(...)]. *)
Definition with_status {A} (m : string) (f : TicketStatusEnum → result A)
    : M Ticket A :=
  s ← gets status;
  match s with Some s => of_result (f s) | None => throw (undefined_read m) end.

Definition with_priority {A} (m : string) (f : TicketPriorityEnum → result A)
    : M Ticket A :=
  p ← gets priority;
  match p with Some p => of_result (f p) | None => throw (undefined_read m) end.

Definition status_value : M Ticket TicketStatusEnum := with_status "value" Ok.
Definition priority_value : M Ticket TicketPriorityEnum := with_priority "value" Ok.
Definition assert_transition (next : TicketStatusEnum) : M Ticket unit :=
  with_status "assertCanTransitionTo"
    (λ s, TicketStatus.assertCanTransitionTo s next).

Definition addDomainEvent (e : TicketEvent) : M Ticket unit :=
  modify (λ t, t <| domainEvents ::= λ l, l ++ [e] |>).

Definition clearEvents : M Ticket unit := assign domainEvents [].

Definition touch (now : Z) : M Ticket unit :=
  assign updatedAt now ;;
  modify (λ t, t <| version ::= λ v, v + 1 |>).

Definition emitUpdated : M Ticket unit :=
  t ← gets (λ t, t);
  s ← status_value;
  p ← priority_value;
  addDomainEvent (TicketUpdatedEvent (tenantId t) (id t) (enum_str s) (enum_str p)).

(** [{ ...this.props, ...props }] *)
Definition spread_patch (p : TicketPatch) (t : Ticket) : Ticket :=
  t <| subject ::= spread (p_subject p) |>
    <| description ::= spread (p_description p) |>
    <| priority ::= spread (p_priority p) |>
    <| categoryId ::= spread (p_categoryId p) |>
    <| status ::= spread (p_status p) |>
    <| metadata ::= spread (p_metadata p) |>.

Definition update (now : Z) (props : TicketPatch) : M Ticket unit :=
  match p_status props with
  | Put s => assert_transition s
  | _ => mret tt
  end ;;
  modify (spread_patch props) ;;
  touch now ;;
  emitUpdated.

Definition markFirstResponse (now : Z) : M Ticket unit :=
  r ← gets firstResponseAt;
  match r with
  | None => assign firstResponseAt (Some now) ;; touch now
  | Some _ => mret tt
  end.

Definition assign_agent (now : Z) (agentId : string) (teamId : option string)
    : M Ticket unit :=
  assign assignedAgentId (Some agentId) ;;
  when (truthy teamId) (assign assignedTeamId teamId) ;;
  terminal ← with_status "isTerminal" (λ s, Ok (TicketStatus.isTerminal s));
  when (negb terminal) (assign status (Some ASSIGNED)) ;;
  touch now ;;
  t ← gets (λ t, t);
  addDomainEvent (TicketAssignedEvent (tenantId t) (id t) agentId teamId).

Definition transfer (now : Z) (toAgentId : string) : M Ticket unit :=
  fromAgentId ← gets assignedAgentId;
  assign assignedAgentId (Some toAgentId) ;;
  assign status (Some ASSIGNED) ;;
  touch now ;;
  t ← gets (λ t, t);
  addDomainEvent (TicketTransferredEvent (tenantId t) (id t) fromAgentId toAgentId).

Definition start (now : Z) : M Ticket unit :=
  assert_transition IN_PROGRESS ;;
  assign status (Some IN_PROGRESS) ;;
  touch now ;;
  emitUpdated.

Definition escalate (now : Z) (reason : string) : M Ticket unit :=
  next ← with_priority "escalated" (λ p, Ok (TicketPriority.escalated p));
  assign priority (Some next) ;;
  touch now ;;
  t ← gets (λ t, t);
  p' ← priority_value;
  addDomainEvent (TicketEscalatedEvent (tenantId t) (id t) reason (enum_str p')).

Definition hasPendingApproval (t : Ticket) : bool :=
  some TicketApproval.isPending (approvals t).

Definition resolve (now : Z) (summary resolvedBy : option string) : M Ticket unit :=
  pending ← gets hasPendingApproval;
  if (pending : bool) then
    throw (Exn JsError "Cannot resolve ticket with pending approvals")
  else
    assert_transition RESOLVED ;;
    assign status (Some RESOLVED) ;;
    assign resolvedAt (Some now) ;;
    when (truthy summary) (assign resolutionSummary summary) ;;
    touch now ;;
    t ← gets (λ t, t);
    addDomainEvent (TicketResolvedEvent (tenantId t) (id t) (js_or resolvedBy "")).

Definition close (now : Z) (closedBy : option string) : M Ticket unit :=
  pending ← gets hasPendingApproval;
  if (pending : bool) then
    throw (Exn JsError "Cannot close ticket with pending approvals")
  else
    assert_transition CLOSED ;;
    assign status (Some CLOSED) ;;
    assign closedAt (Some now) ;;
    touch now ;;
    t ← gets (λ t, t);
    addDomainEvent (TicketClosedEvent (tenantId t) (id t) closedBy).

Definition reopen (now : Z) (reopenedBy : option string) : M Ticket unit :=
  assert_transition REOPENED ;;
  assign status (Some REOPENED) ;;
  assign resolvedAt None ;;
  assign closedAt None ;;
  touch now ;;
  t ← gets (λ t, t);
  addDomainEvent (TicketReopenedEvent (tenantId t) (id t) reopenedBy).

Definition cancel (now : Z) : M Ticket unit :=
  assert_transition CANCELLED ;;
  assign status (Some CANCELLED) ;;
  touch now ;;
  emitUpdated.

Definition requestApproval (now : Z) (approval : TicketApproval) : M Ticket unit :=
  modify (λ t, t <| approvals ::= λ l, l ++ [approval] |>) ;;
  assign status (Some APPROVAL_PENDING) ;;
  touch now ;;
  t ← gets (λ t, t);
  addDomainEvent (TicketApprovalRequestedEvent (tenantId t) (id t)
    (TicketApproval.id approval) (TicketApproval.approverId approval)
    (enum_str (TicketApproval.type approval))).

Definition addComment (now : Z) (c : TicketComment) : M Ticket unit :=
  modify (λ t, t <| comments ::= λ l, l ++ [c] |>) ;;
  markFirstResponse now ;;
  touch now ;;
  t ← gets (λ t, t);
  addDomainEvent (TicketCommentedEvent (tenantId t) (id t) (comment_id c)
    (authorId c) (visibility c)).

Definition addTag (now : Z) (x : TicketTag) : M Ticket unit :=
  l ← gets tags;
  if some (λ y, String.eqb (tag y) (tag x)) l then mret tt
  else modify (λ t, t <| tags ::= λ l, l ++ [x] |>) ;; touch now.

Definition removeTag (now : Z) (tagValue : string) : M Ticket unit :=
  modify (λ t, t <| tags ::= js_filter (λ y, negb (String.eqb (tag y) tagValue)) |>) ;;
  touch now.

Definition addWatcher (now : Z) (x : TicketWatcher) : M Ticket unit :=
  l ← gets watchers;
  if some (λ y, String.eqb (userId y) (userId x)) l then mret tt
  else modify (λ t, t <| watchers ::= λ l, l ++ [x] |>) ;; touch now.

Definition removeWatcher (now : Z) (uid : string) : M Ticket unit :=
  modify (λ t, t <| watchers ::= js_filter (λ y, negb (String.eqb (userId y) uid)) |>) ;;
  touch now.

(** [{ ...(this.props.metadata || {}), ...metadata }] *)
Definition setMetadata (now : Z) (m : gmap string json) : M Ticket unit :=
  modify (λ t, t <| metadata ::= λ old, Some (m ∪ default ∅ old) |>) ;;
  touch now.

Definition softDelete (now : Z) : M Ticket unit :=
  assign deletedAt (Some now) ;;
  touch now.

(** [Ticket.create] *)
Definition create (now : Z) (id : string) (props : TicketProps) : Ticket :=
  let ticket := new_Ticket now id props in
  ticket <| domainEvents ::= λ l, l ++
    [TicketCreatedEvent (tenantId ticket) id (subject ticket)
       (enum_str (TicketProps.priority props)) (enum_str (TicketProps.status props))] |>.

(** ** The operations of the aggregate *)
Inductive ticket_op :=
  | OpUpdate (props : TicketPatch)
  | OpMarkFirstResponse
  | OpAssign (agentId : string) (teamId : option string)
  | OpTransfer (toAgentId : string)
  | OpStart
  | OpEscalate (reason : string)
  | OpResolve (summary resolvedBy : option string)
  | OpClose (closedBy : option string)
  | OpReopen (reopenedBy : option string)
  | OpCancel
  | OpRequestApproval (approval : TicketApproval)
  | OpAddComment (c : TicketComment)
  | OpAddTag (x : TicketTag)
  | OpRemoveTag (tagValue : string)
  | OpAddWatcher (x : TicketWatcher)
  | OpRemoveWatcher (uid : string)
  | OpSetMetadata (m : gmap string json)
  | OpSoftDelete.

Definition run_op (now : Z) (o : ticket_op) : M Ticket unit :=
  match o with
  | OpUpdate props => update now props
  | OpMarkFirstResponse => markFirstResponse now
  | OpAssign a tm => assign_agent now a tm
  | OpTransfer a => transfer now a
  | OpStart => start now
  | OpEscalate r => escalate now r
  | OpResolve s b => resolve now s b
  | OpClose b => close now b
  | OpReopen b => reopen now b
  | OpCancel => cancel now
  | OpRequestApproval a => requestApproval now a
  | OpAddComment c => addComment now c
  | OpAddTag x => addTag now x
  | OpRemoveTag v => removeTag now v
  | OpAddWatcher x => addWatcher now x
  | OpRemoveWatcher u => removeWatcher now u
  | OpSetMetadata m => setMetadata now m
  | OpSoftDelete => softDelete now
  end.

(** A run of operations, each at its own instant; a throwing call leaves the
    writes it made, as the caller may keep the object. *)
Inductive reachable : Ticket → Ticket → Prop :=
  | reach_refl t : reachable t t
  | reach_step t now o t' :
      reachable (final (run_op now o) t) t' → reachable t t'.
