(* ===== verification/TicketProofs.v ===== *)
(** * Properties of the ticket aggregate

    Over every run of operations ([reachable]) and operation by operation:
    what is never changed, well-formedness, the status machine, and the
    functional behaviour of the transitions on every branch. *)

From S2P Require Import Prelude Platform TicketValues Ticket.
Import TicketStatusEnum.
Open Scope Z_scope.

Module Aggregate.

(** What no operation touches, and the version, which never goes back. *)
Definition evolves (t t' : Ticket) : Prop :=
  id t' = id t ∧ tenantId t' = tenantId t ∧ ticketNumber t' = ticketNumber t
  ∧ source t' = source t ∧ openedAt t' = openedAt t ∧ createdAt t' = createdAt t
  ∧ version t ≤ version t'.

#[export] Instance evolves_preorder : PreOrder evolves.
Proof.
  split; unfold evolves; [intros t; repeat split; lia|].
  intros a b c H1 H2. destruct_and!. repeat split; try congruence; lia.
Qed.

Ltac field_writes :=
  apply keeps_modify; intros ?; unfold evolves; cbn; repeat split; lia.

Lemma op_evolves now o : keeps evolves (run_op now o).
Proof.
  destruct o; cbn [run_op];
    unfold update, markFirstResponse, assign_agent, transfer, start, escalate,
      resolve, close, reopen, cancel, requestApproval, addComment, addTag,
      removeTag, addWatcher, removeWatcher, setMetadata, softDelete,
      assert_transition, emitUpdated, touch, status_value, priority_value,
      with_status, with_priority, addDomainEvent, markFirstResponse, touch;
    solve_keeps; field_writes.
Qed.

(** Whatever operations run on a ticket, and whether they return or throw,
    its identity (id, tenant, number, source, creation and opening instants)
    never changes and its version never decreases. *)
Theorem reachable_evolves t t' : reachable t t' → evolves t t'.
Proof.
  induction 1 as [|t now o t' _ IH]; [reflexivity|].
  etransitivity; [|exact IH]. apply op_evolves.
Qed.

(** Well-formedness: tags and watchers are sets, the version is positive. *)
Record wf (t : Ticket) : Prop := {
  wf_tags : NoDup (tag <$> tags t);
  wf_watchers : NoDup (userId <$> watchers t);
  wf_version : 1 ≤ version t;
}.

Definition wf_kept (t t' : Ticket) : Prop := wf t → wf t'.
#[export] Instance wf_kept_preorder : PreOrder wf_kept.
Proof. split; unfold wf_kept; [by intros ?|]. by intros ??? H1 H2 ?%H1%H2. Qed.

Lemma not_some_fresh {A} (f : A → string) l x :
  some (λ y, String.eqb (f y) (f x)) l = false → f x ∉ f <$> l.
Proof.
  intros Hs (y & Heq & Hy)%list_elem_of_fmap.
  apply some_false with (x := y) in Hs; [|done].
  apply String.eqb_neq in Hs. congruence.
Qed.

Ltac unfold_ops :=
  unfold update, assign_agent, transfer, start, escalate, resolve, close,
    reopen, cancel, requestApproval, addComment, markFirstResponse, addTag,
    removeTag, addWatcher, removeWatcher, setMetadata, softDelete,
    assert_transition, emitUpdated, status_value, priority_value,
    with_status, with_priority, addDomainEvent, touch in *.

Lemma wf_add_tag now x : keeps wf_kept (addTag now x).
Proof.
  intros t [Ht Hw Hv]. unfold addTag, touch. run.
  case_match; cbn; constructor; cbn; try done; try lia.
  by apply nodup_fmap_snoc, not_some_fresh.
Qed.

Lemma wf_add_watcher now x : keeps wf_kept (addWatcher now x).
Proof.
  intros t [Ht Hw Hv]. unfold addWatcher, touch. run.
  case_match; cbn; constructor; cbn; try done; try lia.
  by apply nodup_fmap_snoc, not_some_fresh.
Qed.
#[local] Hint Resolve wf_add_tag wf_add_watcher : keeps.

Lemma op_wf now o : keeps wf_kept (run_op now o).
Proof.
  destruct o; cbn [run_op]; try first [apply wf_add_tag | apply wf_add_watcher];
    unfold_ops; solve_keeps;
    apply keeps_modify; intros t [? ? ?]; constructor; cbn;
    auto using nodup_fmap_filter; lia.
Qed.

(** The tags of a ticket stay pairwise distinct, its watchers too, and its
    version positive, along every run of operations. *)
Theorem reachable_wf t t' : reachable t t' → wf t → wf t'.
Proof.
  induction 1 as [|t now o t' _ IH]; [done|].
  intros Hw. apply IH, op_wf, Hw.
Qed.

Lemma new_Ticket_wf now i props :
  NoDup (tag <$> default [] (TicketProps.tags props)) →
  NoDup (userId <$> default [] (TicketProps.watchers props)) →
  0 ≤ default 1 (TicketProps.version props) →
  wf (create now i props).
Proof.
  intros ?? Hv. constructor; [done..|]. cbn.
  destruct (TicketProps.version props) as [v|]; cbn in *; [|lia].
  destruct (truthy v) eqn:E; [|lia].
  apply negb_true_iff, Z.eqb_neq in E. lia.
Qed.

(** *** The status machine, operation by operation *)

(** The operations that respect the transition rule.  [transfer] and
    [requestApproval] write the status without asking it; a patch must not set
    the status to [undefined]. *)
Definition guarded_op (o : ticket_op) : bool :=
  match o with
  | OpTransfer _ | OpRequestApproval _ => false
  | OpUpdate p => match p_status p with Undef => false | _ => true end
  | _ => true
  end.

(** [s'] is [s] or a transition from [s] that the guard allows. *)
Definition status_step (o o' : option TicketStatusEnum) : Prop :=
  o' = o ∨ ∃ s s', o = Some s ∧ o' = Some s'
           ∧ TicketStatus.canTransitionTo s s' = true.

Ltac case_status t :=
  run; destruct (status t) as [s|] eqn:?; run; try done.

Lemma guarded_update now p t :
  guarded_op (OpUpdate p) = true →
  status_step (status t) (status (final (update now p) t)).
Proof.
  intros Hg. cbn in Hg. unfold_ops. run.
  destruct (p_status p) as [| |s'] eqn:Ep; [|done|].
  - destruct (spread _ (status t)) as [s|] eqn:Es; run; idtac;
      [destruct (spread _ (priority t)) as [pr|] eqn:?|]; run; by left.
  - case_status t; [|by left].
    unfold TicketStatus.assertCanTransitionTo.
    destruct (TicketStatus.canTransitionTo s s') eqn:Ec; run; [|by left].
    right. exists s, s'.
    destruct (spread _ (priority t)); run; by rewrite ?Ep.
Qed.

Lemma canTransition_assigned s :
  TicketStatus.isTerminal s = false →
  TicketStatus.canTransitionTo s TicketStatusEnum.ASSIGNED = true.
Proof. by destruct s. Qed.

(** The operations that do not write the status at all. *)
Definition status_free (o : ticket_op) : bool :=
  match o with
  | OpMarkFirstResponse | OpEscalate _ | OpAddComment _ | OpAddTag _
  | OpRemoveTag _ | OpAddWatcher _ | OpRemoveWatcher _ | OpSetMetadata _
  | OpSoftDelete => true
  | _ => false
  end.

Lemma status_free_keeps now o :
  status_free o = true → keeps (same status) (run_op now o).
Proof.
  destruct o; intros Ho; try done; cbn [run_op]; unfold_ops; solve_keeps;
    by apply keeps_modify.
Qed.

(** The guarded transitions assert, write the status, then only touch other
    fields. *)
Lemma assert_then_write next (rest : M Ticket unit) t :
  (∀ t', status (final rest t') = status t') →
  status_step (status t)
    (status (final (assert_transition next ;; assign status (Some next) ;; rest) t)).
Proof.
  intros Hr. unfold assert_transition, with_status, TicketStatus.assertCanTransitionTo.
  case_status t; [|left; congruence].
  destruct (TicketStatus.canTransitionTo s next) eqn:Ec; run; [|left; congruence].
  rewrite Hr. right. eauto 7.
Qed.

Lemma guarded_assign now a tm t :
  status_step (status t) (status (final (assign_agent now a tm) t)).
Proof.
  unfold_ops. run. destruct (truthy tm); run; case_status t; try (left; congruence).
  all: destruct (TicketStatus.isTerminal s) eqn:Et; run; [left; congruence|].
  all: right; exists s, ASSIGNED; eauto using canTransition_assigned.
Qed.

(** Every operation except [transfer] and [requestApproval] moves the status
    only along the transitions [canTransitionTo] allows, whether it returns or
    throws half-way. *)
Lemma guarded_op_step now o t :
  guarded_op o = true →
  status_step (status t) (status (final (run_op now o) t)).
Proof.
  intros Hg. destruct (status_free o) eqn:Hf.
  { left. by apply status_free_keeps. }
  destruct o; try done; cbn [run_op].
  - by apply guarded_update.
  - apply guarded_assign.
  - apply (assert_then_write IN_PROGRESS (touch now ;; emitUpdated)).
    intros t'. unfold_ops. run. destruct (status t'), (priority t'); done.
  - unfold resolve. rewrite final_gets_bind. destruct (hasPendingApproval t); [by left|].
    apply (assert_then_write RESOLVED). intros t'.
    unfold_ops. run. by destruct (truthy summary).
  - unfold close. rewrite final_gets_bind. destruct (hasPendingApproval t); [by left|].
    apply (assert_then_write CLOSED). intros t'. done.
  - apply (assert_then_write REOPENED). intros t'. done.
  - apply (assert_then_write CANCELLED (touch now ;; emitUpdated)).
    intros t'. unfold_ops. run. destruct (status t'), (priority t'); done.
Qed.

(** Operations in sequence, each at its own instant. *)
Definition run_ops (ops : list (Z * ticket_op)) (t : Ticket) : Ticket :=
  foldl (λ t o, final (run_op o.1 o.2) t) t ops.


(** *** Terminal statuses *)

(** The only operations that write [REOPENED]. *)
Definition reopens (o : ticket_op) : bool :=
  match o with
  | OpReopen _ => true
  | OpUpdate p => match p_status p with Put REOPENED => true | _ => false end
  | _ => false
  end.

Definition not_reopened (t t' : Ticket) : Prop :=
  status t' = Some REOPENED → status t = Some REOPENED.
#[export] Instance not_reopened_preorder : PreOrder not_reopened.
Proof. split; unfold not_reopened; [by intros ?|]. by intros ??? H1 H2 ?%H2%H1. Qed.

Lemma op_not_reopened now o :
  reopens o = false → keeps not_reopened (run_op now o).
Proof.
  destruct o; intros Ho; try done; cbn [run_op]; unfold_ops; solve_keeps;
    apply keeps_modify; intros t; unfold not_reopened; cbn; try done.
  cbn in Ho. destruct (p_status props) as [| |[]]; naive_solver.
Qed.

Definition stays_guarded (o : Z * ticket_op) : bool :=
  guarded_op o.2 && negb (reopens o.2).

(** A closed or cancelled ticket keeps its status through every sequence
    of guarded operations in which nothing reopens it. *)
Theorem terminal_is_final ops t s :
  status t = Some s → TicketStatus.isTerminal s = true →
  every stays_guarded ops = true →
  status (run_ops ops t) = Some s.
Proof.
  intros Hs Hterm. revert t Hs.
  induction ops as [|[now o] ops IH]; intros t Hs Hall; [done|].
  cbn in Hall. apply andb_true_iff in Hall as [[Hg Hr]%andb_true_iff Hall].
  apply negb_true_iff in Hr. apply IH; [|done]. cbn [fst snd].
  destruct (guarded_op_step now o t Hg) as [Heq|(s0 & s' & H1 & H2 & Hc)];
    [by rewrite Heq|].
  rewrite Hs in H1. injection H1 as <-.
  apply StatusMachine.canTransitionTo_spec in Hc as [Hc _].
  rewrite (Hc Hterm) in H2. apply (op_not_reopened now o Hr) in H2.
  rewrite Hs in H2. injection H2 as ->. done.
Qed.

(** [transfer] and [requestApproval] do not ask the status machine: they
    take a ticket out of [CLOSED] or [CANCELLED] although the guard forbids
    that transition. *)
Theorem transfer_escapes_terminal now agent approval t s :
  status t = Some s → TicketStatus.isTerminal s = true →
  (outcome (transfer now agent) t = Ok tt
   ∧ status (final (transfer now agent) t) = Some ASSIGNED
   ∧ TicketStatus.canTransitionTo s ASSIGNED = false)
  ∧ (outcome (requestApproval now approval) t = Ok tt
     ∧ status (final (requestApproval now approval) t) = Some APPROVAL_PENDING
     ∧ TicketStatus.canTransitionTo s APPROVAL_PENDING = false).
Proof. intros _ Hs. by destruct s. Qed.

(** *** The transitions, branch by branch *)

(** Runs a method on a ticket whose fields are variables. *)
Ltac run_concrete :=
  cbv -[TicketStatus.canTransitionTo TicketStatus.isTerminal truthy js_or
        hasPendingApproval app Z.add TicketStatus.transition_error String.append
        enum_str].

(** [resolve] on every branch: pending approvals and terminal statuses
    throw and leave the ticket as it was; otherwise the ticket is resolved at
    [now], keeps its old summary when none is given, and records the event. *)
Theorem resolve_spec now summary resolvedBy t s :
  status t = Some s →
  resolve now summary resolvedBy t =
    if hasPendingApproval t then
      (Throw (Exn JsError "Cannot resolve ticket with pending approvals"), t)
    else if TicketStatus.isTerminal s then
      (Throw (TicketStatus.transition_error s RESOLVED), t)
    else
      (Ok tt, t <| status := Some RESOLVED |>
                <| resolvedAt := Some now |>
                <| resolutionSummary := if truthy summary then summary
                                        else resolutionSummary t |>
                <| updatedAt := now |>
                <| version := version t + 1 |>
                <| domainEvents := domainEvents t ++
                     [TicketResolvedEvent (tenantId t) (id t) (js_or resolvedBy "")] |>).
Proof.
  intros Hs. unfold resolve. rewrite gets_bind.
  destruct (hasPendingApproval t); [done|].
  destruct t; cbn in Hs; subst; unfold_ops; run_concrete.
  replace (TicketStatus.canTransitionTo s RESOLVED)
    with (negb (TicketStatus.isTerminal s)) by by destruct s.
  destruct (TicketStatus.isTerminal s); [done|].
  by destruct (truthy summary).
Qed.

(** The transitions of the lifecycle. *)
Definition lifecycle (o : ticket_op) : bool :=
  match o with
  | OpStart | OpResolve _ _ | OpClose _ | OpReopen _ | OpCancel => true
  | _ => false
  end.

(** A lifecycle transition that is refused has no effect at all: on a
    ticket with a status and a priority, if the call throws, the ticket is
    exactly what it was (no field, event or version is written). *)
Theorem refused_transition_no_effect now o t s p e :
  lifecycle o = true → status t = Some s → priority t = Some p →
  outcome (run_op now o) t = Throw e → final (run_op now o) t = t.
Proof.
  intros Hl Hs Hp. destruct t; cbn in Hs, Hp; subst.
  destruct o; try done; unfold_ops; run_concrete;
    try (destruct (hasPendingApproval _); [done|]);
    destruct (TicketStatus.canTransitionTo _ _); try done;
    by destruct (truthy summary).
Qed.

(** The generic [update] checks the transition but not the approvals: a
    ticket with a pending approval, which [resolve] refuses, is set to
    [RESOLVED] through [update], and without a resolution time. *)
Theorem update_skips_approval_guard now t s p :
  status t = Some s → priority t = Some p → TicketStatus.isTerminal s = false →
  hasPendingApproval t = true →
  let props := Build_TicketPatch Absent Absent Absent Absent (Put RESOLVED) Absent in
  is_ok (outcome (resolve now None None) t) = false
  ∧ outcome (update now props) t = Ok tt
  ∧ status (final (update now props) t) = Some RESOLVED
  ∧ resolvedAt (final (update now props) t) = resolvedAt t.
Proof.
  intros Hs Hp Hterm Ha. unfold resolve, outcome. rewrite gets_bind, Ha.
  split; [done|]. destruct t; cbn in Hs, Hp; subst; unfold_ops; run_concrete.
  replace (TicketStatus.canTransitionTo s RESOLVED) with true; [done|].
  by destruct s.
Qed.

(** An [update] of the status alone, along an allowed transition. *)
Lemma update_status_ok now t s p s' :
  status t = Some s → priority t = Some p → TicketStatus.canTransitionTo s s' = true →
  ∃ t', update now (Build_TicketPatch Absent Absent Absent Absent (Put s') Absent) t
        = (Ok tt, t')
    ∧ status t' = Some s' ∧ id t' = id t ∧ version t' = version t + 1.
Proof.
  intros Hs Hp Hc. unfold_ops. run. rewrite Hs. run.
  unfold TicketStatus.assertCanTransitionTo. rewrite Hc. run. rewrite Hp. run.
  by eexists.
Qed.

(** An [update] that leaves the status or the priority [undefined] writes the
    other fields and then throws, from the event it emits last. *)
Lemma update_undefined_throws now props t :
  p_status props = Undef ∨ (p_priority props = Undef ∧ p_status props = Absent) →
  ∃ m, outcome (update now props) t = Throw (undefined_read m).
Proof.
  intros [H|[H H']]; unfold_ops; run; rewrite ?H, ?H'; run; [by eexists|].
  destruct (status t); run; by eexists.
Qed.

End Aggregate.
