(* ===== verification/JsDate.v ===== *)
(** * UTC dates

    A [Date] is its time value, milliseconds since the epoch.  These are the
    accessors of the language's [Date] the code uses: the UTC day of week and
    hour, and the calendar date of [toISOString]. *)

From S2P Require Import Prelude.
Open Scope Z_scope.

Definition ms_per_minute : Z := 60000.
Definition ms_per_hour : Z := 3600000.
Definition ms_per_day : Z := 86400000.

(** [date.getUTCDay()]: 1 January 1970 was a Thursday. *)
Definition getUTCDay (t : Z) : Z := (t / ms_per_day + 4) mod 7.

(** [date.getUTCHours()] *)
Definition getUTCHours (t : Z) : Z := (t / ms_per_hour) mod 24.

(** [date.setUTCMinutes(date.getUTCMinutes() + n)] *)
Definition add_minutes (t n : Z) : Z := t + n * ms_per_minute.

(** The proleptic Gregorian date of a day number: year, month, day. *)
Definition civil_from_days (days : Z) : Z * Z * Z :=
  let z := days + 719468 in
  let era := z / 146097 in
  let doe := z mod 146097 in
  let yoe := (doe - doe / 1460 + doe / 36524 - doe / 146096) / 365 in
  let doy := doe - (365 * yoe + yoe / 4 - yoe / 100) in
  let mp := (5 * doy + 2) / 153 in
  let d := doy - (153 * mp + 2) / 5 + 1 in
  let m := if mp <? 10 then mp + 3 else mp - 9 in
  let y := yoe + era * 400 + (if m <=? 2 then 1 else 0) in
  (y, m, d).

Definition pad (n : nat) (z : Z) : string := padStart n "0" (pretty z).

(** [date.toISOString().slice(0, 10)]: years outside 0..9999 are written with
    a sign and six digits, of which the slice keeps the first ten characters. *)
Definition isoDate (t : Z) : string :=
  let '(y, m, d) := civil_from_days (t / ms_per_day) in
  let year :=
    if (0 <=? y) && (y <=? 9999) then pad 4 y
    else if y <? 0 then "-" +:+ pad 6 (- y) else "+" +:+ pad 6 y in
  String.substring 0 10 (year +:+ "-" +:+ pad 2 m +:+ "-" +:+ pad 2 d).

(** [date.toISOString()] *)
Definition toISOString (t : Z) : string :=
  let '(y, m, d) := civil_from_days (t / ms_per_day) in
  let year := if (0 <=? y) && (y <=? 9999) then pad 4 y
              else if y <? 0 then "-" +:+ pad 6 (- y) else "+" +:+ pad 6 y in
  year +:+ "-" +:+ pad 2 m +:+ "-" +:+ pad 2 d +:+ "T" +:+ pad 2 (t / ms_per_hour mod 24) +:+ ":"
  +:+ pad 2 (t / ms_per_minute mod 60) +:+ ":" +:+ pad 2 (t / 1000 mod 60) +:+ "." +:+ pad 3 (t mod 1000)
  +:+ "Z".

Example isoDate_epoch : isoDate 0 = "1970-01-01".
Proof. reflexivity. Qed.
Example isoDate_leap_day : isoDate 1709164800000 = "2024-02-29".
Proof. reflexivity. Qed.
Example isoDate_before_epoch : isoDate (-1) = "1969-12-31".
Proof. reflexivity. Qed.
Example day_of_leap_day : getUTCDay 1709164800000 = 4.
Proof. reflexivity. Qed.
