(* ===== verification/BusinessHours.v ===== *)
(** * Business-hours arithmetic for SLA targets

    [src/modules/tickets/services/business-hours.ts]: the calendar, the test
    for a working moment and the loop that adds business minutes.  The loop
    runs on fuel, and the fuel is the code's own [maxIterations], so running
    out of it is the code's behaviour and not the model's. *)

From S2P Require Import Prelude JsDate.
Open Scope Z_scope.

Record BusinessCalendar := {
  workingDays : list Z;
  startHour : Z;
  endHour : Z;
  holidays : gset string;
}.
#[export] Instance BusinessCalendar_Eta : Eta BusinessCalendar := λ c,
  Build_BusinessCalendar (workingDays c) (startHour c) (endHour c) (holidays c).

(** The default calendar when no [SLA_*] variable is set. *)
Definition DEFAULT_BUSINESS_CALENDAR : BusinessCalendar :=
  {| workingDays := [1; 2; 3; 4; 5]; startHour := 9; endHour := 17;
     holidays := ∅ |}.

Definition isWorkingMoment (date : Z) (calendar : BusinessCalendar) : bool :=
  if negb (bool_decide (getUTCDay date ∈ workingDays calendar)) then false
  else if bool_decide (isoDate date ∈ holidays calendar) then false
  else
    let hour := getUTCHours date in
    (startHour calendar <=? hour) && (hour <? endHour calendar).

Definition maxIterations : nat := Z.to_nat (60 * 24 * 366).

Fixpoint addBusinessMinutes_loop (fuel : nat) (calendar : BusinessCalendar)
    (cursor remaining : Z) : Z :=
  match fuel with
  | O => cursor
  | S fuel' =>
      if 0 <? remaining then
        if isWorkingMoment cursor calendar
        then addBusinessMinutes_loop fuel' calendar (add_minutes cursor 1) (remaining - 1)
        else addBusinessMinutes_loop fuel' calendar (add_minutes cursor 1) remaining
      else cursor
  end.

Definition addBusinessMinutes (start minutes : Z) (calendar : BusinessCalendar) : Z :=
  addBusinessMinutes_loop maxIterations calendar start minutes.

Definition addCalendarMinutes (start minutes : Z) : Z := start + minutes * 60 * 1000.

(** ** What the loop computes *)
Module Minutes.

(** The working minutes among the first [n] minutes from [start]. *)
Fixpoint worked (calendar : BusinessCalendar) (start : Z) (n : nat) : Z :=
  match n with
  | O => 0
  | S n' => (if isWorkingMoment start calendar then 1 else 0)
            + worked calendar (add_minutes start 1) n'
  end.

Lemma worked_bounds c t n : 0 ≤ worked c t n ≤ Z.of_nat n.
Proof.
  revert t. induction n as [|n IH]; intros t; cbn [worked]; [lia|].
  specialize (IH (add_minutes t 1)). destruct (isWorkingMoment t c); lia.
Qed.

Lemma worked_mono c t n n' : (n ≤ n')%nat → worked c t n ≤ worked c t n'.
Proof.
  revert t n'. induction n as [|n IH]; intros t n' Hn; cbn [worked].
  - apply worked_bounds.
  - destruct n' as [|n']; [lia|]. cbn [worked].
    specialize (IH (add_minutes t 1) n' ltac:(lia)). lia.
Qed.

(** [n] is the least number of minutes in which [m] business minutes fit. *)
Definition first_fit (c : BusinessCalendar) (t m : Z) (n : nat) : Prop :=
  worked c t n = m ∧ ∀ n', (n' < n)%nat → worked c t n' < m.

Lemma first_fit_step c t m n :
  0 < m →
  first_fit c (add_minutes t 1) (m - if isWorkingMoment t c then 1 else 0) n →
  first_fit c t m (S n).
Proof.
  intros Hm [Hw Hmin]. split; cbn [worked]; [lia|].
  intros [|n'] Hn; cbn [worked]; [lia|].
  specialize (Hmin n' ltac:(lia)). lia.
Qed.

Lemma loop_spec fuel c t m :
  0 ≤ m →
  ∃ n, (n ≤ fuel)%nat
    ∧ addBusinessMinutes_loop fuel c t m = add_minutes t (Z.of_nat n)
    ∧ (first_fit c t m n ∨ n = fuel ∧ worked c t n < m).
Proof.
  revert t m. induction fuel as [|fuel IH]; intros t m Hm;
    cbn [addBusinessMinutes_loop].
  - exists 0%nat. split; [lia|]. unfold add_minutes. split; [lia|].
    destruct (decide (m = 0)) as [->|]; [left|right; cbn; lia].
    split; [done|lia].
  - destruct (0 <? m) eqn:E.
    2:{ exists 0%nat. unfold add_minutes. split; [lia|]. split; [lia|].
        left. split; [cbn; lia|lia]. }
    assert (∀ m', m' = m - (if isWorkingMoment t c then 1 else 0) → 0 ≤ m' →
      ∃ n, (n ≤ S fuel)%nat
        ∧ addBusinessMinutes_loop fuel c (add_minutes t 1) m' = add_minutes t (Z.of_nat n)
        ∧ (first_fit c t m n ∨ n = S fuel ∧ worked c t n < m)) as Hstep.
    { intros m' -> Hm'. destruct (IH (add_minutes t 1) _ Hm') as (n & Hn & -> & Hcase).
      exists (S n). split; [lia|]. split; [unfold add_minutes; lia|].
      destruct Hcase as [Hf|[-> Hw]]; [left|right].
      - apply first_fit_step; [lia|done].
      - cbn [worked]. lia. }
    destruct (isWorkingMoment t c); apply Hstep; lia.
Qed.

Lemma fit c start m :
  0 ≤ m →
  ∃ n, (n ≤ maxIterations)%nat
    ∧ addBusinessMinutes start m c = add_minutes start (Z.of_nat n)
    ∧ (first_fit c start m n ∨ n = maxIterations ∧ worked c start n < m).
Proof. apply loop_spec. Qed.

Lemma worked_last c t n :
  worked c t (S n) =
    worked c t n + (if isWorkingMoment (add_minutes t (Z.of_nat n)) c then 1 else 0).
Proof.
  revert t. induction n as [|n IH]; intros t.
  - cbn [worked]. replace (add_minutes t (Z.of_nat 0)) with t by (unfold add_minutes; lia).
    lia.
  - cbn [worked] in *. rewrite (IH (add_minutes t 1)).
    replace (add_minutes (add_minutes t 1) (Z.of_nat n))
      with (add_minutes t (Z.of_nat (S n))) by (unfold add_minutes; lia).
    lia.
Qed.

(** C30: Adding [m] business minutes lands on the first minute boundary by
    which exactly [m] working minutes have elapsed, so the minute before the
    deadline is a working one; when a whole 366 days hold fewer, the loop gives
    up at [start] + 366 days. *)
Theorem addBusinessMinutes_spec c start m :
  0 < m →
  (∃ n, addBusinessMinutes start m c = add_minutes start (Z.of_nat (S n))
     ∧ (n < maxIterations)%nat
     ∧ worked c start (S n) = m
     ∧ (∀ n', (n' ≤ n)%nat → worked c start n' < m)
     ∧ isWorkingMoment (add_minutes start (Z.of_nat n)) c = true)
  ∨ (addBusinessMinutes start m c = add_minutes start (Z.of_nat maxIterations)
     ∧ worked c start maxIterations < m).
Proof.
  intros Hm. destruct (fit c start m) as (n & Hn & -> & [[Hw Hmin]|[-> Hw]]);
    [lia| |by right].
  left. destruct n as [|n]; [cbn in Hw; lia|].
  exists n. split_and!; [done|clear -Hn; lia|done|intros n' ?; apply Hmin; lia|].
  specialize (Hmin n ltac:(lia)). rewrite worked_last in Hw.
  destruct (isWorkingMoment _ c); [done|lia].
Qed.

(** Two bounds on the same calendar: the larger target is never due earlier. *)
Lemma first_fit_mono c t m m' n n' :
  m ≤ m' → first_fit c t m n → worked c t n' = m' → (n ≤ n')%nat.
Proof.
  intros Hm [_ Hmin] Hw. destruct (decide (n' < n)%nat) as [Hlt|]; [|lia].
  specialize (Hmin _ Hlt). lia.
Qed.

(** Deadlines are monotone in the target: with at least as many minutes
    the due date is never earlier, and it is never before the start. *)
Lemma addBusinessMinutes_mono c start m m' :
  0 ≤ m ≤ m' →
  start ≤ addBusinessMinutes start m c ≤ addBusinessMinutes start m' c.
Proof.
  intros [H0 Hm].
  destruct (fit c start m) as (n & Hn & -> & Hc); [done|].
  destruct (fit c start m') as (n' & Hn' & -> & Hc'); [lia|].
  enough (n ≤ n')%nat by (unfold add_minutes, ms_per_minute; lia).
  destruct Hc as [Hf|[-> Hw]], Hc' as [[Hw' _]|[-> Hw']]; try lia.
  - by eapply first_fit_mono.
  - destruct (decide (n' ≤ maxIterations)%nat) as [Hle|]; [|lia].
    pose proof (worked_mono c start n' maxIterations Hle). lia.
Qed.

(** A calendar that never closes. *)
Definition always_open : BusinessCalendar :=
  {| workingDays := [0; 1; 2; 3; 4; 5; 6]; startHour := 0; endHour := 24;
     holidays := ∅ |}.

Lemma always_open_works t : isWorkingMoment t always_open = true.
Proof.
  unfold isWorkingMoment. cbn [workingDays holidays startHour endHour always_open].
  pose proof (Z.mod_pos_bound (t / ms_per_day + 4) 7 ltac:(lia)) as Hd.
  pose proof (Z.mod_pos_bound (t / ms_per_hour) 24 ltac:(lia)) as Hh.
  fold (getUTCDay t) in Hd. fold (getUTCHours t) in Hh.
  rewrite bool_decide_eq_true_2.
  2:{ assert (getUTCDay t = 0 ∨ getUTCDay t = 1 ∨ getUTCDay t = 2 ∨ getUTCDay t = 3
        ∨ getUTCDay t = 4 ∨ getUTCDay t = 5 ∨ getUTCDay t = 6) as Hcase by lia.
      set_solver. }
  rewrite bool_decide_eq_false_2 by set_solver. cbn [negb]. lia.
Qed.

Lemma always_open_worked t n : worked always_open t n = Z.of_nat n.
Proof.
  revert t. induction n as [|n IH]; intros t; cbn [worked]; [done|].
  rewrite always_open_works, IH. lia.
Qed.

(** On a calendar that never closes, business minutes are calendar
    minutes, up to the 366 days the loop can cover. *)
Theorem always_open_is_calendar start m :
  0 ≤ m ≤ Z.of_nat maxIterations →
  addBusinessMinutes start m always_open = addCalendarMinutes start m.
Proof.
  intros Hm.
  destruct (fit always_open start m) as (n & Hn & -> & Hc); [lia|].
  assert (Z.of_nat n = m) as ->.
  { destruct Hc as [[Hw _]|[-> Hw]]; rewrite always_open_worked in Hw; lia. }
  unfold add_minutes, addCalendarMinutes, ms_per_minute. lia.
Qed.
End Minutes.
