(* ===== verification/TicketSla.v ===== *)
(** * The SLA clock of a ticket

    [src/modules/tickets/domain/ticket-sla.entity.ts].  Methods are programs
    over [TicketSLA]; [at] is their date argument and [now] the instant
    [updatedAt] is stamped with. *)

From S2P Require Import Prelude.
Open Scope Z_scope.

Inductive SlaBreachType := RESPONSE | RESOLUTION.
#[export] Instance SlaBreachType_eq_dec : EqDecision SlaBreachType.
Proof. solve_decision. Defined.
Definition SlaBreachType_str (b : SlaBreachType) : string :=
  match b with RESPONSE => "RESPONSE" | RESOLUTION => "RESOLUTION" end.

Module TicketSLA.
Record TicketSLA := {
  id : string;
  tenantId : string;
  ticketId : string;
  policyId : option string;
  responseDueAt : option Z;
  resolutionDueAt : option Z;
  breached : bool;
  breachedAt : option Z;
  remainingSeconds : option Z;
  pausedAt : option Z;
  pausedSeconds : Z;
  createdAt : Z;
  updatedAt : Z;
}.
#[export] Instance TicketSLA_Eta : Eta TicketSLA := λ s,
  Build_TicketSLA (id s) (tenantId s) (ticketId s) (policyId s)
    (responseDueAt s) (resolutionDueAt s) (breached s) (breachedAt s)
    (remainingSeconds s) (pausedAt s) (pausedSeconds s) (createdAt s)
    (updatedAt s).

Definition isPaused (s : TicketSLA) : bool := bool_decide (is_Some (pausedAt s)).

Definition pause (at_ now : Z) : M TicketSLA unit :=
  this ← gets (λ s, s);
  if breached this || isPaused this then mret tt
  else assign pausedAt (Some at_) ;; assign updatedAt now.

(** [Math.round(ms / 1000)] *)
Definition round_seconds (ms : Z) : Z := (2 * ms + 1000) / 2000.

Definition resume (at_ now : Z) : M TicketSLA unit :=
  p ← gets pausedAt;
  match p with
  | None => mret tt
  | Some pausedAt0 =>
      let elapsedMs := at_ - pausedAt0 in
      let elapsedSecs := round_seconds elapsedMs in
      modify (λ s, s <| responseDueAt ::= fmap (λ d, d + elapsedMs) |>) ;;
      modify (λ s, s <| resolutionDueAt ::= fmap (λ d, d + elapsedMs) |>) ;;
      modify (λ s, s <| pausedSeconds ::= λ p, p + elapsedSecs |>) ;;
      assign pausedAt None ;;
      assign updatedAt now
  end.

Definition overdue (due : option Z) (at_ : Z) : bool :=
  match due with Some d => d <=? at_ | None => false end.

Definition detectBreach (s : TicketSLA) (at_ : Z) (responded resolved : bool)
    : option SlaBreachType :=
  if breached s then None
  else if isPaused s then None
  else if negb resolved && overdue (resolutionDueAt s) at_ then Some RESOLUTION
  else if negb responded && overdue (responseDueAt s) at_ then Some RESPONSE
  else None.

Definition markBreached (at_ now : Z) : M TicketSLA unit :=
  assign breached true ;;
  assign breachedAt (Some at_) ;;
  assign remainingSeconds (Some 0) ;;
  assign updatedAt now.

Definition recalculateRemaining (at_ now : Z) : M TicketSLA unit :=
  this ← gets (λ s, s);
  if isPaused this then mret tt
  else match resolutionDueAt this with
  | None => assign remainingSeconds None
  | Some due =>
      let remaining := (due - at_) / 1000 in
      assign remainingSeconds (Some (Z.max 0 remaining)) ;;
      assign updatedAt now
  end.
End TicketSLA.
Export (hints) TicketSLA.
Abbreviation TicketSLA := TicketSLA.TicketSLA.

(** ** The clock *)
Module SlaClock.
Import TicketSLA.

(** The calls that stop and start the clock. *)
Inductive clock_op := Pause (at_ now : Z) | Resume (at_ now : Z).

Definition run_clock_op (o : clock_op) : M TicketSLA unit :=
  match o with
  | Pause at_ now => pause at_ now
  | Resume at_ now => resume at_ now
  end.

Definition run_clock (ops : list clock_op) (s : TicketSLA) : TicketSLA :=
  foldl (λ s o, final (run_clock_op o) s) s ops.

(** Reference: the milliseconds an unbreached clock spends stopped, summed
    over its closed pause windows, and the window still open, if any.  A pause
    during a pause and a resume of a running clock do nothing. *)
Fixpoint stopped (open : option Z) (ops : list clock_op) : Z * option Z :=
  match ops with
  | [] => (0, open)
  | Pause t _ :: ops' =>
      stopped (match open with None => Some t | Some t0 => Some t0 end) ops'
  | Resume t _ :: ops' =>
      match open with
      | None => stopped None ops'
      | Some t0 => let '(d, o) := stopped None ops' in (t - t0 + d, o)
      end
  end.

Lemma shift_twice (d : option Z) a b :
  (λ x, x + b) <$> ((λ x, x + a) <$> d) = (λ x, x + (a + b)) <$> d.
Proof. destruct d; cbn; [f_equal; lia|done]. Qed.

Lemma shift_zero (d : option Z) : (λ x, x + 0) <$> d = d.
Proof. destruct d; cbn; [f_equal; lia|done]. Qed.

Lemma breached_kept o s : breached (final (run_clock_op o) s) = breached s.
Proof.
  destruct o; unfold run_clock_op, pause, resume; run; case_match; done.
Qed.

(** C31: Whatever the sequence of pauses and resumes of an unbreached SLA,
    both deadlines end up shifted by exactly the time the clock was stopped,
    and the open pause window is the reference's. *)
Theorem clock_shifts_by_stopped_time ops s :
  breached s = false →
  let '(d, open) := stopped (pausedAt s) ops in
  responseDueAt (run_clock ops s) = (λ x, x + d) <$> responseDueAt s
  ∧ resolutionDueAt (run_clock ops s) = (λ x, x + d) <$> resolutionDueAt s
  ∧ pausedAt (run_clock ops s) = open.
Proof.
  revert s. induction ops as [|o ops IH]; intros s Hb.
  { cbn. by rewrite !shift_zero. }
  specialize (IH (final (run_clock_op o) s)).
  rewrite breached_kept in IH. specialize (IH Hb).
  cbn [run_clock foldl]. fold (run_clock ops (final (run_clock_op o) s)).
  destruct o as [t now|t now]; cbn [stopped run_clock_op] in *.
  - unfold pause, isPaused in *. run. rewrite Hb in *.
    destruct (pausedAt s) as [t0|] eqn:Ep; cbn in *.
    + rewrite Ep in IH. destruct (stopped (Some t0) ops). done.
    + destruct (stopped (Some t) ops). done.
  - unfold resume in *. run. destruct (pausedAt s) as [t0|] eqn:Ep; cbn in *.
    + destruct (stopped None ops) as [d open]. rewrite <- !shift_twice. done.
    + rewrite Ep in IH. destruct (stopped None ops). done.
Qed.

(** A pause window leaves the time that remained when the clock stopped:
    after a pause at [t0] and a resume at [t1], both deadlines are as far from
    [t1] as they were from [t0], and the clock runs again. *)
Theorem pause_resume_preserves_remaining s t0 t1 n0 n1 :
  breached s = false → pausedAt s = None →
  let s' := final (resume t1 n1) (final (pause t0 n0) s) in
  (λ d, d - t1) <$> responseDueAt s' = (λ d, d - t0) <$> responseDueAt s
  ∧ (λ d, d - t1) <$> resolutionDueAt s' = (λ d, d - t0) <$> resolutionDueAt s
  ∧ pausedAt s' = None.
Proof.
  intros Hb Hp. unfold pause, resume, isPaused. run. rewrite Hb, Hp. run.
  split_and!; [..|done].
  - destruct (responseDueAt s); cbn; [f_equal; lia|done].
  - destruct (resolutionDueAt s); cbn; [f_equal; lia|done].
Qed.

(** [detectBreach] on every branch: nothing on a breached or a paused
    SLA; otherwise the unmet, overdue target, the resolution first. *)
Theorem detectBreach_spec s at_ responded resolved b :
  detectBreach s at_ responded resolved = Some b ↔
  breached s = false ∧ pausedAt s = None ∧
  match b with
  | RESOLUTION => resolved = false ∧ ∃ d, resolutionDueAt s = Some d ∧ d ≤ at_
  | RESPONSE =>
      responded = false ∧ (∃ d, responseDueAt s = Some d ∧ d ≤ at_)
      ∧ (resolved = true ∨ ∀ d, resolutionDueAt s = Some d → at_ < d)
  end.
Proof.
  unfold detectBreach, isPaused, overdue.
  destruct (breached s), (pausedAt s), resolved, responded, b,
    (resolutionDueAt s) as [d1|], (responseDueAt s) as [d2|]; cbn;
    try destruct (Z.leb_spec d1 at_); try destruct (Z.leb_spec d2 at_);
    naive_solver lia.
Qed.

(** Marking a breach is final for the detector. *)
Lemma markBreached_detected_once s at_ now at' r r' :
  detectBreach (final (markBreached at_ now) s) at' r r' = None.
Proof. done. Qed.
End SlaClock.
