(* ===== verification/TicketRepo.v ===== *)
(** * The ticket repository

    [src/modules/tickets/repositories]: the rows, [TicketMapper] and
    [DrizzleTicketRepository], over the tables of [packages/database] that
    hold tickets.  A table is the collection of its rows: tickets by primary
    key, the child tables as lists in insertion order.  A query is the filter
    its [where] states; [order by] is an abstract sort ([SqlSort]), since SQL
    leaves the order of ties open.  What the code relies on of the query
    builder: [set] and [values] skip [undefined] columns, a null in a NOT NULL
    column and a duplicate key make the statement throw, and a transaction
    that throws leaves the tables as they were. *)

From S2P Require Import Prelude Platform TicketValues Ticket TicketSla.
Open Scope Z_scope.

(** ** Sorting *)
Class SqlSort := {
  sql_sort : ∀ {A}, (A → Z) → list A → list A;
  sql_sort_perm : ∀ {A} (key : A → Z) l, sql_sort key l ≡ₚ l;
  sql_sort_sorted : ∀ {A} (key : A → Z) l,
    StronglySorted (λ a b, key a ≤ key b) (sql_sort key l);
}.

#[export] Instance key_le_dec {A} (key : A → Z) : RelDecision (λ a b, key a ≤ key b).
Proof. intros a b. apply _. Defined.
#[export] Instance key_le_total {A} (key : A → Z) : Total (λ a b : A, key a ≤ key b).
Proof. intros a b. lia. Qed.
#[export] Instance key_le_trans {A} (key : A → Z) :
  Transitive (λ a b : A, key a ≤ key b).
Proof. intros a b c. lia. Qed.

(** Merge sort satisfies the interface. *)
#[export] Program Instance merge_sql_sort : SqlSort := {|
  sql_sort A key l := merge_sort (λ a b, key a ≤ key b) l |}.
Next Obligation. intros. cbn. apply merge_sort_Permutation. Qed.
Next Obligation. intros. apply StronglySorted_merge_sort; apply _. Qed.

(** ** Rows *)
Record TicketRow := {
  row_id : string;
  row_tenantId : string;
  row_ticketNumber : string;
  row_customerId : option string;
  row_conversationId : option string;
  row_assignedAgentId : option string;
  row_assignedTeamId : option string;
  row_categoryId : option string;
  row_priority : string;
  row_status : string;
  row_source : string;
  row_subject : string;
  row_description : option string;
  row_resolutionSummary : option string;
  row_openedAt : Z;
  row_firstResponseAt : option Z;
  row_resolvedAt : option Z;
  row_closedAt : option Z;
  row_metadata : option (gmap string json);
  row_createdAt : Z;
  row_updatedAt : Z;
  row_deletedAt : option Z;
  row_version : Z;
}.
#[export] Instance TicketRow_Eta : Eta TicketRow := λ r,
  Build_TicketRow (row_id r) (row_tenantId r) (row_ticketNumber r)
    (row_customerId r) (row_conversationId r) (row_assignedAgentId r)
    (row_assignedTeamId r) (row_categoryId r) (row_priority r) (row_status r)
    (row_source r) (row_subject r) (row_description r) (row_resolutionSummary r)
    (row_openedAt r) (row_firstResponseAt r) (row_resolvedAt r) (row_closedAt r)
    (row_metadata r) (row_createdAt r) (row_updatedAt r) (row_deletedAt r)
    (row_version r).

Record TicketAssignment := {
  assignment_id : string;
  assignment_tenantId : string;
  assignment_ticketId : string;
  assignment_agentId : option string;
  assignment_teamId : option string;
  assignmentType : string;
  assignedAt : Z;
  assignedBy : option string;
}.

Record TicketDb := {
  t_tickets : gmap string TicketRow;
  t_comments : list TicketComment;
  t_tags : list TicketTag;
  t_watchers : list TicketWatcher;
  t_approvals : list TicketApproval;
  t_assignments : list TicketAssignment;
  t_sla : list TicketSLA;
}.
#[export] Instance TicketDb_Eta : Eta TicketDb := λ d,
  Build_TicketDb (t_tickets d) (t_comments d) (t_tags d) (t_watchers d)
    (t_approvals d) (t_assignments d) (t_sla d).

(** ** [TicketMapper] *)
Module TicketMapper.
Definition commentToDomain (raw : TicketComment) : TicketComment :=
  {| comment_id := comment_id raw; comment_tenantId := comment_tenantId raw;
     comment_ticketId := comment_ticketId raw; authorId := authorId raw;
     comment := comment raw;
     visibility := js_or (Some (visibility raw)) "PUBLIC";
     attachmentsCount := attachmentsCount raw;
     comment_createdAt := comment_createdAt raw;
     comment_updatedAt := comment_updatedAt raw |}.

Definition tagToDomain (raw : TicketTag) : TicketTag :=
  {| tag_id := tag_id raw; tag_tenantId := tag_tenantId raw;
     tag_ticketId := tag_ticketId raw; tag := tag raw;
     color := js_or_undef (color raw); tag_createdAt := tag_createdAt raw;
     tag_updatedAt := tag_updatedAt raw |}.

Definition watcherToDomain (raw : TicketWatcher) : TicketWatcher := raw.

Definition approvalToDomain (raw : TicketApproval) : TicketApproval :=
  raw <| TicketApproval.comments := js_or_undef (TicketApproval.comments raw) |>.

Definition slaToDomain (raw : TicketSLA) : TicketSLA :=
  raw <| TicketSLA.policyId := js_or_undef (TicketSLA.policyId raw) |>.

Definition assignmentToDomain (raw : TicketAssignment) : TicketAssignment :=
  {| assignment_id := assignment_id raw;
     assignment_tenantId := assignment_tenantId raw;
     assignment_ticketId := assignment_ticketId raw;
     assignment_agentId := js_or_undef (assignment_agentId raw);
     assignment_teamId := js_or_undef (assignment_teamId raw);
     assignmentType := js_or (Some (assignmentType raw)) "MANUAL";
     assignedAt := assignedAt raw;
     assignedBy := js_or_undef (assignedBy raw) |}.

(** The three dates of a row are not null, so the constructor's [new Date()]
    defaults are not evaluated and its [now] is irrelevant. *)
Definition toDomain (raw : TicketRow) (rawComments : list TicketComment)
    (rawTags : list TicketTag) (rawWatchers : list TicketWatcher)
    (rawApprovals : list TicketApproval) : result Ticket :=
  match TicketNumber.create (row_ticketNumber raw) with
  | Throw e => Throw e
  | Ok number =>
  match TicketPriority.create (row_priority raw) with
  | Throw e => Throw e
  | Ok p =>
  match TicketStatus.create (row_status raw) with
  | Throw e => Throw e
  | Ok s =>
  match TicketSource.create (row_source raw) with
  | Throw e => Throw e
  | Ok src =>
    Ok (new_Ticket 0 (row_id raw) {|
      TicketProps.tenantId := row_tenantId raw;
      TicketProps.ticketNumber := number;
      TicketProps.customerId := js_or_undef (row_customerId raw);
      TicketProps.conversationId := js_or_undef (row_conversationId raw);
      TicketProps.assignedAgentId := js_or_undef (row_assignedAgentId raw);
      TicketProps.assignedTeamId := js_or_undef (row_assignedTeamId raw);
      TicketProps.categoryId := js_or_undef (row_categoryId raw);
      TicketProps.priority := p;
      TicketProps.status := s;
      TicketProps.source := src;
      TicketProps.subject := Some (row_subject raw);
      TicketProps.description := js_or_undef (row_description raw);
      TicketProps.resolutionSummary := js_or_undef (row_resolutionSummary raw);
      TicketProps.openedAt := Some (row_openedAt raw);
      TicketProps.firstResponseAt := row_firstResponseAt raw;
      TicketProps.resolvedAt := row_resolvedAt raw;
      TicketProps.closedAt := row_closedAt raw;
      TicketProps.metadata := Some (default ∅ (row_metadata raw));
      TicketProps.createdAt := Some (row_createdAt raw);
      TicketProps.updatedAt := Some (row_updatedAt raw);
      TicketProps.deletedAt := row_deletedAt raw;
      TicketProps.version := Some (js_or (Some (row_version raw)) 1);
      TicketProps.comments := Some (commentToDomain <$> rawComments);
      TicketProps.tags := Some (tagToDomain <$> rawTags);
      TicketProps.watchers := Some (watcherToDomain <$> rawWatchers);
      TicketProps.approvals := Some (approvalToDomain <$> rawApprovals) |})
  end end end end.
End TicketMapper.

(** ** Queries and statements *)
Section repository.
Context `{SqlSort}.

(** Rows of a tenant (and of a ticket). *)
Definition owns (tenantId : string) (r : TicketRow) : bool :=
  String.eqb (row_tenantId r) tenantId.

(** [where id = id and tenantId = tenantId] *)
Definition select_ticket (id tenantId : string) (d : TicketDb) : option TicketRow :=
  r ← t_tickets d !! id;
  if owns tenantId r then Some r else None.

Definition loadChildren (ticketId tenantId : string) (d : TicketDb)
    : list TicketComment * list TicketTag * list TicketWatcher * list TicketApproval :=
  (sql_sort comment_createdAt (js_filter (λ c,
     String.eqb (comment_ticketId c) ticketId
     && String.eqb (comment_tenantId c) tenantId) (t_comments d)),
   js_filter (λ x, String.eqb (tag_ticketId x) ticketId
     && String.eqb (tag_tenantId x) tenantId) (t_tags d),
   js_filter (λ x, String.eqb (watcher_ticketId x) ticketId
     && String.eqb (watcher_tenantId x) tenantId) (t_watchers d),
   js_filter (λ a, String.eqb (TicketApproval.ticketId a) ticketId
     && String.eqb (TicketApproval.tenantId a) tenantId) (t_approvals d)).

Definition find_ticket (id tenantId : string) (d : TicketDb)
    : result (option Ticket) :=
  match select_ticket id tenantId d with
  | None => Ok None
  | Some row =>
      let '(cs, ts, ws, as_) := loadChildren id tenantId d in
      result_map Some (TicketMapper.toDomain row cs ts ws as_)
  end.

(** [onConflictDoNothing]: the unique keys of the tag and watcher tables. *)
Definition insert_comment (c : TicketComment) (l : list TicketComment) :=
  if some (λ x, String.eqb (comment_id x) (comment_id c)) l then l else l ++ [c].

Definition tag_conflict (x y : TicketTag) : bool :=
  String.eqb (tag_id y) (tag_id x)
  || String.eqb (tag_tenantId y) (tag_tenantId x)
     && String.eqb (tag_ticketId y) (tag_ticketId x)
     && String.eqb (tag y) (tag x).
Definition insert_tag (x : TicketTag) (l : list TicketTag) :=
  if some (tag_conflict x) l then l
  else l ++ [x <| color := js_or_undef (color x) |>].

Definition watcher_conflict (x y : TicketWatcher) : bool :=
  String.eqb (watcher_id y) (watcher_id x)
  || String.eqb (watcher_tenantId y) (watcher_tenantId x)
     && String.eqb (watcher_ticketId y) (watcher_ticketId x)
     && String.eqb (userId y) (userId x).
Definition insert_watcher (x : TicketWatcher) (l : list TicketWatcher) :=
  if some (watcher_conflict x) l then l else l ++ [x].

(** [onConflictDoUpdate] on the approval's id. *)
Definition upsert_approval (now : Z) (a : TicketApproval) (l : list TicketApproval) :=
  let comments := js_or_undef (TicketApproval.comments a) in
  if some (λ x, String.eqb (TicketApproval.id x) (TicketApproval.id a)) l then
    (λ x, if String.eqb (TicketApproval.id x) (TicketApproval.id a)
          then x <| TicketApproval.status := TicketApproval.status a |>
                 <| TicketApproval.comments := comments |>
                 <| TicketApproval.approvedAt := TicketApproval.approvedAt a |>
                 <| TicketApproval.updatedAt := now |>
          else x) <$> l
  else l ++ [a <| TicketApproval.comments := comments |>].

(** *** [save] *)

(** The [raw] object: it reads [.value] of the priority and of the status. *)
Definition raw_values (t : Ticket) : result (string * string) :=
  match priority t, status t with
  | None, _ | _, None => Throw (undefined_read "value")
  | Some p, Some s => Ok (enum_str p, enum_str s)
  end.

Definition null_violation : exn := Exn JsError "null value in column violates not-null constraint".
Definition unique_violation : exn := Exn JsError "duplicate key value violates unique constraint".

(** [{ ...raw, createdAt, updatedAt }]; [subj] is the subject the statement
    writes or keeps. *)
Definition row_of (t : Ticket) (p s subj : string) (created updated : Z) : TicketRow :=
  {| row_id := id t; row_tenantId := tenantId t;
     row_ticketNumber := ticketNumber t;
     row_customerId := js_or_undef (customerId t);
     row_conversationId := js_or_undef (conversationId t);
     row_assignedAgentId := js_or_undef (assignedAgentId t);
     row_assignedTeamId := js_or_undef (assignedTeamId t);
     row_categoryId := js_or_undef (categoryId t);
     row_priority := p; row_status := s; row_source := enum_str (source t);
     row_subject := subj;
     row_description := js_or_undef (description t);
     row_resolutionSummary := js_or_undef (resolutionSummary t);
     row_openedAt := openedAt t; row_firstResponseAt := firstResponseAt t;
     row_resolvedAt := resolvedAt t; row_closedAt := closedAt t;
     row_metadata := metadata t; row_createdAt := created;
     row_updatedAt := updated; row_deletedAt := deletedAt t;
     row_version := version t |}.

(** Another ticket of the tenant has this number ([uq_tickets_number]). *)
Definition number_taken (t : Ticket) (d : TicketDb) : bool :=
  some (λ kv : string * TicketRow,
          negb (String.eqb kv.1 (id t)) && owns (tenantId t) kv.2
          && String.eqb (row_ticketNumber kv.2) (ticketNumber t))
       (map_to_list (t_tickets d)).

(** The ticket row the transaction writes. *)
Definition write_ticket (now : Z) (t : Ticket) (tenant p s : string) (d : TicketDb)
    : result TicketRow :=
  if number_taken t d then Throw unique_violation
  else match select_ticket (id t) tenant d with
  | Some old => Ok (row_of t p s (default (row_subject old) (subject t))
                      (row_createdAt old) now)
  | None =>
      match t_tickets d !! id t, subject t with
      | Some _, _ => Throw unique_violation
      | None, None => Throw null_violation
      | None, Some subj => Ok (row_of t p s subj (createdAt t) (createdAt t))
      end
  end.

Definition save_ticket (now : Z) (t : Ticket) (tenant : string) (d : TicketDb)
    : result TicketDb :=
  match raw_values t with
  | Throw e => Throw e
  | Ok (p, s) =>
  match write_ticket now t tenant p s d with
  | Throw e => Throw e
  | Ok row => Ok
      (d <| t_tickets ::= <[id t := row]> |>
         <| t_comments ::= λ l, foldl (λ l c, insert_comment c l) l (comments t) |>
         <| t_tags ::= λ l, foldl (λ l x, insert_tag x l) l (tags t) |>
         <| t_watchers ::= λ l, foldl (λ l x, insert_watcher x l) l (watchers t) |>
         <| t_approvals ::= λ l, foldl (λ l a, upsert_approval now a l) l (approvals t) |>)
  end end.

(** *** The other statements *)

(** [delete]: a soft delete that also cancels. *)
Definition delete_ticket (now : Z) (id tenantId : string) (d : TicketDb) : TicketDb :=
  match select_ticket id tenantId d with
  | None => d
  | Some row => d <| t_tickets ::= <[id := row
      <| row_deletedAt := Some now |>
      <| row_status := enum_str TicketStatusEnum.CANCELLED |>
      <| row_updatedAt := now |>]> |>
  end.

(** [nextSequence]: one more than the number of tickets of the tenant. *)
Definition next_sequence (tenantId : string) (d : TicketDb) : Z :=
  Z.of_nat (length (js_filter (λ kv : string * TicketRow, owns tenantId kv.2)
                      (map_to_list (t_tickets d)))) + 1.

Definition sla_of (tenantId ticketId : string) (s : TicketSLA) : bool :=
  String.eqb (TicketSLA.tenantId s) tenantId
  && String.eqb (TicketSLA.ticketId s) ticketId.

Definition get_sla (tenantId ticketId : string) (d : TicketDb) : option TicketSLA :=
  TicketMapper.slaToDomain <$> js_find (sla_of tenantId ticketId) (t_sla d).

(** [upsertSla]: an update keeps the creation date. *)
Definition upsert_sla (now : Z) (s : TicketSLA) (tenantId : string) (d : TicketDb)
    : TicketDb :=
  let raw := s <| TicketSLA.tenantId := tenantId |>
               <| TicketSLA.policyId := js_or_undef (TicketSLA.policyId s) |>
               <| TicketSLA.updatedAt := now |> in
  let mine := sla_of tenantId (TicketSLA.ticketId s) in
  if some mine (t_sla d) then
    d <| t_sla ::= fmap (λ r, if mine r
           then raw <| TicketSLA.createdAt := TicketSLA.createdAt r |> else r) |>
  else d <| t_sla ::= λ l, l ++ [raw] |>.

(** [findDueSlas] *)
Definition due (tenantId : option string) (now : Z) (s : TicketSLA) : bool :=
  negb (TicketSLA.breached s)
  && TicketSLA.overdue (TicketSLA.resolutionDueAt s) now
  && match js_or_undef tenantId with
     | Some t => String.eqb (TicketSLA.tenantId s) t
     | None => true
     end.

Definition find_due_slas (tenantId : option string) (now : Z) (limit : nat)
    (d : TicketDb) : list TicketSLA :=
  TicketMapper.slaToDomain <$>
    take limit (sql_sort (λ s, default 0 (TicketSLA.resolutionDueAt s))
                  (js_filter (due tenantId now) (t_sla d))).

(** [saveApproval] and [getApproval]. *)
Definition approval_row (tenantId approvalId : string) (a : TicketApproval) : bool :=
  String.eqb (TicketApproval.tenantId a) tenantId
  && String.eqb (TicketApproval.id a) approvalId.

Definition get_approval (tenantId approvalId : string) (d : TicketDb)
    : option TicketApproval :=
  TicketMapper.approvalToDomain <$>
    js_find (approval_row tenantId approvalId) (t_approvals d).

Definition save_approval (now : Z) (a : TicketApproval) (tenantId : string)
    (d : TicketDb) : TicketDb :=
  let raw := a <| TicketApproval.tenantId := tenantId |>
               <| TicketApproval.comments := js_or_undef (TicketApproval.comments a) |>
               <| TicketApproval.updatedAt := now |> in
  let mine := approval_row tenantId (TicketApproval.id a) in
  if some mine (t_approvals d) then
    d <| t_approvals ::= fmap (λ r, if mine r
           then raw <| TicketApproval.createdAt := TicketApproval.createdAt r |>
           else r) |>
  else d <| t_approvals ::= λ l, l ++ [raw] |>.

Definition add_assignment (a : TicketAssignment) (tenantId : string) (d : TicketDb)
    : TicketDb :=
  d <| t_assignments ::= λ l, l ++
    [{| assignment_id := assignment_id a; assignment_tenantId := tenantId;
        assignment_ticketId := assignment_ticketId a;
        assignment_agentId := js_or_undef (assignment_agentId a);
        assignment_teamId := js_or_undef (assignment_teamId a);
        assignmentType := assignmentType a; assignedAt := assignedAt a;
        assignedBy := js_or_undef (assignedBy a) |}] |>.

(** [findPaginated] with the options its callers in this module pass: the
    agent filter, newest first, one page. *)
Definition find_by_agent (tenantId agentId : string) (limit : nat) (d : TicketDb)
    : list TicketRow :=
  take limit (sql_sort (λ r, - row_openedAt r)
    (js_filter (λ r, owns tenantId r
                     && bool_decide (row_deletedAt r = None)
                     && bool_decide (row_assignedAgentId r = Some agentId))
       (snd <$> map_to_list (t_tickets d)))).
End repository.
