(* ===== verification/TicketRepoProofs.v ===== *)
(** * Properties of the ticket repository

    What a saved ticket reads back as, what a save leaves of the child rows,
    ticket numbers as the sequence and the unique index interact, and which
    rows a tenant's statements can touch. *)

From S2P Require Import Prelude Platform TicketValues TicketNumbers Ticket.
From S2P Require Import TicketSla TicketRepo.
Open Scope Z_scope.

Module Repo.
Section repo.
Context `{SqlSort}.
Implicit Types (d : TicketDb) (t : Ticket).

Lemma save_inv now t T d d' :
  save_ticket now t T d = Ok d' →
  ∃ p s row, priority t = Some p ∧ status t = Some s
    ∧ write_ticket now t T (enum_str p) (enum_str s) d = Ok row
    ∧ t_tickets d' = <[id t := row]> (t_tickets d)
    ∧ t_comments d' = foldl (λ l c, insert_comment c l) (t_comments d) (comments t)
    ∧ t_tags d' = foldl (λ l x, insert_tag x l) (t_tags d) (tags t)
    ∧ t_watchers d' = foldl (λ l x, insert_watcher x l) (t_watchers d) (watchers t)
    ∧ t_sla d' = t_sla d ∧ t_assignments d' = t_assignments d.
Proof.
  unfold save_ticket, raw_values.
  destruct (priority t) as [p|], (status t) as [s|]; try done.
  destruct (write_ticket _ _ _ _ _ _) as [row|] eqn:E; [|done].
  intros [= <-]. by exists p, s, row.
Qed.

Lemma write_inv now t T p s d row :
  write_ticket now t T p s d = Ok row →
  number_taken t d = false ∧
  ((∃ old, select_ticket (id t) T d = Some old
     ∧ row = row_of t p s (default (row_subject old) (subject t)) (row_createdAt old) now)
   ∨ (t_tickets d !! id t = None ∧ ∃ subj, subject t = Some subj
      ∧ row = row_of t p s subj (createdAt t) (createdAt t))).
Proof.
  unfold write_ticket. destruct (number_taken t d); [done|].
  destruct (select_ticket _ _ _) as [old|]; [intros [= <-]; eauto|].
  destruct (t_tickets d !! id t), (subject t); try done.
  intros [= <-]. eauto 6.
Qed.

Lemma write_keys now t T p s d row :
  write_ticket now t T p s d = Ok row →
  row_id row = id t ∧ row_tenantId row = tenantId t
  ∧ row_ticketNumber row = ticketNumber t.
Proof. intros [_ [(?&?&->)|(?&?&?&->)]]%write_inv; done. Qed.

Lemma owns_true T r : owns T r = true ↔ row_tenantId r = T.
Proof. apply String.eqb_eq. Qed.

Lemma select_inv i T d r :
  select_ticket i T d = Some r ↔ t_tickets d !! i = Some r ∧ row_tenantId r = T.
Proof.
  unfold select_ticket. destruct (t_tickets d !! i) as [r'|]; cbn; [|naive_solver].
  destruct (owns T r') eqn:E.
  - apply owns_true in E. split; [by intros [= <-]|by intros [[= ->] _]].
  - split; [done|]. intros [[= ->] Ho%owns_true]. congruence.
Qed.

(** *** What is read back *)

(** The ticket as the mapper rebuilds it: empty strings are gone, the two
    timestamps are the row's, the children are the stored ones and no event
    is pending. *)
Definition reread t (created updated : Z) (subj : string) (d : TicketDb) : Ticket :=
  let '(cs, ts, ws, as_) := loadChildren (id t) (tenantId t) d in
  {| id := id t; tenantId := tenantId t; ticketNumber := ticketNumber t;
     customerId := js_or_undef (customerId t);
     conversationId := js_or_undef (conversationId t);
     assignedAgentId := js_or_undef (assignedAgentId t);
     assignedTeamId := js_or_undef (assignedTeamId t);
     categoryId := js_or_undef (categoryId t);
     priority := priority t; status := status t; source := source t;
     subject := Some subj; description := js_or_undef (description t);
     resolutionSummary := js_or_undef (resolutionSummary t);
     openedAt := openedAt t; firstResponseAt := firstResponseAt t;
     resolvedAt := resolvedAt t; closedAt := closedAt t;
     metadata := Some (default ∅ (metadata t));
     createdAt := created; updatedAt := updated; deletedAt := deletedAt t;
     version := version t;
     comments := TicketMapper.commentToDomain <$> cs;
     tags := TicketMapper.tagToDomain <$> ts;
     watchers := TicketMapper.watcherToDomain <$> ws;
     approvals := TicketMapper.approvalToDomain <$> as_;
     domainEvents := [] |}.

Lemma version_read v : 1 ≤ v → js_or (Some (js_or (Some v) 1)) 1 = v.
Proof.
  intros Hv. cbn. assert (truthy v = true) as E.
  { apply negb_true_iff, Z.eqb_neq. lia. }
  by rewrite !E.
Qed.

Lemma toDomain_row t p s subj created updated d :
  priority t = Some p → status t = Some s →
  TicketNumber.create (ticketNumber t) = Ok (ticketNumber t) → 1 ≤ version t →
  let '(cs, ts, ws, as_) := loadChildren (id t) (tenantId t) d in
  TicketMapper.toDomain
    (row_of t (enum_str p) (enum_str s) subj created updated) cs ts ws as_
  = Ok (reread t created updated subj d).
Proof.
  intros Hp Hs Hn Hv. unfold reread. destruct (loadChildren _ _ _) as [[[cs ts] ws] as_].
  unfold TicketMapper.toDomain.
  cbn [row_ticketNumber row_priority row_status row_source row_of]. rewrite Hn.
  unfold TicketPriority.create, TicketStatus.create, TicketSource.create.
  rewrite !parse_enum_str. unfold new_Ticket, row_of.
  cbn -[js_or_undef js_or TicketMapper.commentToDomain TicketMapper.tagToDomain
        TicketMapper.watcherToDomain TicketMapper.approvalToDomain].
  by rewrite !js_or_undef_idem, version_read, Hp, Hs.
Qed.

(** C17: A saved ticket is read back as it was: under a canonical number and
    a positive version, finding a ticket after [save] returned gives the
    same ticket, up to empty strings, the row's timestamps and the stored
    children; a missing subject keeps the stored one. *)
Theorem save_find_roundtrip now t d d' :
  TicketNumber.create (ticketNumber t) = Ok (ticketNumber t) → 1 ≤ version t →
  save_ticket now t (tenantId t) d = Ok d' →
  ∃ created updated subj,
    find_ticket (id t) (tenantId t) d' = Ok (Some (reread t created updated subj d'))
    ∧ ((∃ old, select_ticket (id t) (tenantId t) d = Some old
         ∧ created = row_createdAt old ∧ updated = now
         ∧ subj = default (row_subject old) (subject t))
       ∨ (t_tickets d !! id t = None
          ∧ created = createdAt t ∧ updated = createdAt t ∧ subject t = Some subj)).
Proof.
  intros Hn Hv (p & s & row & Hp & Hs & Hw & Ht & _)%save_inv.
  apply write_inv in Hw as [_ Hcase].
  assert (∃ created updated subj,
    row = row_of t (enum_str p) (enum_str s) subj created updated ∧ 
    ((∃ old, select_ticket (id t) (tenantId t) d = Some old
         ∧ created = row_createdAt old ∧ updated = now
         ∧ subj = default (row_subject old) (subject t))
       ∨ (t_tickets d !! id t = None
          ∧ created = createdAt t ∧ updated = createdAt t ∧ subject t = Some subj)))
    as (created & updated & subj & -> & Hc) by naive_solver.
  exists created, updated, subj. split; [|done].
  unfold find_ticket. assert (select_ticket (id t) (tenantId t) d' = Some
    (row_of t (enum_str p) (enum_str s) subj created updated)) as ->.
  { apply select_inv. by rewrite Ht, lookup_insert_eq. }
  pose proof (toDomain_row t p s subj created updated d' Hp Hs Hn Hv) as Hd.
  destruct (loadChildren _ _ _) as [[[cs ts] ws] as_]. by rewrite Hd.
Qed.
(** *** Child rows *)

Lemma insert_comment_prefix c l : l `prefix_of` insert_comment c l.
Proof. unfold insert_comment. case_match; [done|]. by eexists. Qed.
Lemma insert_tag_prefix x l : l `prefix_of` insert_tag x l.
Proof. unfold insert_tag. case_match; [done|]. by eexists. Qed.
Lemma insert_watcher_prefix x l : l `prefix_of` insert_watcher x l.
Proof. unfold insert_watcher. case_match; [done|]. by eexists. Qed.

Lemma foldl_prefix {A} (ins : A → list A → list A) xs l :
  (∀ x l, l `prefix_of` ins x l) → l `prefix_of` foldl (λ l x, ins x l) l xs.
Proof.
  intros Hins. revert l. induction xs as [|x xs IH]; intros l; cbn; [done|].
  etrans; [apply Hins|apply IH].
Qed.

(** A save only ever appends to the child tables. *)
Lemma save_appends now t T d d' :
  save_ticket now t T d = Ok d' →
  t_comments d `prefix_of` t_comments d' ∧ t_tags d `prefix_of` t_tags d'
  ∧ t_watchers d `prefix_of` t_watchers d'.
Proof.
  intros (p & s & row & _ & _ & _ & _ & -> & -> & -> & _)%save_inv.
  split_and!; apply foldl_prefix;
    auto using insert_comment_prefix, insert_tag_prefix, insert_watcher_prefix.
Qed.

Lemma prefix_filter {A} (P : A → bool) l l' :
  l `prefix_of` l' → js_filter P l `prefix_of` js_filter P l'.
Proof. intros [k ->]. unfold js_filter. rewrite List.filter_app. by eexists. Qed.

Lemma prefix_elem {A} (l l' : list A) x : l `prefix_of` l' → x ∈ l → x ∈ l'.
Proof. intros [k ->] ?. apply elem_of_app. by left. Qed.

(** What a ticket that was found is made of. *)
Lemma find_inv i T d t :
  find_ticket i T d = Ok (Some t) →
  ∃ row p s, select_ticket i T d = Some row
    ∧ id t = row_id row ∧ tenantId t = T
    ∧ TicketNumber.create (row_ticketNumber row) = Ok (ticketNumber t)
    ∧ priority t = Some p ∧ status t = Some s
    ∧ domainEvents t = []
    ∧ let '(cs, ts, ws, as_) := loadChildren i T d in
      comments t = TicketMapper.commentToDomain <$> cs
      ∧ tags t = TicketMapper.tagToDomain <$> ts
      ∧ watchers t = TicketMapper.watcherToDomain <$> ws
      ∧ approvals t = TicketMapper.approvalToDomain <$> as_.
Proof.
  unfold find_ticket. destruct (select_ticket i T d) as [row|] eqn:Hrow; [|done].
  destruct (loadChildren i T d) as [[[cs ts] ws] as_]. unfold TicketMapper.toDomain.
  destruct (TicketNumber.create _) as [n|] eqn:En; [|done].
  destruct (TicketPriority.create _) as [p|]; [|done].
  destruct (TicketStatus.create _) as [s|]; [|done].
  destruct (TicketSource.create _) as [src|]; [|done].
  intros [= <-]. exists row, p, s. apply select_inv in Hrow as Hrow'.
  by destruct Hrow' as [_ <-].
Qed.

(** A save never removes a tag or a watcher row: a tag taken off a
    ticket with [removeTag] and a watcher taken off with [removeWatcher] are
    back the next time the ticket is found, with everything else that was
    loaded before. *)
Theorem removed_children_come_back now now' T d d' t0 t1 v u :
  find_ticket (id t0) T d = Ok (Some t0) →
  let t := final (removeWatcher now' u) (final (removeTag now' v) t0) in
  save_ticket now t T d = Ok d' →
  find_ticket (id t0) T d' = Ok (Some t1) →
  (∀ x, x ∈ tags t0 → x ∈ tags t1) ∧ (∀ x, x ∈ watchers t0 → x ∈ watchers t1).
Proof.
  intros Hf t (_ & Htags & Hwatchers)%save_appends Hf'.
  apply find_inv in Hf as (_ & _ & _ & _ & _ & _ & _ & _ & _ & _ & _ & Ht0 & Hw0 & _).
  apply find_inv in Hf' as (_ & _ & _ & _ & _ & _ & _ & _ & _ & _ & _ & Ht1 & Hw1 & _).
  rewrite Ht0, Ht1, Hw0, Hw1.
  split; intros x (y & -> & Hy)%list_elem_of_fmap; apply list_elem_of_fmap_2;
    (eapply prefix_elem; [|exact Hy]); by apply prefix_filter.
Qed.

(** *** Ticket numbers *)

(** Every ticket is numbered below the tenant's next sequence number. *)
Definition numbered_db d : Prop :=
  ∀ i r, t_tickets d !! i = Some r →
    ∃ k, 0 ≤ k < next_sequence (row_tenantId r) d ∧ row_ticketNumber r = Numbers.numbered k.

Definition rows_of T d : list (string * TicketRow) :=
  js_filter (λ kv : string * TicketRow, owns T kv.2) (map_to_list (t_tickets d)).

Lemma next_sequence_rows T d : next_sequence T d = Z.of_nat (length (rows_of T d)) + 1.
Proof. done. Qed.

Lemma number_taken_false t d :
  number_taken t d = false ↔
  ∀ i r, t_tickets d !! i = Some r → i ≠ id t → row_tenantId r = tenantId t →
    row_ticketNumber r ≠ ticketNumber t.
Proof.
  unfold number_taken. rewrite some_false. split.
  - intros Hf i r Hr Hi Ho Hn. apply elem_of_map_to_list in Hr.
    specialize (Hf _ Hr). cbn in Hf. apply String.eqb_neq in Hi.
    apply owns_true in Ho. apply String.eqb_eq in Hn. by rewrite Hi, Ho, Hn in Hf.
  - intros Hf [i r] Hr%elem_of_map_to_list. cbn.
    destruct (String.eqb i (id t)) eqn:Ei; [done|].
    destruct (owns (tenantId t) r) eqn:Eo; [|done]. cbn.
    apply String.eqb_neq. apply String.eqb_neq in Ei. apply owns_true in Eo. eauto.
Qed.

Lemma numbered_inj a b : 0 ≤ a → 0 ≤ b → Numbers.numbered a = Numbers.numbered b → a = b.
Proof.
  intros Ha Hb E%(f_equal Numbers.sequence_of).
  by rewrite !Numbers.sequence_of_numbered in E.
Qed.

(** As long as every ticket has been numbered from the sequence, the
    number made from [nextSequence] is free: creating a ticket never runs
    into the unique index on ticket numbers. *)
Theorem next_number_is_free t d :
  numbered_db d →
  TicketNumber.generate (next_sequence (tenantId t) d) "TKT" = Ok (ticketNumber t) →
  number_taken t d = false.
Proof.
  intros Hd Hg. apply Numbers.generate_numbered in Hg;
    [|rewrite next_sequence_rows; lia].
  apply number_taken_false. intros i r Hr _ HT E.
  destruct (Hd i r Hr) as (k & Hk & Hn). rewrite HT in Hk.
  rewrite Hn, Hg in E. apply numbered_inj in E; lia.
Qed.

(** The sequence is read before the insert: of two new tickets of a
    tenant numbered from the same [nextSequence], the second to be saved is
    refused by the unique index. *)
Theorem concurrent_creates_collide now1 now2 t1 t2 d d1 :
  id t1 ≠ id t2 → tenantId t1 = tenantId t2 →
  TicketNumber.generate (next_sequence (tenantId t1) d) "TKT" = Ok (ticketNumber t1) →
  TicketNumber.generate (next_sequence (tenantId t2) d) "TKT" = Ok (ticketNumber t2) →
  save_ticket now1 t1 (tenantId t1) d = Ok d1 →
  is_Some (priority t2) → is_Some (status t2) →
  save_ticket now2 t2 (tenantId t2) d1 = Throw unique_violation.
Proof.
  intros Hid HT Hg1 Hg2 (p & s & row & _ & _ & Hw & Ht & _)%save_inv [p2 Hp2] [s2 Hs2].
  unfold save_ticket, raw_values. rewrite Hp2, Hs2. unfold write_ticket.
  replace (number_taken t2 d1) with true; [done|].
  symmetry. apply not_false_iff_true. intros Hfree.
  apply write_keys in Hw as (_ & HrT & Hrn).
  eapply (proj1 (number_taken_false t2 d1) Hfree (id t1) row); try done.
  - by rewrite Ht, lookup_insert_eq.
  - congruence.
  - rewrite Hrn. rewrite HT in Hg1. congruence.
Qed.

(** *** Tenants *)

(** No statement issued for [T] has touched another tenant's tickets, SLAs or
    assignments. *)
Definition others_same (T : string) d d' : Prop :=
  (∀ i r, row_tenantId r ≠ T → t_tickets d !! i = Some r ↔ t_tickets d' !! i = Some r)
  ∧ js_filter (λ s, negb (String.eqb (TicketSLA.tenantId s) T)) (t_sla d')
    = js_filter (λ s, negb (String.eqb (TicketSLA.tenantId s) T)) (t_sla d)
  ∧ js_filter (λ a, negb (String.eqb (assignment_tenantId a) T)) (t_assignments d')
    = js_filter (λ a, negb (String.eqb (assignment_tenantId a) T)) (t_assignments d).

#[global] Instance others_same_preorder T : PreOrder (others_same T).
Proof.
  split; [done|]. intros a b c (H1 & H2 & H3) (H1' & H2' & H3').
  split_and!; [|congruence..].
  intros i r Hr. by rewrite (H1 i r Hr), (H1' i r Hr).
Qed.

Lemma insert_others_same (m : gmap string TicketRow) i T row :
  row_tenantId row = T →
  (∀ r, m !! i = Some r → row_tenantId r = T) →
  ∀ j r, row_tenantId r ≠ T → m !! j = Some r ↔ <[i := row]> m !! j = Some r.
Proof.
  intros Hrow Hold j r Hr. destruct (decide (i = j)) as [<-|Hne].
  - rewrite lookup_insert_eq. split; [|naive_solver].
    intros Hj. by apply Hold in Hj.
  - by rewrite lookup_insert_ne.
Qed.

Lemma save_others_same now t T d d' :
  tenantId t = T → save_ticket now t T d = Ok d' → others_same T d d'.
Proof.
  intros HT (p & s & row & _ & _ & Hw & Ht & _ & _ & _ & Hsla & Has)%save_inv.
  apply write_keys in Hw as Hk. destruct Hk as (_ & HrT & _).
  apply write_inv in Hw as [_ Hcase].
  unfold others_same. rewrite Hsla, Has. split_and!; [|done..].
  rewrite Ht. apply insert_others_same; [congruence|].
  destruct Hcase as [(old & [Hold HoT]%select_inv & _)|[Hnone _]]; [|naive_solver].
  rewrite Hold. congruence.
Qed.

Lemma delete_others_same now i T d : others_same T d (delete_ticket now i T d).
Proof.
  unfold delete_ticket. destruct (select_ticket i T d) as [row|] eqn:E; [|done].
  apply select_inv in E as [Hrow HT].
  split_and!; [|done..]. apply insert_others_same; [done|]. congruence.
Qed.

Lemma filter_fmap_same {A} (P : A → bool) (f : A → A) l :
  (∀ x, P (f x) = P x) → (∀ x, P x = true → f x = x) →
  js_filter P (f <$> l) = js_filter P l.
Proof.
  intros HP Hf. induction l as [|x l IH]; [done|]. cbn. rewrite HP.
  unfold js_filter in IH. destruct (P x) eqn:E; [|done]. by rewrite Hf, IH.
Qed.

Lemma upsert_sla_others_same now s T d : others_same T d (upsert_sla now s T d).
Proof.
  unfold upsert_sla. destruct (some _ _); (split_and!; [done| |done]); cbn.
  - apply filter_fmap_same; intros x; unfold sla_of;
      destruct (String.eqb (TicketSLA.tenantId x) T) eqn:E; cbn; rewrite ?E; try done.
    destruct (String.eqb (TicketSLA.ticketId x) _); cbn; by rewrite ?String.eqb_refl, ?E.
  - unfold js_filter. rewrite List.filter_app. cbn.
    by rewrite String.eqb_refl, app_nil_r.
Qed.

Lemma add_assignment_others_same a T d : others_same T d (add_assignment a T d).
Proof.
  split_and!; [done..|]. cbn. unfold js_filter. rewrite List.filter_app. cbn.
  by rewrite String.eqb_refl, app_nil_r.
Qed.
End repo.
End Repo.
