(* ===== verification/TicketStore.v ===== *)
(** * What the ticket services share

    The repository as effects on the world, the event publisher
    ([ticket-event.publisher.ts]), the [persist] and [getOrThrow] helpers the
    services repeat, and the modules they call, which are parameters
    ([TicketDeps]). *)

From S2P Require Import Prelude Platform TicketValues Ticket TicketSla.
From S2P Require Import TicketRepo.
Open Scope Z_scope.

Abbreviation W := (World TicketDb).

(** The tenant's SLA settings ([SlaSettings]), in seconds. *)
Record SlaSettings := {
  responseTimeTarget : Z;
  resolutionTimeTarget : Z;
  businessHoursOnly : bool;
}.

(** What the services read of a customer: its address, and whether it was made
    up by an integration ([metadata.syntheticEmail]). *)
Record CustomerView := {
  customer_email : option string;
  syntheticEmail : bool;
}.

(** The other modules the ticket services call.  Reads are functions of their
    arguments.  Workflow triggers run with effects, but what they do to tickets
    happens in background promises: before they return, no ticket is written. *)
Class TicketDeps := {
  customer_findById : string → string → result CustomerView;
  conversation_split : string → option string → option string → result string;
  getSlaSettings : string → result SlaSettings;
  getHolidays : string → list Z;
  evaluateEventTriggers : string → string → list (string * json) → M W unit;
  evaluateEventTriggers_db : ∀ tenant trigger ctx,
    keeps (same db) (evaluateEventTriggers tenant trigger ctx);
}.
#[export] Hint Resolve evaluateEventTriggers_db : keeps.

(** *** Domain events on the wire *)
Definition event_name (e : TicketEvent) : string :=
  match e with
  | TicketCreatedEvent _ _ _ _ _ => "ticket.created"
  | TicketUpdatedEvent _ _ _ _ => "ticket.updated"
  | TicketAssignedEvent _ _ _ _ => "ticket.assigned"
  | TicketTransferredEvent _ _ _ _ => "ticket.transferred"
  | TicketCommentedEvent _ _ _ _ _ => "ticket.commented"
  | TicketEscalatedEvent _ _ _ _ => "ticket.escalated"
  | TicketResolvedEvent _ _ _ => "ticket.resolved"
  | TicketClosedEvent _ _ _ => "ticket.closed"
  | TicketReopenedEvent _ _ _ => "ticket.reopened"
  | TicketApprovalRequestedEvent _ _ _ _ _ => "ticket.approval.requested"
  | TicketApprovedEvent _ _ _ _ => "ticket.approved"
  | TicketRejectedEvent _ _ _ _ => "ticket.rejected"
  | SlaBreachedEvent _ _ _ _ => "sla.breached"
  end.

Definition getAggregateId (e : TicketEvent) : string :=
  match e with
  | TicketCreatedEvent _ i _ _ _ | TicketUpdatedEvent _ i _ _
  | TicketAssignedEvent _ i _ _ | TicketTransferredEvent _ i _ _
  | TicketCommentedEvent _ i _ _ _ | TicketEscalatedEvent _ i _ _
  | TicketResolvedEvent _ i _ | TicketClosedEvent _ i _
  | TicketReopenedEvent _ i _ | TicketApprovalRequestedEvent _ i _ _ _
  | TicketApprovedEvent _ i _ _ | TicketRejectedEvent _ i _ _
  | SlaBreachedEvent _ i _ _ => i
  end.

Definition ANALYTICS_EVENTS : list string :=
  ["ticket.created"; "ticket.updated"; "ticket.assigned"; "ticket.transferred";
   "ticket.commented"; "ticket.escalated"; "ticket.resolved"; "ticket.closed";
   "ticket.reopened"; "ticket.approval.requested"; "ticket.approved";
   "ticket.rejected"; "sla.breached"].

(** The payload: the event's own fields, without the tenant. *)
Definition event_payload (e : TicketEvent) : list (string * json) :=
  match e with
  | TicketCreatedEvent _ i t p s => [("ticketId", JStr i)] ++ opt_field "title" t
      ++ [("priority", JStr p); ("status", JStr s)]
  | TicketUpdatedEvent _ i s p => [("ticketId", JStr i); ("status", JStr s); ("priority", JStr p)]
  | TicketAssignedEvent _ i a t => [("ticketId", JStr i); ("agentId", JStr a)] ++ opt_field "teamId" t
  | TicketTransferredEvent _ i f t => [("ticketId", JStr i)] ++ opt_field "fromAgentId" f ++ [("toAgentId", JStr t)]
  | TicketCommentedEvent _ i c a v => [("ticketId", JStr i); ("commentId", JStr c); ("authorId", JStr a); ("visibility", JStr v)]
  | TicketEscalatedEvent _ i r p => [("ticketId", JStr i); ("reason", JStr r); ("priority", JStr p)]
  | TicketResolvedEvent _ i b => [("ticketId", JStr i); ("resolvedBy", JStr b)]
  | TicketClosedEvent _ i b => [("ticketId", JStr i)] ++ opt_field "closedBy" b
  | TicketReopenedEvent _ i b => [("ticketId", JStr i)] ++ opt_field "reopenedBy" b
  | TicketApprovalRequestedEvent _ i a ap ty => [("ticketId", JStr i); ("approvalId", JStr a); ("approverId", JStr ap); ("type", JStr ty)]
  | TicketApprovedEvent _ i a ap => [("ticketId", JStr i); ("approvalId", JStr a); ("approverId", JStr ap)]
  | TicketRejectedEvent _ i a ap => [("ticketId", JStr i); ("approvalId", JStr a); ("approverId", JStr ap)]
  | SlaBreachedEvent _ i s b => [("ticketId", JStr i); ("slaId", JStr s); ("breachType", JStr b)]
  end.

Section store.
Context `{Env, SqlSort}.

(** *** [ITicketRepository] *)
Definition findById (id tenantId : string) : M W (option Ticket) :=
  d ← gets db;
  of_result (find_ticket id tenantId d).

(** One transaction: the tables change only if it commits. *)
Definition save (t : Ticket) (tenantId : string) : M W unit :=
  now ← new_Date;
  d ← gets db;
  d' ← of_result (save_ticket now t tenantId d);
  assign db d'.

Definition repo_delete (id tenantId : string) : M W unit :=
  now ← new_Date;
  modify (λ w, w <| db ::= delete_ticket now id tenantId |>).

Definition nextSequence (tenantId : string) : M W Z :=
  gets (λ w, next_sequence tenantId (db w)).

Definition getSla (tenantId ticketId : string) : M W (option TicketSLA) :=
  gets (λ w, get_sla tenantId ticketId (db w)).

Definition upsertSla (s : TicketSLA) (tenantId : string) : M W unit :=
  now ← new_Date;
  modify (λ w, w <| db ::= upsert_sla now s tenantId |>).

Definition findDueSlas (tenantId : option string) (now : Z) (limit : nat)
    : M W (list TicketSLA) :=
  gets (λ w, find_due_slas tenantId now limit (db w)).

Definition getApproval (tenantId approvalId : string) : M W (option TicketApproval) :=
  gets (λ w, get_approval tenantId approvalId (db w)).

Definition saveApproval (a : TicketApproval) (tenantId : string) : M W unit :=
  now ← new_Date;
  modify (λ w, w <| db ::= save_approval now a tenantId |>).

Definition addAssignment (a : TicketAssignment) (tenantId : string) : M W unit :=
  modify (λ w, w <| db ::= add_assignment a tenantId |>).

(** *** [TicketEventPublisher] *)
Definition publish (event : TicketEvent) : M W unit :=
  let eventName := event_name event in
  try_catch
    (when (bool_decide (eventName ∈ ANALYTICS_EVENTS))
       (addJob TICKET "ticket-analytics-job"
          [("ticketId", JStr (getAggregateId event));
           ("eventName", JStr eventName);
           ("payload", JObj (event_payload event))] (λ o, o)))
    (λ _, mret tt).

Definition publishAll (events : list TicketEvent) : M W unit :=
  for_each events publish.

(** *** Helpers of the services *)

(** Save, publish the pending events, clear them, broadcast. *)
Definition persist (t : Ticket) (tenantId : string) : M W Ticket :=
  save t tenantId ;;
  publishAll (domainEvents t) ;;
  t ← exec clearEvents t;
  broadcast tenantId (id t) ;;
  mret t.

(** The same without the broadcast: the approval, comment and escalation
    services write it inline. *)
Definition persist_quietly (t : Ticket) (tenantId : string) : M W Ticket :=
  save t tenantId ;;
  publishAll (domainEvents t) ;;
  exec clearEvents t.

Definition ticket_not_found (id : string) : exn :=
  Exn NotFoundException ("Ticket with ID " +:+ id +:+ " not found").

Definition getOrThrow (tenantId id : string) : M W Ticket :=
  t ← findById id tenantId;
  match t with
  | Some t => mret t
  | None => throw (ticket_not_found id)
  end.

(** [TicketService.runTransition]: refused transitions become a 400. *)
Definition runTransition {A} (fn : M W A) : M W A :=
  try_catch fn (λ err,
    if decide (exn_kind err = InvalidTicketTransitionError)
    then throw (Exn BadRequestException (exn_message err))
    else throw err).
End store.

(** ** Frames *)
Section frames.
Context `{Env, SqlSort}.

Lemma findById_db i t : keeps (same db) (findById i t).
Proof. unfold findById. solve_keeps. Qed.
Lemma getOrThrow_db t i : keeps (same db) (getOrThrow t i).
Proof. unfold getOrThrow, findById. solve_keeps. Qed.
Lemma publish_db e : keeps (same db) (publish e).
Proof. unfold publish. solve_keeps. Qed.
Lemma publishAll_db l : keeps (same db) (publishAll l).
Proof. unfold publishAll, publish. solve_keeps. Qed.
End frames.
#[export] Hint Resolve findById_db getOrThrow_db publish_db publishAll_db : keeps.
