(* ===== verification/TicketSlaService.v ===== *)
(** * The SLA service

    [src/modules/tickets/services/ticket-sla.service.ts]: configuring the
    clock of a ticket, pausing and resuming it, and the breach sweep of the
    [sla-monitor-job]. *)

From S2P Require Import Prelude Platform JsDate BusinessHours TicketValues.
From S2P Require Import Ticket TicketSla TicketRepo TicketStore.
Open Scope Z_scope.

Record SlaTarget := { responseMinutes : Z; resolutionMinutes : Z }.

Definition DEFAULT_SLA_MATRIX (p : TicketPriorityEnum) : SlaTarget :=
  match p with
  | TicketPriorityEnum.LOW => {| responseMinutes := 480; resolutionMinutes := 5760 |}
  | TicketPriorityEnum.MEDIUM => {| responseMinutes := 240; resolutionMinutes := 2880 |}
  | TicketPriorityEnum.HIGH => {| responseMinutes := 60; resolutionMinutes := 1440 |}
  | TicketPriorityEnum.URGENT => {| responseMinutes := 30; resolutionMinutes := 480 |}
  | TicketPriorityEnum.CRITICAL => {| responseMinutes := 15; resolutionMinutes := 240 |}
  end.

Definition SLA_SWEEP_BATCH : nat := 500.

Record ConfigureSlaDto := {
  dto_responseMinutes : option Z;
  dto_resolutionMinutes : option Z;
  dto_businessHours : option bool;
  dto_policyId : option string;
}.
Definition no_sla_dto : ConfigureSlaDto := Build_ConfigureSlaDto None None None None.

(** [Math.round(seconds / 60)] *)
Definition round_minutes (seconds : Z) : Z := (2 * seconds + 60) / 120.

(** The target pair: the tenant's for [MEDIUM], the matrix's otherwise,
    overridden by the request. *)
Definition sla_targets (p : TicketPriorityEnum) (tenantSla : SlaSettings)
    (dto : ConfigureSlaDto) : SlaTarget :=
  let matrix := DEFAULT_SLA_MATRIX p in
  let isBaselinePriority := bool_decide (p = TicketPriorityEnum.MEDIUM) in
  let defaultResponse := if isBaselinePriority
    then round_minutes (responseTimeTarget tenantSla) else responseMinutes matrix in
  let defaultResolution := if isBaselinePriority
    then round_minutes (resolutionTimeTarget tenantSla) else resolutionMinutes matrix in
  {| responseMinutes := nullish (dto_responseMinutes dto) defaultResponse;
     resolutionMinutes := nullish (dto_resolutionMinutes dto) defaultResolution |}.

(** The calendar with the tenant's holidays added. *)
Definition holiday_calendar (dbHolidays : list Z) : BusinessCalendar :=
  match dbHolidays with
  | [] => DEFAULT_BUSINESS_CALENDAR
  | _ => DEFAULT_BUSINESS_CALENDAR
      <| holidays ::= λ h, h ∪ list_to_set (isoDate <$> dbHolidays) |>
  end.

Definition due_at (businessHours : bool) (calendar : BusinessCalendar)
    (base minutes : Z) : Z :=
  if businessHours then addBusinessMinutes base minutes calendar
  else addCalendarMinutes base minutes.

Section sla_service.
Context `{Env, SqlSort, TicketDeps}.

Definition configureForTicket (tenantId : string) (ticket : Ticket)
    (dto : ConfigureSlaDto) : M W TicketSLA :=
  '(_, p) ← call priority_value ticket;
  tenantSla ← of_result (getSlaSettings tenantId);
  let target := sla_targets p tenantSla dto in
  let businessHours := nullish (dto_businessHours dto) (businessHoursOnly tenantSla) in
  let base := openedAt ticket in
  let calendar := if businessHours then holiday_calendar (getHolidays tenantId)
                  else DEFAULT_BUSINESS_CALENDAR in
  existing ← getSla tenantId (id ticket);
  fresh ← match existing with
          | Some e => if truthy (TicketSLA.id e) then mret (TicketSLA.id e)
                      else randomUUID
          | None => randomUUID
          end;
  now ← new_Date;
  let sla := {|
    TicketSLA.id := fresh; TicketSLA.tenantId := tenantId;
    TicketSLA.ticketId := id ticket;
    TicketSLA.policyId := match dto_policyId dto with
      | Some q => Some q | None => e ← existing; TicketSLA.policyId e end;
    TicketSLA.responseDueAt := Some (due_at businessHours calendar base (responseMinutes target));
    TicketSLA.resolutionDueAt := Some (due_at businessHours calendar base (resolutionMinutes target));
    TicketSLA.breached := default false (TicketSLA.breached <$> existing);
    TicketSLA.breachedAt := e ← existing; TicketSLA.breachedAt e;
    TicketSLA.remainingSeconds := None;
    TicketSLA.pausedAt := e ← existing; TicketSLA.pausedAt e;
    TicketSLA.pausedSeconds := default 0 (TicketSLA.pausedSeconds <$> existing);
    TicketSLA.createdAt := default now (TicketSLA.createdAt <$> existing);
    TicketSLA.updatedAt := now |} in
  at_ ← new_Date;
  sla ← exec (TicketSLA.recalculateRemaining at_ at_) sla;
  upsertSla sla tenantId ;;
  mret sla.

Definition getForTicket (tenantId ticketId : string) : M W TicketSLA :=
  sla ← getSla tenantId ticketId;
  match sla with
  | Some s => mret s
  | None => throw (Exn NotFoundException ("No SLA configured for ticket " +:+ ticketId))
  end.

(** The shape of the three methods below: load, skip a missing or breached
    SLA, run [m] on it, save. *)
Definition on_live_sla (tenantId ticketId : string) (m : Z → M TicketSLA unit)
    : M W unit :=
  sla ← getSla tenantId ticketId;
  match sla with
  | None => mret tt
  | Some s =>
      if TicketSLA.breached s then mret tt
      else
        at_ ← new_Date;
        s' ← exec (m at_) s;
        upsertSla s' tenantId
  end.

Definition refreshRemaining (tenantId ticketId : string) : M W unit :=
  on_live_sla tenantId ticketId (λ at_, TicketSLA.recalculateRemaining at_ at_).

Definition pauseSlaForTicket (tenantId ticketId : string) : M W unit :=
  on_live_sla tenantId ticketId (λ at_, TicketSLA.pause at_ at_).

Definition resumeSlaForTicket (tenantId ticketId : string) : M W unit :=
  on_live_sla tenantId ticketId (λ at_,
    TicketSLA.resume at_ at_ ;; TicketSLA.recalculateRemaining at_ at_).

(** *** The breach sweep *)

(** What the sweep decides about one due SLA, given its ticket. *)
Definition sweep_breach (ticket : Ticket) (sla : TicketSLA) (now : Z)
    : result (option SlaBreachType) :=
  match status ticket with
  | None => Throw (undefined_read "isResolved")
  | Some s =>
      let resolved := TicketStatus.isResolved s || TicketStatus.isTerminal s in
      let responded := bool_decide (is_Some (firstResponseAt ticket)) in
      Ok (TicketSLA.detectBreach sla now responded resolved)
  end.

(** The body of the loop, for an SLA whose breach is [breachType]. *)
Definition flag_breach (now : Z) (sla : TicketSLA) (ticket : Ticket)
    (breachType : SlaBreachType) : M W unit :=
  stamp ← new_Date;
  sla ← exec (TicketSLA.markBreached now stamp) sla;
  let tenant := TicketSLA.tenantId sla in
  upsertSla sla tenant ;;
  publish (SlaBreachedEvent tenant (id ticket) (TicketSLA.id sla)
             (SlaBreachType_str breachType)) ;;
  addJob TICKET "ticket-escalation-job"
    [("ticketId", JStr (id ticket)); ("tenantId", JStr tenant);
     ("reason", JStr ("SLA_" +:+ SlaBreachType_str breachType +:+ "_BREACH"))]
    (λ o, o) ;;
  match assignedAgentId ticket with
  | Some agentId => when (truthy agentId)
      (addJob NOTIFICATION "sla-breach"
        [("tenantId", JStr tenant); ("ticketId", JStr (id ticket));
         ("ticketNumber", JStr (ticketNumber ticket));
         ("breachType", JStr (SlaBreachType_str breachType));
         ("agentId", JStr agentId)] (λ o, o))
  | None => mret tt
  end ;;
  audit_log tenant None "SLA_BREACH"
    ("Ticket " +:+ id ticket +:+ " breached " +:+ SlaBreachType_str breachType +:+ " SLA").

Definition sweep_one (now : Z) (breached : Z) (sla : TicketSLA) : M W Z :=
  ticket ← findById (TicketSLA.ticketId sla) (TicketSLA.tenantId sla);
  match ticket with
  | None => mret breached
  | Some ticket =>
      breachType ← of_result (sweep_breach ticket sla now);
      match breachType with
      | None => mret breached
      | Some b => flag_breach now sla ticket b ;; mret (breached + 1)
      end
  end.

Definition runBreachSweep (tenantId : option string) (now : Z) : M W Z :=
  dueSlas ← findDueSlas tenantId now SLA_SWEEP_BATCH;
  fold_each dueSlas 0 (sweep_one now).
End sla_service.
