(* ===== verification/TicketService.v ===== *)
(** * The ticket service

    [src/modules/tickets/services/ticket.service.ts]: the use cases of a
    ticket.  Every method loads the aggregate, runs one of its operations,
    persists it, and then tells the SLA service, the audit log, the workflow
    engine and the customer, in the order of the code. *)

From S2P Require Import Prelude Platform TicketValues Ticket TicketSla.
From S2P Require Import TicketRepo TicketStore TicketSlaService.
Import TicketStatusEnum.
Open Scope Z_scope.

Record CreateTicketDto := {
  c_subject : string;
  c_description : option string;
  c_customerId : option string;
  c_conversationId : option string;
  c_categoryId : option string;
  c_assignedAgentId : option string;
  c_assignedTeamId : option string;
  c_priority : option string;
  c_source : option string;
  c_metadata : option (gmap string json);
}.

Record UpdateTicketDto := {
  u_subject : option string;
  u_description : option string;
  u_priority : option string;
  u_status : option string;
  u_categoryId : option string;
  u_metadata : option (gmap string json);
}.

Record SplitTicketDto := { s_messageId : string; s_newSubject : option string }.

Record BulkResult := {
  bulk_updated : Z;
  bulk_failed : Z;
  bulk_errors : gmap string string;
}.

(** [x !== undefined ? f(x) : undefined] as the value of a key that is always
    present. *)
Definition maybe_create {A} (f : string → result A) (x : option string)
    : result (patch A) :=
  match x with
  | None => Ok Undef
  | Some raw => result_map Put (f raw)
  end.

(** The object literal [update] builds from its DTO: every key is present. *)
Definition update_literal (dto : UpdateTicketDto) (ticket : Ticket) : result TicketPatch :=
  match maybe_create TicketPriority.create (u_priority dto) with
  | Throw e => Throw e
  | Ok p =>
  match maybe_create TicketStatus.create (u_status dto) with
  | Throw e => Throw e
  | Ok s => Ok
      {| p_subject := present (u_subject dto);
         p_description := present (u_description dto);
         p_priority := p;
         p_categoryId := present (u_categoryId dto);
         p_status := s;
         p_metadata := match u_metadata dto with
                       | Some m => Put (m ∪ default ∅ (metadata ticket))
                       | None => Undef
                       end |}
  end end.

(** [ticket.update({ status })] *)
Definition status_patch (s : TicketStatusEnum) : TicketPatch :=
  Build_TicketPatch Absent Absent Absent Absent (Put s) Absent.

Definition SLA_PAUSE_STATUSES : list TicketStatusEnum :=
  [WAITING_CUSTOMER; WAITING_INTERNAL; APPROVAL_PENDING].
Definition SLA_RESUME_STATUSES : list TicketStatusEnum :=
  [IN_PROGRESS; ASSIGNED; REOPENED].

Section ticket_service.
Context `{Env, SqlSort, TicketDeps}.

Definition evaluateWorkflowTriggers (tenantId triggerType : string)
    (context : list (string * json)) : M W unit :=
  try_catch (evaluateEventTriggers tenantId triggerType context) (λ _, mret tt).

(** The context object of a trigger: it reads [.value] of the status and of
    the priority. *)
Definition trigger_context (ticket : Ticket) : M W (list (string * json)) :=
  '(_, s) ← call status_value ticket;
  '(_, p) ← call priority_value ticket;
  mret ([("id", JStr (id ticket)); ("ticketId", JStr (id ticket));
         ("ticketNumber", JStr (ticketNumber ticket));
         ("status", JStr (enum_str s)); ("priority", JStr (enum_str p))]
        ++ opt_field "customerId" (customerId ticket)
        ++ opt_field "conversationId" (conversationId ticket)
        ++ opt_field "categoryId" (categoryId ticket)).

Definition notifyCustomer (tenantId : string) (ticket : Ticket)
    (jobName : string) (extraPayload : list (string * json)) : M W unit :=
  match js_or_undef (customerId ticket) with
  | None => mret tt
  | Some cid =>
      try_catch
        (customer ← of_result (customer_findById tenantId cid);
         match js_or_undef (customer_email customer) with
         | Some email => when (negb (syntheticEmail customer))
             (addJob NOTIFICATION jobName
                ([("tenantId", JStr tenantId); ("customerEmail", JStr email);
                  ("ticketId", JStr (id ticket));
                  ("ticketNumber", JStr (ticketNumber ticket))]
                 ++ extraPayload) (λ o, o))
         | None => mret tt
         end)
        (λ _, mret tt)
  end.

(** *** Creation *)
Definition create (tenantId : string) (dto : CreateTicketDto)
    (userId : option string) : M W Ticket :=
  match js_or_undef (c_customerId dto) with
  | Some cid => of_result (customer_findById tenantId cid) ;; mret tt
  | None => mret tt
  end ;;
  sequence ← nextSequence tenantId;
  ticketId ← randomUUID;
  let initialStatus := if truthy (c_assignedAgentId dto) then ASSIGNED else OPEN in
  number ← of_result (TicketNumber.generate sequence "TKT");
  p ← of_result (TicketPriority.create (js_or (c_priority dto) "MEDIUM"));
  s ← of_result (TicketStatus.create (enum_str initialStatus));
  src ← of_result (TicketSource.create (js_or (c_source dto) "MANUAL"));
  now ← new_Date;
  let ticket := Ticket.create now ticketId
    {| TicketProps.tenantId := tenantId; TicketProps.ticketNumber := number;
       TicketProps.customerId := c_customerId dto;
       TicketProps.conversationId := c_conversationId dto;
       TicketProps.assignedAgentId := c_assignedAgentId dto;
       TicketProps.assignedTeamId := c_assignedTeamId dto;
       TicketProps.categoryId := c_categoryId dto;
       TicketProps.priority := p; TicketProps.status := s;
       TicketProps.source := src; TicketProps.subject := Some (c_subject dto);
       TicketProps.description := c_description dto;
       TicketProps.resolutionSummary := None; TicketProps.openedAt := None;
       TicketProps.firstResponseAt := None; TicketProps.resolvedAt := None;
       TicketProps.closedAt := None;
       TicketProps.metadata := Some (default ∅ (c_metadata dto));
       TicketProps.createdAt := None; TicketProps.updatedAt := None;
       TicketProps.deletedAt := None; TicketProps.version := None;
       TicketProps.comments := None; TicketProps.tags := None;
       TicketProps.watchers := None; TicketProps.approvals := None |} in
  ticket ← persist ticket tenantId;
  configureForTicket tenantId ticket no_sla_dto ;;
  match js_or_undef (c_assignedTeamId dto) with
  | Some team => when (negb (truthy (c_assignedAgentId dto)))
      (addJob TICKET "ticket-assignment-job"
         ([("ticketId", JStr ticketId); ("teamId", JStr team)]
          ++ opt_field "userId" userId) (λ o, o))
  | None => mret tt
  end ;;
  audit_log tenantId userId "TICKET_CREATE"
    ("Created ticket " +:+ ticketNumber ticket +:+ " (" +:+ ticketId +:+ ")") ;;
  ctx ← trigger_context ticket;
  evaluateWorkflowTriggers tenantId "TICKET_CREATED"
    (ctx ++ [("source", JStr (enum_str (source ticket)))]) ;;
  notifyCustomer tenantId ticket "ticket-created" (opt_field "subject" (subject ticket)) ;;
  mret ticket.

(** *** The generic update *)
Definition update (tenantId id_ : string) (dto : UpdateTicketDto)
    (userId : option string) : M W Ticket :=
  ticket ← getOrThrow tenantId id_;
  priorityChanged ← match u_priority dto with
    | None => mret false
    | Some raw => '(_, p) ← call priority_value ticket;
                  mret (negb (String.eqb raw (enum_str p)))
    end;
  ticket ← runTransition
    (props ← of_result (update_literal dto ticket);
     now ← new_Date;
     exec (Ticket.update now props) ticket);
  ticket ← persist ticket tenantId;
  when priorityChanged (configureForTicket tenantId ticket no_sla_dto ;; mret tt) ;;
  match u_status dto ≫= parse_enum with
  | Some s =>
      if bool_decide (s ∈ SLA_PAUSE_STATUSES) then pauseSlaForTicket tenantId id_
      else when (bool_decide (s ∈ SLA_RESUME_STATUSES))
             (resumeSlaForTicket tenantId id_)
  | None => mret tt
  end ;;
  audit_log tenantId userId "TICKET_UPDATE" ("Updated ticket " +:+ id_) ;;
  ctx ← trigger_context ticket;
  evaluateWorkflowTriggers tenantId "TICKET_UPDATED" ctx ;;
  mret ticket.

(** *** Transitions

    Load, run one method of the aggregate at the current instant, persist. *)
Definition transition (tenantId id_ : string) (m : Z → M Ticket unit) : M W Ticket :=
  ticket ← getOrThrow tenantId id_;
  ticket ← runTransition (now ← new_Date; exec (m now) ticket);
  persist ticket tenantId.

Definition start (tenantId id_ : string) (userId : option string) : M W Ticket :=
  ticket ← transition tenantId id_ Ticket.start;
  audit_log tenantId userId "TICKET_START" ("Started work on ticket " +:+ id_) ;;
  mret ticket.

Definition waitForCustomer (tenantId id_ : string) (userId : option string)
    : M W Ticket :=
  ticket ← transition tenantId id_
             (λ now, Ticket.update now (status_patch WAITING_CUSTOMER));
  pauseSlaForTicket tenantId id_ ;;
  audit_log tenantId userId "TICKET_WAITING_CUSTOMER"
    ("Ticket " +:+ id_ +:+ " marked as waiting for customer — SLA clock paused") ;;
  mret ticket.

Definition resumeFromWaiting (tenantId id_ : string) (userId : option string)
    : M W Ticket :=
  ticket ← transition tenantId id_
             (λ now, Ticket.update now (status_patch IN_PROGRESS));
  resumeSlaForTicket tenantId id_ ;;
  audit_log tenantId userId "TICKET_RESUME_FROM_WAITING"
    ("Ticket " +:+ id_ +:+ " resumed from waiting — SLA clock resumed") ;;
  mret ticket.

Definition resolve (tenantId id_ : string) (resolutionSummary userId : option string)
    : M W Ticket :=
  ticket ← transition tenantId id_
             (λ now, Ticket.resolve now resolutionSummary userId);
  refreshRemaining tenantId id_ ;;
  audit_log tenantId userId "TICKET_RESOLVE" ("Resolved ticket " +:+ id_) ;;
  notifyCustomer tenantId ticket "ticket-resolution"
    (opt_field "summary" resolutionSummary) ;;
  mret ticket.

Definition close (tenantId id_ : string) (userId : option string) : M W Ticket :=
  ticket ← transition tenantId id_ (λ now, Ticket.close now userId);
  audit_log tenantId userId "TICKET_CLOSE" ("Closed ticket " +:+ id_) ;;
  notifyCustomer tenantId ticket "ticket-closed" [] ;;
  mret ticket.

Definition reopen (tenantId id_ : string) (userId : option string) : M W Ticket :=
  ticket ← transition tenantId id_ (λ now, Ticket.reopen now userId);
  configureForTicket tenantId ticket no_sla_dto ;;
  audit_log tenantId userId "TICKET_REOPEN" ("Reopened ticket " +:+ id_) ;;
  notifyCustomer tenantId ticket "ticket-reopened" [] ;;
  mret ticket.

Definition cancel (tenantId id_ : string) (userId : option string) : M W Ticket :=
  ticket ← transition tenantId id_ Ticket.cancel;
  audit_log tenantId userId "TICKET_CANCEL" ("Cancelled ticket " +:+ id_) ;;
  notifyCustomer tenantId ticket "ticket-cancelled" [] ;;
  mret ticket.

Definition delete (tenantId id_ : string) (userId : option string) : M W bool :=
  ticket ← getOrThrow tenantId id_;
  now ← new_Date;
  exec (Ticket.softDelete now) ticket ;;
  repo_delete id_ tenantId ;;
  audit_log tenantId userId "TICKET_DELETE" ("Soft deleted ticket " +:+ id_) ;;
  mret true.

(** *** Tags and watchers *)
Definition addTag (tenantId id_ tagValue : string) (color : option string) : M W Ticket :=
  ticket ← getOrThrow tenantId id_;
  tid ← randomUUID;
  now ← new_Date;
  let x := {| tag_id := tid; tag_tenantId := tenantId; tag_ticketId := id_;
              tag := tagValue; color := color;
              tag_createdAt := now; tag_updatedAt := now |} in
  ticket ← exec (Ticket.addTag now x) ticket;
  persist ticket tenantId.

Definition removeTag (tenantId id_ tagValue : string) : M W Ticket :=
  ticket ← getOrThrow tenantId id_;
  now ← new_Date;
  ticket ← exec (Ticket.removeTag now tagValue) ticket;
  persist ticket tenantId.

Definition watch (tenantId id_ uid : string)
    (preferences : option (gmap string json)) : M W Ticket :=
  ticket ← getOrThrow tenantId id_;
  wid ← randomUUID;
  now ← new_Date;
  let x := {| watcher_id := wid; watcher_tenantId := tenantId;
              watcher_ticketId := id_; userId := uid;
              notificationPreferences := default ∅ preferences;
              watcher_createdAt := now; watcher_updatedAt := now |} in
  ticket ← exec (Ticket.addWatcher now x) ticket;
  persist ticket tenantId.

Definition unwatch (tenantId id_ uid : string) : M W Ticket :=
  ticket ← getOrThrow tenantId id_;
  now ← new_Date;
  ticket ← exec (Ticket.removeWatcher now uid) ticket;
  persist ticket tenantId.

(** *** Merge and split *)
Definition merge (tenantId sourceId targetId : string) (userId : option string)
    : M W Ticket :=
  source ← getOrThrow tenantId sourceId;
  target ← getOrThrow tenantId targetId;
  merged ← of_result (spread_array (default ∅ (metadata target) !! "mergedTicketIds"));
  now ← new_Date;
  target ← exec (setMetadata now
              {["mergedTicketIds" := JArr (merged ++ [JStr sourceId])]}) target;
  source ← exec (setMetadata now {["mergedInto" := JStr targetId]}) source;
  '(_, terminal) ← call (with_status "isTerminal"
                           (λ s, Ok (TicketStatus.isTerminal s))) source;
  source ← (if (terminal : bool) then mret source
            else exec (Ticket.close now userId) source);
  target ← persist target tenantId;
  persist source tenantId ;;
  audit_log tenantId userId "TICKET_MERGE"
    ("Merged ticket " +:+ sourceId +:+ " into " +:+ targetId) ;;
  mret target.

Definition split (tenantId id_ : string) (dto : SplitTicketDto)
    (userId : option string) : M W Ticket :=
  parent ← getOrThrow tenantId id_;
  conversation ← of_result (conversation_split tenantId (conversationId parent) userId);
  sequence ← nextSequence tenantId;
  splitId ← randomUUID;
  number ← of_result (TicketNumber.generate sequence "TKT");
  '(_, p) ← call (with_priority "value" Ok) parent;
  now ← new_Date;
  let splitTicket := Ticket.create now splitId
    {| TicketProps.tenantId := tenantId; TicketProps.ticketNumber := number;
       TicketProps.customerId := customerId parent;
       TicketProps.conversationId := Some conversation;
       TicketProps.assignedAgentId := assignedAgentId parent;
       TicketProps.assignedTeamId := assignedTeamId parent;
       TicketProps.categoryId := categoryId parent;
       TicketProps.priority := p; TicketProps.status := OPEN;
       TicketProps.source := source parent;
       TicketProps.subject := Some (js_or (s_newSubject dto)
         ("Split: " +:+ default "undefined" (subject parent)));
       TicketProps.description := Some
         ("Split off from ticket " +:+ ticketNumber parent +:+ " on message "
          +:+ s_messageId dto);
       TicketProps.resolutionSummary := None; TicketProps.openedAt := None;
       TicketProps.firstResponseAt := None; TicketProps.resolvedAt := None;
       TicketProps.closedAt := None;
       TicketProps.metadata := Some
         {["splitFromTicketId" := JStr id_; "splitFromMessageId" := JStr (s_messageId dto)]};
       TicketProps.createdAt := None; TicketProps.updatedAt := None;
       TicketProps.deletedAt := None; TicketProps.version := None;
       TicketProps.comments := None; TicketProps.tags := None;
       TicketProps.watchers := None; TicketProps.approvals := None |} in
  let parentMetadata := default ∅ (metadata parent) in
  splits ← of_result (spread_array (parentMetadata !! "splitTicketIds"));
  parent ← exec (setMetadata now
    (<["splitTicketIds" := JArr (splits ++ [JStr splitId])]> parentMetadata)) parent;
  splitTicket ← persist splitTicket tenantId;
  persist parent tenantId ;;
  configureForTicket tenantId splitTicket no_sla_dto ;;
  audit_log tenantId userId "TICKET_SPLIT"
    ("Split ticket " +:+ splitId +:+ " from parent ticket " +:+ id_) ;;
  ctx ← trigger_context splitTicket;
  evaluateWorkflowTriggers tenantId "TICKET_CREATED"
    (ctx ++ [("source", JStr (enum_str (source splitTicket)))]) ;;
  mret splitTicket.

(** *** Bulk status *)
Definition bulk_one (tenantId : string) (status : TicketStatusEnum)
    (userId : option string) (id_ : string) : M W Ticket :=
  match status with
  | RESOLVED => resolve tenantId id_ None userId
  | CLOSED => close tenantId id_ userId
  | CANCELLED => cancel tenantId id_ userId
  | REOPENED => reopen tenantId id_ userId
  | _ => update tenantId id_
           (Build_UpdateTicketDto None None None (Some (enum_str status)) None None)
           userId
  end.

Definition bulk_step (tenantId : string) (status : TicketStatusEnum)
    (userId : option string) (acc : Z * gmap string string) (id_ : string)
    : M W (Z * gmap string string) :=
  try_catch
    (bulk_one tenantId status userId id_ ;; mret (acc.1 + 1, acc.2))
    (λ err, mret (acc.1, <[id_ := exn_message err]> acc.2)).

Definition bulkUpdateStatus (tenantId : string) (ticketIds : list string)
    (status : TicketStatusEnum) (userId : option string) : M W BulkResult :=
  acc ← fold_each ticketIds (0, ∅) (bulk_step tenantId status userId);
  let failed := Z.of_nat (length ticketIds) - acc.1 in
  audit_log tenantId userId "TICKET_BULK_UPDATE"
    ("Bulk set status " +:+ enum_str status +:+ ": " +:+ pretty acc.1
     +:+ " succeeded, " +:+ pretty failed +:+ " failed") ;;
  mret {| bulk_updated := acc.1; bulk_failed := failed; bulk_errors := acc.2 |}.
End ticket_service.
