(* ===== verification/TicketApprovalService.v ===== *)
(** * Approvals and comments of a ticket

    [src/modules/tickets/services/ticket-approval.service.ts] and
    [ticket-comment.service.ts]. *)

From S2P Require Import Prelude Platform TicketValues Ticket TicketSla.
From S2P Require Import TicketRepo TicketStore.
Import TicketStatusEnum.
Open Scope Z_scope.

Record RequestApprovalDto := {
  approverIdDto : string;
  typeDto : option ApprovalTypeEnum;
  commentsDto : option string;
}.

Section approval_service.
Context `{Env, SqlSort}.

Definition request (tenantId ticketId : string) (dto : RequestApprovalDto)
    (userId : option string) : M W TicketApproval :=
  ticket ← getOrThrow tenantId ticketId;
  aid ← randomUUID;
  now ← new_Date;
  let approval := {|
    TicketApproval.id := aid; TicketApproval.tenantId := tenantId;
    TicketApproval.ticketId := ticketId;
    TicketApproval.approverId := approverIdDto dto;
    TicketApproval.status := ApprovalStatusEnum.PENDING;
    TicketApproval.type := default ApprovalTypeEnum.CUSTOM (typeDto dto);
    TicketApproval.comments := commentsDto dto;
    TicketApproval.approvedAt := None;
    TicketApproval.createdAt := now; TicketApproval.updatedAt := now |} in
  ticket ← exec (requestApproval now approval) ticket;
  persist_quietly ticket tenantId ;;
  audit_log tenantId userId "TICKET_APPROVAL_REQUEST"
    ("Requested " +:+ enum_str (TicketApproval.type approval) +:+ " approval "
     +:+ aid +:+ " on ticket " +:+ ticketId) ;;
  mret approval.

Definition getApprovalOrThrow (tenantId approvalId : string) : M W TicketApproval :=
  a ← getApproval tenantId approvalId;
  match a with
  | Some a => mret a
  | None => throw (Exn NotFoundException ("Approval " +:+ approvalId +:+ " not found"))
  end.

(** Moves the ticket on once no approval is pending. *)
Definition resumeTicket (tenantId ticketId : string) : M W unit :=
  ticket ← findById ticketId tenantId;
  match ticket with
  | None => mret tt
  | Some ticket =>
      '(_, s) ← call status_value ticket;
      if negb (bool_decide (s = APPROVAL_PENDING)) then mret tt
      else if some TicketApproval.isPending (approvals ticket) then mret tt
      else
        now ← new_Date;
        ticket ← exec (update now (Build_TicketPatch Absent Absent Absent
                         Absent (Put IN_PROGRESS) Absent)) ticket;
        persist_quietly ticket tenantId ;;
        mret tt
  end.

(** The common part of the three decisions. *)
Definition decide_approval (tenantId approvalId : string)
    (m : Z → M TicketApproval unit) : M W TicketApproval :=
  approval ← getApprovalOrThrow tenantId approvalId;
  now ← new_Date;
  approval ← exec (m now) approval;
  saveApproval approval tenantId ;;
  resumeTicket tenantId (TicketApproval.ticketId approval) ;;
  mret approval.

Definition approve (tenantId approvalId : string) (comments userId : option string)
    : M W TicketApproval :=
  approval ← decide_approval tenantId approvalId
               (λ now, TicketApproval.approve now comments);
  publish (TicketApprovedEvent tenantId (TicketApproval.ticketId approval)
             (TicketApproval.id approval) (TicketApproval.approverId approval)) ;;
  audit_log tenantId userId "TICKET_APPROVED"
    ("Approved " +:+ TicketApproval.id approval +:+ " on ticket "
     +:+ TicketApproval.ticketId approval) ;;
  mret approval.

Definition reject (tenantId approvalId : string) (comments userId : option string)
    : M W TicketApproval :=
  approval ← decide_approval tenantId approvalId
               (λ now, TicketApproval.reject now comments);
  publish (TicketRejectedEvent tenantId (TicketApproval.ticketId approval)
             (TicketApproval.id approval) (TicketApproval.approverId approval)) ;;
  audit_log tenantId userId "TICKET_REJECTED"
    ("Rejected " +:+ TicketApproval.id approval +:+ " on ticket "
     +:+ TicketApproval.ticketId approval) ;;
  mret approval.

Definition cancel_approval (tenantId approvalId : string) (userId : option string)
    : M W TicketApproval :=
  approval ← decide_approval tenantId approvalId TicketApproval.cancel;
  audit_log tenantId userId "TICKET_APPROVAL_CANCELLED"
    ("Cancelled approval " +:+ TicketApproval.id approval +:+ " on ticket "
     +:+ TicketApproval.ticketId approval) ;;
  mret approval.

(** *** Comments *)
Definition add_comment (tenantId ticketId text : string)
    (visibilityDto : option string) (author : string) : M W TicketComment :=
  ticket ← getOrThrow tenantId ticketId;
  cid ← randomUUID;
  now ← new_Date;
  let c := {| comment_id := cid; comment_tenantId := tenantId;
              comment_ticketId := ticketId; authorId := author;
              comment := text; visibility := js_or visibilityDto "PUBLIC";
              attachmentsCount := 0;
              comment_createdAt := now; comment_updatedAt := now |} in
  ticket ← exec (addComment now c) ticket;
  persist_quietly ticket tenantId ;;
  audit_log tenantId (Some author) "TICKET_COMMENT"
    ("Added " +:+ visibility c +:+ " comment to ticket " +:+ ticketId) ;;
  mret c.
End approval_service.
