(* ===== verification/TicketAssignmentService.v ===== *)
(** * Assignment, escalation and the ticket worker

    [src/modules/tickets/services/ticket-assignment.service.ts],
    [ticket-escalation.service.ts] and [jobs/ticket-queue.processor.ts].  The
    selection of an agent is the teams module's; here it is the interface
    [AssignmentEngine]. *)

From Stdlib Require QArith.
From S2P Require Import Prelude Platform TicketValues Ticket TicketSla.
From S2P Require Import TicketRepo TicketStore TicketSlaService TicketService.
Import TicketStatusEnum.
Open Scope Z_scope.

(** What the ticket module relies on of the assignment engine: given a team, an
    entity and the weight of its priority it chooses an agent, or throws; it
    writes no ticket table. *)
Class AssignmentEngine := {
  assignEntity : string → string → string → Z → M W string;
  assignEntity_db : ∀ tenant team entity w, keeps (same db) (assignEntity tenant team entity w);
  (** [findOfflineAgents]: tenant and profile of each offline agent. *)
  findOfflineAgents : option string → list (string * string);
}.
#[export] Hint Resolve assignEntity_db : keeps.

Definition ACTIVE_TICKET_STATUSES : list TicketStatusEnum :=
  [OPEN; ASSIGNED; IN_PROGRESS; WAITING_CUSTOMER; WAITING_INTERNAL;
   APPROVAL_PENDING; REOPENED].

Section assignment_service.
Context `{Env, SqlSort, TicketDeps, AssignmentEngine}.

Definition notifyAssignedAgent (tenantId agentId : string) (ticket : Ticket) : M W unit :=
  try_catch
    (addJob NOTIFICATION "ticket-assigned"
       [("tenantId", JStr tenantId); ("agentId", JStr agentId);
        ("ticketId", JStr (id ticket));
        ("ticketNumber", JStr (ticketNumber ticket))] (λ o, o))
    (λ _, mret tt).

Definition recordAssignment (tenantId ticketId : string)
    (agentId teamId : option string) (type_ : string) (by_ : option string) : M W unit :=
  aid ← randomUUID;
  now ← new_Date;
  addAssignment
    {| assignment_id := aid; assignment_tenantId := tenantId;
       assignment_ticketId := ticketId; assignment_agentId := agentId;
       assignment_teamId := teamId;
       assignmentType := js_or (Some type_) "MANUAL";
       assignedAt := now; assignedBy := by_ |} tenantId.

Definition assign_ticket (tenantId ticketId agentId : string) (teamId : option string)
    (type_ : string) (userId : option string) : M W Ticket :=
  ticket ← getOrThrow tenantId ticketId;
  now ← new_Date;
  ticket ← exec (assign_agent now agentId teamId) ticket;
  ticket ← persist ticket tenantId;
  recordAssignment tenantId ticketId (Some agentId) teamId type_ userId ;;
  notifyAssignedAgent tenantId agentId ticket ;;
  audit_log tenantId userId "TICKET_ASSIGN"
    ("Assigned ticket " +:+ ticketId +:+ " to agent " +:+ agentId
     +:+ " (" +:+ type_ +:+ ")") ;;
  mret ticket.

Definition autoAssign (tenantId ticketId teamId : string) (userId : option string)
    : M W Ticket :=
  ticket ← getOrThrow tenantId ticketId;
  '(_, w) ← call (with_priority "weight" (λ p, Ok (TicketPriority.weight p))) ticket;
  agentId ← assignEntity tenantId teamId ticketId w;
  assign_ticket tenantId ticketId agentId (Some teamId) "AUTO" userId.

Definition transfer_ticket (tenantId ticketId : string)
    (toAgentId toTeamId userId : option string) : M W Ticket :=
  match js_or_undef toAgentId, js_or_undef toTeamId with
  | None, Some team => autoAssign tenantId ticketId team userId
  | None, None =>
      throw (Exn BadRequestException "Either toAgentId or toTeamId is required")
  | Some agent, _ =>
      ticket ← getOrThrow tenantId ticketId;
      now ← new_Date;
      ticket ← exec (transfer now agent) ticket;
      ticket ← persist ticket tenantId;
      recordAssignment tenantId ticketId (Some agent) (assignedTeamId ticket)
        "TRANSFER" userId ;;
      notifyAssignedAgent tenantId agent ticket ;;
      audit_log tenantId userId "TICKET_TRANSFER"
        ("Transferred ticket " +:+ ticketId +:+ " to agent " +:+ agent) ;;
      mret ticket
  end.

(** *** Offline agents *)
Definition reassign_one (tenantId : string) (acc : Z * Z) (ticket : Ticket)
    : M W (Z * Z) :=
  '(_, s) ← call status_value ticket;
  if negb (bool_decide (s ∈ ACTIVE_TICKET_STATUSES)) then mret acc
  else match js_or_undef (assignedTeamId ticket) with
  | None => mret (acc.1, acc.2 + 1)
  | Some team =>
      try_catch
        (autoAssign tenantId (id ticket) team None ;; mret (acc.1 + 1, acc.2))
        (λ _, mret (acc.1, acc.2 + 1))
  end.

(** The page of [findPaginated]: rows mapped without their children. *)
Definition page_of_agent (tenantId agentId : string) : M W (list Ticket) :=
  rows ← gets (λ w, find_by_agent tenantId agentId 200 (db w));
  of_result (foldr (λ r acc,
    match TicketMapper.toDomain r [] [] [] [], acc with
    | Ok t, Ok l => Ok (t :: l)
    | Throw e, _ | _, Throw e => Throw e
    end) (Ok []) rows).

Definition reassignFromOfflineAgents (tenantId : option string) : M W (Z * Z) :=
  fold_each (findOfflineAgents tenantId) (0, 0) (λ acc agent,
    assigned ← page_of_agent agent.1 agent.2;
    fold_each assigned acc (reassign_one agent.1)).
End assignment_service.

(** ** Escalation *)
Record EscalationSignals := {
  aiConfidence : option QArith_base.Q;
  sentimentScore : option QArith_base.Q;
  humanRequested : option bool;
  priorityRequested : option bool;
  signal_workflowId : option string;
}.

(** The two thresholds are read from the process environment, with these
    defaults. *)
Record EscalationThresholds := {
  CONFIDENCE_THRESHOLD : QArith_base.Q;
  NEGATIVE_SENTIMENT_THRESHOLD : QArith_base.Q;
}.
Definition default_thresholds : EscalationThresholds :=
  {| CONFIDENCE_THRESHOLD := QArith_base.Qmake 6 10;
     NEGATIVE_SENTIMENT_THRESHOLD := QArith_base.Qmake (-3) 10 |}.

Definition escalation_reasons (th : EscalationThresholds) (signals : EscalationSignals)
    : list string :=
  match aiConfidence signals with
  | Some c => if negb (QArith_base.Qle_bool (CONFIDENCE_THRESHOLD th) c)
              then ["AI_LOW_CONFIDENCE"] else []
  | None => []
  end
  ++ match sentimentScore signals with
     | Some s => if QArith_base.Qle_bool s (NEGATIVE_SENTIMENT_THRESHOLD th)
                 then ["NEGATIVE_SENTIMENT"] else []
     | None => []
     end
  ++ (if truthy (humanRequested signals) then ["HUMAN_REQUESTED"] else [])
  ++ (if truthy (priorityRequested signals) then ["PRIORITY"] else [])
  ++ (if truthy (signal_workflowId signals) then ["WORKFLOW"] else []).

Section escalation_service.
Context `{Env, SqlSort, TicketDeps}.

Definition evaluate (th : EscalationThresholds) (tenantId ticketId : string)
    (signals : EscalationSignals) : M W (bool * list string) :=
  let reasons := escalation_reasons th signals in
  match reasons with
  | [] => mret (false, reasons)
  | _ =>
      addJob TICKET "ticket-escalation-job"
        ([("ticketId", JStr ticketId); ("tenantId", JStr tenantId);
          ("reason", JStr (js_join "," reasons))]
         ++ opt_field "workflowId" (signal_workflowId signals)) (λ o, o) ;;
      mret (true, reasons)
  end.

Definition escalate_ticket (tenantId ticketId reason : string)
    (workflowId userId : option string) : M W Ticket :=
  ticket ← getOrThrow tenantId ticketId;
  now ← new_Date;
  ticket ← exec (escalate now reason) ticket;
  ticket ← persist_quietly ticket tenantId;
  recordAssignment tenantId ticketId (assignedAgentId ticket)
    (assignedTeamId ticket) "ESCALATION" userId ;;
  match js_or_undef workflowId with
  | Some wf => addJob WORKFLOW "run-workflow"
      [("trigger", JStr "TICKET_ESCALATION"); ("workflowId", JStr wf);
       ("ticketId", JStr ticketId); ("tenantId", JStr tenantId)] (λ o, o)
  | None => mret tt
  end ;;
  '(_, p) ← call priority_value ticket;
  audit_log tenantId userId "TICKET_ESCALATE"
    ("Escalated ticket " +:+ ticketId +:+ " (" +:+ reason +:+ ") to " +:+ enum_str p) ;;
  try_catch
    ('(_, s) ← call status_value ticket;
     evaluateEventTriggers tenantId "TICKET_ESCALATED"
       ([("id", JStr (id ticket)); ("ticketId", JStr (id ticket));
         ("reason", JStr reason); ("status", JStr (enum_str s));
         ("priority", JStr (enum_str p))]
        ++ opt_field "customerId" (customerId ticket)
        ++ opt_field "conversationId" (conversationId ticket)))
    (λ _, mret tt) ;;
  mret ticket.
End escalation_service.

(** ** The queue processor *)
Section processor.
Context `{Env, SqlSort, TicketDeps, AssignmentEngine}.

(** A field of the payload that the code passes on as a string: an undefined
    identifier matches no row, as the text it prints as does here. *)
Definition data_str (k : string) (job : Job) : string :=
  default "undefined" (str_field k (job_data job)).
Definition data_opt (k : string) (job : Job) : option string :=
  str_field k (job_data job).

Definition handleJob (job : Job) : M W (list (string * json)) :=
  let tenant := match js_or_undef (job_tenant job) with
                | Some t => Some t
                | None => data_opt "tenantId" job
                end in
  let tenantId := default "undefined" tenant in
  if String.eqb (job_name job) "ticket-assignment-job" then
    ticket ← autoAssign tenantId (data_str "ticketId" job) (data_str "teamId" job)
               (data_opt "userId" job);
    mret ([("ticketId", JStr (id ticket))]
          ++ opt_field "assignedAgentId" (assignedAgentId ticket))
  else if String.eqb (job_name job) "ticket-create-from-conversation" then
    ticket ← TicketService.create tenantId
      {| c_subject := data_str "subject" job;
         c_description := data_opt "description" job;
         c_customerId := data_opt "customerId" job;
         c_conversationId := data_opt "conversationId" job;
         c_categoryId := None; c_assignedAgentId := None; c_assignedTeamId := None;
         c_priority := data_opt "priority" job; c_source := data_opt "source" job;
         c_metadata := None |} None;
    mret [("ticketId", JStr (id ticket))]
  else if String.eqb (job_name job) "ticket-escalation-job" then
    ticket ← escalate_ticket tenantId (data_str "ticketId" job)
               (js_or (data_opt "reason" job) "ESCALATION")
               (data_opt "workflowId" job) (data_opt "userId" job);
    '(_, p) ← call priority_value ticket;
    mret [("ticketId", JStr (id ticket)); ("priority", JStr (enum_str p))]
  else if String.eqb (job_name job) "sla-monitor-job" then
    now ← new_Date;
    n ← runBreachSweep (data_opt "tenantId" job) now;
    mret [("breached", JNum n)]
  else if String.eqb (job_name job) "agent-offline-reassignment-job" then
    r ← reassignFromOfflineAgents (data_opt "tenantId" job);
    mret [("reassigned", JNum r.1); ("skipped", JNum r.2)]
  else if String.eqb (job_name job) "ticket-approval-job" then
    addJob NOTIFICATION "approval-request"
      (opt_field "ticketId" (data_opt "ticketId" job)
       ++ opt_field "approvalId" (data_opt "approvalId" job)
       ++ opt_field "approverId" (data_opt "approverId" job)
       ++ opt_field "tenantId" tenant) (λ o, o) ;;
    mret ([("notified", JBool true)] ++ opt_field "approvalId" (data_opt "approvalId" job))
  else if String.eqb (job_name job) "ticket-analytics-job" then
    addJob ANALYTICS "ticket-event"
      (opt_field "ticketId" (data_opt "ticketId" job)
       ++ opt_field "eventName" (data_opt "eventName" job)
       ++ opt_field "tenantId" tenant
       ++ match field "payload" (job_data job) with
          | Some v => [("payload", v)] | None => [] end) (λ o, o) ;;
    mret ([("forwarded", JBool true)] ++ opt_field "ticketId" (data_opt "ticketId" job))
  else throw (Exn JsError ("Unknown job name: " +:+ job_name job)).
End processor.
