(* ===== verification/TicketIsolation.v ===== *)
(** * Tenant isolation

    The calls the ticket services offer to a tenant, as one type of commands,
    and the proof that none of them reaches the rows of another tenant. *)

From S2P Require Import Prelude Platform TicketValues Ticket TicketProofs.
From S2P Require Import TicketSla TicketRepo TicketRepoProofs TicketStore.
From S2P Require Import TicketSlaService TicketService TicketApprovalService.
From S2P Require Import TicketAssignmentService.
Import TicketStatusEnum.
Open Scope Z_scope.

Module Isolation.

(** The calls a tenant can make. *)
Inductive ticket_cmd :=
  | CmdCreate (dto : CreateTicketDto) (userId : option string)
  | CmdUpdate (id_ : string) (dto : UpdateTicketDto) (userId : option string)
  | CmdStart (id_ : string) (userId : option string)
  | CmdWaitForCustomer (id_ : string) (userId : option string)
  | CmdResumeFromWaiting (id_ : string) (userId : option string)
  | CmdResolve (id_ : string) (summary userId : option string)
  | CmdClose (id_ : string) (userId : option string)
  | CmdReopen (id_ : string) (userId : option string)
  | CmdCancel (id_ : string) (userId : option string)
  | CmdDelete (id_ : string) (userId : option string)
  | CmdAddTag (id_ tagValue : string) (color : option string)
  | CmdRemoveTag (id_ tagValue : string)
  | CmdWatch (id_ uid : string) (preferences : option (gmap string json))
  | CmdUnwatch (id_ uid : string)
  | CmdMerge (sourceId targetId : string) (userId : option string)
  | CmdSplit (id_ : string) (dto : SplitTicketDto) (userId : option string)
  | CmdBulk (ids : list string) (status : TicketStatusEnum) (userId : option string)
  | CmdComment (id_ text : string) (visibility : option string) (author : string)
  | CmdRequestApproval (id_ : string) (dto : RequestApprovalDto) (userId : option string)
  | CmdApprove (approvalId : string) (comments userId : option string)
  | CmdReject (approvalId : string) (comments userId : option string)
  | CmdCancelApproval (approvalId : string) (userId : option string)
  | CmdAssign (id_ agentId : string) (teamId : option string) (type_ : string) (userId : option string)
  | CmdAutoAssign (id_ teamId : string) (userId : option string)
  | CmdTransfer (id_ : string) (toAgentId toTeamId userId : option string)
  | CmdEscalate (id_ reason : string) (workflowId userId : option string)
  | CmdConfigureSla (id_ : string) (dto : ConfigureSlaDto)
  | CmdPauseSla (id_ : string)
  | CmdResumeSla (id_ : string).

Section services.
Context `{Env, SqlSort, TicketDeps, AssignmentEngine}.

Definition void {A} (m : M W A) : M W unit := (λ _, tt) <$> m.

Definition run_cmd (tenantId : string) (c : ticket_cmd) : M W unit :=
  match c with
  | CmdCreate dto u => void (TicketService.create tenantId dto u)
  | CmdUpdate i dto u => void (TicketService.update tenantId i dto u)
  | CmdStart i u => void (TicketService.start tenantId i u)
  | CmdWaitForCustomer i u => void (waitForCustomer tenantId i u)
  | CmdResumeFromWaiting i u => void (resumeFromWaiting tenantId i u)
  | CmdResolve i s u => void (TicketService.resolve tenantId i s u)
  | CmdClose i u => void (TicketService.close tenantId i u)
  | CmdReopen i u => void (TicketService.reopen tenantId i u)
  | CmdCancel i u => void (TicketService.cancel tenantId i u)
  | CmdDelete i u => void (delete tenantId i u)
  | CmdAddTag i v c => void (TicketService.addTag tenantId i v c)
  | CmdRemoveTag i v => void (TicketService.removeTag tenantId i v)
  | CmdWatch i u p => void (watch tenantId i u p)
  | CmdUnwatch i u => void (unwatch tenantId i u)
  | CmdMerge a b u => void (merge tenantId a b u)
  | CmdSplit i dto u => void (split tenantId i dto u)
  | CmdBulk ids s u => void (bulkUpdateStatus tenantId ids s u)
  | CmdComment i t v a => void (add_comment tenantId i t v a)
  | CmdRequestApproval i dto u => void (request tenantId i dto u)
  | CmdApprove i c u => void (approve tenantId i c u)
  | CmdReject i c u => void (reject tenantId i c u)
  | CmdCancelApproval i u => void (cancel_approval tenantId i u)
  | CmdAssign i a t ty u => void (assign_ticket tenantId i a t ty u)
  | CmdAutoAssign i t u => void (autoAssign tenantId i t u)
  | CmdTransfer i a t u => void (transfer_ticket tenantId i a t u)
  | CmdEscalate i r w u => void (escalate_ticket tenantId i r w u)
  | CmdConfigureSla i dto =>
      ticket ← getOrThrow tenantId i; void (configureForTicket tenantId ticket dto)
  | CmdPauseSla i => pauseSlaForTicket tenantId i
  | CmdResumeSla i => resumeSlaForTicket tenantId i
  end.

(** *** Tenant isolation *)
Abbreviation iso T := (db_rel (Repo.others_same T)).
Abbreviation of_tenant T := (λ t : Ticket, tenantId t = T).

Lemma iso_db {A} T (m : M W A) : keeps (same db) m → keeps (iso T) m.
Proof. apply keeps_db_rel, _. Qed.

Lemma iso_save T t : tenantId t = T → keeps (iso T) (save t T).
Proof.
  intros HT w. unfold db_rel, save, new_Date. run.
  destruct (save_ticket _ _ _ _) as [d'|e] eqn:E; cbn; [|reflexivity].
  eapply Repo.save_others_same; [exact HT|]. exact E.
Qed.

Lemma iso_persist T t : tenantId t = T → keeps (iso T) (persist t T).
Proof.
  intros HT. unfold persist. apply keeps_bind; [apply _|by apply iso_save|intros _].
  apply iso_db. solve_keeps.
Qed.

Lemma iso_persist_quietly T t : tenantId t = T → keeps (iso T) (persist_quietly t T).
Proof.
  intros HT. unfold persist_quietly. apply keeps_bind; [apply _|by apply iso_save|intros _].
  apply iso_db. solve_keeps.
Qed.

Lemma iso_upsertSla T s : keeps (iso T) (upsertSla s T).
Proof. intros w. apply Repo.upsert_sla_others_same. Qed.
Lemma iso_delete T i : keeps (iso T) (repo_delete i T).
Proof. intros w. apply Repo.delete_others_same. Qed.
Lemma iso_addAssignment T a : keeps (iso T) (addAssignment a T).
Proof. intros w. apply Repo.add_assignment_others_same. Qed.
Lemma iso_saveApproval T a : keeps (iso T) (saveApproval a T).
Proof.
  intros w. unfold db_rel, saveApproval, save_approval, new_Date. run.
  by destruct (some _ _); split_and!.
Qed.

Lemma findById_returns T i :
  returns (findById i T) (λ o, ∀ t, o = Some t → tenantId t = T).
Proof.
  intros w o w' E t ->. unfold findById in E. run.
  injection E as E _. by apply Repo.find_inv in E as (?&?&?&_&_&?&_).
Qed.

Lemma getOrThrow_returns T i : returns (getOrThrow T i) (of_tenant T).
Proof.
  intros w t w'. unfold getOrThrow. intros (o & w1 & Ho & Ht)%bind_inv.
  apply findById_returns in Ho. destruct o; run; naive_solver.
Qed.

Lemma exec_returns T (m : M Ticket unit) t :
  keeps Aggregate.evolves m → tenantId t = T →
  returns (exec m t : M W Ticket) (of_tenant T).
Proof.
  intros Hm HT w t' w' E. apply (returns_exec _ _ _ Hm) in E.
  destruct E as (_ & -> & _). done.
Qed.

Lemma persist_returns T t : tenantId t = T → returns (persist t T) (of_tenant T).
Proof.
  intros HT w t' w''. unfold persist.
  intros (_ & w1 & _ & (_ & w2 & _ & (t2 & w3 & [= <- _] & E)%bind_inv)%bind_inv)%bind_inv.
  apply bind_inv in E as (_ & w4 & _ & [= <- _]). done.
Qed.

Lemma persist_quietly_returns T t :
  tenantId t = T → returns (persist_quietly t T) (of_tenant T).
Proof.
  intros HT w t' w''. unfold persist_quietly.
  intros (_ & w1 & _ & (_ & w2 & _ & [= <- _])%bind_inv)%bind_inv. done.
Qed.

Lemma returns_runTransition {A} (m : M W A) P : returns m P → returns (runTransition m) P.
Proof.
  intros Hm. apply returns_catch; [done|]. intros e. by case_decide.
Qed.

(** The operations of the aggregate keep the tenant. *)
Ltac solve_evolves :=
  lazymatch goal with
  | |- keeps Aggregate.evolves ?m =>
      first
        [ exact (Aggregate.op_evolves _ (OpUpdate _))
        | exact (Aggregate.op_evolves _ OpStart)
        | exact (Aggregate.op_evolves _ (OpResolve _ _))
        | exact (Aggregate.op_evolves _ (OpClose _))
        | exact (Aggregate.op_evolves _ (OpReopen _))
        | exact (Aggregate.op_evolves _ OpCancel)
        | exact (Aggregate.op_evolves _ OpSoftDelete)
        | exact (Aggregate.op_evolves _ (OpAddTag _))
        | exact (Aggregate.op_evolves _ (OpRemoveTag _))
        | exact (Aggregate.op_evolves _ (OpAddWatcher _))
        | exact (Aggregate.op_evolves _ (OpRemoveWatcher _))
        | exact (Aggregate.op_evolves _ (OpSetMetadata _))
        | exact (Aggregate.op_evolves _ (OpAddComment _))
        | exact (Aggregate.op_evolves _ (OpRequestApproval _))
        | exact (Aggregate.op_evolves _ (OpAssign _ _))
        | exact (Aggregate.op_evolves _ (OpTransfer _))
        | exact (Aggregate.op_evolves _ (OpEscalate _)) ]
  end.

#[local] Hint Resolve iso_persist iso_persist_quietly iso_upsertSla iso_delete
  iso_addAssignment iso_saveApproval : keeps.
#[local] Hint Extern 8 (keeps (db_rel _) _) => apply iso_db : keeps.

(** One step through a service: a bind whose result is a ticket of the tenant
    keeps that fact. *)
Ltac iso_step :=
  lazymatch goal with
  | |- keeps _ (getOrThrow ?T ?i ≫= _) =>
      eapply keeps_bind_returns; [apply _|apply getOrThrow_returns| |intros ? ?]
  | |- keeps _ (findById ?i ?T ≫= _) =>
      eapply keeps_bind_returns; [apply _|apply findById_returns| |intros ? ?]
  | |- keeps (db_rel (Repo.others_same ?T)) (@exec _ Ticket ?m ?t ≫= _) =>
      apply (keeps_bind_returns _ (of_tenant T));
        [apply exec_returns; [solve_evolves|eauto]| |intros ? ?]
  | |- keeps _ (persist ?t ?T ≫= _) =>
      eapply keeps_bind_returns; [apply _|apply persist_returns; eauto| |intros ? ?]
  | |- keeps _ (persist_quietly ?t ?T ≫= _) =>
      eapply keeps_bind_returns; [apply _|apply persist_quietly_returns; eauto| |intros ? ?]
  | |- keeps _ ((if ?b then _ else _) ≫= _) => destruct b
  | |- keeps ?R (mret ?x ≫= ?k) => change (keeps R (k x)); cbv beta
  | |- _ => keeps_step
  end.
Ltac solve_iso := repeat (iso_step; try done; try apply _).

Lemma iso_configure T t dto : keeps (iso T) (configureForTicket T t dto).
Proof. unfold configureForTicket. solve_iso. Qed.

Lemma iso_live_sla T i m : keeps (iso T) (on_live_sla T i m).
Proof. unfold on_live_sla. solve_iso. Qed.
#[local] Hint Resolve iso_configure iso_live_sla : keeps.

Lemma iso_transition T i m :
  (∀ now, keeps Aggregate.evolves (m now)) → keeps (iso T) (transition T i m).
Proof.
  intros Hm. unfold transition. iso_step; [solve_iso|].
  apply (keeps_bind_returns _ (of_tenant T)); [| |intros ? ?; by apply iso_persist].
  - apply returns_runTransition, returns_bind. intros now. by eapply exec_returns.
  - unfold runTransition. solve_iso.
Qed.

Lemma transition_returns T i m :
  (∀ now, keeps Aggregate.evolves (m now)) →
  returns (transition T i m) (of_tenant T).
Proof.
  intros Hm w t' w'. unfold transition.
  intros (t & w1 & Ht%getOrThrow_returns & (t2 & w2 & Ht2 & E)%bind_inv)%bind_inv.
  eapply persist_returns; [|exact E].
  eapply (returns_runTransition _ (of_tenant T)); [|exact Ht2].
  apply returns_bind. intros now. by eapply exec_returns.
Qed.

Ltac transition_step :=
  lazymatch goal with
  | |- keeps _ (transition ?T ?i ?m ≫= _) =>
      eapply keeps_bind_returns;
        [apply _|apply transition_returns; intros; solve_evolves
        |apply iso_transition; intros; solve_evolves|intros ? ?]
  | |- _ => iso_step
  end.
Ltac solve_service := repeat (transition_step; try done; try apply _).

Lemma iso_notify T t n extra : keeps (iso T) (notifyCustomer T t n extra).
Proof. unfold notifyCustomer. solve_iso. Qed.
Lemma iso_triggers T n c : keeps (iso T) (evaluateWorkflowTriggers T n c).
Proof. unfold evaluateWorkflowTriggers. solve_iso. Qed.
Lemma iso_context T t : keeps (iso T) (trigger_context t).
Proof. unfold trigger_context. solve_iso. Qed.
#[local] Hint Resolve iso_notify iso_triggers iso_context : keeps.

Lemma iso_create T dto u : keeps (iso T) (TicketService.create T dto u).
Proof.
  unfold TicketService.create, nextSequence. solve_service.
Qed.
Lemma iso_update T i dto u : keeps (iso T) (TicketService.update T i dto u).
Proof.
  unfold TicketService.update. iso_step; [solve_iso|]. iso_step; [apply _|solve_iso|].
  apply (keeps_bind_returns _ (of_tenant T)); [|unfold runTransition; solve_iso|].
  - apply returns_runTransition, returns_bind. intros props. apply returns_bind.
    intros now. eapply exec_returns; [solve_evolves|done].
  - intros ? ?. unfold pauseSlaForTicket, resumeSlaForTicket. solve_service.
Qed.

Lemma iso_merge T a b u : keeps (iso T) (merge T a b u).
Proof. unfold merge. solve_service. Qed.

Lemma iso_split T i dto u : keeps (iso T) (split T i dto u).
Proof. unfold split, nextSequence. solve_service. Qed.

Lemma iso_reopen T i u : keeps (iso T) (TicketService.reopen T i u).
Proof. unfold TicketService.reopen. solve_service. Qed.
Lemma iso_resolve T i s u : keeps (iso T) (TicketService.resolve T i s u).
Proof. unfold TicketService.resolve, refreshRemaining. solve_service. Qed.
Lemma iso_close T i u : keeps (iso T) (TicketService.close T i u).
Proof. unfold TicketService.close. solve_service. Qed.
Lemma iso_cancel T i u : keeps (iso T) (TicketService.cancel T i u).
Proof. unfold TicketService.cancel. solve_service. Qed.

Lemma iso_bulk T ids s u : keeps (iso T) (bulkUpdateStatus T ids s u).
Proof.
  unfold bulkUpdateStatus. apply keeps_bind; [apply _| |intros ?; solve_service].
  apply keeps_fold_each; [apply _|]. intros acc i. unfold bulk_step.
  apply keeps_try_catch; [apply _| |intros ?; solve_service].
  apply keeps_bind; [apply _| |intros ?; solve_service].
  destruct s; cbn [bulk_one]; auto using iso_update, iso_reopen, iso_resolve,
    iso_close, iso_cancel.
Qed.

Lemma iso_resume_ticket T i : keeps (iso T) (resumeTicket T i).
Proof.
  unfold resumeTicket. iso_step; [solve_iso|].
  match goal with o : option Ticket |- _ => destruct o end; [|solve_iso].
  match goal with Hx : ∀ t, Some _ = Some t → _ |- _ => specialize (Hx _ eq_refl) end.
  solve_iso.
Qed.

Lemma iso_decide T i m : keeps (iso T) (decide_approval T i m).
Proof.
  unfold decide_approval, getApprovalOrThrow, getApproval.
  repeat first [apply iso_resume_ticket | progress iso_step]; try done; try apply _.
Qed.

Lemma iso_record T i a t ty b : keeps (iso T) (recordAssignment T i a t ty b).
Proof. unfold recordAssignment. solve_iso. Qed.
Lemma iso_notify_agent T a t : keeps (iso T) (notifyAssignedAgent T a t).
Proof. unfold notifyAssignedAgent. solve_iso. Qed.
#[local] Hint Resolve iso_decide iso_record iso_notify_agent : keeps.

Lemma iso_assign T i a t ty u : keeps (iso T) (assign_ticket T i a t ty u).
Proof. unfold assign_ticket. solve_service. Qed.
#[local] Hint Resolve iso_assign : keeps.

Lemma iso_auto T i t u : keeps (iso T) (autoAssign T i t u).
Proof. unfold autoAssign. solve_service. Qed.
#[local] Hint Resolve iso_auto : keeps.

Lemma iso_transfer T i a t u : keeps (iso T) (transfer_ticket T i a t u).
Proof. unfold transfer_ticket. solve_service. Qed.

Lemma iso_escalate T i r w u : keeps (iso T) (escalate_ticket T i r w u).
Proof. unfold escalate_ticket. solve_service. Qed.

Lemma iso_start T i u : keeps (iso T) (TicketService.start T i u).
Proof. unfold TicketService.start. solve_service. Qed.
Lemma iso_wait T i u : keeps (iso T) (waitForCustomer T i u).
Proof. unfold waitForCustomer, pauseSlaForTicket. solve_service. Qed.
Lemma iso_resume T i u : keeps (iso T) (resumeFromWaiting T i u).
Proof. unfold resumeFromWaiting, resumeSlaForTicket. solve_service. Qed.
Lemma iso_del T i u : keeps (iso T) (delete T i u).
Proof. unfold delete. solve_service. Qed.
Lemma iso_add_tag T i v c : keeps (iso T) (TicketService.addTag T i v c).
Proof. unfold TicketService.addTag. solve_service. Qed.
Lemma iso_remove_tag T i v : keeps (iso T) (TicketService.removeTag T i v).
Proof. unfold TicketService.removeTag. solve_service. Qed.
Lemma iso_watch T i u p : keeps (iso T) (watch T i u p).
Proof. unfold watch. solve_service. Qed.
Lemma iso_unwatch T i u : keeps (iso T) (unwatch T i u).
Proof. unfold unwatch. solve_service. Qed.
Lemma iso_comment T i t v a : keeps (iso T) (add_comment T i t v a).
Proof. unfold add_comment. solve_service. Qed.
Lemma iso_request T i dto u : keeps (iso T) (request T i dto u).
Proof. unfold request. solve_service. Qed.
Lemma iso_approve T i c u : keeps (iso T) (approve T i c u).
Proof. unfold approve. solve_service. Qed.
Lemma iso_reject T i c u : keeps (iso T) (reject T i c u).
Proof. unfold reject. solve_service. Qed.
Lemma iso_cancel_approval T i u : keeps (iso T) (cancel_approval T i u).
Proof. unfold cancel_approval. solve_service. Qed.
Lemma iso_pause_sla T i : keeps (iso T) (pauseSlaForTicket T i).
Proof. unfold pauseSlaForTicket. solve_service. Qed.
Lemma iso_resume_sla T i : keeps (iso T) (resumeSlaForTicket T i).
Proof. unfold resumeSlaForTicket. solve_service. Qed.

#[local] Hint Resolve iso_create iso_update iso_start iso_wait iso_resume
  iso_resolve iso_close iso_reopen iso_cancel iso_del iso_add_tag
  iso_remove_tag iso_watch iso_unwatch iso_merge iso_split iso_bulk
  iso_comment iso_request iso_approve iso_reject iso_cancel_approval
  iso_transfer iso_escalate iso_pause_sla iso_resume_sla : keeps.

(** C1: No call made for a tenant, whatever it returns or throws, changes,
    adds or removes a ticket, an SLA or an assignment of another tenant. *)
Theorem tenant_isolation T c w :
  Repo.others_same T (db w) (db (final (run_cmd T c) w)).
Proof.
  enough (keeps (iso T) (run_cmd T c)) as Hk by apply Hk.
  destruct c; cbn [run_cmd]; unfold void;
    solve [auto with keeps | apply keeps_fmap; [apply _|auto with keeps] | solve_service].
Qed.
End services.
End Isolation.
