(* ===== verification/TicketServiceProofs.v ===== *)
(** * Properties of the ticket services

    The generic update and the bulk update on every branch. *)

From S2P Require Import Prelude Platform TicketValues Ticket TicketProofs.
From S2P Require Import TicketSla TicketRepo TicketRepoProofs TicketStore.
From S2P Require Import TicketSlaService TicketService TicketApprovalService.
From S2P Require Import TicketAssignmentService.
Import TicketStatusEnum.
Open Scope Z_scope.

Module Services.
Section services.
Context `{Env, SqlSort, TicketDeps}.

(** *** The generic update *)

(** Always throws, and leaves the database as it was. *)
Definition refuses {A} (m : M W A) : Prop :=
  ∀ w, ∃ e w', m w = (Throw e, w') ∧ db w' = db w.

Lemma refuses_bind_l {A B} (m : M W A) (k : A → M W B) :
  refuses m → refuses (m ≫= k).
Proof.
  intros Hm w. destruct (Hm w) as (e & w' & E & Hdb).
  exists e, w'. by rewrite (bind_throw _ _ _ _ _ E).
Qed.

Lemma refuses_bind_r {A B} (m : M W A) (k : A → M W B) :
  keeps (same db) m → (∀ a, refuses (k a)) → refuses (m ≫= k).
Proof.
  intros Hm Hk w. specialize (Hm w). unfold final, same in Hm.
  destruct (m w) as [[a|e] w'] eqn:E; cbn in Hm.
  - destruct (Hk a w') as (e & w2 & E2 & Hdb). exists e, w2.
    rewrite (bind_ok _ _ _ _ _ E). by rewrite Hdb, Hm.
  - exists e, w'. by rewrite (bind_throw _ _ _ _ _ E).
Qed.

Lemma refuses_throw {A} e : refuses (throw e : M W A).
Proof. intros w. by exists e, w. Qed.

Lemma refuses_ok {A B} (a : A) (k : A → M W B) :
  refuses (k a) → refuses (of_result (Ok a) ≫= k).
Proof. done. Qed.

Lemma refuses_runTransition {A} (m : M W A) : refuses m → refuses (runTransition m).
Proof.
  intros Hm w. destruct (Hm w) as (e & w' & E & Hdb).
  unfold runTransition, try_catch. rewrite E. case_decide; unfold throw; eauto.
Qed.

Lemma update_literal_undef dto t props :
  update_literal dto t = Ok props →
  (u_status dto = None → p_status props = Undef)
  ∧ (u_priority dto = None → p_priority props = Undef).
Proof.
  unfold update_literal, maybe_create.
  destruct (u_priority dto) as [p|], (u_status dto) as [s|]; cbn;
    try destruct (TicketPriority.create p); try destruct (TicketStatus.create s); cbn;
    intros [= <-]; by split.
Qed.

Lemma maybe_create_put {A} (f : string → result A) x y :
  maybe_create f x = Ok y → (x = None ∧ y = Undef) ∨ (∃ a, y = Put a).
Proof.
  unfold maybe_create. destruct x as [raw|]; [|intros [= <-]; auto].
  destruct (f raw); cbn; [|done]. intros [= <-]. eauto.
Qed.

Lemma aggregate_update_undef now props t :
  p_status props = Undef ∨ p_priority props = Undef →
  ∃ e, outcome (Ticket.update now props) t = Throw e.
Proof.
  intros Hu. destruct (p_status props) as [| |s] eqn:Es.
  - destruct Hu as [|Hu]; [done|]. 
    destruct (Aggregate.update_undefined_throws now props t) as [m Hm]; eauto.
  - destruct (Aggregate.update_undefined_throws now props t) as [m Hm]; eauto.
  - destruct Hu as [|Hu]; [done|]. Aggregate.unfold_ops. run. rewrite Es.
    destruct (status t) as [s0|]; run; [|by eexists].
    destruct (TicketStatus.assertCanTransitionTo s0 s); run; [|by eexists].
    rewrite Hu, ?Es. run. by eexists.
Qed.

Lemma update_refuses T i dto u :
  u_status dto = None ∨ u_priority dto = None →
  refuses (TicketService.update T i dto u).
Proof.
  intros Hdto. unfold TicketService.update.
  apply refuses_bind_r; [apply getOrThrow_db|]. intros t.
  apply refuses_bind_r; [destruct (u_priority dto); solve_keeps|]. intros changed.
  apply refuses_bind_l, refuses_runTransition.
  destruct (update_literal dto t) as [props|e] eqn:E;
    [|by apply refuses_bind_l, refuses_throw].
  apply refuses_ok, refuses_bind_r; [solve_keeps|]. intros now w.
  apply update_literal_undef in E as [Hs Hp].
  destruct (aggregate_update_undef now props t) as [e He];
    [destruct Hdto; auto|].
  unfold outcome in He. unfold exec.
  destruct (Ticket.update now props t) as [r t']; cbn in He; subst. by eexists _, _.
Qed.

Lemma runTransition_inv {A} (m : M W A) w a w' :
  runTransition m w = (Ok a, w') → m w = (Ok a, w').
Proof.
  unfold runTransition, try_catch. destruct (m w) as [[b|e] w1]; [done|].
  by case_decide.
Qed.

Lemma exec_inv {T} (m : M T unit) t w t' w' :
  (exec m t : M W T) w = (Ok t', w') → m t = (Ok tt, t') ∧ w' = w.
Proof.
  unfold exec. destruct (m t) as [[[]|e] t1]; [|done]. by intros [= -> ->].
Qed.

Lemma persist_inv t T w t' w' :
  persist t T w = (Ok t', w') → t' = t <| domainEvents := [] |>.
Proof.
  unfold persist.
  intros (_ & w1 & _ & (_ & w2 & _ & (t2 & w3 & [= <- _] & E)%bind_inv)%bind_inv)%bind_inv.
  by apply bind_inv in E as (_ & w4 & _ & [= <- _]).
Qed.

(** The event a successful [update] records is the only other field that
    changes besides the patched ones, the date and the version. *)
Lemma aggregate_update_inv now props t t' :
  Ticket.update now props t = (Ok tt, t') →
  ∃ ev, t' = (spread_patch props t) <| updatedAt := now |>
               <| version := version t + 1 |>
               <| domainEvents := domainEvents t ++ [ev] |>.
Proof.
  unfold Ticket.update. intros (? & t1 & E1 & E2)%bind_inv.
  assert (t1 = t) as ->.
  { unfold assert_transition, with_status in E1. revert E1.
    destruct (p_status props); run; try by intros [= <-].
    destruct (status t); run; by intros [= _ <-]. }
  revert E2. clear E1. Aggregate.unfold_ops. run.
  destruct (spread (p_status props) (status t)); run; [|done].
  destruct (spread (p_priority props) (priority t)); run; [|done].
  intros [= <-]. by eexists.
Qed.

(** The generic update is not partial.  A call that leaves out the
    status or the priority always throws and changes nothing in the
    database; a call that returns has replaced the subject, the description
    and the category by what the call gave, absent fields included, and has
    dropped the metadata when none was given. *)
Theorem update_is_not_partial T i dto u :
  (u_status dto = None ∨ u_priority dto = None → refuses (TicketService.update T i dto u))
  ∧ ∀ w t' w', TicketService.update T i dto u w = (Ok t', w') →
      subject t' = u_subject dto ∧ description t' = u_description dto
      ∧ categoryId t' = u_categoryId dto
      ∧ (u_metadata dto = None → metadata t' = None).
Proof.
  split; [apply update_refuses|]. intros w t' w' E. unfold TicketService.update in E.
  apply bind_inv in E as (t & w1 & _ & E).
  apply bind_inv in E as (changed & w2 & _ & E).
  apply bind_inv in E as (t1 & w3 & E1 & E).
  apply bind_inv in E as (t2 & w4 & ->%persist_inv & E).
  repeat (apply bind_inv in E as (? & ? & _ & E)). injection E as <- _.
  apply runTransition_inv, bind_inv in E1 as (props & w5 & E1 & E2).
  apply bind_inv in E2 as (now & w6 & _ & E2).
  apply exec_inv in E2 as [(ev & ->)%aggregate_update_inv _].
  unfold of_result in E1. injection E1 as E1 _. unfold update_literal in E1.
  destruct (maybe_create TicketPriority.create _); [|done].
  destruct (maybe_create TicketStatus.create _); [|done].
  injection E1 as <-. cbn.
  split_and!; try by destruct (u_subject dto), (u_description dto), (u_categoryId dto).
  by intros ->.
Qed.

(** *** The bulk update *)

(** Running the single-ticket calls one after the other: their outcomes and
    the world they leave. *)
Fixpoint run_each (T : string) (status : TicketStatusEnum) (u : option string)
    (ids : list string) (w : W) : list (string * result Ticket) * W :=
  match ids with
  | [] => ([], w)
  | i :: ids' =>
      let '(r, w1) := bulk_one T status u i w in
      let '(rs, w2) := run_each T status u ids' w1 in
      ((i, r) :: rs, w2)
  end.

Definition count_ok (rs : list (string * result Ticket)) : Z :=
  Z.of_nat (length (js_filter (λ r, is_ok r.2) rs)).

(** The message recorded for each id: that of its last failure. *)
Definition errors_of (errs : gmap string string) (rs : list (string * result Ticket))
    : gmap string string :=
  foldl (λ m r, match r.2 with
                | Ok _ => m
                | Throw e => <[r.1 := exn_message e]> m
                end) errs rs.

Lemma bulk_step_eq T status u acc i w :
  bulk_step T status u acc i w =
    let '(r, w1) := bulk_one T status u i w in
    (Ok (acc.1 + (if is_ok r then 1 else 0), errors_of acc.2 [(i, r)]), w1).
Proof.
  unfold bulk_step, try_catch, mbind, M_bind.
  destruct (bulk_one T status u i w) as [[t|e] w1]; cbn; [done|].
  by rewrite Z.add_0_r.
Qed.

Lemma bulk_fold T status u ids acc w :
  fold_each ids acc (bulk_step T status u) w =
    let '(rs, w') := run_each T status u ids w in
    (Ok (acc.1 + count_ok rs, errors_of acc.2 rs), w').
Proof.
  revert acc w. induction ids as [|i ids IH]; intros [n errs] w; cbn [fold_each run_each].
  - cbn. by rewrite Z.add_0_r.
  - pose proof (bulk_step_eq T status u (n, errs) i w) as E.
    destruct (bulk_one T status u i w) as [r w1].
    rewrite (bind_ok _ _ _ _ _ E), IH.
    destruct (run_each T status u ids w1) as [rs w2]. cbn [fst snd errors_of foldl].
    unfold count_ok, js_filter. destruct r as [t|e]; cbn;
      apply (f_equal (λ k, (Ok (k, errors_of _ rs), w2))); lia.
Qed.

Lemma run_each_length T status u ids w :
  (run_each T status u ids w).1.*1 = ids.
Proof.
  revert w. induction ids as [|i ids IH]; intros w; [done|]. cbn [run_each].
  destruct (bulk_one T status u i w) as [r w1]. specialize (IH w1).
  destruct (run_each T status u ids w1) as [rs w2]. cbn in *. by f_equal.
Qed.


Lemma run_each_refused T status u ids w :
  (∀ i, refuses (bulk_one T status u i)) →
  let '(rs, w1) := run_each T status u ids w in
  count_ok rs = 0 ∧ db w1 = db w.
Proof.
  intros Hr. revert w. induction ids as [|i ids IH]; intros w; [done|]. cbn [run_each].
  destruct (Hr i w) as (e & w1 & -> & Hdb). specialize (IH w1).
  destruct (run_each T status u ids w1) as [rs w2]. cbn. by rewrite <- Hdb.
Qed.

(** The bulk update of every status but the four with a call of their
    own goes through the generic update without a priority, so it fails for
    every ticket and changes nothing in the database. *)
Theorem bulk_other_status_fails T status u ids w :
  status ∉ [RESOLVED; CLOSED; CANCELLED; REOPENED] →
  ∃ r w', bulkUpdateStatus T ids status u w = (Ok r, w')
    ∧ bulk_updated r = 0 ∧ bulk_failed r = Z.of_nat (length ids)
    ∧ db w' = db w.
Proof.
  intros Hs. assert (∀ i, refuses (bulk_one T status u i)) as Hr.
  { intros i. destruct status; cbn [bulk_one]; try (apply update_refuses; by right);
      set_solver. }
  pose proof (bulk_fold T status u ids (0, ∅) w) as E.
  pose proof (run_each_refused T status u ids w Hr) as Hc.
  destruct (run_each T status u ids w) as [rs w1]. destruct Hc as [Hc Hdb].
  cbn [fst snd] in E. rewrite Hc in E.
  unfold bulkUpdateStatus. rewrite (bind_ok _ _ _ _ _ E). unfold audit_log. run.
  eexists _, _. split; [reflexivity|]. cbn. split_and!; try done. lia.
Qed.
End services.
End Services.
