(* ===== verification/TicketSlaProofs.v ===== *)
(** * Properties of the SLA service

    The deadlines a ticket is given, and the breach sweep: what it flags, what
    it cannot see, and what a failing queue costs. *)

From S2P Require Import Prelude Platform JsDate BusinessHours TicketValues.
From S2P Require Import Ticket TicketSla TicketRepo TicketRepoProofs.
From S2P Require Import TicketStore TicketSlaService.
Open Scope Z_scope.

Module Sweep.
Section sweep.
Context `{Env, SqlSort, TicketDeps}.

(** *** The rows the sweep reads *)

Lemma find_due_inv tenant now limit d s :
  s ∈ find_due_slas tenant now limit d →
  ∃ raw, raw ∈ t_sla d ∧ due tenant now raw = true ∧ s = TicketMapper.slaToDomain raw.
Proof.
  unfold find_due_slas. intros (raw & -> & Hr)%list_elem_of_fmap.
  exists raw. apply elem_of_take in Hr as (k & Hk & _).
  apply list_elem_of_lookup_2 in Hk.
  rewrite sql_sort_perm in Hk. by apply js_filter_elem in Hk as [? ?].
Qed.

Lemma due_inv tenant now s :
  due tenant now s = true →
  TicketSLA.breached s = false ∧ TicketSLA.overdue (TicketSLA.resolutionDueAt s) now = true.
Proof.
  unfold due. intros [[Hb Ho]%andb_true_iff _]%andb_true_iff.
  by apply negb_true_iff in Hb.
Qed.

(** The sweep does not see response breaches in time: an SLA of an
    unresolved ticket whose response target is overdue, and for which the
    detector answers [RESPONSE], is not among the rows the sweep loads,
    whatever the tenant and the batch size. *)
Theorem sweep_misses_response tenant now limit d s responded :
  TicketSLA.detectBreach s now responded false = Some RESPONSE →
  s ∉ find_due_slas tenant now limit d.
Proof.
  intros Hd (raw & _ & [_ Ho]%due_inv & ->)%find_due_inv.
  unfold TicketSLA.detectBreach in Hd. cbn in Hd.
  destruct (TicketSLA.breached raw); [done|].
  destruct (TicketSLA.isPaused _); [done|]. by rewrite Ho in Hd.
Qed.

(** *** Flagging *)

(** The SLA of this ticket is stored, and stored as breached. *)
Definition sla_flagged (T tk : string) (d : TicketDb) : Prop :=
  some (sla_of T tk) (t_sla d) = true
  ∧ ∀ s, s ∈ t_sla d → sla_of T tk s = true → TicketSLA.breached s = true.

Lemma some_true {A} (p : A → bool) l : some p l = true ↔ ∃ x, x ∈ l ∧ p x = true.
Proof.
  unfold some. rewrite existsb_exists. split; intros (x & Hx & Hp); exists x;
    by rewrite list_elem_of_In in *.
Qed.

Lemma sla_of_iff T tk s :
  sla_of T tk s = true ↔ TicketSLA.tenantId s = T ∧ TicketSLA.ticketId s = tk.
Proof. unfold sla_of. by rewrite andb_true_iff, !String.eqb_eq. Qed.

Lemma upsert_flags now s T d :
  TicketSLA.breached s = true →
  sla_flagged T (TicketSLA.ticketId s) (upsert_sla now s T d).
Proof.
  intros Hb. unfold upsert_sla. destruct (some (sla_of T (TicketSLA.ticketId s)) (t_sla d)) eqn:E.
  - apply some_true in E as (x & Hx & Hm). split.
    + apply some_true. eexists. split; [by apply list_elem_of_fmap_2, Hx|].
      rewrite Hm. apply sla_of_iff. done.
    + cbn. intros y (z & -> & Hz)%list_elem_of_fmap.
      destruct (sla_of T _ z) eqn:Ez; [done|]. congruence.
  - split.
    + apply some_true. eexists. split; [apply elem_of_app; right; by left|].
      apply sla_of_iff. done.
    + cbn. intros y [Hy|Hy%list_elem_of_singleton]%elem_of_app; [|by subst].
      intros Hm. by rewrite (proj1 (some_false _ _) E y Hy) in Hm.
Qed.

(** What is flagged stays flagged when breached SLAs are written. *)
Lemma upsert_keeps_flags now s T d T' tk :
  TicketSLA.breached s = true →
  sla_flagged T' tk d → sla_flagged T' tk (upsert_sla now s T d).
Proof.
  intros Hb [He Hall]. unfold upsert_sla. destruct (some (sla_of T (TicketSLA.ticketId s)) (t_sla d)) eqn:E.
  - split.
    + apply some_true in He as (x & Hx & Hm). apply some_true. eexists.
      split; [by apply list_elem_of_fmap_2, Hx|]. cbn.
      destruct (sla_of T _ x) eqn:Ex; [|done].
      apply sla_of_iff in Ex, Hm. apply sla_of_iff. cbn. naive_solver.
    + cbn. intros y (z & -> & Hz)%list_elem_of_fmap.
      destruct (sla_of T _ z) eqn:Ez; [done|]. by apply Hall.
  - split.
    + apply some_true in He as (x & Hx & Hm). apply some_true. exists x.
      split; [|done]. apply elem_of_app. by left.
    + cbn. intros y [Hy|Hy%list_elem_of_singleton]%elem_of_app; [by apply Hall|by subst].
Qed.

(** The tables the sweep only reads, and the flags, which only grow. *)
Definition sweeps (d d' : TicketDb) : Prop :=
  (t_tickets d' = t_tickets d ∧ t_comments d' = t_comments d ∧ t_tags d' = t_tags d
   ∧ t_watchers d' = t_watchers d ∧ t_approvals d' = t_approvals d)
  ∧ ∀ T tk, sla_flagged T tk d → sla_flagged T tk d'.

#[local] Instance sweeps_preorder : PreOrder sweeps.
Proof.
  split; [done|]. intros a b c [Ht Hf] [Ht' Hf']. split; [|by auto].
  destruct_and!. split_and!; congruence.
Qed.

Lemma sweeps_find i T d d' : sweeps d d' → find_ticket i T d' = find_ticket i T d.
Proof.
  intros [(E1 & E2 & E3 & E4 & E5) _].
  unfold find_ticket, select_ticket, loadChildren. by rewrite E1, E2, E3, E4, E5.
Qed.

Lemma upsert_sweeps now s T d :
  TicketSLA.breached s = true → sweeps d (upsert_sla now s T d).
Proof.
  intros Hb. split; [|by intros; apply upsert_keeps_flags].
  unfold upsert_sla. by destruct (some _ _).
Qed.

(** The part of [flag_breach] after the SLA is saved. *)
Definition announce (sla : TicketSLA) (ticket : Ticket) (b : SlaBreachType) : M W unit :=
  let tenant := TicketSLA.tenantId sla in
  publish (SlaBreachedEvent tenant (id ticket) (TicketSLA.id sla) (SlaBreachType_str b)) ;;
  addJob TICKET "ticket-escalation-job"
    [("ticketId", JStr (id ticket)); ("tenantId", JStr tenant);
     ("reason", JStr ("SLA_" +:+ SlaBreachType_str b +:+ "_BREACH"))] (λ o, o) ;;
  match assignedAgentId ticket with
  | Some agentId => when (truthy agentId)
      (addJob NOTIFICATION "sla-breach"
        [("tenantId", JStr tenant); ("ticketId", JStr (id ticket));
         ("ticketNumber", JStr (ticketNumber ticket));
         ("breachType", JStr (SlaBreachType_str b));
         ("agentId", JStr agentId)] (λ o, o))
  | None => mret tt
  end ;;
  audit_log tenant None "SLA_BREACH"
    ("Ticket " +:+ id ticket +:+ " breached " +:+ SlaBreachType_str b +:+ " SLA").

(** Every event of a ticket is forwarded to analytics. *)
Lemma published e : bool_decide (event_name e ∈ ANALYTICS_EVENTS) = true.
Proof. by destruct e. Qed.

Lemma announce_db sla t b : keeps (same db) (announce sla t b).
Proof. unfold announce. solve_keeps. Qed.

(** The SLA is saved as breached first; the rest keeps the database. *)
Lemma flag_breach_split now sla t b w :
  ∃ sla' w1, TicketSLA.breached sla' = true
    ∧ TicketSLA.tenantId sla' = TicketSLA.tenantId sla
    ∧ TicketSLA.ticketId sla' = TicketSLA.ticketId sla
    ∧ jobs w1 = jobs w ∧ tenantContext w1 = tenantContext w
    ∧ db w1 = upsert_sla (env_clock (S (ticks w))) sla' (TicketSLA.tenantId sla) (db w)
    ∧ flag_breach now sla t b w = announce sla' t b w1.
Proof.
  set (sla' := final (TicketSLA.markBreached now (env_clock (ticks w))) sla).
  exists sla', (final (upsertSla sla' (TicketSLA.tenantId sla)) (final new_Date w)).
  by split_and!.
Qed.

Lemma flag_breach_flags now sla t b w :
  let d' := db (final (flag_breach now sla t b) w) in
  sweeps (db w) d' ∧ sla_flagged (TicketSLA.tenantId sla) (TicketSLA.ticketId sla) d'.
Proof.
  destruct (flag_breach_split now sla t b w)
    as (sla' & w1 & Hb & HT & Htk & _ & _ & Hdb & E).
  cbn. unfold final. rewrite E. fold (final (announce sla' t b) w1).
  rewrite (announce_db sla' t b w1), Hdb. split.
  - by apply upsert_sweeps.
  - rewrite <- Htk. by apply upsert_flags.
Qed.

(** What the sweep decides about a row, in a given database. *)
Definition verdict (now : Z) (d : TicketDb) (s : TicketSLA) : option SlaBreachType :=
  match find_ticket (TicketSLA.ticketId s) (TicketSLA.tenantId s) d with
  | Ok (Some t) => match sweep_breach t s now with Ok b => b | Throw _ => None end
  | _ => None
  end.

Lemma sweep_one_spec now acc s w n w' :
  sweep_one now acc s w = (Ok n, w') →
  sweeps (db w) (db w')
  ∧ n = acc + (if verdict now (db w) s then 1 else 0)
  ∧ (is_Some (verdict now (db w) s) →
     sla_flagged (TicketSLA.tenantId s) (TicketSLA.ticketId s) (db w')).
Proof.
  unfold sweep_one, verdict, findById.
  intros (o & w1 & E1 & E2)%bind_inv. run. injection E1 as -> ->.
  destruct o as [t|]; [|injection E2 as <- <-; split_and!; [done|lia|by intros []]].
  destruct (sweep_breach t s now) as [[b|]|e]; run; [| |done].
  - destruct (flag_breach now s t b w1) as [[[]|e] w2] eqn:E; [|done].
    injection E2 as <- <-.
    pose proof (flag_breach_flags now s t b w1) as Hf. unfold final in Hf.
    rewrite E in Hf. destruct Hf. split_and!; [done|lia|done].
  - injection E2 as <- <-. split_and!; [done|lia|by intros []].
Qed.

Lemma sweep_fold now l acc w n w' :
  fold_each l acc (sweep_one now) w = (Ok n, w') →
  sweeps (db w) (db w')
  ∧ n = acc + Z.of_nat (length (js_filter (λ s, bool_decide (is_Some (verdict now (db w) s))) l))
  ∧ ∀ s, s ∈ l → is_Some (verdict now (db w) s) →
      sla_flagged (TicketSLA.tenantId s) (TicketSLA.ticketId s) (db w').
Proof.
  revert acc w. induction l as [|s l IH]; intros acc w; cbn [fold_each].
  { intros [= <- <-]. cbn. split_and!; [done|lia|]. intros s Hs. by apply not_elem_of_nil in Hs. }
  intros (acc1 & w1 & (Hsw & Hn & Hfl)%sweep_one_spec & E)%bind_inv.
  apply IH in E as (Hsw' & Hn' & Hfl').
  assert (∀ s, verdict now (db w1) s = verdict now (db w) s) as Hv.
  { intros x. unfold verdict. by rewrite (sweeps_find _ _ _ _ Hsw). }
  split_and!.
  - by etransitivity.
  - rewrite Hn', Hn. clear Hn Hn'. unfold js_filter. cbn.
    rewrite (List.filter_ext _ (λ s, bool_decide (is_Some (verdict now (db w) s))))
      by (intros x; by rewrite Hv).
    destruct (verdict now (db w) s); cbn; lia.
  - intros x [->|Hx]%elem_of_cons Hs.
    + by apply Hsw', Hfl.
    + apply Hfl'; [done|]. by rewrite Hv.
Qed.

Lemma flagged_not_due tenant now limit d T tk s :
  sla_flagged T tk d → s ∈ find_due_slas tenant now limit d →
  ¬ (TicketSLA.tenantId s = T ∧ TicketSLA.ticketId s = tk).
Proof.
  intros [_ Hall] (raw & Hr & [Hb _]%due_inv & ->)%find_due_inv Hk.
  apply sla_of_iff in Hk. rewrite Hall in Hb; done.
Qed.


(** The SLA is saved as breached before its escalation is queued: when
    the queue refuses the escalation job, the sweep throws with the SLA
    already flagged, so no later sweep loads it and the ticket is never
    escalated for this breach. *)
Theorem refused_escalation_is_lost now sla t b w e :
  (∀ job, job_name job = "ticket-escalation-job" → env_queue_add job = Some e) →
  ∃ w', flag_breach now sla t b w = (Throw e, w')
    ∧ (∀ job, job ∈ jobs w' → job ∈ jobs w ∨ job_name job = "ticket-analytics-job")
    ∧ ∀ tenant' now' limit s', s' ∈ find_due_slas tenant' now' limit (db w') →
        ¬ (TicketSLA.tenantId s' = TicketSLA.tenantId sla
           ∧ TicketSLA.ticketId s' = TicketSLA.ticketId sla).
Proof.
  intros Hq.
  destruct (flag_breach_split now sla t b w)
    as (sla' & w1 & Hb & HT & Htk & Hj & _ & Hdb & E).
  pose proof (flag_breach_flags now sla t b w) as [_ Hfl].
  unfold final in Hfl. rewrite E in Hfl |- *.
  enough (∃ w', announce sla' t b w1 = (Throw e, w')
    ∧ ∀ job, job ∈ jobs w' → job ∈ jobs w ∨ job_name job = "ticket-analytics-job")
    as (w' & Ea & Hjobs).
  { exists w'. rewrite Ea in Hfl |- *. cbn in Hfl.
    split_and!; [done|done|]. intros *. by apply flagged_not_due. }
  unfold announce, publish. rewrite published.
  unfold addJob, getTenantId, try_catch, when. run.
  match goal with |- context [env_queue_add ?j] => destruct (env_queue_add j) eqn:E1 end;
    run; rewrite Hq by done; eexists; (split; [reflexivity|]); cbn; rewrite Hj.
  - auto.
  - intros job [?| ->%list_elem_of_singleton]%elem_of_app; auto.
Qed.

(** *** Configuring *)

Lemma recalculate_keeps_deadlines at_ now :
  keeps (same (λ s, (TicketSLA.responseDueAt s, TicketSLA.resolutionDueAt s,
           TicketSLA.pausedSeconds s, TicketSLA.breached s,
           (TicketSLA.tenantId s, TicketSLA.ticketId s))))
    (TicketSLA.recalculateRemaining at_ now).
Proof. unfold TicketSLA.recalculateRemaining. solve_keeps; by apply keeps_modify. Qed.

Lemma due_at_mono bh c base m m' :
  0 ≤ m ≤ m' → base ≤ due_at bh c base m ≤ due_at bh c base m'.
Proof.
  intros Hm. unfold due_at. destruct bh.
  - by apply Minutes.addBusinessMinutes_mono.
  - unfold addCalendarMinutes. lia.
Qed.

(** The matrix leaves more time to resolve than to respond, and less of both
    the higher the priority. *)
Lemma matrix_ordered p q :
  (responseMinutes (DEFAULT_SLA_MATRIX p) ≤ resolutionMinutes (DEFAULT_SLA_MATRIX p))
  ∧ (TicketPriority.weight p < TicketPriority.weight q →
     responseMinutes (DEFAULT_SLA_MATRIX q) < responseMinutes (DEFAULT_SLA_MATRIX p)
     ∧ resolutionMinutes (DEFAULT_SLA_MATRIX q) < resolutionMinutes (DEFAULT_SLA_MATRIX p)).
Proof. destruct p, q; cbn; lia. Qed.

End sweep.
End Sweep.
