(* ===== verification/TicketApprovalProofs.v ===== *)
(** * Properties of the approval service *)

From S2P Require Import Prelude Platform TicketValues Ticket TicketProofs.
From S2P Require Import TicketSla TicketRepo TicketRepoProofs TicketStore.
From S2P Require Import TicketApprovalService.
Import TicketStatusEnum.
Open Scope Z_scope.

Module Approvals.
Section approvals.
Context `{Env, SqlSort}.

(** The three decisions on an approval. *)
Inductive decision :=
  | Approve (comments : option string)
  | Reject (comments : option string)
  | Cancel.

Definition run_decision (T approvalId : string) (userId : option string)
    (o : decision) : M W TicketApproval :=
  match o with
  | Approve c => approve T approvalId c userId
  | Reject c => reject T approvalId c userId
  | Cancel => cancel_approval T approvalId userId
  end.

Definition entity_decision (now : Z) (o : decision) : M TicketApproval unit :=
  match o with
  | Approve c => TicketApproval.approve now c
  | Reject c => TicketApproval.reject now c
  | Cancel => TicketApproval.cancel now
  end.

Definition decided_status (o : decision) : ApprovalStatusEnum :=
  match o with
  | Approve _ => ApprovalStatusEnum.APPROVED
  | Reject _ => ApprovalStatusEnum.REJECTED
  | Cancel => ApprovalStatusEnum.CANCELLED
  end.

(** What the entity does: a pending approval takes the decision, another one
    refuses it and stays as it is. *)
Lemma entity_decision_spec now o a :
  if TicketApproval.isPending a
  then ∃ a', entity_decision now o a = (Ok tt, a')
         ∧ TicketApproval.status a' = decided_status o
         ∧ TicketApproval.id a' = TicketApproval.id a
         ∧ TicketApproval.tenantId a' = TicketApproval.tenantId a
         ∧ TicketApproval.ticketId a' = TicketApproval.ticketId a
  else entity_decision now o a = (Throw (TicketApproval.already_decided a), a).
Proof.
  destruct (TicketApproval.isPending a) eqn:E, o; cbn [entity_decision];
    unfold TicketApproval.approve, TicketApproval.reject, TicketApproval.cancel;
    rewrite gets_bind, E; try done; run; eexists; by split_and!.
Qed.

(** The decisions are [decide_approval] and then only messages. *)
Lemma run_decision_decides T i u o w :
  run_decision T i u o w =
    (approval ← decide_approval T i (λ now, entity_decision now o);
     match o with
     | Approve _ =>
         publish (TicketApprovedEvent T (TicketApproval.ticketId approval)
           (TicketApproval.id approval) (TicketApproval.approverId approval)) ;;
         audit_log T u "TICKET_APPROVED" ("Approved " +:+ TicketApproval.id approval
           +:+ " on ticket " +:+ TicketApproval.ticketId approval) ;; mret approval
     | Reject _ =>
         publish (TicketRejectedEvent T (TicketApproval.ticketId approval)
           (TicketApproval.id approval) (TicketApproval.approverId approval)) ;;
         audit_log T u "TICKET_REJECTED" ("Rejected " +:+ TicketApproval.id approval
           +:+ " on ticket " +:+ TicketApproval.ticketId approval) ;; mret approval
     | Cancel =>
         audit_log T u "TICKET_APPROVAL_CANCELLED"
           ("Cancelled approval " +:+ TicketApproval.id approval
            +:+ " on ticket " +:+ TicketApproval.ticketId approval) ;; mret approval
     end) w.
Proof. by destruct o. Qed.

(** An approval is decided once: deciding a missing approval is a 404
    and deciding one that is no longer pending throws, and in both cases no
    table changes and nothing is queued. *)
Theorem approval_decided_once T i u o w :
  match get_approval T i (db w) with
  | None => True
  | Some a => TicketApproval.isPending a = false
  end →
  ∃ e w', run_decision T i u o w = (Throw e, w') ∧ db w' = db w ∧ jobs w' = jobs w
    ∧ e = match get_approval T i (db w) with
          | None => Exn NotFoundException ("Approval " +:+ i +:+ " not found")
          | Some a => TicketApproval.already_decided a
          end.
Proof.
  intros Hp. rewrite run_decision_decides.
  unfold decide_approval, getApprovalOrThrow, getApproval.
  destruct (get_approval T i (db w)) as [a|] eqn:E.
  - pose proof (entity_decision_spec (env_clock (ticks w)) o a) as Hd.
    rewrite Hp in Hd. unfold new_Date, exec. run. rewrite E. run. rewrite Hd. run. eauto 6.
  - run. rewrite E. run. eauto 6.
Qed.

(** After a quiet persist the ticket's row is the ticket's. *)
Lemma persist_quietly_saves t T w t' w' :
  persist_quietly t T w = (Ok t', w') →
  ∃ row, t_tickets (db w') !! id t = Some row
    ∧ row_status row = default "" (enum_str <$> status t) ∧ row_version row = version t.
Proof.
  unfold persist_quietly.
  intros (? & w1 & E1 & (? & w2 & E2 & [= _ <-])%bind_inv)%bind_inv.
  pose proof (publishAll_db (domainEvents t) w1) as Hdb.
  unfold final, same in Hdb. rewrite E2 in Hdb. cbn in Hdb. rewrite Hdb.
  unfold save in E1. apply bind_inv in E1 as (now & w3 & _ & E1).
  apply bind_inv in E1 as (d & w4 & [= <- <-] & E1).
  apply bind_inv in E1 as (d' & w5 & Esave & [= _ <-]).
  unfold of_result in Esave. injection Esave as Esave _. cbn.
  apply Repo.save_inv in Esave as (p & s & row & _ & Hs & Hw & -> & _).
  exists row. rewrite lookup_insert_eq, Hs. split; [done|].
  by apply Repo.write_inv in Hw as [_ [(? & _ & ->)|(_ & ? & _ & ->)]].
Qed.

(** After a decision the ticket moves on exactly when nothing is
    pending any more: [resumeTicket] does nothing at all to a missing ticket,
    to one that is not waiting for an approval or that has another pending
    approval; otherwise, if it returns, the stored ticket is in progress. *)
Theorem resume_only_when_all_decided T i w :
  match find_ticket i T (db w) with
  | Ok None => resumeTicket T i w = (Ok tt, w)
  | Ok (Some t) =>
      if bool_decide (status t = Some APPROVAL_PENDING) && negb (hasPendingApproval t)
      then ∀ w', resumeTicket T i w = (Ok tt, w') →
             ∃ row, t_tickets (db w') !! id t = Some row
               ∧ row_status row = enum_str IN_PROGRESS ∧ row_version row = version t + 1
      else resumeTicket T i w = (Ok tt, w)
  | Throw e => resumeTicket T i w = (Throw e, w)
  end.
Proof.
  assert (findById i T w = (find_ticket i T (db w), w)) as Ef by done.
  unfold resumeTicket. destruct (find_ticket i T (db w)) as [[t|]|e] eqn:E;
    [|by rewrite (bind_ok _ _ _ _ _ Ef)|by rewrite (bind_throw _ _ _ _ _ Ef)].
  rewrite (bind_ok _ _ _ _ _ Ef).
  apply Repo.find_inv in E as (_ & p & s & _ & _ & _ & _ & Hp & Hs & _).
  assert (call status_value t w = (Ok (t, s), w)) as Ec.
  { unfold call, status_value, with_status. run. by rewrite Hs. }
  rewrite (bind_ok _ _ _ _ _ Ec), Hs. fold (hasPendingApproval t).
  destruct (decide (s = APPROVAL_PENDING)) as [->|Hne].
  2:{ rewrite !bool_decide_eq_false_2 by congruence. done. }
  rewrite !bool_decide_eq_true_2 by done. cbn [negb andb].
  destruct (hasPendingApproval t); [done|]. cbn [negb]. intros w'.
  intros (now & w1 & _ & (t2 & w2 & E2 & (t3 & w3 & E3 & [= <-])%bind_inv)%bind_inv)%bind_inv.
  destruct (Aggregate.update_status_ok now t APPROVAL_PENDING p IN_PROGRESS Hs Hp eq_refl)
    as (t2' & Eu & Hs2 & Hid & Hv).
  unfold exec in E2. rewrite Eu in E2. injection E2 as <- <-.
  apply persist_quietly_saves in E3 as (row & Hrow & Hst & Hver).
  exists row. rewrite <- Hid, Hst, Hver, Hv. split; [done|]. by rewrite Hs2.
Qed.
End approvals.
End Approvals.
