(* ===== verification/TicketSamples.v ===== *)
(** * Concrete tickets

    A small world the theorems on tickets are applied to: an environment whose
    clock ticks every second, a queue that accepts everything (or refuses
    escalations), the other modules answering constants, and one tenant with
    one open ticket. *)

From S2P Require Import Prelude Platform TicketValues TicketNumbers Ticket.
From S2P Require Import TicketProofs BusinessHours TicketSla TicketRepo.
From S2P Require Import TicketRepoProofs TicketStore TicketSlaService.
From S2P Require Import TicketSlaProofs TicketService TicketApprovalService.
From S2P Require Import TicketAssignmentService TicketIsolation.
From S2P Require Import TicketServiceProofs TicketApprovalProofs.
Import TicketStatusEnum.
Open Scope Z_scope.

Definition sample_env : Env :=
  {| env_clock := λ n, 1767000000000 + 1000 * Z.of_nat n;
     env_uuid := λ n, "uuid-" +:+ pretty n;
     env_queue_add := λ _, None |}.

(** The queue refuses escalation jobs. *)
Definition full_queue_env : Env :=
  {| env_clock := env_clock (Env := sample_env);
     env_uuid := env_uuid (Env := sample_env);
     env_queue_add := λ job,
       if String.eqb (job_name job) "ticket-escalation-job"
       then Some (Exn JsError "Connection is closed.") else None |}.

#[program] Definition sample_deps : TicketDeps :=
  {| customer_findById := λ _ _, Ok {| customer_email := Some "a@b.c"; syntheticEmail := false |};
     conversation_split := λ _ _ _, Ok "conv-2";
     getSlaSettings := λ _, Ok {| responseTimeTarget := 3600; resolutionTimeTarget := 86400;
                                  businessHoursOnly := false |};
     getHolidays := λ _, [];
     evaluateEventTriggers := λ _ _ _, mret tt |}.
Solve All Obligations with done.

#[program] Definition sample_engine : AssignmentEngine :=
  {| assignEntity := λ _ _ _ _, mret "agent-1"; findOfflineAgents := λ _, [] |}.
Solve All Obligations with done.

Definition sample_props (number : string) (s : TicketStatusEnum) : TicketProps :=
  {| TicketProps.tenantId := "acme"; TicketProps.ticketNumber := number;
     TicketProps.customerId := Some "cust-1"; TicketProps.conversationId := None;
     TicketProps.assignedAgentId := Some "agent-1"; TicketProps.assignedTeamId := None;
     TicketProps.categoryId := None; TicketProps.priority := TicketPriorityEnum.MEDIUM;
     TicketProps.status := s; TicketProps.source := TicketSourceEnum.MANUAL;
     TicketProps.subject := Some "Printer on fire"; TicketProps.description := None;
     TicketProps.resolutionSummary := None; TicketProps.openedAt := None;
     TicketProps.firstResponseAt := None; TicketProps.resolvedAt := None;
     TicketProps.closedAt := None; TicketProps.metadata := None;
     TicketProps.createdAt := None; TicketProps.updatedAt := None;
     TicketProps.deletedAt := None; TicketProps.version := None;
     TicketProps.comments := None;
     TicketProps.tags := Some [{| tag_id := "tag-1"; tag_tenantId := "acme";
       tag_ticketId := "t1"; tag := "hot"; color := None; tag_createdAt := 0;
       tag_updatedAt := 0 |}];
     TicketProps.watchers := None; TicketProps.approvals := None |}.

Definition sample_ticket : Ticket := Ticket.create 0 "t1" (sample_props "TKT-000001" OPEN).
Definition closed_ticket : Ticket := Ticket.create 0 "t1" (sample_props "TKT-000001" CLOSED).
Definition second_ticket : Ticket :=
  (Ticket.create 0 "t2" (sample_props "TKT-000001" OPEN)) <| tags := [] |>.

Definition sample_approval : TicketApproval :=
  {| TicketApproval.id := "a1"; TicketApproval.tenantId := "acme";
     TicketApproval.ticketId := "t1"; TicketApproval.approverId := "boss";
     TicketApproval.status := ApprovalStatusEnum.PENDING;
     TicketApproval.type := ApprovalTypeEnum.REFUND; TicketApproval.comments := None;
     TicketApproval.approvedAt := None; TicketApproval.createdAt := 0;
     TicketApproval.updatedAt := 0 |}.

Definition awaiting_ticket : Ticket :=
  sample_ticket <| status := Some IN_PROGRESS |> <| approvals := [sample_approval] |>.

Definition sample_sla : TicketSLA :=
  {| TicketSLA.id := "s1"; TicketSLA.tenantId := "acme"; TicketSLA.ticketId := "t1";
     TicketSLA.policyId := None; TicketSLA.responseDueAt := Some 1000;
     TicketSLA.resolutionDueAt := Some 5000; TicketSLA.breached := false;
     TicketSLA.breachedAt := None; TicketSLA.remainingSeconds := None;
     TicketSLA.pausedAt := None; TicketSLA.pausedSeconds := 0;
     TicketSLA.createdAt := 0; TicketSLA.updatedAt := 0 |}.

Definition empty_db : TicketDb := Build_TicketDb ∅ [] [] [] [] [] [].

Definition saved (t : Ticket) (d : TicketDb) : TicketDb :=
  match save_ticket 0 t (tenantId t) d with Ok d' => d' | Throw _ => d end.

Definition sample_db : TicketDb :=
  saved sample_ticket empty_db <| t_sla := [sample_sla] |>
    <| t_approvals := [sample_approval <| TicketApproval.status := ApprovalStatusEnum.APPROVED |>] |>.

Definition sample_world (d : TicketDb) : W := mkWorld d 0 0 [] [] [] None.

(** ** The aggregate *)

Definition sample_run : list (Z * ticket_op) :=
  [(1, OpStart); (2, OpResolve None None); (3, OpTransfer "agent-2")].

Lemma sample_reachable : reachable sample_ticket (Aggregate.run_ops sample_run sample_ticket).
Proof.
  apply (reach_step _ 1 OpStart), (reach_step _ 2 (OpResolve None None)),
    (reach_step _ 3 (OpTransfer "agent-2")), reach_refl.
Qed.

Lemma reachable_evolves_witness :
  Aggregate.evolves sample_ticket (Aggregate.run_ops sample_run sample_ticket).
Proof. apply (Aggregate.reachable_evolves _ _ sample_reachable). Defined.

Lemma reachable_wf_witness : Aggregate.wf (Aggregate.run_ops sample_run sample_ticket).
Proof.
  apply (Aggregate.reachable_wf _ _ sample_reachable).
  apply Aggregate.new_Ticket_wf; cbn; [apply NoDup_singleton|apply NoDup_nil_2|lia].
Defined.


Lemma terminal_is_final_witness :
  status (Aggregate.run_ops [(1, OpStart); (2, OpEscalate "late")] closed_ticket) = Some CLOSED.
Proof.
  apply (Aggregate.terminal_is_final [(1, OpStart); (2, OpEscalate "late")] closed_ticket CLOSED);
    vm_compute; reflexivity.
Defined.

Lemma transfer_escapes_terminal_witness :
  status (final (Ticket.transfer 1 "agent-2") closed_ticket) = Some ASSIGNED.
Proof.
  apply (Aggregate.transfer_escapes_terminal 1 "agent-2" sample_approval closed_ticket CLOSED);
    vm_compute; reflexivity.
Defined.

Lemma resolve_spec_witness :
  Ticket.resolve 9 None None closed_ticket
  = (Throw (TicketStatus.transition_error CLOSED RESOLVED), closed_ticket).
Proof. exact (Aggregate.resolve_spec 9 None None closed_ticket CLOSED eq_refl). Defined.

Lemma refused_transition_no_effect_witness :
  final (run_op 9 (OpClose None)) closed_ticket = closed_ticket.
Proof.
  apply (Aggregate.refused_transition_no_effect 9 (OpClose None) closed_ticket CLOSED
    TicketPriorityEnum.MEDIUM (TicketStatus.transition_error CLOSED CLOSED));
    vm_compute; reflexivity.
Defined.

Lemma update_skips_approval_guard_witness :
  status (final (Ticket.update 9 (status_patch RESOLVED)) awaiting_ticket) = Some RESOLVED.
Proof.
  apply (Aggregate.update_skips_approval_guard 9 awaiting_ticket IN_PROGRESS
    TicketPriorityEnum.MEDIUM); vm_compute; reflexivity.
Defined.

(** ** Business hours and the SLA clock *)

Lemma addBusinessMinutes_spec_witness :
  (∃ n, addBusinessMinutes 0 1 Minutes.always_open = JsDate.add_minutes 0 (Z.of_nat (S n))
     ∧ (n < maxIterations)%nat
     ∧ Minutes.worked Minutes.always_open 0 (S n) = 1
     ∧ (∀ n', (n' ≤ n)%nat → Minutes.worked Minutes.always_open 0 n' < 1)
     ∧ isWorkingMoment (JsDate.add_minutes 0 (Z.of_nat n)) Minutes.always_open = true)
  ∨ (addBusinessMinutes 0 1 Minutes.always_open = JsDate.add_minutes 0 (Z.of_nat maxIterations)
     ∧ Minutes.worked Minutes.always_open 0 maxIterations < 1).
Proof. apply (Minutes.addBusinessMinutes_spec Minutes.always_open 0 1). lia. Defined.

Lemma always_open_is_calendar_witness :
  addBusinessMinutes 0 60 Minutes.always_open = addCalendarMinutes 0 60.
Proof. apply (Minutes.always_open_is_calendar 0 60). unfold maxIterations. lia. Defined.

Lemma clock_shifts_by_stopped_time_witness :
  let s := SlaClock.run_clock [SlaClock.Pause 10 10; SlaClock.Resume 35 35] sample_sla in
  TicketSLA.responseDueAt s = Some 1025 ∧ TicketSLA.resolutionDueAt s = Some 5025
  ∧ TicketSLA.pausedAt s = None.
Proof.
  exact (SlaClock.clock_shifts_by_stopped_time
    [SlaClock.Pause 10 10; SlaClock.Resume 35 35] sample_sla eq_refl).
Defined.

(** ** The repository *)

Lemma save_find_roundtrip_witness :
  ∃ created updated subj,
    find_ticket "t1" "acme" (saved sample_ticket empty_db)
    = Ok (Some (Repo.reread sample_ticket created updated subj (saved sample_ticket empty_db)))
    ∧ ((∃ old, select_ticket "t1" "acme" empty_db = Some old
         ∧ created = row_createdAt old ∧ updated = 0
         ∧ subj = default (row_subject old) (subject sample_ticket))
       ∨ (t_tickets empty_db !! "t1" = None
          ∧ created = 0 ∧ updated = 0 ∧ subject sample_ticket = Some subj)).
Proof.
  apply (Repo.save_find_roundtrip 0 sample_ticket empty_db (saved sample_ticket empty_db));
    [vm_compute; reflexivity|cbn; lia|vm_compute; reflexivity].
Defined.

Definition found (i T : string) (d : TicketDb) : Ticket :=
  match find_ticket i T d with Ok (Some t) => t | _ => sample_ticket end.

Definition untagged : Ticket :=
  final (Ticket.removeWatcher 7 "u") (final (Ticket.removeTag 7 "hot") (found "t1" "acme" sample_db)).

Lemma removed_children_come_back_witness :
  tags untagged = [] ∧
  ∀ x, x ∈ tags (found "t1" "acme" sample_db) →
       x ∈ tags (found "t1" "acme" (saved untagged sample_db)).
Proof.
  split; [vm_compute; reflexivity|].
  apply (Repo.removed_children_come_back 0 7 "acme" sample_db (saved untagged sample_db)
    (found "t1" "acme" sample_db) (found "t1" "acme" (saved untagged sample_db)) "hot" "u");
    vm_compute; reflexivity.
Defined.

Lemma sample_numbered : Repo.numbered_db (saved sample_ticket empty_db).
Proof.
  intros i r Hr. assert (i = "t1") as ->.
  { destruct (decide (i = "t1")) as [|Hne]; [done|]. exfalso. revert Hr.
    change (t_tickets (saved sample_ticket empty_db)) with
      (<["t1" := row_of sample_ticket "MEDIUM" "OPEN" "Printer on fire" 0 0]> (∅ : gmap string TicketRow)).
    by rewrite lookup_insert_ne, lookup_empty by done. }
  vm_compute in Hr. injection Hr as <-. exists 1. split; [|vm_compute; reflexivity].
  vm_compute. split; congruence.
Qed.

Lemma next_number_is_free_witness :
  number_taken (Ticket.create 0 "t3" (sample_props "TKT-000002" OPEN))
    (saved sample_ticket empty_db) = false.
Proof.
  apply (Repo.next_number_is_free _ _ sample_numbered). vm_compute. reflexivity.
Defined.

Lemma concurrent_creates_collide_witness :
  save_ticket 6 second_ticket "acme" (saved sample_ticket empty_db) = Throw unique_violation.
Proof.
  apply (Repo.concurrent_creates_collide 0 6 sample_ticket second_ticket empty_db
    (saved sample_ticket empty_db)); try (vm_compute; reflexivity).
  - discriminate.
  - eexists. reflexivity.
  - eexists. reflexivity.
Defined.

(** ** The services *)

Lemma tenant_isolation_witness :
  Repo.others_same "other" sample_db
    (db (final (Isolation.run_cmd (H := sample_env) (H1 := sample_deps) (H2 := sample_engine)
      "other" (Isolation.CmdTransfer "t1" (Some "agent-2") None None)) (sample_world sample_db))).
Proof.
  exact (Isolation.tenant_isolation (H := sample_env) (H1 := sample_deps) (H2 := sample_engine)
    "other" (Isolation.CmdTransfer "t1" (Some "agent-2") None None) (sample_world sample_db)).
Defined.

Lemma bulk_other_status_fails_witness :
  ∃ r w', bulkUpdateStatus (H := sample_env) (H1 := sample_deps) "acme" ["t1"; "t2"]
            IN_PROGRESS None (sample_world sample_db) = (Ok r, w')
    ∧ bulk_updated r = 0 ∧ bulk_failed r = 2 ∧ db w' = sample_db.
Proof.
  apply (Services.bulk_other_status_fails (H := sample_env) (H1 := sample_deps) "acme"
    IN_PROGRESS None ["t1"; "t2"] (sample_world sample_db)).
  apply not_elem_of_cons; split; [discriminate|].
  apply not_elem_of_cons; split; [discriminate|].
  apply not_elem_of_cons; split; [discriminate|].
  apply not_elem_of_cons; split; [discriminate|apply not_elem_of_nil].
Defined.

Lemma sweep_misses_response_witness :
  sample_sla ∉ find_due_slas None 2000 500 sample_db.
Proof.
  apply (Sweep.sweep_misses_response None 2000 500 sample_db sample_sla false).
  vm_compute. reflexivity.
Defined.

Definition swept : W :=
  (runBreachSweep (H := sample_env) None 6000 (sample_world sample_db)).2.


Lemma refused_escalation_is_lost_witness :
  ∃ w', flag_breach (H := full_queue_env) 6000 sample_sla sample_ticket RESOLUTION
          (sample_world sample_db) = (Throw (Exn JsError "Connection is closed."), w')
    ∧ (∀ job, job ∈ jobs w' → job ∈ ([] : list Job) ∨ job_name job = "ticket-analytics-job")
    ∧ ∀ tenant' now' limit s', s' ∈ find_due_slas tenant' now' limit (db w') →
        ¬ (TicketSLA.tenantId s' = "acme" ∧ TicketSLA.ticketId s' = "t1").
Proof.
  apply (Sweep.refused_escalation_is_lost (H := full_queue_env) 6000 sample_sla sample_ticket
    RESOLUTION (sample_world sample_db)).
  intros job Hj. unfold env_queue_add, full_queue_env. rewrite Hj. reflexivity.
Defined.

Definition configured : result TicketSLA * W :=
  configureForTicket (H := sample_env) (H1 := sample_deps) "acme" sample_ticket no_sla_dto
    (sample_world sample_db).


Lemma approval_decided_once_witness :
  ∃ e w', Approvals.run_decision (H := sample_env) "acme" "a1" None Approvals.Cancel
            (sample_world sample_db) = (Throw e, w') ∧ db w' = sample_db ∧ jobs w' = []
    ∧ e = Exn JsError "Approval a1 is already APPROVED".
Proof.
  apply (Approvals.approval_decided_once (H := sample_env) "acme" "a1" None Approvals.Cancel
    (sample_world sample_db)).
  vm_compute. reflexivity.
Defined.

(** ** The worker *)

Definition failing_job : Job :=
  {| job_queue := TICKET; job_name := "boom";
     job_data := [("_tenantContext", JObj [("tenantId", JStr "acme")])];
     job_opts := DEFAULT_JOB_OPTIONS; attemptsMade := 3 |}.

Lemma process_failed_job_witness :
  ∃ w', process (H := sample_env) (Some TICKET)
          (handleJob (H := sample_env) (H1 := sample_deps) (H2 := sample_engine)) failing_job
          (sample_world sample_db) = (Throw (Exn JsError "Unknown job name: boom"), w')
    ∧ tenantContext w' = None ∧ db w' = sample_db
    ∧ jobs w' = [dead_letter_job TICKET failing_job (Exn JsError "Unknown job name: boom")
                   1767000000000 (Some "acme")].
Proof.
  destruct (Worker.process_failed_job (H := sample_env) TICKET
    (handleJob (H := sample_env) (H1 := sample_deps) (H2 := sample_engine)) failing_job "acme"
    (Exn JsError "Unknown job name: boom") (sample_world sample_db)
    ((sample_world sample_db) <| tenantContext := Some "acme" |>))
    as (w' & E & Ht & Hdb & Hj);
    [reflexivity|discriminate|vm_compute; reflexivity|].
  exists w'. split; [exact E|]. split; [exact Ht|]. split; [exact Hdb|].
  rewrite Hj. vm_compute. reflexivity.
Defined.
