(* ===== verification/AgentAssignment.v ===== *)
(** * The agent assignment engine

    [src/modules/teams]: teams, their rules and members, agent profiles and
    availability, and [AgentAssignmentService] with its selection strategies;
    the availability service and the jobs of [team-queue.processor.ts] that
    keep the load counters. *)

From S2P Require Import Prelude Platform.
Open Scope Z_scope.

Module AssignmentStrategyEnum.
Inductive AssignmentStrategyEnum :=
  | ROUND_ROBIN | LEAST_LOADED | SKILL_BASED | PRIORITY_BASED | MANUAL.

#[export] Instance eq_dec : EqDecision AssignmentStrategyEnum.
Proof. solve_decision. Defined.

#[export, program] Instance enum : JsEnum AssignmentStrategyEnum := {|
  enum_values := [ROUND_ROBIN; LEAST_LOADED; SKILL_BASED; PRIORITY_BASED; MANUAL];
  enum_str s := match s with
    | ROUND_ROBIN => "ROUND_ROBIN" | LEAST_LOADED => "LEAST_LOADED"
    | SKILL_BASED => "SKILL_BASED" | PRIORITY_BASED => "PRIORITY_BASED"
    | MANUAL => "MANUAL" end |}.
Solve All Obligations with solve_enum.
End AssignmentStrategyEnum.
Export (hints) AssignmentStrategyEnum.
Abbreviation AssignmentStrategyEnum := AssignmentStrategyEnum.AssignmentStrategyEnum.
Import AssignmentStrategyEnum.

Inductive EntityType := TICKET_ENTITY | CONVERSATION_ENTITY.
Definition EntityType_str (t : EntityType) : string :=
  match t with TICKET_ENTITY => "TICKET" | CONVERSATION_ENTITY => "CONVERSATION" end.

Record AgentProfile := {
  profile_id : string;
  profile_tenantId : string;
  skillScore : Z;
  maxConcurrentConversations : Z;
  maxOpenTickets : Z;
}.

Record AgentAvailability := {
  avail_id : string;
  avail_tenantId : string;
  agentProfileId : string;
  avail_status : string;
  lastSeenAt : Z;
  workingHours : option json;
  currentLoad : Z;
  activeConversations : Z;
  activeTickets : Z;
}.
#[export] Instance AgentAvailability_Eta : Eta AgentAvailability := λ a,
  Build_AgentAvailability (avail_id a) (avail_tenantId a) (agentProfileId a)
    (avail_status a) (lastSeenAt a) (workingHours a) (currentLoad a)
    (activeConversations a) (activeTickets a).

Record TeamMember := {
  member_tenantId : string;
  member_teamId : string;
  member_agentProfileId : string;
}.

Record AssignmentRule := {
  rule_tenantId : string;
  rule_teamId : string;
  ruleType : AssignmentStrategyEnum;
  isActive : bool;
}.

(** The tables, in the order their rows are returned; the teams and the profiles
    are those that are not soft-deleted, each team with its tenant. *)
Record TeamDb := {
  t_teams : list (string * string);
  t_rules : list AssignmentRule;
  t_members : list TeamMember;
  t_profiles : list AgentProfile;
  t_availability : list AgentAvailability;
}.
#[export] Instance TeamDb_Eta : Eta TeamDb := λ d,
  Build_TeamDb (t_teams d) (t_rules d) (t_members d) (t_profiles d) (t_availability d).

Abbreviation TeamW := (World TeamDb).

(** *** Queries *)
Definition team_exists (teamId tenantId : string) (d : TeamDb) : bool :=
  some (λ t, String.eqb t.1 teamId && String.eqb t.2 tenantId) (t_teams d).

Definition findRules (teamId tenantId : string) (d : TeamDb) : list AssignmentRule :=
  js_filter (λ r, String.eqb (rule_teamId r) teamId
                  && String.eqb (rule_tenantId r) tenantId) (t_rules d).

Definition findTeamMembers (teamId tenantId : string) (d : TeamDb) : list TeamMember :=
  js_filter (λ m, String.eqb (member_teamId m) teamId
                  && String.eqb (member_tenantId m) tenantId) (t_members d).

Definition findProfile (id tenantId : string) (d : TeamDb) : option AgentProfile :=
  js_find (λ p, String.eqb (profile_id p) id
                && String.eqb (profile_tenantId p) tenantId) (t_profiles d).

Definition availability_of (id tenantId : string) (a : AgentAvailability) : bool :=
  String.eqb (agentProfileId a) id && String.eqb (avail_tenantId a) tenantId.

Definition findByAgentProfileId (id tenantId : string) (d : TeamDb)
    : option AgentAvailability :=
  js_find (availability_of id tenantId) (t_availability d).

Definition findOfflineAgentRows (tenantId : option string) (d : TeamDb)
    : list AgentAvailability :=
  js_filter (λ a, String.eqb (avail_status a) "OFFLINE"
    && match js_or_undef tenantId with
       | Some t => String.eqb (avail_tenantId a) t
       | None => true
       end) (t_availability d).

(** *** Selection *)

(** [{ profile, availability }] *)
Definition candidate : Type := AgentProfile * AgentAvailability.

Definition by_load (a b : candidate) : Z := currentLoad a.2 - currentLoad b.2.
Definition by_skill (a b : candidate) : Z := skillScore b.1 - skillScore a.1.
Definition by_skill_then_load (a b : candidate) : Z :=
  if negb (skillScore b.1 =? skillScore a.1) then skillScore b.1 - skillScore a.1
  else currentLoad a.2 - currentLoad b.2.
Definition by_last_seen (a b : candidate) : Z := lastSeenAt a.2 - lastSeenAt b.2.

Definition hasCapacity (entityType : EntityType) (c : candidate) : bool :=
  match entityType with
  | CONVERSATION_ENTITY => activeConversations c.2 <? maxConcurrentConversations c.1
  | TICKET_ENTITY => activeTickets c.2 <? maxOpenTickets c.1
  end.

(** The members whose profile and availability both exist. *)
Definition member_candidates (teamId tenantId : string) (d : TeamDb) : list candidate :=
  omap (λ m,
    p ← findProfile (member_agentProfileId m) tenantId d;
    a ← findByAgentProfileId (member_agentProfileId m) tenantId d;
    Some (p, a)) (findTeamMembers teamId tenantId d).

Definition online (entityType : EntityType) (c : candidate) : bool :=
  String.eqb (avail_status c.2) "ONLINE" && hasCapacity entityType c.

Definition onlineAgents (teamId tenantId : string) (entityType : EntityType)
    (d : TeamDb) : list candidate :=
  js_filter (online entityType) (member_candidates teamId tenantId d).

(** The list a strategy picks the head of. *)
Definition ranked (strategy : AssignmentStrategyEnum) (requiredSkill : option Z)
    (agents : list candidate) : list candidate :=
  match strategy with
  | LEAST_LOADED => js_sort by_load agents
  | SKILL_BASED =>
      let required := js_or requiredSkill 0 in
      let skilled := js_filter (λ c, required <=? skillScore c.1) agents in
      js_sort by_skill (match skilled with [] => agents | _ => skilled end)
  | PRIORITY_BASED => js_sort by_skill_then_load agents
  | ROUND_ROBIN | MANUAL => js_sort by_last_seen agents
  end.

(** *** The counters *)
Definition bump (convChange ticketChange : Z) (a : AgentAvailability) : AgentAvailability :=
  a <| activeConversations ::= λ n, n + convChange |>
    <| activeTickets ::= λ n, n + ticketChange |>
    <| currentLoad ::= λ n, n + (convChange + ticketChange) |>.

Definition update_counters (id : string) (convChange ticketChange : Z)
    (tenantId : string) (d : TeamDb) : TeamDb :=
  d <| t_availability ::= fmap (λ a,
    if availability_of id tenantId a then bump convChange ticketChange a else a) |>.

Definition update_load (id : string) (change : Z) (tenantId : string) (d : TeamDb)
    : TeamDb :=
  d <| t_availability ::= fmap (λ a,
    if availability_of id tenantId a
    then a <| currentLoad ::= λ n, n + change |> else a) |>.

Section assignment_engine.
Context `{Env}.

Definition routeAssignment (tenantId id entityId : string) (entityType : EntityType)
    (strategy : string) : M TeamW unit :=
  let convChange := match entityType with CONVERSATION_ENTITY => 1 | _ => 0 end in
  let ticketChange := match entityType with TICKET_ENTITY => 1 | _ => 0 end in
  modify (λ w, w <| db ::= update_counters id convChange ticketChange tenantId |>) ;;
  randomUUID ;;
  (* [assignment.completed] is not an event the team publisher forwards. *)
  audit_log tenantId None "ASSIGNMENT_COMPLETE"
    ("Assigned " +:+ EntityType_str entityType +:+ " " +:+ entityId
     +:+ " to agent " +:+ id +:+ " using strategy " +:+ strategy).

Definition assignEntity (tenantId teamId entityId : string) (entityType : EntityType)
    (requiredSkill : option Z) : M TeamW string :=
  d ← gets db;
  if negb (team_exists teamId tenantId d) then
    throw (Exn NotFoundException ("Team " +:+ teamId +:+ " not found"))
  else
    let rules := findRules teamId tenantId d in
    let strategy := default ROUND_ROBIN (ruleType <$> js_find isActive rules) in
    match findTeamMembers teamId tenantId d with
    | [] => throw (Exn BadRequestException "No agents registered in the target team")
    | _ =>
      match onlineAgents teamId tenantId entityType d with
      | [] =>
          match js_sort by_load (member_candidates teamId tenantId d) with
          | [] => throw (Exn BadRequestException
                    "No agents online or available for fallback in this team")
          | fallbackAgent :: _ =>
              routeAssignment tenantId (profile_id fallbackAgent.1) entityId entityType
                "FALLBACK" ;;
              mret (profile_id fallbackAgent.1)
          end
      | agents =>
          match ranked strategy requiredSkill agents with
          | [] => throw (Exn JsTypeError
                    "Cannot read properties of undefined (reading 'profile')")
          | selectedAgent :: _ =>
              routeAssignment tenantId (profile_id selectedAgent.1) entityId entityType
                (enum_str strategy) ;;
              mret (profile_id selectedAgent.1)
          end
      end
    end.
End assignment_engine.

(** [getTeamWorkload]: the counters of a member next to its capacity, a member
    without a profile having none. *)
Record WorkloadRow := {
  row_agentProfileId : string;
  row_status : string;
  row_currentLoad : Z;
  row_activeConversations : Z;
  row_activeTickets : Z;
  isOverloaded : bool;
}.

Definition workload_row (tenantId : string) (d : TeamDb) (m : TeamMember)
    : WorkloadRow :=
  let profile := findProfile (member_agentProfileId m) tenantId d in
  let availability := findByAgentProfileId (member_agentProfileId m) tenantId d in
  let conversations := default 0 (activeConversations <$> availability) in
  let tickets := default 0 (activeTickets <$> availability) in
  {| row_agentProfileId := member_agentProfileId m;
     row_status := default "OFFLINE" (avail_status <$> availability);
     row_currentLoad := default 0 (currentLoad <$> availability);
     row_activeConversations := conversations;
     row_activeTickets := tickets;
     isOverloaded :=
       match profile with
       | Some p => (maxConcurrentConversations p <=? conversations)
                   || (maxOpenTickets p <=? tickets)
       | None => false
       end |}.

Definition getTeamWorkload (tenantId teamId : string) : M TeamW (list WorkloadRow) :=
  d ← gets db;
  if negb (team_exists teamId tenantId d) then
    throw (Exn NotFoundException ("Team " +:+ teamId +:+ " not found"))
  else mret (workload_row tenantId d <$> findTeamMembers teamId tenantId d).

(** *** Availability and the load jobs *)
Section availability.
Context `{Env}.

Definition availability_not_found (id : string) : exn :=
  Exn NotFoundException ("Availability for agent " +:+ id +:+ " not found").

Definition getAvailability (tenantId id : string) : M TeamW AgentAvailability :=
  d ← gets db;
  match findByAgentProfileId id tenantId d with
  | Some a => mret a
  | None => throw (availability_not_found id)
  end.

(** [updateAvailability]: the three keys of the patch are always present, so
    [workingHours] is overwritten even when the request has none. *)
Definition updateAvailability (tenantId id status_ : string) (hours : option json)
    (userId : option string) : M TeamW AgentAvailability :=
  d ← gets db;
  match findByAgentProfileId id tenantId d with
  | None => throw (Exn NotFoundException
              ("Availability record for agent " +:+ id +:+ " not found"))
  | Some a =>
      now ← new_Date;
      let a' := a <| avail_status := status_ |> <| workingHours := hours |>
                  <| lastSeenAt := now |> in
      let stored := a' <| workingHours := Some (default (JObj []) hours) |> in
      modify (λ w, w <| db ::= λ d, d <| t_availability ::= fmap (λ x,
        if String.eqb (avail_id x) (avail_id a) && String.eqb (avail_tenantId x) tenantId
        then stored else x) |> |>) ;;
      try_catch
        (addJob TEAM "load-balancer-job" [("agentProfileId", JStr id)] (λ o, o))
        (λ _, mret tt) ;;
      audit_log tenantId userId "AVAILABILITY_UPDATE"
        ("Updated availability status of agent " +:+ id +:+ " to " +:+ status_) ;;
      mret a'
  end.

Definition updateLoad (tenantId id : string) (change : Z) : M TeamW unit :=
  modify (λ w, w <| db ::= update_load id change tenantId |>).

(** [availability-sync-job] *)
Definition availability_sync (tenantId id : string) : M TeamW unit :=
  availability ← getAvailability tenantId id;
  now ← new_Date;
  (* minutesIdle > 15 *)
  if (15 * 60000 <? now - lastSeenAt availability)
     && String.eqb (avail_status availability) "ONLINE"
  then updateAvailability tenantId id "AWAY" None None ;; mret tt
  else mret tt.

(** [load-balancer-job] *)
Definition load_balancer (tenantId id : string) : M TeamW Z :=
  avail ← getAvailability tenantId id;
  let actualLoad := activeConversations avail + activeTickets avail in
  when (negb (currentLoad avail =? actualLoad))
    (updateLoad tenantId id (actualLoad - currentLoad avail)) ;;
  mret actualLoad.
End availability.
