(* ===== verification/AgentAssignmentProofs.v ===== *)
(** * Properties of the assignment engine *)

From S2P Require Import Prelude Platform AgentAssignment.
Import AssignmentStrategyEnum.
Open Scope Z_scope.

Module Assignment.

#[export] Instance by_load_comparator : Comparator by_load.
Proof. split; unfold by_load; lia. Qed.
#[export] Instance by_skill_comparator : Comparator by_skill.
Proof. split; unfold by_skill; lia. Qed.
#[export] Instance by_last_seen_comparator : Comparator by_last_seen.
Proof. split; unfold by_last_seen; lia. Qed.
#[export] Instance by_skill_then_load_comparator : Comparator by_skill_then_load.
Proof.
  split; unfold by_skill_then_load; intros *;
    repeat match goal with |- context [negb (?x =? ?y)] => destruct (Z.eqb_spec x y) end;
    cbn; lia.
Qed.

(** [c] is at least as good as [c'] for the strategy. *)
Definition outranks (s : AssignmentStrategyEnum) (c c' : candidate) : Prop :=
  match s with
  | LEAST_LOADED => currentLoad c.2 ≤ currentLoad c'.2
  | SKILL_BASED => skillScore c'.1 ≤ skillScore c.1
  | PRIORITY_BASED => skillScore c'.1 < skillScore c.1
      ∨ skillScore c'.1 = skillScore c.1 ∧ currentLoad c.2 ≤ currentLoad c'.2
  | ROUND_ROBIN | MANUAL => lastSeenAt c.2 ≤ lastSeenAt c'.2
  end.

Lemma skilled_elem required (agents : list candidate) c :
  let skilled := js_filter (λ c, required <=? skillScore c.1) agents in
  c ∈ match skilled with [] => agents | _ => skilled end → c ∈ agents.
Proof.
  cbv zeta. destruct (js_filter (λ c, required <=? skillScore c.1) agents) as [|c0 l] eqn:E;
    [done|]. rewrite <- E.
  by intros [? _]%js_filter_elem.
Qed.

Lemma ranked_head s skill agents c rest :
  ranked s skill agents = c :: rest →
  c ∈ agents ∧ ∀ c', c' ∈ agents → outranks s c c'.
Proof.
  destruct s; cbn [ranked outranks]; intros [Hc Hmin]%(js_sort_head _).
  - split; [done|]. intros c' Hc'. specialize (Hmin c' Hc').
    unfold by_last_seen in Hmin. lia.
  - split; [done|]. intros c' Hc'. specialize (Hmin c' Hc').
    unfold by_load in Hmin. lia.
  - split; [by eapply skilled_elem|]. intros c' Hc'.
    set (required := js_or skill 0) in *.
    destruct (js_filter (λ c, required <=? skillScore c.1) agents) as [|c0 l] eqn:E.
    { specialize (Hmin c' Hc'). unfold by_skill in Hmin. lia. }
    rewrite <- E in Hc, Hmin. apply js_filter_elem in Hc as [_ Hreq].
    destruct (required <=? skillScore c'.1) eqn:Er; [|lia].
    specialize (Hmin c'). rewrite js_filter_elem in Hmin.
    specialize (Hmin (conj Hc' Er)). unfold by_skill in Hmin. lia.
  - split; [done|]. intros c' Hc'. specialize (Hmin c' Hc').
    unfold by_skill_then_load in Hmin.
    destruct (Z.eqb_spec (skillScore c'.1) (skillScore c.1)); cbn in Hmin; lia.
  - split; [done|]. intros c' Hc'. specialize (Hmin c' Hc').
    unfold by_last_seen in Hmin. lia.
Qed.

Lemma ranked_nil s skill agents : ranked s skill agents = [] → agents = [].
Proof.
  destruct s; cbn [ranked]; intros E%js_sort_nil; try done.
  by destruct (js_filter (λ c, js_or skill 0 <=? skillScore c.1) agents).
Qed.

Section engine.
Context `{Env}.
Implicit Types (w : TeamW).

(** The strategy in force: that of the first active rule. *)
Definition strategy_of (teamId tenantId : string) (d : TeamDb) : AssignmentStrategyEnum :=
  default ROUND_ROBIN (ruleType <$> js_find isActive (findRules teamId tenantId d)).

Definition counters_after (id : string) (e : EntityType) (T : string) (d : TeamDb) : TeamDb :=
  match e with
  | CONVERSATION_ENTITY => update_counters id 1 0 T d
  | TICKET_ENTITY => update_counters id 0 1 T d
  end.

Lemma route_spec T id eid e s w :
  ∃ w', routeAssignment T id eid e s w = (Ok tt, w') ∧ db w' = counters_after id e T (db w).
Proof. eexists. split; [reflexivity|]. by destruct e. Qed.

(** C20: The assignment engine on every branch.  With a team and at least one
    member that has a profile and an availability, it always returns an agent
    and counts one more item for that agent and nobody else.  If some member is
    online with capacity, the agent is one of them and no other outranks it
    under the strategy of the first active rule; otherwise it is a member of
    least load, whatever its status and capacity. *)
Theorem assignEntity_spec T tm eid e skill w :
  team_exists tm T (db w) = true →
  member_candidates tm T (db w) ≠ [] →
  ∃ c w', assignEntity T tm eid e skill w = (Ok (profile_id c.1), w')
    ∧ db w' = counters_after (profile_id c.1) e T (db w)
    ∧ c ∈ member_candidates tm T (db w)
    ∧ (onlineAgents tm T e (db w) ≠ [] →
       online e c = true
       ∧ ∀ c', c' ∈ onlineAgents tm T e (db w) → outranks (strategy_of tm T (db w)) c c')
    ∧ (onlineAgents tm T e (db w) = [] →
       ∀ c', c' ∈ member_candidates tm T (db w) → currentLoad c.2 ≤ currentLoad c'.2).
Proof.
  intros Ht Hm. unfold assignEntity. rewrite gets_bind, Ht. cbn [negb].
  fold (strategy_of tm T (db w)).
  destruct (findTeamMembers tm T (db w)) as [|m ms] eqn:Em.
  { unfold member_candidates in Hm. by rewrite Em in Hm. }
  destruct (onlineAgents tm T e (db w)) as [|a agents] eqn:Eo.
  - destruct (js_sort by_load _) as [|c rest] eqn:Es; [by apply js_sort_nil in Es|].
    destruct (route_spec T (profile_id c.1) eid e "FALLBACK" w) as (w' & Er & Hdb).
    exists c, w'. rewrite (bind_ok _ _ _ _ _ Er).
    apply js_sort_head in Es as [Hc Hmin]; [|apply _].
    split_and!; [done..|]. intros _ c' Hc'. specialize (Hmin c' Hc').
    unfold by_load in Hmin. lia.
  - rewrite <- Eo. destruct (ranked _ _ _) as [|c rest] eqn:Es.
    { apply ranked_nil in Es. congruence. }
    destruct (route_spec T (profile_id c.1) eid e (enum_str (strategy_of tm T (db w))) w)
      as (w' & Er & Hdb).
    exists c, w'. rewrite Eo, (bind_ok _ _ _ _ _ Er).
    apply ranked_head in Es as [Hc Hbest]. rewrite Eo in Hc, Hbest.
    assert (c ∈ onlineAgents tm T e (db w)) as Hc' by by rewrite Eo.
    apply js_filter_elem in Hc' as [Hmem Hon].
    by split_and!.
Qed.

(** *** Round robin *)

Lemma assignEntity_inv T tm eid e skill w id w' :
  assignEntity T tm eid e skill w = (Ok id, w') →
  ∃ c rest, team_exists tm T (db w) = true ∧ findTeamMembers tm T (db w) ≠ []
    ∧ id = profile_id c.1 ∧ db w' = counters_after id e T (db w)
    ∧ (onlineAgents tm T e (db w) = [] ∧ js_sort by_load (member_candidates tm T (db w)) = c :: rest
       ∨ onlineAgents tm T e (db w) ≠ []
         ∧ ranked (strategy_of tm T (db w)) skill (onlineAgents tm T e (db w)) = c :: rest).
Proof.
  unfold assignEntity. rewrite gets_bind.
  destruct (team_exists tm T (db w)); [cbn [negb]|done].
  fold (strategy_of tm T (db w)).
  destruct (findTeamMembers tm T (db w)) as [|m ms] eqn:Em; [done|].
  destruct (onlineAgents tm T e (db w)) as [|a agents].
  - destruct (js_sort by_load _) as [|c rest]; [done|].
    destruct (route_spec T (profile_id c.1) eid e "FALLBACK" w) as (w1 & Er & Hdb).
    rewrite (bind_ok _ _ _ _ _ Er). intros [= <- <-].
    exists c, rest. split_and!; try done. by left.
  - destruct (ranked _ _ _) as [|c rest]; [done|].
    destruct (route_spec T (profile_id c.1) eid e (enum_str (strategy_of tm T (db w))) w)
      as (w1 & Er & Hdb).
    rewrite (bind_ok _ _ _ _ _ Er). intros [= <- <-].
    exists c, rest. split_and!; try done. by right.
Qed.

Lemma assign_online T tm eid e skill w c rest :
  team_exists tm T (db w) = true → findTeamMembers tm T (db w) ≠ [] →
  onlineAgents tm T e (db w) ≠ [] →
  ranked (strategy_of tm T (db w)) skill (onlineAgents tm T e (db w)) = c :: rest →
  ∃ w', assignEntity T tm eid e skill w = (Ok (profile_id c.1), w').
Proof.
  intros Ht Hm Ho Hr. unfold assignEntity. rewrite gets_bind, Ht. cbn [negb].
  fold (strategy_of tm T (db w)). destruct (findTeamMembers tm T (db w)); [done|].
  destruct (onlineAgents tm T e (db w)); [done|]. rewrite Hr.
  destruct (route_spec T (profile_id c.1) eid e (enum_str (strategy_of tm T (db w))) w)
    as (w' & Er & _).
  rewrite (bind_ok _ _ _ _ _ Er). by eexists.
Qed.

(** What counting does to one row, and to one candidate. *)
Definition counted_row (id T : string) (e : EntityType) (a : AgentAvailability)
    : AgentAvailability :=
  if availability_of id T a
  then match e with CONVERSATION_ENTITY => bump 1 0 a | TICKET_ENTITY => bump 0 1 a end
  else a.
Definition counted (id T : string) (e : EntityType) (c : candidate) : candidate :=
  (c.1, counted_row id T e c.2).

Lemma counters_after_rows id e T d :
  t_availability (counters_after id e T d) = counted_row id T e <$> t_availability d.
Proof. by destruct e. Qed.

Lemma find_after id e T d i :
  findByAgentProfileId i T (counters_after id e T d)
  = counted_row id T e <$> findByAgentProfileId i T d.
Proof.
  unfold findByAgentProfileId. rewrite counters_after_rows. apply js_find_fmap.
  intros a. unfold counted_row. by destruct (availability_of id T a), e.
Qed.

Lemma candidates_after id e tm T d :
  member_candidates tm T (counters_after id e T d)
  = counted id T e <$> member_candidates tm T d.
Proof.
  unfold member_candidates.
  assert (findTeamMembers tm T (counters_after id e T d) = findTeamMembers tm T d) as ->
    by by destruct e.
  induction (findTeamMembers tm T d) as [|m ms IH]; [done|]. cbn.
  assert (findProfile (member_agentProfileId m) T (counters_after id e T d)
    = findProfile (member_agentProfileId m) T d) as -> by by destruct e.
  rewrite find_after.
  destruct (findProfile _ T d) as [p|]; cbn; [|exact IH].
  destruct (findByAgentProfileId _ T d) as [a|]; cbn; [|exact IH].
  f_equal. exact IH.
Qed.

(** The candidates with the profile of [c] are [c]. *)
Lemma candidate_unique tm T d c x :
  c ∈ member_candidates tm T d → x ∈ member_candidates tm T d →
  availability_of (profile_id c.1) T x.2 = true ∨ profile_id x.1 = profile_id c.1 → x = c.
Proof.
  assert (∀ y, y ∈ member_candidates tm T d →
    findProfile (profile_id y.1) T d = Some y.1
    ∧ findByAgentProfileId (profile_id y.1) T d = Some y.2
    ∧ agentProfileId y.2 = profile_id y.1) as Hy.
  { intros y (m & Hm & Hf)%list_elem_of_omap.
    destruct (findProfile _ T d) as [p|] eqn:Ep; [|done].
    destruct (findByAgentProfileId _ T d) as [a|] eqn:Ea; [|done].
    injection Hf as <-. cbn.
    pose proof (find_some _ _ Ep) as [_ [->%String.eqb_eq _]%andb_true_iff].
    pose proof (find_some _ _ Ea) as [_ [Hap%String.eqb_eq _]%andb_true_iff].
    by rewrite Ep, Ea. }
  intros (Hc1 & Hc2 & Hc3)%Hy (Hx1 & Hx2 & Hx3)%Hy Heq.
  assert (profile_id x.1 = profile_id c.1) as Hid.
  { destruct Heq as [[Hid%String.eqb_eq _]%andb_true_iff|]; congruence. }
  rewrite Hid in *. destruct c, x; cbn in *; congruence.
Qed.

Lemma online_counted id T e c : online e (counted id T e c) = true → online e c = true.
Proof.
  unfold online, counted, counted_row. destruct (availability_of id T c.2), e; cbn;
    intros [-> Hc]%andb_true_iff; cbn; lia.
Qed.

Lemma online_after tm T e d c :
  c ∈ member_candidates tm T d →
  online e (counted (profile_id c.1) T e c) = true →
  onlineAgents tm T e (counters_after (profile_id c.1) e T d)
  = counted (profile_id c.1) T e <$> onlineAgents tm T e d.
Proof.
  intros Hc Hon. unfold onlineAgents. rewrite candidates_after.
  assert (∀ x, x ∈ member_candidates tm T d →
    online e (counted (profile_id c.1) T e x) = online e x) as Hx.
  { intros x Hxm. destruct (availability_of (profile_id c.1) T x.2) eqn:E.
    - assert (x = c) as -> by (eapply candidate_unique; eauto).
      by rewrite Hon, (online_counted _ _ _ _ Hon).
    - unfold counted, counted_row. by rewrite E. }
  revert Hx. generalize (member_candidates tm T d). intros l Hx.
  induction l as [|x l IH]; [done|]. unfold js_filter in *. cbn. rewrite Hx by by left.
  rewrite IH by (intros; apply Hx; by right). by destruct (online e x).
Qed.

(** The round robin does not go round.  Under the default strategy, an
    assignment picks the agent seen least recently and does not change when it
    was seen, so the next item of the same kind, whatever it is, goes to the
    same agent again, as long as that agent has capacity left. *)
Theorem round_robin_repeats T tm e eid eid' skill skill' w w1 id :
  strategy_of tm T (db w) ∈ [ROUND_ROBIN; MANUAL] →
  assignEntity T tm eid e skill w = (Ok id, w1) →
  (∃ c, c ∈ onlineAgents tm T e (db w1) ∧ profile_id c.1 = id) →
  ∃ w2, assignEntity T tm eid' e skill' w1 = (Ok id, w2).
Proof.
  intros Hs (c & rest & Ht & Hm & -> & Hdb & Hcase)%assignEntity_inv (c' & Hc' & Hid).
  assert (c ∈ member_candidates tm T (db w)) as Hc.
  { destruct Hcase as [[_ E]|[_ E]].
    - apply js_sort_elem with (cmp := by_load). rewrite E. by left.
    - apply ranked_head in E as [Hin _]. by apply js_filter_elem in Hin as [? _]. }
  assert (online e (counted (profile_id c.1) T e c) = true) as Hon.
  { rewrite Hdb in Hc'. apply js_filter_elem in Hc' as [Hmem Hon'].
    rewrite candidates_after in Hmem. apply list_elem_of_fmap in Hmem as (x & -> & Hx).
    assert (x = c) as -> by (eapply candidate_unique; eauto). done. }
  pose proof (online_after tm T e (db w) c Hc Hon) as Hafter. rewrite <- Hdb in Hafter.
  destruct Hcase as [[Hnone _]|[Hne Hr]].
  { exfalso. rewrite Hafter, Hnone in Hc'. by apply not_elem_of_nil in Hc'. }
  change (profile_id c.1) with (profile_id (counted (profile_id c.1) T e c).1).
  eapply (assign_online _ _ _ _ _ _ (counted (profile_id c.1) T e c)
    (counted (profile_id c.1) T e <$> rest)).
  - rewrite Hdb. by destruct e.
  - rewrite Hdb. by destruct e.
  - rewrite Hafter. by destruct (onlineAgents tm T e (db w)).
  - assert (strategy_of tm T (db w1) = strategy_of tm T (db w)) as ->
      by (rewrite Hdb; by destruct e).
    rewrite Hafter. 
    assert (∀ l, js_sort by_last_seen (counted (profile_id c.1) T e <$> l)
      = counted (profile_id c.1) T e <$> js_sort by_last_seen l) as Hsort.
    { intros l. apply js_sort_fmap. intros a b. unfold by_last_seen, counted, counted_row. cbn.
      by destruct (availability_of _ T a.2), (availability_of _ T b.2), e. }
    revert Hr. destruct (strategy_of tm T (db w)); cbn [ranked];
      try (exfalso; set_solver); intros Hr; by rewrite Hsort, Hr.
Qed.

(** *** Load *)

(** The load of every agent is the number of its items. *)
Definition balanced_row (a : AgentAvailability) : Prop :=
  currentLoad a = activeConversations a + activeTickets a.
Definition balanced (d : TeamDb) : Prop := Forall balanced_row (t_availability d).

Lemma counters_balanced id e T d : balanced d → balanced (counters_after id e T d).
Proof.
  unfold balanced. rewrite counters_after_rows. intros Hb. apply Forall_fmap.
  eapply Forall_impl; [exact Hb|]. unfold balanced_row, counted_row.
  intros a Ha. cbn. destruct (availability_of id T a), e; cbn; lia.
Qed.

Definition balance_kept (d d' : TeamDb) : Prop := balanced d → balanced d'.
#[export] Instance balance_kept_preorder : PreOrder balance_kept.
Proof. split; repeat intro; unfold balance_kept in *; auto. Qed.

Lemma route_balanced T id eid e s :
  keeps (db_rel balance_kept) (routeAssignment T id eid e s).
Proof.
  intros w Hb. unfold final. destruct (route_spec T id eid e s w) as (w' & -> & Hdb).
  cbn. rewrite Hdb. by apply counters_balanced.
Qed.

(** Assignments, returning or throwing, keep the loads balanced. *)
Lemma assignEntity_balanced T tm eid e skill :
  keeps (db_rel balance_kept) (assignEntity T tm eid e skill).
Proof.
  unfold assignEntity. apply keeps_bind; [apply _|apply keeps_gets; apply _|]. intros d.
  repeat case_match; try (apply keeps_throw; apply _).
  all: apply keeps_bind; [apply _|apply route_balanced|]; intros; apply keeps_ret; apply _.
Qed.

Lemma filter_update (p : AgentAvailability → bool) g (l : list AgentAvailability) :
  (∀ a, p (g a) = p a) →
  js_filter p ((λ a, if p a then g a else a) <$> l) = g <$> js_filter p l
  ∧ js_filter (λ a, negb (p a)) ((λ a, if p a then g a else a) <$> l)
    = js_filter (λ a, negb (p a)) l.
Proof.
  intros Hg. induction l as [|a l [IH1 IH2]]; [done|]. unfold js_filter in *. cbn.
  destruct (p a) eqn:E; cbn; rewrite ?Hg, ?E; cbn; rewrite ?IH1, ?IH2; done.
Qed.

Lemma find_filter_single {A} (p : A → bool) l a :
  js_filter p l = [a] → js_find p l = Some a.
Proof.
  induction l as [|x l IH]; [done|]. unfold js_filter, js_find in *. cbn.
  destruct (p x); [by intros [= -> _]|done].
Qed.

(** The load balancer job restores the load of its agent.  Whatever the
    stored counters are, it returns the number of items of the agent and makes
    that its load; its other columns and the rows of the other agents stay; and
    a loaded row that was right stays as it is, so running the job at any
    point between assignments changes nothing. *)
Theorem load_balancer_repairs T id a w :
  js_filter (availability_of id T) (t_availability (db w)) = [a] →
  let n := activeConversations a + activeTickets a in
  ∃ w', load_balancer T id w = (Ok n, w')
    ∧ js_filter (availability_of id T) (t_availability (db w')) = [a <| currentLoad := n |>]
    ∧ js_filter (λ x, negb (availability_of id T x)) (t_availability (db w'))
      = js_filter (λ x, negb (availability_of id T x)) (t_availability (db w))
    ∧ (balanced (db w) → w' = w).
Proof.
  intros Hf n. pose proof (find_filter_single _ _ _ Hf) as Hfind.
  assert (load_balancer T id w = (when (negb (currentLoad a =? n))
    (updateLoad T id (n - currentLoad a)) ;; mret n) w) as ->.
  { unfold load_balancer, getAvailability, findByAgentProfileId.
    unfold mbind, M_bind, gets. by rewrite Hfind. }
  destruct (Z.eqb_spec (currentLoad a) n) as [E|E]; cbn [negb when].
  - exists w. split_and!; try done. rewrite Hf. f_equal. by destruct a; cbn in *; subst.
  - eexists. split; [reflexivity|]. cbn.
    destruct (filter_update (availability_of id T)
      (λ a0, a0 <| currentLoad ::= λ m, m + (n - currentLoad a) |>)
      (t_availability (db w))) as [E1 E2]; [done|].
    split_and!; [|exact E2|].
    + etransitivity; [exact E1|]. rewrite Hf. unfold modify_field. cbn. by rewrite (Z.add_sub_assoc (currentLoad a) n), Z.add_simpl_l.
    + intros Hb. exfalso. unfold balanced in Hb. rewrite Forall_forall in Hb. apply E, Hb.
      assert (a ∈ js_filter (availability_of id T) (t_availability (db w))) as Ha
        by (rewrite Hf; by left).
      by apply js_filter_elem in Ha as [? _].
Qed.

Lemma find_updated (q : AgentAvailability → bool) id T a l v :
  js_find (availability_of id T) l = Some a →
  q a = true → availability_of id T v = true →
  js_find (availability_of id T) ((λ x, if q x then v else x) <$> l) = Some v.
Proof.
  intros Hf Hq Hv. induction l as [|x l IH]; [done|]. unfold js_find in *. cbn in *.
  destruct (q x) eqn:Eq; [by rewrite Hv|].
  destruct (availability_of id T x) eqn:Ex; [|by apply IH].
  injection Hf as ->. congruence.
Qed.

(** A row [updateAvailability] rewrites, as it is stored. *)
Definition updated_row (status_ : string) (hours : option json) (now : Z)
    (a : AgentAvailability) : AgentAvailability :=
  a <| avail_status := status_ |> <| workingHours := Some (default (JObj []) hours) |>
    <| lastSeenAt := now |>.

(** Updating an availability that exists returns, whether or not its job could
    be queued, and the updated row is the one found afterwards. *)
Lemma updateAvailability_find T id s hours u a w :
  findByAgentProfileId id T (db w) = Some a →
  ∃ r w', updateAvailability T id s hours u w = (Ok r, w')
    ∧ findByAgentProfileId id T (db w') = Some (updated_row s hours (env_clock (ticks w)) a).
Proof.
  intros Hf. unfold updateAvailability. rewrite gets_bind, Hf.
  set (v := updated_row s hours (env_clock (ticks w)) a).
  set (w1 := w <| ticks ::= S |> <| db ::= λ d, d <| t_availability ::= fmap (λ x,
    if String.eqb (avail_id x) (avail_id a) && String.eqb (avail_tenantId x) T
    then v else x) |> |>).
  set (queue := try_catch (addJob TEAM "load-balancer-job" [("agentProfileId", JStr id)]
    (λ o, o)) (λ _, mret tt) : M TeamW unit).
  assert (∃ w2, queue w1 = (Ok tt, w2) ∧ db w2 = db w1) as (w2 & Hq & Hdb).
  { unfold queue, try_catch. pose proof (addJob_db TEAM "load-balancer-job"
      [("agentProfileId", JStr id)] (λ o, o) w1) as Hadd. unfold final in Hadd.
    destruct (addJob _ _ _ _ w1) as [[[]|e] w2]; cbn in *; by exists w2. }
  eexists _, _. split.
  { etransitivity; [apply (bind_ok new_Date); reflexivity|]. cbv zeta.
    etransitivity; [apply (bind_ok (modify _) _ _ tt w1); reflexivity|].
    rewrite (bind_ok _ _ _ _ _ Hq). reflexivity. }
  cbn. unfold findByAgentProfileId in *. rewrite Hdb. apply (find_updated _ _ _ a).
  - exact Hf.
  - apply find_some in Hf as [_ [_ ->]%andb_true_iff]. by rewrite String.eqb_refl.
  - by apply find_some in Hf as [_ Hm].
Qed.

(** An idle agent is marked away at the price of its working hours.  The
    sync of an agent that has been online and silent for more than a quarter of
    an hour marks it [AWAY], restarts its idle time and stores the empty working
    hours over the ones it had; the sync of any other agent changes nothing. *)
Theorem idle_sync_erases_hours T id a w :
  findByAgentProfileId id T (db w) = Some a →
  let d' := db (final (availability_sync T id) w) in
  if (15 * 60000 <? env_clock (ticks w) - lastSeenAt a)
     && String.eqb (avail_status a) "ONLINE"
  then findByAgentProfileId id T d' = Some (a
    <| avail_status := "AWAY" |> <| workingHours := Some (JObj []) |>
    <| lastSeenAt := env_clock (S (ticks w)) |>)
  else d' = db w.
Proof.
  intros Hf. cbv zeta. unfold availability_sync, final.
  assert (getAvailability T id w = (Ok a, w)) as Hget
    by (unfold getAvailability; by rewrite gets_bind, Hf).
  rewrite (bind_ok _ _ _ _ _ Hget).
  rewrite (bind_ok new_Date _ _ (env_clock (ticks w)) (w <| ticks ::= S |>) eq_refl).
  destruct (_ && _); [|done].
  set (w1 := w <| ticks ::= S |>).
  assert (findByAgentProfileId id T (db w1) = Some a) as Hf1 by exact Hf.
  destruct (updateAvailability_find T id "AWAY" None None a w1 Hf1)
    as (r & w' & E & Hfind).
  erewrite bind_ok; [|exact E]. cbn [mret M_ret snd]. rewrite Hfind. reflexivity.
Qed.

(** The workload view and the engine agree: a candidate is shown as overloaded
    exactly when it lacks capacity for a conversation or for a ticket. *)
Lemma overloaded_iff_no_capacity T d m p a :
  findProfile (member_agentProfileId m) T d = Some p →
  findByAgentProfileId (member_agentProfileId m) T d = Some a →
  isOverloaded (workload_row T d m)
  = negb (hasCapacity CONVERSATION_ENTITY (p, a) && hasCapacity TICKET_ENTITY (p, a)).
Proof.
  intros Ep Ea. unfold workload_row. rewrite Ep, Ea. cbn.
  by rewrite negb_andb, <- !Z.leb_antisym.
Qed.
End engine.

(** *** Sample runs *)
#[local] Instance team_env : Env :=
  {| env_clock := λ n, 1767000000000 + 1000 * Z.of_nat n;
     env_uuid := λ n, "uuid-" +:+ pretty n;
     env_queue_add := λ _, None |}.

Definition sample_agent (id : string) (score seen load convs tickets : Z)
    : AgentProfile * AgentAvailability :=
  ({| profile_id := id; profile_tenantId := "acme"; skillScore := score;
      maxConcurrentConversations := 5; maxOpenTickets := 5 |},
   {| avail_id := "av-" +:+ id; avail_tenantId := "acme"; agentProfileId := id;
      avail_status := "ONLINE"; lastSeenAt := seen;
      workingHours := Some (JObj [("monday", JStr "9-17")]);
      currentLoad := load; activeConversations := convs; activeTickets := tickets |}).
Definition ann := sample_agent "ann" 10 1766990000000 3 1 1.
Definition bob := sample_agent "bob" 90 1766999990000 1 1 0.
Definition sample_team : TeamDb :=
  {| t_teams := [("support", "acme")]; t_rules := [];
     t_members := (λ i, {| member_tenantId := "acme"; member_teamId := "support";
                           member_agentProfileId := i |}) <$> ["ann"; "bob"];
     t_profiles := [ann.1; bob.1]; t_availability := [ann.2; bob.2] |}.
Definition team_world : TeamW :=
  {| db := sample_team; ticks := 0; uuids := 0; jobs := []; audits := []; realtime := [];
     tenantContext := None |}.

Lemma assignEntity_spec_witness :
  ∃ c w', assignEntity "acme" "support" "t1" TICKET_ENTITY None team_world
          = (Ok (profile_id c.1), w')
    ∧ c ∈ member_candidates "support" "acme" sample_team.
Proof.
  destruct (assignEntity_spec "acme" "support" "t1" TICKET_ENTITY None team_world)
    as (c & w' & E & _ & Hc & _); [reflexivity|discriminate|].
  by exists c, w'.
Defined.

(** [ann] is seen least recently and takes both tickets. *)
Lemma round_robin_repeats_witness :
  let w1 := final (assignEntity "acme" "support" "t1" TICKET_ENTITY None) team_world in
  ∃ w2, assignEntity "acme" "support" "t2" TICKET_ENTITY None w1 = (Ok "ann", w2).
Proof.
  apply (round_robin_repeats "acme" "support" TICKET_ENTITY "t1" "t2" None None team_world).
  - by left.
  - vm_compute. reflexivity.
  - eexists. split; [vm_compute; by left|reflexivity].
Defined.

Lemma load_balancer_repairs_witness :
  ∃ w', load_balancer "acme" "ann" team_world = (Ok 2, w')
    ∧ js_filter (availability_of "ann" "acme") (t_availability (db w'))
      = [ann.2 <| currentLoad := 2 |>].
Proof.
  destruct (load_balancer_repairs "acme" "ann" ann.2 team_world) as (w' & E & Hr & _);
    [reflexivity|].
  by exists w'.
Defined.

Lemma idle_sync_erases_hours_witness :
  workingHours <$> findByAgentProfileId "ann" "acme" sample_team
    = Some (Some (JObj [("monday", JStr "9-17")]))
  ∧ workingHours <$> findByAgentProfileId "ann" "acme"
      (db (final (availability_sync "acme" "ann") team_world)) = Some (Some (JObj [])).
Proof.
  split; [reflexivity|].
  exact (f_equal (fmap workingHours)
    (idle_sync_erases_hours "acme" "ann" ann.2 team_world eq_refl)).
Defined.
End Assignment.
