(* ===== verification/JsValue.v ===== *)
(** * JavaScript conversions of JSON values

    [String(v)], [Number(v)], truthiness and property access, as the workflow
    engine uses them on the values of a trigger context.  Numbers are exact
    rationals, so literals that a double would round are kept exact; an integer
    of more than twenty-one digits is printed in full. *)

From Stdlib Require Import QArith Qround.
From S2P Require Import Prelude Platform.
Open Scope Z_scope.

(** *** Truthiness *)
#[export] Instance json_truthy : Truthy json := λ v,
  match v with
  | JNull => false
  | JBool b => b
  | JNum z => negb (z =? 0)
  | JStr s => negb (String.eqb s "")
  | JArr _ | JObj _ => true
  end.

(** [a || b] on values that may be [undefined]. *)
Definition json_or (a b : option json) : option json :=
  if truthy a then a else b.

(** *** [String(v)] *)
Fixpoint js_String (v : json) : string :=
  match v with
  | JNull => "null"
  | JBool b => if b then "true" else "false"
  | JNum z => pretty z
  | JStr s => s
  | JArr l => js_join "," ((λ x, match x with JNull => "" | _ => js_String x end) <$> l)
  | JObj _ => "[object Object]"
  end.
(** of a value that may be [undefined] *)
Definition js_String_opt (v : option json) : string :=
  match v with Some v => js_String v | None => "undefined" end.

(** *** [Number(v)] *)
Inductive number := NaN | Infinite (negative : bool) | Finite (q : Q).

Definition digit_value (c : ascii) : option Z :=
  let n := Z.of_N (Ascii.N_of_ascii c) in
  if (48 <=? n) && (n <=? 57) then Some (n - 48)
  else if (97 <=? n) && (n <=? 102) then Some (n - 87)
  else if (65 <=? n) && (n <=? 70) then Some (n - 55)
  else None.

(** The leading digits of [l] in a base: their value, their number and what
    follows them. *)
Fixpoint digits (base acc : Z) (count : nat) (l : list ascii) : Z * nat * list ascii :=
  match l with
  | [] => (acc, count, [])
  | c :: l' =>
      match digit_value c with
      | Some d => if d <? base then digits base (acc * base + d) (S count) l'
                  else (acc, count, l)
      | None => (acc, count, l)
      end
  end.

Definition signed (l : list ascii) : bool * list ascii :=
  match l with
  | "+"%char :: l' => (false, l')
  | "-"%char :: l' => (true, l')
  | _ => (false, l)
  end.

(** [10 ^ e] as a rational. *)
Definition pow10 (e : Z) : Q :=
  if 0 <=? e then inject_Z (10 ^ e) else Qinv (inject_Z (10 ^ (- e))).

(** The optional exponent, up to the end of the text. *)
Definition exponent (l : list ascii) : option Z :=
  match l with
  | [] => Some 0
  | c :: l' =>
      if Ascii.eqb (ascii_lower c) "e"%char then
        let '(neg, l'') := signed l' in
        match digits 10 0 0 l'' with
        | (e, S _, []) => Some (if neg then - e else e)
        | _ => None
        end
      else None
  end.

Definition decimal (negative : bool) (l : list ascii) : number :=
  let '(whole, n, rest) := digits 10 0 0 l in
  let '(mantissa, m, rest') := match rest with
    | "."%char :: rest => digits 10 whole 0 rest
    | _ => (whole, 0%nat, rest)
    end in
  if ((n + m =? 0)%nat)%bool then NaN else
  match exponent rest' with
  | None => NaN
  | Some e =>
      let q := (inject_Z mantissa * pow10 (e - Z.of_nat m))%Q in
      Finite (Qred (if negative then Qopp q else q))
  end.

Definition radix (base : Z) (l : list ascii) : number :=
  match digits base 0 0 l with
  | (z, S _, []) => Finite (inject_Z z)
  | _ => NaN
  end.

Definition string_to_number (s : string) : number :=
  match String.list_ascii_of_string (js_trim s) with
  | [] => Finite 0
  | "0"%char :: c :: l =>
      if Ascii.eqb (ascii_lower c) "x"%char then radix 16 l
      else if Ascii.eqb (ascii_lower c) "o"%char then radix 8 l
      else if Ascii.eqb (ascii_lower c) "b"%char then radix 2 l
      else decimal false ("0"%char :: c :: l)
  | l =>
      let '(neg, l') := signed l in
      if String.eqb (String.string_of_list_ascii l') "Infinity" then Infinite neg
      else decimal neg l'
  end.

Definition js_Number (v : option json) : number :=
  match v with
  | None => NaN
  | Some JNull => Finite 0
  | Some (JBool b) => Finite (if b then 1 else 0)
  | Some (JNum z) => Finite (inject_Z z)
  | Some (JStr s) => string_to_number s
  | Some (JArr l) => string_to_number (js_String (JArr l))
  | Some (JObj _) => NaN
  end.

(** [a <= b]; every comparison with [NaN] is false. *)
Definition number_le (a b : number) : bool :=
  match a, b with
  | NaN, _ | _, NaN => false
  | Infinite true, _ | _, Infinite false => true
  | _, Infinite true | Infinite false, _ => false
  | Finite p, Finite q => Qle_bool p q
  end.

(** *** Property access [v[key]] on own properties *)
Definition canonical_index (key : string) : option nat :=
  match digits 10 0 0 (String.list_ascii_of_string key) with
  | (z, S _, []) => if String.eqb (pretty z) key then Some (Z.to_nat z) else None
  | _ => None
  end.

Definition get_property (v : json) (key : string) : option json :=
  match v with
  | JObj o => field key o
  | JArr l => if String.eqb key "length" then Some (JNum (Z.of_nat (length l)))
              else i ← canonical_index key; l !! i
  | JStr s => if String.eqb key "length" then Some (JNum (js_length s))
              else i ← canonical_index key;
                   c ← String.list_ascii_of_string s !! i;
                   Some (JStr (String c ""))
  | _ => None
  end.

(** [s.includes(t)] *)
Fixpoint string_includes (s t : string) : bool :=
  String.prefix t s || match s with EmptyString => false | String _ s' => string_includes s' t end.

(** [s.split(c)] for a one-character separator. *)
Fixpoint split_char (sep : ascii) (s : string) : list string :=
  match s with
  | EmptyString => [""]
  | String c s' =>
      if Ascii.eqb c sep then "" :: split_char sep s'
      else match split_char sep s' with
           | w :: ws => String c w :: ws
           | [] => [String c ""]
           end
  end.

Example number_examples :
  (string_to_number " 12.50 ", string_to_number "-3e2", string_to_number "0x1F",
   string_to_number "", string_to_number "12px", string_to_number ".", string_to_number "5.",
   string_to_number "-Infinity")
  = (Finite (25 # 2), Finite (inject_Z (-300)), Finite (inject_Z 31), Finite 0, NaN, NaN,
     Finite 5, Infinite true).
Proof. reflexivity. Qed.
