(* ===== verification/Workflow.v ===== *)
(** * The workflow module: data, tables and execution service

    [src/modules/workflows]: templates, executions and approvals
    ([domain/entities.ts]), the statements of the repository the engine uses,
    and the execution service.  One clock reading stands for the readings of
    one method call of an entity. *)

From S2P Require Import Prelude Platform JsValue.
Open Scope Z_scope.

Module WorkflowStatusEnum.
Inductive WorkflowStatusEnum := DRAFT | ACTIVE | PAUSED | ARCHIVED | FAILED | COMPLETED.

#[export] Instance eq_dec : EqDecision WorkflowStatusEnum.
Proof. solve_decision. Defined.

#[export, program] Instance enum : JsEnum WorkflowStatusEnum := {|
  enum_values := [DRAFT; ACTIVE; PAUSED; ARCHIVED; FAILED; COMPLETED];
  enum_str s := match s with
    | DRAFT => "DRAFT" | ACTIVE => "ACTIVE" | PAUSED => "PAUSED"
    | ARCHIVED => "ARCHIVED" | FAILED => "FAILED" | COMPLETED => "COMPLETED" end |}.
Solve All Obligations with solve_enum.
End WorkflowStatusEnum.
Export (hints) WorkflowStatusEnum.
Abbreviation WorkflowStatusEnum := WorkflowStatusEnum.WorkflowStatusEnum.
Import WorkflowStatusEnum.

Module TriggerTypeEnum.
Inductive TriggerTypeEnum :=
  | CONVERSATION_CREATED | MESSAGE_RECEIVED | TICKET_CREATED | TICKET_UPDATED
  | TICKET_ESCALATED | CUSTOMER_CREATED | CUSTOMER_UPDATED | SLA_BREACHED
  | CONNECTOR_EXECUTED | AI_ESCALATED | SCHEDULED | WEBHOOK | MANUAL.

#[export] Instance eq_dec : EqDecision TriggerTypeEnum.
Proof. solve_decision. Defined.
End TriggerTypeEnum.
Export (hints) TriggerTypeEnum.
Abbreviation TriggerTypeEnum := TriggerTypeEnum.TriggerTypeEnum.

Module ActionTypeEnum.
Inductive ActionTypeEnum :=
  | CREATE_TICKET | UPDATE_TICKET | ASSIGN_TICKET | ESCALATE_TICKET
  | SEND_MESSAGE | SEND_EMAIL | SEND_NOTIFICATION | CALL_CONNECTOR
  | TRIGGER_AI_WORKFLOW | WAIT | APPROVAL | UPDATE_CUSTOMER | ADD_TAG
  | REMOVE_TAG | CUSTOM_ACTION.

#[export] Instance eq_dec : EqDecision ActionTypeEnum.
Proof. solve_decision. Defined.

#[export, program] Instance enum : JsEnum ActionTypeEnum := {|
  enum_values := [CREATE_TICKET; UPDATE_TICKET; ASSIGN_TICKET; ESCALATE_TICKET;
    SEND_MESSAGE; SEND_EMAIL; SEND_NOTIFICATION; CALL_CONNECTOR;
    TRIGGER_AI_WORKFLOW; WAIT; APPROVAL; UPDATE_CUSTOMER; ADD_TAG; REMOVE_TAG;
    CUSTOM_ACTION];
  enum_str a := match a with
    | CREATE_TICKET => "CREATE_TICKET" | UPDATE_TICKET => "UPDATE_TICKET"
    | ASSIGN_TICKET => "ASSIGN_TICKET" | ESCALATE_TICKET => "ESCALATE_TICKET"
    | SEND_MESSAGE => "SEND_MESSAGE" | SEND_EMAIL => "SEND_EMAIL"
    | SEND_NOTIFICATION => "SEND_NOTIFICATION" | CALL_CONNECTOR => "CALL_CONNECTOR"
    | TRIGGER_AI_WORKFLOW => "TRIGGER_AI_WORKFLOW" | WAIT => "WAIT"
    | APPROVAL => "APPROVAL" | UPDATE_CUSTOMER => "UPDATE_CUSTOMER"
    | ADD_TAG => "ADD_TAG" | REMOVE_TAG => "REMOVE_TAG"
    | CUSTOM_ACTION => "CUSTOM_ACTION" end |}.
Solve All Obligations with solve_enum.
End ActionTypeEnum.
Export (hints) ActionTypeEnum.
Abbreviation ActionTypeEnum := ActionTypeEnum.ActionTypeEnum.

Module ApprovalStatusEnum.
Inductive ApprovalStatusEnum := PENDING | APPROVED | REJECTED.

#[export] Instance eq_dec : EqDecision ApprovalStatusEnum.
Proof. solve_decision. Defined.

#[export, program] Instance enum : JsEnum ApprovalStatusEnum := {|
  enum_values := [PENDING; APPROVED; REJECTED];
  enum_str s := match s with
    | PENDING => "PENDING" | APPROVED => "APPROVED" | REJECTED => "REJECTED" end |}.
Solve All Obligations with solve_enum.
End ApprovalStatusEnum.
Export (hints) ApprovalStatusEnum.
Abbreviation ApprovalStatusEnum := ApprovalStatusEnum.ApprovalStatusEnum.

(** An object used as a dictionary. *)
Abbreviation js_object := (list (string * json)).

(** [o[k] = v] *)
Fixpoint set_key (k : string) (v : json) (o : js_object) : js_object :=
  match o with
  | [] => [(k, v)]
  | (k', v') :: o' => if String.eqb k' k then (k, v) :: o' else (k', v') :: set_key k v o'
  end.

Record WorkflowCondition := {
  cond_field : string;
  operator : string;
  cond_value : string;
}.

Record WorkflowAction := {
  action_id : string;
  actionType : ActionTypeEnum;
  configuration : js_object;
  sequenceOrder : Z;
}.

Record WorkflowTemplate := {
  template_id : string;
  template_tenantId : string;
  template_name : string;
  template_status : WorkflowStatusEnum;
  triggers : list TriggerTypeEnum;
  conditions : list WorkflowCondition;
  actions : list WorkflowAction;
}.
#[export] Instance WorkflowTemplate_Eta : Eta WorkflowTemplate := λ t,
  Build_WorkflowTemplate (template_id t) (template_tenantId t) (template_name t)
    (template_status t) (triggers t) (conditions t) (actions t).

(** *** Approvals *)
Module WorkflowApproval.
Record WorkflowApproval := {
  id : string;
  tenantId : string;
  workflowExecutionId : string;
  approverId : string;
  approvalStatus : ApprovalStatusEnum;
  comments : option string;
  approvedAt : option Z;
  expiresAt : option Z;
  createdAt : Z;
  updatedAt : Z;
}.
#[export] Instance Eta_WorkflowApproval : Eta WorkflowApproval := λ a,
  Build_WorkflowApproval (id a) (tenantId a) (workflowExecutionId a) (approverId a)
    (approvalStatus a) (comments a) (approvedAt a) (expiresAt a) (createdAt a)
    (updatedAt a).

Definition decide_as (s : ApprovalStatusEnum) (now : Z) (c : option string)
    : M WorkflowApproval unit :=
  assign approvalStatus s ;;
  modify (λ a, a <| comments ::= λ old, if truthy c then c else old |>) ;;
  assign approvedAt (Some now) ;;
  assign updatedAt now.
Definition approve : Z → option string → M WorkflowApproval unit :=
  decide_as ApprovalStatusEnum.APPROVED.
Definition reject : Z → option string → M WorkflowApproval unit :=
  decide_as ApprovalStatusEnum.REJECTED.

(** [isExpired()], at the instant [now]. *)
Definition isExpired (now : Z) (a : WorkflowApproval) : bool :=
  match expiresAt a with Some e => e <? now | None => false end.
End WorkflowApproval.
Export (hints) WorkflowApproval.
Abbreviation WorkflowApproval := WorkflowApproval.WorkflowApproval.

(** *** Executions *)
Module WorkflowExecution.
Record WorkflowExecution := {
  id : string;
  tenantId : string;
  workflowId : string;
  executionStatus : WorkflowStatusEnum;
  startedAt : Z;
  completedAt : option Z;
  executionTimeMs : Z;
  triggerSource : string;
  triggerReferenceId : option json;
  context : js_object;
  result_ : option js_object;
  error : option js_object;
  createdAt : Z;
  updatedAt : Z;
}.
#[export] Instance Eta_WorkflowExecution : Eta WorkflowExecution := λ e,
  Build_WorkflowExecution (id e) (tenantId e) (workflowId e) (executionStatus e)
    (startedAt e) (completedAt e) (executionTimeMs e) (triggerSource e)
    (triggerReferenceId e) (context e) (result_ e) (error e) (createdAt e)
    (updatedAt e).

Definition start (now : Z) : M WorkflowExecution unit :=
  assign executionStatus ACTIVE ;;
  assign startedAt now ;;
  assign updatedAt now.

(** The end of an execution, [complete] and [fail]. *)
Definition finish (s : WorkflowStatusEnum) (now : Z) : M WorkflowExecution unit :=
  assign executionStatus s ;;
  assign completedAt (Some now) ;;
  modify (λ e, e <| executionTimeMs := now - startedAt e |>) ;;
  assign updatedAt now.
Definition complete (now : Z) (r : js_object) : M WorkflowExecution unit :=
  finish COMPLETED now ;; assign result_ (Some r).
Definition fail (now : Z) (err : js_object) : M WorkflowExecution unit :=
  finish FAILED now ;; assign error (Some err).
Definition pause (now : Z) : M WorkflowExecution unit :=
  assign executionStatus PAUSED ;;
  assign updatedAt now.
End WorkflowExecution.
Export (hints) WorkflowExecution.
Abbreviation WorkflowExecution := WorkflowExecution.WorkflowExecution.

(** *** Tables *)
Record WorkflowAuditLog := {
  log_id : string;
  log_tenantId : string;
  log_workflowId : string;
  log_executionId : string;
  log_action : string;
  log_details : string;
  log_createdAt : Z;
}.

(** Executions and approvals by primary key; templates in the order their rows
    are returned, each with its own children. *)
Record WfDb := {
  wf_templates : list WorkflowTemplate;
  wf_executions : gmap string WorkflowExecution;
  wf_approvals : gmap string WorkflowApproval;
  wf_audit : list WorkflowAuditLog;
}.
#[export] Instance WfDb_Eta : Eta WfDb := λ d,
  Build_WfDb (wf_templates d) (wf_executions d) (wf_approvals d) (wf_audit d).
Abbreviation WfW := (World WfDb).

Definition by_sequence (a b : WorkflowAction) : Z := sequenceOrder a - sequenceOrder b.
(** [templateToDomain] after the queries: actions come by [sequenceOrder]. *)
Definition load_template (t : WorkflowTemplate) : WorkflowTemplate :=
  t <| actions ::= js_sort by_sequence |>.

Definition getTemplateById (tid tenant : string) (d : WfDb) : option WorkflowTemplate :=
  load_template <$> js_find (λ t, String.eqb (template_id t) tid
    && String.eqb (template_tenantId t) tenant) (wf_templates d).

(** [findTemplates] with a status. *)
Definition findTemplates (tenant : string) (s : WorkflowStatusEnum) (d : WfDb)
    : list WorkflowTemplate :=
  load_template <$> js_filter (λ t, String.eqb (template_tenantId t) tenant
    && bool_decide (template_status t = s)) (wf_templates d).

Definition owned_execution (tenant : string) (e : WorkflowExecution) : bool :=
  String.eqb (WorkflowExecution.tenantId e) tenant.
Definition find_execution (eid tenant : string) (d : WfDb) : option WorkflowExecution :=
  e ← wf_executions d !! eid;
  if owned_execution tenant e then Some e else None.

Definition find_approval (aid tenant : string) (d : WfDb) : option WorkflowApproval :=
  a ← wf_approvals d !! aid;
  if String.eqb (WorkflowApproval.tenantId a) tenant then Some a else None.

Definition wf_unique_violation : exn :=
  Exn JsError "duplicate key value violates unique constraint".

(** The row written for an approval, and its upsert. *)
Definition approval_values (now : Z) (a : WorkflowApproval) : WorkflowApproval :=
  a <| WorkflowApproval.comments ::= js_or_undef |> <| WorkflowApproval.updatedAt := now |>.

Definition save_approval (now : Z) (a : WorkflowApproval) (tenant : string) (d : WfDb)
    : result WfDb :=
  let raw := approval_values now a in
  let aid := WorkflowApproval.id a in
  match find_approval aid tenant d with
  | Some old => Ok (d <| wf_approvals ::= <[aid :=
      raw <| WorkflowApproval.createdAt := WorkflowApproval.createdAt old |>]> |>)
  | None =>
      match wf_approvals d !! aid with
      | Some _ => Throw wf_unique_violation
      | None => Ok (d <| wf_approvals ::= <[aid := raw]> |>)
      end
  end.

(** [saveExecution]; the approvals it writes back are the rows that were loaded
    with the execution, so only their [updatedAt] changes. *)
Definition save_execution (now : Z) (e : WorkflowExecution) (tenant : string) (d : WfDb)
    : result WfDb :=
  let eid := WorkflowExecution.id e in
  let raw := e <| WorkflowExecution.triggerReferenceId ::= js_or_undef |>
               <| WorkflowExecution.updatedAt := now |> in
  let touched := fmap (λ a, if String.eqb (WorkflowApproval.workflowExecutionId a) eid
                               && String.eqb (WorkflowApproval.tenantId a) tenant
                            then a <| WorkflowApproval.updatedAt := now |> else a) in
  match find_execution eid tenant d with
  | Some old => Ok (d <| wf_executions ::= <[eid :=
      raw <| WorkflowExecution.createdAt := WorkflowExecution.createdAt old |>]> |>
        <| wf_approvals ::= touched |>)
  | None =>
      match wf_executions d !! eid with
      | Some _ => Throw wf_unique_violation
      | None => Ok (d <| wf_executions ::= <[eid := raw]> |>)
      end
  end.

Section workflow_store.
Context `{Env}.

Definition wf_write (f : Z → WfDb → result WfDb) : M WfW unit :=
  now ← new_Date;
  d ← gets db;
  d' ← of_result (f now d);
  modify (λ w, w <| db := d' |>).

Definition saveApproval (a : WorkflowApproval) (tenant : string) : M WfW unit :=
  wf_write (λ now, save_approval now a tenant).
Definition saveExecution (e : WorkflowExecution) (tenant : string) : M WfW unit :=
  wf_write (λ now, save_execution now e tenant).

Definition logAudit (tenant workflowId executionId action details : string) : M WfW unit :=
  i ← randomUUID;
  now ← new_Date;
  modify (λ w, w <| db ::= λ d, d <| wf_audit ::= λ l, l ++
    [{| log_id := i; log_tenantId := tenant; log_workflowId := workflowId;
        log_executionId := executionId; log_action := action;
        log_details := details; log_createdAt := now |}] |> |>).

(** *** The events the publisher forwards; a failing queue is only logged. *)
Definition publish_job (jobName : string) (data : js_object) : M WfW unit :=
  try_catch (addJob WORKFLOW jobName data (λ o, o)) (λ _, mret tt).

Definition emitWorkflowExecutionUpdate (tenant : string) (e : WorkflowExecution)
    : M WfW unit :=
  broadcast tenant (WorkflowExecution.id e).

(** *** The execution service *)
Definition getExecution (tenant eid : string) : M WfW WorkflowExecution :=
  d ← gets db;
  match find_execution eid tenant d with
  | Some e => mret e
  | None => throw (Exn NotFoundException ("Workflow execution with ID " +:+ eid +:+ " not found"))
  end.

Definition createExecution (tenant workflowId triggerSource : string)
    (triggerReferenceId : option json) (context : js_object) : M WfW WorkflowExecution :=
  eid ← randomUUID;
  now ← new_Date;
  let e := {|
    WorkflowExecution.id := eid; WorkflowExecution.tenantId := tenant;
    WorkflowExecution.workflowId := workflowId;
    WorkflowExecution.executionStatus := DRAFT;
    WorkflowExecution.startedAt := now; WorkflowExecution.completedAt := None;
    WorkflowExecution.executionTimeMs := 0;
    WorkflowExecution.triggerSource := if truthy triggerSource then triggerSource else "MANUAL";
    WorkflowExecution.triggerReferenceId := triggerReferenceId;
    WorkflowExecution.context := context; WorkflowExecution.result_ := None;
    WorkflowExecution.error := None; WorkflowExecution.createdAt := now;
    WorkflowExecution.updatedAt := now |} in
  saveExecution e tenant ;;
  emitWorkflowExecutionUpdate tenant e ;;
  mret e.

(** Load, change, save. *)
Definition change_execution (tenant eid : string) (f : Z → M WorkflowExecution unit)
    : M WfW WorkflowExecution :=
  e ← getExecution tenant eid;
  now ← new_Date;
  e ← exec (f now) e;
  saveExecution e tenant ;;
  mret e.

Definition startExecution (tenant eid : string) : M WfW WorkflowExecution :=
  e ← change_execution tenant eid WorkflowExecution.start;
  publish_job "workflow-execution-job"
    [("tenantId", JStr tenant); ("executionId", JStr eid);
     ("workflowId", JStr (WorkflowExecution.workflowId e))] ;;
  emitWorkflowExecutionUpdate tenant e ;;
  mret e.

Definition completeExecution (tenant eid : string) (r : js_object) : M WfW WorkflowExecution :=
  e ← change_execution tenant eid (λ now, WorkflowExecution.complete now r);
  emitWorkflowExecutionUpdate tenant e ;;
  mret e.

Definition failExecution (tenant eid : string) (err : js_object) : M WfW WorkflowExecution :=
  e ← change_execution tenant eid (λ now, WorkflowExecution.fail now err);
  emitWorkflowExecutionUpdate tenant e ;;
  mret e.

Definition pauseExecution (tenant eid : string) : M WfW WorkflowExecution :=
  e ← change_execution tenant eid WorkflowExecution.pause;
  emitWorkflowExecutionUpdate tenant e ;;
  mret e.
End workflow_store.
