(* ===== verification/WorkflowEngine.v ===== *)
(** * The workflow engine

    [services/workflow-trigger.service.ts], [workflow-action.service.ts],
    [workflow-approval.service.ts] and [workflow-engine.service.ts]: which
    templates an event starts, how the actions of a template run, pause and
    resume, and the sweep of expired approvals.

    The engine starts [executeWorkflowActions(...).catch(...)] without awaiting
    it.  Here that background run goes to its end before the caller does, which
    is one of its schedules; [setTimeout] has no effect on the store. *)

From Stdlib Require Import QArith Qround.
From S2P Require Import Prelude Platform JsValue Workflow.
Import WorkflowStatusEnum ActionTypeEnum.
Open Scope Z_scope.

(** *** The services of other modules that actions call, with the arguments
    they are given: [undefined] is [None]. *)
Inductive ServiceCall :=
  | TicketService_create (subject description : string) (customerId priority : option json)
  | TicketService_update (ticketId : json)
      (status priority : option json) (subject description : option string)
      (metadata : option json)
  | TicketAssignmentService_assign (ticketId : json) (agentId teamId : option json)
  | TicketEscalationService_escalate (ticketId reason : json) (executionId : string)
  | CustomerService_update (customerId updateDto : json)
  | MessageService_create (conversationId : option json) (content : string)
  | NotificationService_sendEmail (emailTo : string) (templateId : json) (subject body : string)
  | NotificationService_sendPush (userId : json) (message : string)
  | ConnectorService_executeCapability (capability payload : option json) (executionId : string)
  | AiWorkflowService_trigger (workflowId conversationId variables : option json)
  | TicketService_addTag (ticketId : json) (tag : option json)
  | TicketService_removeTag (ticketId : json) (tag : option json).

(** What other modules may do to the workflow tables: they leave templates and
    the executions that exist as they are.  (They can start executions of their
    own, through the triggers they raise.) *)
Definition wf_grows (d d' : WfDb) : Prop :=
  wf_templates d' = wf_templates d ∧ wf_executions d ⊆ wf_executions d'.
#[export] Instance wf_grows_preorder : PreOrder wf_grows.
Proof.
  split; unfold wf_grows.
  - intros d. by split_and!.
  - intros a b c (E1 & E2) (F1 & F2). split; [congruence|by etransitivity].
Qed.

Class WorkflowDeps := {
  (** The answer of a service: the fields of its result the action reads. *)
  service : string → ServiceCall → M WfW json;
  service_grows : ∀ tenant c, keeps (db_rel wf_grows) (service tenant c);
  (** The order a query without [orderBy] returns its rows in. *)
  row_order : list WorkflowApproval → list WorkflowApproval;
  row_order_perm : ∀ l, row_order l ≡ₚ l;
}.

(** *** Templates of texts: [interpolate] and [resolvePayload] *)
Definition not_brace (c : ascii) : bool :=
  negb (Ascii.eqb c "{"%char) && negb (Ascii.eqb c "}"%char).
Fixpoint span_key (l : list ascii) : list ascii * list ascii :=
  match l with
  | c :: l' => if not_brace c then let '(k, r) := span_key l' in (c :: k, r) else ([], l)
  | [] => ([], [])
  end.

(** The match of [{{key}}] at the head of [l]: the key and what follows. *)
Definition match_key (l : list ascii) : option (string * list ascii) :=
  match l with
  | "{"%char :: "{"%char :: l' =>
      match span_key l' with
      | (c :: k, "}"%char :: "}"%char :: r) => Some (String.string_of_list_ascii (c :: k), r)
      | _ => None
      end
  | _ => None
  end.

(** The value of a dotted path, [Throw tt]-free: [None] when the walk meets
    [undefined] or [null] before its last step. *)
Fixpoint walk (parts : list string) (v : option json) : option (option json) :=
  match parts with
  | [] => Some v
  | p :: ps => match v with
               | None | Some JNull => None
               | Some v => walk ps (get_property v p)
               end
  end.

Definition replacement (context : js_object) (key : string) : string :=
  let matched := "{{" +:+ key +:+ "}}" in
  match walk (split_char "."%char (js_trim key)) (Some (JObj context)) with
  | Some (Some v) => js_String v
  | _ => matched
  end.

(** [text.replace(/\{\{([^{}]+)\}\}/g, ...)]; the fuel is the length of the
    text, of which every step uses a character. *)
Fixpoint interpolate_from (fuel : nat) (context : js_object) (l : list ascii) : string :=
  match fuel, l with
  | O, _ | _, [] => ""
  | S fuel', c :: l' =>
      match match_key l with
      | Some (key, rest) => replacement context key +:+ interpolate_from fuel' context rest
      | None => String c (interpolate_from fuel' context l')
      end
  end.
Definition interpolate (text : string) (context : js_object) : string :=
  interpolate_from (String.length text) context (String.list_ascii_of_string text).

(** [interpolate] on a configuration value: only strings have [replace]. *)
Definition interpolate_value (v : json) (context : js_object) : result string :=
  match v with
  | JStr s => Ok (interpolate s context)
  | _ => Throw (Exn JsTypeError "text.replace is not a function")
  end.

Fixpoint resolvePayload (context : js_object) (payload : json) : json :=
  match payload with
  | JStr s => JStr (interpolate s context)
  | JArr l => JArr (resolvePayload context <$> l)
  | JObj o => JObj ((λ kv, (kv.1, resolvePayload context kv.2)) <$> o)
  | _ => payload
  end.

(** *** Conditions *)
Definition condition_holds (context : js_object) (cond : WorkflowCondition) : bool :=
  let actualVal := field (cond_field cond) context in
  let targetVal := JStr (cond_value cond) in
  let op := js_upper (operator cond) in
  if String.eqb op "EQUALS" then
    String.eqb (js_String_opt actualVal) (js_String targetVal)
  else if String.eqb op "CONTAINS" then
    string_includes (js_lower (js_String_opt actualVal)) (js_lower (js_String targetVal))
  else if String.eqb op "GT" then
    negb (number_le (js_Number actualVal) (js_Number (Some targetVal)))
  else if String.eqb op "LT" then
    negb (number_le (js_Number (Some targetVal)) (js_Number actualVal))
  else false.

Definition evaluateConditions (conds : list WorkflowCondition) (context : js_object) : bool :=
  every (condition_holds context) conds.

Definition findTriggeredTemplates (tenant : string) (t : TriggerTypeEnum) (d : WfDb)
    : list WorkflowTemplate :=
  js_filter (λ tpl, some (λ tr, bool_decide (tr = t)) (triggers tpl))
    (findTemplates tenant ACTIVE d).

Section workflow_engine.
Context `{Env, WorkflowDeps}.

(** *** Approvals *)

(** [timeoutHours * 3600000]; an invalid date is refused when it is stored. *)
Definition hours_to_ms (timeoutHours : json) : result Z :=
  match js_Number (Some timeoutHours) with
  | Finite q => Ok (let p := (q * inject_Z 3600000)%Q in
                    if Qle_bool 0 p then Qfloor p else Qceiling p)
  | _ => Throw (Exn JsError "Invalid time value")
  end.

Definition createApproval (tenant executionId : string) (approverId : option json)
    (timeoutHours : json) : M WfW WorkflowApproval :=
  i ← randomUUID;
  now ← new_Date;
  ms ← of_result (hours_to_ms timeoutHours);
  approver ← of_result (match approverId with
    | Some (JStr s) => Ok s
    | _ => Throw (Exn JsError "null value violates not-null constraint") end);
  let a := {| WorkflowApproval.id := i; WorkflowApproval.tenantId := tenant;
    WorkflowApproval.workflowExecutionId := executionId;
    WorkflowApproval.approverId := approver;
    WorkflowApproval.approvalStatus := ApprovalStatusEnum.PENDING;
    WorkflowApproval.comments := None; WorkflowApproval.approvedAt := None;
    WorkflowApproval.expiresAt := Some (now + ms);
    WorkflowApproval.createdAt := now; WorkflowApproval.updatedAt := now |} in
  saveApproval a tenant ;;
  publish_job "workflow-approval-job"
    [("tenantId", JStr tenant); ("approvalId", JStr i);
     ("executionId", JStr executionId); ("approverId", JStr approver)] ;;
  mret a.

Definition getApproval (tenant aid : string) : M WfW WorkflowApproval :=
  d ← gets db;
  match find_approval aid tenant d with
  | Some a => mret a
  | None => throw (Exn NotFoundException ("Workflow approval with ID " +:+ aid +:+ " not found"))
  end.

(** *** Actions *)
Definition missing (what action : string) : exn :=
  Exn JsError (what +:+ " ID missing in context or configuration for " +:+ action +:+ " action").

Definition status_result (s : string) : json := JObj [("status", JStr s)].

(** [interpolate(config[k] || dflt, context)] *)
Definition text_of (config context : js_object) (k dflt : string) : M WfW string :=
  of_result (interpolate_value (default (JStr dflt) (js_or_undef (field k config))) context).
(** [config[k] ? interpolate(config[k], context) : undefined] *)
Definition text_opt (config context : js_object) (k : string) : M WfW (option string) :=
  match js_or_undef (field k config) with
  | Some v => Some <$> of_result (interpolate_value v context)
  | None => mret None
  end.

(** [context[k] || config[k]], when truthy. *)
Definition id_of (k : string) (config context : js_object) : option json :=
  js_or_undef (json_or (field k context) (field k config)).

Definition executeAction (tenant : string) (action : WorkflowAction) (context : js_object)
    (executionId : string) : M WfW json :=
  let config := configuration action in
  let ticketId := id_of "ticketId" config context in
  match actionType action with
  | CREATE_TICKET =>
      subject ← text_of config context "subject" "Workflow Ticket";
      description ← text_of config context "description" "Created via workflow";
      tid ← service tenant (TicketService_create subject description
        (json_or (field "customerId" context) (field "customerId" config))
        (Some (default (JStr "MEDIUM") (js_or_undef (field "priority" config)))));
      mret (JObj [("ticketId", tid); ("status", JStr "created")])
  | UPDATE_TICKET =>
      match ticketId with
      | Some tid =>
          subject ← text_opt config context "subject";
          description ← text_opt config context "description";
          service tenant (TicketService_update tid (field "status" config)
            (field "priority" config) subject description (field "metadata" config)) ;;
          mret (status_result "updated")
      | None => throw (missing "Ticket" "update")
      end
  | ASSIGN_TICKET =>
      match ticketId with
      | Some tid =>
          service tenant (TicketAssignmentService_assign tid (field "agentId" config)
            (field "teamId" config)) ;;
          mret (status_result "assigned")
      | None => throw (missing "Ticket" "assign")
      end
  | ESCALATE_TICKET =>
      match ticketId with
      | Some tid =>
          service tenant (TicketEscalationService_escalate tid
            (default (JStr "Escalated by workflow orchestration")
               (js_or_undef (field "reason" config))) executionId) ;;
          mret (status_result "escalated")
      | None => throw (missing "Ticket" "escalate")
      end
  | UPDATE_CUSTOMER =>
      match id_of "customerId" config context with
      | Some cid =>
          service tenant (CustomerService_update cid
            (default (JObj []) (js_or_undef (field "updateDto" config)))) ;;
          mret (status_result "customer_updated")
      | None => throw (missing "Customer" "update_customer")
      end
  | SEND_MESSAGE =>
      content ← text_of config context "content" "";
      mid ← service tenant (MessageService_create
        (json_or (field "conversationId" context) (field "conversationId" config)) content);
      mret (JObj [("messageId", mid); ("status", JStr "sent")])
  | SEND_EMAIL =>
      emailTo ← of_result (interpolate_value (default (JStr "customer@easydev")
        (js_or_undef (json_or (field "to" config) (field "customerEmail" context)))) context);
      subject ← text_of config context "subject" "Workflow Alert";
      body ← of_result (interpolate_value (default (JStr "")
        (js_or_undef (json_or (field "body" config) (field "content" config)))) context);
      service tenant (NotificationService_sendEmail emailTo
        (default (JStr "generic-template") (js_or_undef (field "templateId" config)))
        subject body) ;;
      mret (status_result "email_sent")
  | SEND_NOTIFICATION =>
      match js_or_undef (json_or (json_or (field "userId" config) (field "userId" context))
                                 (field "customerId" context)) with
      | Some user =>
          message ← text_of config context "message" "";
          service tenant (NotificationService_sendPush user message) ;;
          mret (status_result "notified")
      | None => mret (status_result "notified")
      end
  | CALL_CONNECTOR =>
      r ← service tenant (ConnectorService_executeCapability (field "capability" config)
        (resolvePayload context <$> field "payload" config) executionId);
      mret (JObj [("result", r); ("status", JStr "connector_executed")])
  | TRIGGER_AI_WORKFLOW =>
      r ← service tenant (AiWorkflowService_trigger (field "workflowId" config)
        (json_or (field "conversationId" context) (field "conversationId" config))
        (resolvePayload context <$> field "variables" config));
      mret (JObj [("aiWorkflowExecutionId", r); ("status", JStr "ai_triggered")])
  | APPROVAL =>
      a ← createApproval tenant executionId (field "approverId" config)
            (default (JNum 24) (js_or_undef (field "timeoutHours" config)));
      mret (JObj [("approvalId", JStr (WorkflowApproval.id a));
                  ("status", JStr "approval_requested"); ("paused", JBool true)])
  | WAIT => mret (status_result "waited")
  | ADD_TAG =>
      let tag := field "tag" config in
      let shown := match tag with Some t => [("tagAdded", t)] | None => [] end in
      match ticketId with
      | Some tid =>
          service tenant (TicketService_addTag tid tag) ;;
          mret (JObj (shown ++ [("status", JStr "tag_added")]))
      | None => mret (JObj shown)
      end
  | REMOVE_TAG =>
      let tag := field "tag" config in
      let shown := match tag with Some t => [("tagRemoved", t)] | None => [] end in
      match ticketId with
      | Some tid =>
          service tenant (TicketService_removeTag tid tag) ;;
          mret (JObj (shown ++ [("status", JStr "tag_removed")]))
      | None => mret (JObj shown)
      end
  | CUSTOM_ACTION => mret (status_result "custom_completed")
  end.

(** *** Retries *)
Definition RETRYABLE_ACTION_TYPES : list ActionTypeEnum :=
  [UPDATE_TICKET; ASSIGN_TICKET; ESCALATE_TICKET; UPDATE_CUSTOMER; ADD_TAG; REMOVE_TAG].
Definition ACTION_RETRY_BACKOFF_MS : list Z := [500; 1500; 3000].

(** The attempts that are left, each with the delay that follows its failure;
    the last one has none. *)
Fixpoint attempt_with (run : M WfW json) (audit : nat → Z → exn → M WfW unit)
    (attempt : nat) (delays : list Z) : M WfW json :=
  try_catch run (λ error,
    match delays with
    | [] => throw error
    | delayMs :: delays' =>
        audit attempt delayMs error ;; attempt_with run audit (S attempt) delays'
    end).

Definition retry_audit (tenant templateId executionId : string) (action : WorkflowAction)
    (attempt : nat) (delayMs : Z) (error : exn) : M WfW unit :=
  logAudit tenant templateId executionId "ACTION_RETRY"
    ("Action " +:+ enum_str (actionType action) +:+ " failed (attempt "
     +:+ pretty (Z.of_nat attempt + 1) +:+ "), retrying in " +:+ pretty delayMs
     +:+ "ms: " +:+ exn_message error).

Definition executeActionWithRetry (tenant : string) (action : WorkflowAction)
    (context : js_object) (executionId templateId : string) : M WfW json :=
  let run := executeAction tenant action context executionId in
  if bool_decide (actionType action ∈ RETRYABLE_ACTION_TYPES)
  then attempt_with run (retry_audit tenant templateId executionId action) 0
         ACTION_RETRY_BACKOFF_MS
  else run.

(** *** Runs *)

(** [actionResult && actionResult.paused] *)
Definition is_paused (actionResult : json) : bool :=
  truthy actionResult && truthy (get_property actionResult "paused").

Definition result_key (action : WorkflowAction) : string :=
  if truthy (action_id action) then action_id action else pretty (sequenceOrder action).

Fixpoint run_actions (tenant : string) (actionsList : list WorkflowAction)
    (executionId : string) (context : js_object) (templateId : string)
    (results : js_object) : M WfW unit :=
  match actionsList with
  | [] =>
      completeExecution tenant executionId results ;;
      logAudit tenant templateId executionId "EXECUTION_COMPLETED"
        "Workflow execution completed successfully"
  | action :: rest =>
      actionResult ← executeActionWithRetry tenant action context executionId templateId;
      let results := set_key (result_key action) actionResult results in
      if is_paused actionResult then
        pauseExecution tenant executionId ;;
        logAudit tenant templateId executionId "EXECUTION_PAUSED"
          ("Execution paused for step approval: " +:+ enum_str (actionType action))
      else run_actions tenant rest executionId context templateId results
  end.

Definition executeActionsList (tenant : string) (actionsList : list WorkflowAction)
    (executionId : string) (context : js_object) (templateId : string) : M WfW unit :=
  run_actions tenant actionsList executionId context templateId [].

Definition alertExecutionFailure (tenant executionId templateId reason : string) : M WfW unit :=
  try_catch
    (addJob ADMIN "admin-incident-job"
      [("tenantId", JStr tenant); ("affectedService", JStr "workflow.execution-failed");
       ("title", JStr "Workflow execution failed"); ("severity", JStr "MEDIUM");
       ("description", JStr ("Execution " +:+ executionId +:+ " of workflow " +:+ templateId
          +:+ " failed: " +:+ reason))] (λ o, o))
    (λ _, mret tt).

(** The background run and its [catch]; a rejection of the handler itself is
    lost. *)
Definition background_run (tenant : string) (actionsList : list WorkflowAction)
    (executionId : string) (context : js_object) (templateId prefix : string)
    : M WfW unit :=
  try_catch
    (try_catch (executeActionsList tenant actionsList executionId context templateId)
      (λ error,
        failExecution tenant executionId [("message", JStr (exn_message error))] ;;
        logAudit tenant templateId executionId "EXECUTION_FAILED"
          (prefix +:+ exn_message error) ;;
        alertExecutionFailure tenant executionId templateId (exn_message error)))
    (λ _, mret tt).

Definition runWorkflowTemplate (tenant : string) (template : WorkflowTemplate)
    (context : js_object) (triggerSource : string) : M WfW string :=
  execution ← createExecution tenant (template_id template) triggerSource
    (json_or (json_or (field "id" context) (field "conversationId" context))
             (field "ticketId" context)) context;
  let eid := WorkflowExecution.id execution in
  startExecution tenant eid ;;
  logAudit tenant (template_id template) eid "EXECUTION_STARTED"
    ("Workflow execution started by trigger source " +:+ triggerSource) ;;
  background_run tenant (actions template) eid context (template_id template)
    "Workflow execution failed: " ;;
  mret eid.

Definition trigger_str (t : TriggerTypeEnum) : string :=
  match t with
  | TriggerTypeEnum.CONVERSATION_CREATED => "CONVERSATION_CREATED"
  | TriggerTypeEnum.MESSAGE_RECEIVED => "MESSAGE_RECEIVED"
  | TriggerTypeEnum.TICKET_CREATED => "TICKET_CREATED"
  | TriggerTypeEnum.TICKET_UPDATED => "TICKET_UPDATED"
  | TriggerTypeEnum.TICKET_ESCALATED => "TICKET_ESCALATED"
  | TriggerTypeEnum.CUSTOMER_CREATED => "CUSTOMER_CREATED"
  | TriggerTypeEnum.CUSTOMER_UPDATED => "CUSTOMER_UPDATED"
  | TriggerTypeEnum.SLA_BREACHED => "SLA_BREACHED"
  | TriggerTypeEnum.CONNECTOR_EXECUTED => "CONNECTOR_EXECUTED"
  | TriggerTypeEnum.AI_ESCALATED => "AI_ESCALATED"
  | TriggerTypeEnum.SCHEDULED => "SCHEDULED"
  | TriggerTypeEnum.WEBHOOK => "WEBHOOK"
  | TriggerTypeEnum.MANUAL => "MANUAL"
  end.

Definition evaluateEventTriggers (tenant : string) (t : TriggerTypeEnum)
    (context : js_object) : M WfW unit :=
  d ← gets db;
  for_each (findTriggeredTemplates tenant t d) (λ template,
    when (evaluateConditions (conditions template) context)
      (runWorkflowTemplate tenant template context (trigger_str t) ;; mret tt)).

(** *** Resuming *)
Definition getTemplate (tenant tid : string) : M WfW WorkflowTemplate :=
  d ← gets db;
  match getTemplateById tid tenant d with
  | Some t => mret t
  | None => throw (Exn NotFoundException ("Workflow template with ID " +:+ tid +:+ " not found"))
  end.

(** [actions.slice(findIndex(APPROVAL) + 1)], all of them without an approval. *)
Fixpoint after_approval (l : list WorkflowAction) : option (list WorkflowAction) :=
  match l with
  | [] => None
  | a :: l' => if bool_decide (actionType a = APPROVAL) then Some l' else after_approval l'
  end.
Definition remaining_actions (l : list WorkflowAction) : list WorkflowAction :=
  default l (after_approval l).

Definition resumeExecution (tenant executionId : string) (approved : bool)
    (approverId : string) (comments : option string) : M WfW unit :=
  execution ← getExecution tenant executionId;
  template ← getTemplate tenant (WorkflowExecution.workflowId execution);
  if negb (bool_decide (WorkflowExecution.executionStatus execution = PAUSED)) then
    throw (Exn JsError ("Workflow execution " +:+ executionId +:+ " is not in PAUSED state"))
  else if negb approved then
    failExecution tenant executionId
      ([("message", JStr "Approval rejected by approver"); ("approverId", JStr approverId)]
       ++ opt_field "comments" comments) ;;
    logAudit tenant (template_id template) executionId "APPROVAL_REJECTED"
      ("Workflow rejected by approver " +:+ approverId +:+ ". execution terminated.")
  else
    startExecution tenant executionId ;;
    logAudit tenant (template_id template) executionId "APPROVAL_GRANTED"
      ("Workflow approved by approver " +:+ approverId +:+ ". Resuming execution.") ;;
    background_run tenant (remaining_actions (actions template)) executionId
      (WorkflowExecution.context execution) (template_id template)
      "Resumed workflow execution failed: ".

(** *** Decisions and the sweep *)
Definition EXPIRED_COMMENT : string := "Auto-rejected: Approval request expired.".

Definition resumeAsRejected (tenant executionId comments : string) : M WfW unit :=
  try_catch (resumeExecution tenant executionId false "system" (Some comments))
    (λ _, mret tt).

Definition already_resolved (a : WorkflowApproval) : exn :=
  Exn BadRequestException ("Approval is already resolved as "
    +:+ enum_str (WorkflowApproval.approvalStatus a)).

Definition wf_approve (tenant aid : string) (comments : option string)
    : M WfW WorkflowApproval :=
  a ← getApproval tenant aid;
  if negb (bool_decide (WorkflowApproval.approvalStatus a = ApprovalStatusEnum.PENDING)) then
    throw (already_resolved a)
  else
    now ← new_Date;
    if WorkflowApproval.isExpired now a then
      a ← exec (WorkflowApproval.reject now (Some EXPIRED_COMMENT)) a;
      saveApproval a tenant ;;
      resumeAsRejected tenant (WorkflowApproval.workflowExecutionId a) EXPIRED_COMMENT ;;
      throw (Exn BadRequestException "Approval request has expired and was auto-rejected.")
    else
      now ← new_Date;
      a ← exec (WorkflowApproval.approve now comments) a;
      saveApproval a tenant ;;
      mret a.

Definition wf_reject (tenant aid : string) (comments : option string)
    : M WfW WorkflowApproval :=
  a ← getApproval tenant aid;
  if negb (bool_decide (WorkflowApproval.approvalStatus a = ApprovalStatusEnum.PENDING)) then
    throw (already_resolved a)
  else
    now ← new_Date;
    a ← exec (WorkflowApproval.reject now comments) a;
    saveApproval a tenant ;;
    mret a.

(** The decision endpoints of [workflow-approval.controller.ts]. *)
Definition decide_endpoint (approved : bool) (tenant aid approverId : string)
    (comments : option string) : M WfW WorkflowApproval :=
  a ← (if approved then wf_approve tenant aid comments else wf_reject tenant aid comments);
  resumeExecution tenant (WorkflowApproval.workflowExecutionId a) approved approverId comments ;;
  mret a.

Definition expired_pending (tenant : option string) (now : Z) (a : WorkflowApproval) : bool :=
  bool_decide (WorkflowApproval.approvalStatus a = ApprovalStatusEnum.PENDING)
  && match WorkflowApproval.expiresAt a with Some e => e <=? now | None => false end
  && match js_or_undef tenant with
     | Some t => String.eqb (WorkflowApproval.tenantId a) t
     | None => true
     end.

Definition findExpiredPendingApprovals (tenant : option string) (now : Z) (d : WfDb)
    : list WorkflowApproval :=
  row_order (js_filter (expired_pending tenant now) (snd <$> map_to_list (wf_approvals d))).

Definition expire_one (a : WorkflowApproval) : M WfW unit :=
  now ← new_Date;
  a ← exec (WorkflowApproval.reject now (Some EXPIRED_COMMENT)) a;
  let tenant := WorkflowApproval.tenantId a in
  saveApproval a tenant ;;
  resumeAsRejected tenant (WorkflowApproval.workflowExecutionId a) EXPIRED_COMMENT ;;
  try_catch
    (addJob ADMIN "admin-incident-job"
      [("tenantId", JStr tenant); ("affectedService", JStr "workflow.approval-timeout");
       ("title", JStr "Workflow execution blocked by an expired approval");
       ("severity", JStr "MEDIUM");
       ("description", JStr ("Approval " +:+ WorkflowApproval.id a
          +:+ " for workflow execution " +:+ WorkflowApproval.workflowExecutionId a
          +:+ " expired without a decision and was auto-rejected."))] (λ o, o))
    (λ _, mret tt).

Definition sweepExpiredApprovals (tenant : option string) : M WfW Z :=
  now ← new_Date;
  d ← gets db;
  let expired := findExpiredPendingApprovals tenant now d in
  for_each expired expire_one ;;
  mret (Z.of_nat (length expired)).
End workflow_engine.

Example interpolate_example :
  interpolate "Ticket {{ ticket.id }} is {{status}} {{x}} {{{n}}}"
    [("ticket", JObj [("id", JNum 7)]); ("status", JStr "{{n}}"); ("n", JNum 3)]
  = "Ticket 7 is {{n}} {{x}} {3}".
Proof. reflexivity. Qed.
