(* ===== verification/WorkflowProofs.v ===== *)
(** * Properties of the workflow engine

    How a run ends, what resuming does, the retries of idempotent actions, and
    the sweep of expired approvals. *)

From Stdlib Require Import QArith.
From S2P Require Import Prelude Platform JsValue Workflow WorkflowEngine.
Import WorkflowStatusEnum ActionTypeEnum.
Open Scope Z_scope.

Module Workflows.

(** *** Conditions *)

(** A numeric condition on a field the context does not have holds: the
    engine refuses a [GT] or [LT] condition only when the opposite comparison
    is true, and every comparison with [NaN] is false.  So a template guarded by
    such conditions starts on every event that lacks their fields. *)
Theorem missing_number_satisfies conds ctx :
  (∀ c, c ∈ conds → js_upper (operator c) ∈ ["GT"; "LT"] ∧ field (cond_field c) ctx = None) →
  evaluateConditions conds ctx = true.
Proof.
  intros Hc. unfold evaluateConditions, every. rewrite forallb_forall. intros c Hin.
  apply list_elem_of_In in Hin. destruct (Hc c Hin) as [Hop Hf].
  unfold condition_holds. rewrite Hf. cbn [js_Number].
  apply elem_of_cons in Hop as [->|Hop]; [done|].
  apply list_elem_of_singleton in Hop as ->.
  cbn. by destruct (string_to_number (cond_value c)) as [|[]|].
Qed.

Section engine.
Context `{Env, WorkflowDeps}.
Implicit Types (w : WfW) (e : WorkflowExecution).

(** *** What actions may change *)
#[local] Hint Resolve service_grows : keeps.

Lemma saveApproval_grows a T : keeps (db_rel wf_grows) (saveApproval a T).
Proof.
  intros w. unfold saveApproval, wf_write, final, db_rel, save_approval.
  rewrite (bind_ok new_Date _ _ (env_clock (ticks w)) (w <| ticks ::= S |>) eq_refl).
  rewrite gets_bind. cbn [db].
  destruct (find_approval _ _ _); [by split|]. by destruct (_ !! _).
Qed.

Lemma logAudit_grows T i x a d : keeps (db_rel wf_grows) (logAudit T i x a d).
Proof. intros w. by split. Qed.

Lemma publish_job_db n d : keeps (same db) (publish_job n d).
Proof.
  apply keeps_try_catch; [apply _|apply addJob_db|]. intros. apply keeps_ret; apply _.
Qed.
Lemma publish_job_grows n d : keeps (db_rel wf_grows) (publish_job n d).
Proof. apply keeps_db_rel; [apply _|apply publish_job_db]. Qed.
Lemma new_Date_grows : keeps (db_rel wf_grows) (new_Date : M WfW Z).
Proof. apply keeps_db_rel; [apply _|apply new_Date_db]. Qed.
Lemma randomUUID_grows : keeps (db_rel wf_grows) (randomUUID : M WfW string).
Proof. apply keeps_db_rel; [apply _|apply randomUUID_db]. Qed.
#[local] Hint Resolve saveApproval_grows logAudit_grows publish_job_grows new_Date_grows
  randomUUID_grows : keeps.

Lemma createApproval_grows T x ap h : keeps (db_rel wf_grows) (createApproval T x ap h).
Proof. unfold createApproval. solve_keeps. Qed.
#[local] Hint Resolve createApproval_grows : keeps.

Lemma executeAction_grows T a ctx x : keeps (db_rel wf_grows) (executeAction T a ctx x).
Proof. unfold executeAction, text_of, text_opt. solve_keeps. Qed.
#[local] Hint Resolve executeAction_grows : keeps.

Lemma attempt_with_grows run audit n delays :
  keeps (db_rel wf_grows) run → (∀ i z x, keeps (db_rel wf_grows) (audit i z x)) →
  keeps (db_rel wf_grows) (attempt_with run audit n delays).
Proof.
  intros Hr Ha. revert n. induction delays as [|z delays IH]; intros n; cbn [attempt_with];
    (apply keeps_try_catch; [apply _|exact Hr|]); intros x.
  - apply keeps_throw; apply _.
  - apply keeps_bind; [apply _|apply Ha|]. intros. apply IH.
Qed.

Lemma executeActionWithRetry_grows T a ctx x i :
  keeps (db_rel wf_grows) (executeActionWithRetry T a ctx x i).
Proof.
  unfold executeActionWithRetry. case_bool_decide; [|apply executeAction_grows].
  apply attempt_with_grows; [apply executeAction_grows|]. intros. apply logAudit_grows.
Qed.

(** *** Which actions pause *)
Lemma executeAction_pauses T a ctx x :
  returns (executeAction T a ctx x) (λ r, is_paused r = bool_decide (actionType a = APPROVAL)).
Proof.
  unfold executeAction. destruct (actionType a) eqn:E;
    repeat first
      [ apply returns_bind; intros ?
      | apply returns_throw
      | match goal with |- returns (match ?x with _ => _ end) _ => destruct x end
      | intros s r s' [= <- <-]; reflexivity ].
  all: intros s r s' [= <- <-]; by destruct (field "tag" (configuration a)).
Qed.

Lemma attempt_with_returns run audit n delays P :
  returns run P → returns (attempt_with run audit n delays) P.
Proof.
  intros Hr. revert n. induction delays as [|z delays IH]; intros n; cbn [attempt_with];
    (apply returns_catch; [exact Hr|]); intros x; [apply returns_throw|].
  apply returns_bind. intros. apply IH.
Qed.

Lemma executeActionWithRetry_pauses T a ctx x i :
  returns (executeActionWithRetry T a ctx x i)
    (λ r, is_paused r = bool_decide (actionType a = APPROVAL)).
Proof.
  unfold executeActionWithRetry. case_bool_decide.
  - apply attempt_with_returns, executeAction_pauses.
  - apply executeAction_pauses.
Qed.

(** *** The row of an execution *)

(** The execution is stored for the tenant, of this template and with this
    context, in the given status. *)
Definition stored_as (eid T wid : string) (ctx : js_object) (st : WorkflowStatusEnum)
    (d : WfDb) : Prop :=
  ∃ e, find_execution eid T d = Some e ∧ WorkflowExecution.id e = eid
    ∧ WorkflowExecution.workflowId e = wid ∧ WorkflowExecution.context e = ctx
    ∧ WorkflowExecution.executionStatus e = st.

Lemma stored_grows eid T wid ctx st d d' :
  wf_grows d d' → stored_as eid T wid ctx st d → stored_as eid T wid ctx st d'.
Proof.
  intros [_ Hsub] (e & Hf & Hr). exists e. split; [|done]. unfold find_execution in *.
  apply bind_Some in Hf as (e0 & Hl & Ho). rewrite (lookup_weaken _ _ _ _ Hl Hsub). exact Ho.
Qed.

Lemma wf_write_ok f d' w :
  f (env_clock (ticks w)) (db w) = Ok d' →
  wf_write f w = (Ok tt, w <| ticks ::= S |> <| db := d' |>).
Proof.
  intros Hf. unfold wf_write.
  etransitivity; [apply (bind_ok new_Date); reflexivity|].
  rewrite gets_bind. cbn. unfold mbind, M_bind, of_result. by rewrite Hf.
Qed.

Lemma exec_runs {A} (m : M A unit) t t' w : m t = (Ok tt, t') → exec m t w = (Ok t', w).
Proof. intros Hm. unfold exec. by rewrite Hm. Qed.

Lemma getExecution_ok eid T e w :
  find_execution eid T (db w) = Some e → getExecution T eid w = (Ok e, w).
Proof. intros Hf. unfold getExecution. by rewrite gets_bind, Hf. Qed.

(** A method of the execution that sets the status and leaves its identity. *)
Definition sets_status (st : WorkflowStatusEnum) (f : Z → M WorkflowExecution unit) : Prop :=
  ∀ now e, ∃ e', f now e = (Ok tt, e') ∧ WorkflowExecution.id e' = WorkflowExecution.id e
    ∧ WorkflowExecution.tenantId e' = WorkflowExecution.tenantId e
    ∧ WorkflowExecution.workflowId e' = WorkflowExecution.workflowId e
    ∧ WorkflowExecution.context e' = WorkflowExecution.context e
    ∧ WorkflowExecution.executionStatus e' = st.

Lemma start_sets : sets_status ACTIVE WorkflowExecution.start.
Proof. intros now e. eexists. split; [reflexivity|]. by destruct e. Qed.
Lemma complete_sets r : sets_status COMPLETED (λ now, WorkflowExecution.complete now r).
Proof. intros now e. eexists. split; [reflexivity|]. by destruct e. Qed.
Lemma fail_sets x : sets_status FAILED (λ now, WorkflowExecution.fail now x).
Proof. intros now e. eexists. split; [reflexivity|]. by destruct e. Qed.
Lemma pause_sets : sets_status PAUSED WorkflowExecution.pause.
Proof. intros now e. eexists. split; [reflexivity|]. by destruct e. Qed.

(** [m] returns, with the execution in status [st] and the templates as they
    were. *)
Definition moves_to {A} (eid T wid : string) (ctx : js_object) (st : WorkflowStatusEnum)
    (m : M WfW A) (w : WfW) : Prop :=
  ∃ a w', m w = (Ok a, w') ∧ stored_as eid T wid ctx st (db w')
    ∧ wf_templates (db w') = wf_templates (db w).

Lemma change_moves eid T wid ctx st st' f w :
  sets_status st' f → stored_as eid T wid ctx st (db w) →
  moves_to eid T wid ctx st' (change_execution T eid f) w.
Proof.
  intros Hf (e & Hfind & <- & <- & <- & _). unfold moves_to, change_execution.
  destruct (Hf (env_clock (ticks w)) e) as (e' & He & Hid & HT & Hw & Hc & Hst).
  set (w1 := w <| ticks ::= S |>). set (w2 := w1 <| ticks ::= S |>).
  assert (find_execution (WorkflowExecution.id e) T (db w2) = Some e) as Hfind2 by exact Hfind.
  assert (∃ d', save_execution (env_clock (ticks w1)) e' T (db w2) = Ok d'
    ∧ stored_as (WorkflowExecution.id e) T (WorkflowExecution.workflowId e)
        (WorkflowExecution.context e) st' d'
    ∧ wf_templates d' = wf_templates (db w)) as (d' & Hs & Hstored & Ht).
  { unfold save_execution. rewrite Hid, Hfind2. eexists. split; [reflexivity|].
    split; [|done]. eexists. split.
    - unfold find_execution. cbn. rewrite lookup_insert_eq. cbn. unfold owned_execution. cbn.
      apply bind_Some in Hfind as (e0 & _ & Ho). rewrite HT.
      destruct (owned_execution T e0) eqn:Eo; [injection Ho as ->|done].
      unfold owned_execution in Eo. by rewrite Eo.
    - cbn. by rewrite Hid, Hw, Hc, Hst. }
  exists e', (w2 <| db := d' |>). split; [|by split].
  etransitivity; [apply bind_ok, getExecution_ok, Hfind|]. cbv beta.
  etransitivity; [apply (bind_ok new_Date); reflexivity|]. cbv beta.
  etransitivity; [apply bind_ok, exec_runs, He|]. cbv beta.
  etransitivity; [apply bind_ok, wf_write_ok, Hs|]. reflexivity.
Qed.

(** Steps after a move that only touch the platform or the audit log. *)
Lemma moves_bind {A B} eid T wid ctx st (m : M WfW A) (k : A → M WfW B) w :
  moves_to eid T wid ctx st m w →
  (∀ a w1, stored_as eid T wid ctx st (db w1) → moves_to eid T wid ctx st (k a) w1) →
  moves_to eid T wid ctx st (m ≫= k) w.
Proof.
  intros (a & w1 & E & Hs & Ht) Hk. destruct (Hk a w1 Hs) as (b & w2 & E2 & Hs2 & Ht2).
  exists b, w2. rewrite (bind_ok _ _ _ _ _ E). split_and!; [done..|congruence].
Qed.

Lemma moves_quiet {A} eid T wid ctx st (m : M WfW A) w :
  (∃ a w', m w = (Ok a, w')) → keeps (db_rel wf_grows) m →
  stored_as eid T wid ctx st (db w) → moves_to eid T wid ctx st m w.
Proof.
  intros (a & w' & E) Hk Hs. exists a, w'. specialize (Hk w). unfold final in Hk.
  rewrite E in Hk. split_and!; [done| |apply Hk]. by eapply stored_grows.
Qed.

Lemma publish_job_ok n d w : ∃ a w', publish_job n d w = (Ok a, w').
Proof.
  unfold publish_job, try_catch. destruct (addJob _ _ _ _ w) as [[[]|x] w']; by eexists _, _.
Qed.

Lemma emit_grows T e : keeps (db_rel wf_grows) (emitWorkflowExecutionUpdate T e).
Proof. intros w. by split. Qed.

Ltac moves_quiet :=
  first [ apply moves_quiet; [ | eauto with keeps typeclass_instances | done ]
        | apply moves_quiet; [ | apply emit_grows | done ]
        | apply moves_quiet; [ | apply keeps_ret; apply _ | done ]].

Ltac solve_moves :=
  repeat (apply moves_bind; [moves_quiet; first [apply publish_job_ok | by eexists _, _]
                            | intros ? ? ?]);
  moves_quiet; first [apply publish_job_ok | by eexists _, _].

Lemma startExecution_moves eid T wid ctx st w :
  stored_as eid T wid ctx st (db w) → moves_to eid T wid ctx ACTIVE (startExecution T eid) w.
Proof.
  intros Hs. unfold startExecution.
  apply moves_bind; [by eapply change_moves, Hs; apply start_sets|].
  intros e w1 Hs1. solve_moves.
Qed.
Lemma completeExecution_moves eid T wid ctx st r w :
  stored_as eid T wid ctx st (db w) →
  moves_to eid T wid ctx COMPLETED (completeExecution T eid r) w.
Proof.
  intros Hs. unfold completeExecution.
  apply moves_bind; [by eapply change_moves, Hs; apply complete_sets|].
  intros e w1 Hs1. solve_moves.
Qed.
Lemma failExecution_moves eid T wid ctx st x w :
  stored_as eid T wid ctx st (db w) → moves_to eid T wid ctx FAILED (failExecution T eid x) w.
Proof.
  intros Hs. unfold failExecution.
  apply moves_bind; [by eapply change_moves, Hs; apply fail_sets|].
  intros e w1 Hs1. solve_moves.
Qed.
Lemma pauseExecution_moves eid T wid ctx st w :
  stored_as eid T wid ctx st (db w) → moves_to eid T wid ctx PAUSED (pauseExecution T eid) w.
Proof.
  intros Hs. unfold pauseExecution.
  apply moves_bind; [by eapply change_moves, Hs; apply pause_sets|].
  intros e w1 Hs1. solve_moves.
Qed.

(** *** How a run ends *)
Definition has_approval (l : list WorkflowAction) : bool :=
  some (λ a, bool_decide (actionType a = APPROVAL)) l.

(** The status after a run of [l] in which no action threw. *)
Definition ended (l : list WorkflowAction) : WorkflowStatusEnum :=
  if has_approval l then PAUSED else COMPLETED.

Lemma run_actions_ends eid T wid ctx l tid results w :
  stored_as eid T wid ctx ACTIVE (db w) →
  let '(r, w') := run_actions T l eid ctx tid results w in
  stored_as eid T wid ctx (if is_ok r then ended l else ACTIVE) (db w')
  ∧ wf_templates (db w') = wf_templates (db w).
Proof.
  revert results w. induction l as [|a l IH]; intros results w Hs; cbn [run_actions].
  - edestruct (completeExecution_moves eid T wid ctx ACTIVE results w Hs)
      as (e & w1 & E & Hs1 & Ht1).
    by rewrite (bind_ok _ _ _ _ _ E).
  - pose proof (executeActionWithRetry_grows T a ctx eid tid w) as Hg.
    pose proof (executeActionWithRetry_pauses T a ctx eid tid w) as Hp.
    unfold mbind at 1, M_bind at 1. unfold final in Hg.
    destruct (executeActionWithRetry T a ctx eid tid w) as [[r|x] w1]; cbn [snd] in Hg.
    2: { split; [by eapply stored_grows|apply Hg]. }
    assert (stored_as eid T wid ctx ACTIVE (db w1)) as Hs1 by by eapply stored_grows.
    rewrite (Hp r w1 eq_refl). unfold ended, has_approval, some. cbn [existsb].
    case_bool_decide as Ha; cbn [orb].
    + destruct (pauseExecution_moves eid T wid ctx ACTIVE w1 Hs1) as (e & w2 & E & Hs2 & Ht2).
      rewrite (bind_ok _ _ _ _ _ E). split; [done|]. cbn. rewrite Ht2. apply Hg.
    + specialize (IH (set_key (result_key a) r results) w1 Hs1).
      destruct (run_actions T l eid ctx tid _ w1) as [r' w2]. destruct IH as [IH1 IH2].
      split; [exact IH1|]. rewrite IH2. apply Hg.
Qed.

Lemma alert_ok T x i r w :
  ∃ w', alertExecutionFailure T x i r w = (Ok tt, w') ∧ db w' = db w.
Proof.
  unfold alertExecutionFailure, try_catch.
  match goal with |- context [addJob ?q ?n ?d ?o w] =>
    pose proof (addJob_db q n d o w) as Hadd; unfold final in Hadd;
    destruct (addJob q n d o w) as [[[]|e] w']
  end; by exists w'.
Qed.

(** The execution failed, or it reached the end of [l]. *)
Definition settled (eid T wid : string) (ctx : js_object) (l : list WorkflowAction)
    (d : WfDb) : Prop :=
  stored_as eid T wid ctx FAILED d ∨ stored_as eid T wid ctx (ended l) d.

Lemma background_run_ends eid T wid ctx l tid prefix w :
  stored_as eid T wid ctx ACTIVE (db w) →
  ∃ w', background_run T l eid ctx tid prefix w = (Ok tt, w')
    ∧ settled eid T wid ctx l (db w') ∧ wf_templates (db w') = wf_templates (db w).
Proof.
  intros Hs. unfold background_run, executeActionsList, try_catch.
  pose proof (run_actions_ends eid T wid ctx l tid [] w Hs) as Hr.
  destruct (run_actions T l eid ctx tid [] w) as [[[]|x] w1]; destruct Hr as [Hs1 Ht1].
  { exists w1. split_and!; [done|by right|done]. }
  destruct (failExecution_moves eid T wid ctx ACTIVE [("message", JStr (exn_message x))] w1 Hs1)
    as (e & w2 & E2 & Hs2 & Ht2).
  rewrite (bind_ok _ _ _ _ _ E2).
  set (w3 := final (logAudit T tid eid "EXECUTION_FAILED" (prefix +:+ exn_message x)) w2).
  assert (logAudit T tid eid "EXECUTION_FAILED" (prefix +:+ exn_message x) w2 = (Ok tt, w3))
    as E3 by reflexivity.
  pose proof (logAudit_grows T tid eid "EXECUTION_FAILED" (prefix +:+ exn_message x) w2) as Hg.
  fold w3 in Hg. rewrite (bind_ok _ _ _ _ _ E3).
  destruct (alert_ok T eid tid (exn_message x) w3) as (w4 & -> & Hdb).
  exists w4. rewrite Hdb. split_and!; [done|left; by eapply stored_grows|].
  destruct Hg as [-> _]. congruence.
Qed.


Lemma getTemplate_ok T tid tpl w :
  getTemplateById tid T (db w) = Some tpl → getTemplate T tid w = (Ok tpl, w).
Proof. intros E. unfold getTemplate. by rewrite gets_bind, E. Qed.

(** One decision on an execution, and what it leaves. *)
Definition decided (eid T wid : string) (ctx : js_object) (tpl : WorkflowTemplate)
    (approved : bool) (d : WfDb) : Prop :=
  if approved then settled eid T wid ctx (remaining_actions (actions tpl)) d
  else stored_as eid T wid ctx FAILED d.

Lemma resume_paused eid T wid ctx tpl approved approver comments w :
  stored_as eid T wid ctx PAUSED (db w) → getTemplateById wid T (db w) = Some tpl →
  ∃ w', resumeExecution T eid approved approver comments w = (Ok tt, w')
    ∧ decided eid T wid ctx tpl approved (db w')
    ∧ wf_templates (db w') = wf_templates (db w).
Proof.
  intros Hs Ht. pose proof Hs as (e & Hf & Hid & Hw & Hc & Hst). unfold resumeExecution.
  rewrite (bind_ok _ _ _ _ _ (getExecution_ok _ _ _ _ Hf)), Hw, Hst, Hc.
  rewrite (bind_ok _ _ _ _ _ (getTemplate_ok _ _ _ _ Ht)). cbn [negb bool_decide decide_rel].
  destruct (bool_decide_reflect (PAUSED = PAUSED)) as [_|]; [cbn [negb]|done].
  destruct approved; cbn [negb decided].
  - destruct (startExecution_moves eid T wid ctx PAUSED w Hs) as (e1 & w1 & E1 & Hs1 & Ht1).
    rewrite (bind_ok _ _ _ _ _ E1).
    match goal with |- context [logAudit T ?i ?x ?a ?d] =>
      pose proof (logAudit_grows T i x a d w1) as Hg;
      assert (logAudit T i x a d w1 = (Ok tt, final (logAudit T i x a d) w1)) as E2 by done
    end.
    rewrite (bind_ok _ _ _ _ _ E2).
    edestruct (background_run_ends eid T wid ctx (remaining_actions (actions tpl))
      (template_id tpl) "Resumed workflow execution failed: ") as (w3 & E3 & Hs3 & Ht3).
    { by eapply stored_grows, Hs1. }
    exists w3. split_and!; [exact E3|exact Hs3|]. rewrite Ht3. destruct Hg as [-> _]. done.
  - destruct (failExecution_moves eid T wid ctx PAUSED
      ([("message", JStr "Approval rejected by approver"); ("approverId", JStr approver)]
       ++ opt_field "comments" comments) w Hs) as (e1 & w1 & E1 & Hs1 & Ht1).
    rewrite (bind_ok _ _ _ _ _ E1). eexists. split_and!; [reflexivity| |exact Ht1].
    eapply stored_grows; [|exact Hs1]. by split.
Qed.

Lemma resume_not_paused eid T wid ctx st tpl approved approver comments w :
  stored_as eid T wid ctx st (db w) → getTemplateById wid T (db w) = Some tpl → st ≠ PAUSED →
  resumeExecution T eid approved approver comments w
  = (Throw (Exn JsError ("Workflow execution " +:+ eid +:+ " is not in PAUSED state")), w).
Proof.
  intros (e & Hf & _ & Hw & _ & <-) Ht Hst. unfold resumeExecution.
  rewrite (bind_ok _ _ _ _ _ (getExecution_ok _ _ _ _ Hf)), Hw.
  rewrite (bind_ok _ _ _ _ _ (getTemplate_ok _ _ _ _ Ht)).
  by rewrite bool_decide_eq_false_2.
Qed.

(** C34: What a decision does to an execution, on every branch.  Unless the
    execution is [PAUSED] the call throws and changes nothing; a rejection fails
    it; an approval runs the steps after the first approval step of the
    template, and the execution ends [FAILED], or [PAUSED] if those steps hold
    another approval, or [COMPLETED].  The identity, the template and the
    context of the execution stay. *)
Theorem resume_spec eid T wid ctx st tpl approved approver comments w :
  stored_as eid T wid ctx st (db w) → getTemplateById wid T (db w) = Some tpl →
  if bool_decide (st = PAUSED)
  then ∃ w', resumeExecution T eid approved approver comments w = (Ok tt, w')
         ∧ decided eid T wid ctx tpl approved (db w')
  else resumeExecution T eid approved approver comments w
       = (Throw (Exn JsError ("Workflow execution " +:+ eid +:+ " is not in PAUSED state")), w).
Proof.
  intros Hs Ht. case_bool_decide as Hst.
  - subst st. edestruct resume_paused as (w' & E & Hd & _); [exact Hs|exact Ht|]. by exists w'.
  - by eapply resume_not_paused.
Qed.

(** *** Templates with two approval steps *)
Definition approval_steps (l : list WorkflowAction) : nat :=
  length (js_filter (λ a, bool_decide (actionType a = APPROVAL)) l).

Lemma remaining_has_approval l :
  (2 ≤ approval_steps l)%nat → has_approval (remaining_actions l) = true.
Proof.
  assert (∀ l, (1 ≤ approval_steps l)%nat → has_approval l = true) as H1.
  { clear. intros l. unfold approval_steps, has_approval, some, js_filter.
    induction l as [|a l IH]; cbn; [lia|]. by case_bool_decide. }
  unfold remaining_actions. induction l as [|a l IH]; [cbn; lia|].
  unfold approval_steps, js_filter. cbn. case_bool_decide; cbn.
  - intros Hl. apply H1. unfold approval_steps, js_filter. lia.
  - intros Hl. destruct (after_approval l) eqn:E; [by apply IH|].
    exfalso. clear IH H1. revert Hl E. induction l as [|b l IH]; cbn; [lia|].
    by case_bool_decide.
Qed.

(** The decisions made on one execution, one after the other. *)
Record Decision := { d_approved : bool; d_approver : string; d_comments : option string }.
Definition decide_all (T eid : string) (ds : list Decision) (w : WfW) : WfW :=
  foldl (λ w d, final (resumeExecution T eid (d_approved d) (d_approver d) (d_comments d)) w)
        w ds.

(** A workflow with two approval steps never completes.  Whatever the
    approvers decide, in whatever order and however often, its execution stays
    [PAUSED] or becomes [FAILED]: every approval resumes after the first
    approval step, and reaches the second one again. *)
Theorem second_approval_never_completes eid T wid ctx tpl ds w :
  stored_as eid T wid ctx PAUSED (db w) → getTemplateById wid T (db w) = Some tpl →
  (2 ≤ approval_steps (actions tpl))%nat →
  let w' := decide_all T eid ds w in
  stored_as eid T wid ctx PAUSED (db w') ∨ stored_as eid T wid ctx FAILED (db w').
Proof.
  intros Hs Ht Ha. cbv zeta.
  assert (stored_as eid T wid ctx PAUSED (db w) ∨ stored_as eid T wid ctx FAILED (db w)) as Hinv
    by by left.
  clear Hs. revert w Ht Hinv. induction ds as [|d ds IH]; intros w Ht Hinv; [exact Hinv|].
  cbn. apply IH; destruct Hinv as [Hs|Hs].
  - destruct (resume_paused eid T wid ctx tpl (d_approved d) (d_approver d) (d_comments d) w Hs Ht)
      as (w1 & E & _ & Ht1).
    unfold final. rewrite E. unfold getTemplateById in *. cbn. by rewrite Ht1.
  - unfold final. erewrite resume_not_paused by done. exact Ht.
  - destruct (resume_paused eid T wid ctx tpl (d_approved d) (d_approver d) (d_comments d) w Hs Ht)
      as (w1 & E & Hd & _).
    unfold final. rewrite E. cbn. revert Hd. unfold decided, settled, ended.
    rewrite (remaining_has_approval _ Ha). destruct (d_approved d); tauto.
  - unfold final. erewrite resume_not_paused by done. by right.
Qed.

(** *** Retries *)
Section retries.
Variables (run : M WfW json) (audit : nat → Z → exn → M WfW unit).

(** [failed_first k w w']: the first [k] attempts fail, each is logged with its
    number and its delay, and the next attempt starts in [w']. *)
Inductive failed_first : nat → WfW → WfW → Prop :=
  | failed_none w : failed_first 0 w w
  | failed_next k w w1 x w2 z :
      failed_first k w w1 → run w1 = (Throw x, w2) →
      ACTION_RETRY_BACKOFF_MS !! k = Some z →
      failed_first (S k) w (final (audit k z x) w2).

Hypothesis audit_ok : ∀ k z x w, (audit k z x w).1 = Ok tt.

Lemma attempts_from pre delays w0 w :
  ACTION_RETRY_BACKOFF_MS = pre ++ delays → failed_first (length pre) w0 w →
  ∃ k w1, (k ≤ 3)%nat ∧ failed_first k w0 w1
    ∧ attempt_with run audit (length pre) delays w = run w1
    ∧ ((k < 3)%nat → is_ok (run w1).1 = true).
Proof.
  revert pre w. induction delays as [|z delays IH]; intros pre w Hd Hf; cbn [attempt_with];
    unfold try_catch.
  - exists (length pre), w. rewrite app_nil_r in Hd. rewrite <- Hd.
    split_and!; [done|by rewrite <- Hd in Hf| |cbn; lia]. by destruct (run w) as [[]].
  - destruct (run w) as [[r|x] w2] eqn:E.
    + exists (length pre), w. rewrite E. split_and!; [|done..].
      apply (f_equal length) in Hd. rewrite length_app in Hd. cbn in Hd. lia.
    + unfold mbind, M_bind. specialize (audit_ok (length pre) z x w2) as Ha.
      destruct (audit (length pre) z x w2) as [r w3] eqn:Ea. cbn in Ha. subst r.
      assert (w3 = final (audit (length pre) z x) w2) as -> by (unfold final; by rewrite Ea).
      destruct (IH (pre ++ [z]) (final (audit (length pre) z x) w2)) as (k & w1 & Hk & Hf1 & Hr & Hok).
      * by rewrite <- app_assoc.
      * rewrite length_app, Nat.add_1_r. eapply failed_next; [exact Hf|exact E|].
        rewrite Hd. by rewrite lookup_app_r, Nat.sub_diag.
      * exists k, w1. split_and!; [done..| |done].
        rewrite length_app, Nat.add_1_r in Hr. exact Hr.
Qed.
End retries.

(** The retries of an action.  An action whose type can be repeated is
    attempted again after each of its first three failures, each failure being
    logged, and the answer is that of the first attempt that succeeds or of the
    fourth; an action of any other type is attempted once, whatever happens. *)
Theorem retry_spec T action ctx eid tid w :
  let run := executeAction T action ctx eid in
  let answer := executeActionWithRetry T action ctx eid tid w in
  if bool_decide (actionType action ∈ RETRYABLE_ACTION_TYPES)
  then ∃ k w1, (k ≤ 3)%nat ∧ failed_first run (retry_audit T tid eid action) k w w1
         ∧ answer = run w1 ∧ ((k < 3)%nat → is_ok (run w1).1 = true)
  else answer = run w.
Proof.
  cbv zeta. unfold executeActionWithRetry. case_bool_decide; [|done].
  apply (attempts_from _ (retry_audit T tid eid action) ltac:(intros; reflexivity) []
    ACTION_RETRY_BACKOFF_MS); [done|constructor].
Qed.

(** *** The sweep of expired approvals *)

(** How a rejection changes rows: an approval keeps its identity, an execution
    too; an approval can become [REJECTED], an execution [FAILED]. *)
Definition approval_evolves (a a' : WorkflowApproval) : Prop :=
  WorkflowApproval.id a' = WorkflowApproval.id a
  ∧ WorkflowApproval.tenantId a' = WorkflowApproval.tenantId a
  ∧ WorkflowApproval.workflowExecutionId a' = WorkflowApproval.workflowExecutionId a
  ∧ WorkflowApproval.expiresAt a' = WorkflowApproval.expiresAt a
  ∧ (WorkflowApproval.approvalStatus a' = WorkflowApproval.approvalStatus a
     ∨ WorkflowApproval.approvalStatus a' = ApprovalStatusEnum.REJECTED).
Definition execution_evolves e e' : Prop :=
  WorkflowExecution.id e' = WorkflowExecution.id e
  ∧ WorkflowExecution.tenantId e' = WorkflowExecution.tenantId e
  ∧ WorkflowExecution.workflowId e' = WorkflowExecution.workflowId e
  ∧ (WorkflowExecution.executionStatus e' = WorkflowExecution.executionStatus e
     ∨ WorkflowExecution.executionStatus e' = FAILED).

Definition rejects (d d' : WfDb) : Prop :=
  wf_templates d' = wf_templates d
  ∧ (∀ k, option_Forall2 approval_evolves (wf_approvals d !! k) (wf_approvals d' !! k))
  ∧ (∀ k, option_Forall2 execution_evolves (wf_executions d !! k) (wf_executions d' !! k)).

#[export] Instance approval_evolves_preorder : PreOrder approval_evolves.
Proof.
  split; unfold approval_evolves.
  - intros a. split_and!; auto.
  - intros a b c (?&?&?&?&Hs) (?&?&?&?&Hs'). split_and!; try congruence.
    destruct Hs' as [->|]; auto.
Qed.
#[export] Instance execution_evolves_preorder : PreOrder execution_evolves.
Proof.
  split; unfold execution_evolves.
  - intros a. split_and!; auto.
  - intros a b c (?&?&?&Hs) (?&?&?&Hs'). split_and!; try congruence.
    destruct Hs' as [->|]; auto.
Qed.
#[export] Instance rejects_preorder : PreOrder rejects.
Proof.
  split; unfold rejects.
  - intros d. split_and!; [done|intros k; reflexivity..].
  - intros a b c (?&Ha&He) (?&Ha'&He'). split_and!; [congruence|..]; intros k;
      etransitivity; eauto.
Qed.

(** Rows are stored under their own id. *)
Definition keyed (d : WfDb) : Prop :=
  (∀ k a, wf_approvals d !! k = Some a → WorkflowApproval.id a = k)
  ∧ (∀ k e, wf_executions d !! k = Some e → WorkflowExecution.id e = k).

Lemma keyed_rejects d d' : rejects d d' → keyed d → keyed d'.
Proof.
  intros (_ & Ha & He) [Ka Ke]. split.
  - intros k a' Hl. specialize (Ha k). rewrite Hl in Ha. inversion Ha as [a b Hab Hk|]; subst.
    destruct Hab as [-> _]. by apply Ka.
  - intros k e' Hl. specialize (He k). rewrite Hl in He. inversion He as [e b Heb Hk|]; subst.
    destruct Heb as [-> _]. by apply Ke.
Qed.

Lemma find_execution_some eid T d e :
  find_execution eid T d = Some e ↔
  wf_executions d !! eid = Some e ∧ WorkflowExecution.tenantId e = T.
Proof.
  unfold find_execution, owned_execution. rewrite bind_Some. split.
  - intros (e0 & Hl & Ho). destruct (String.eqb_spec (WorkflowExecution.tenantId e0) T);
      [|done]. injection Ho as ->. done.
  - intros [Hl <-]. exists e. by rewrite String.eqb_refl.
Qed.

(** Saving a failed execution over its stored row. *)
Lemma save_failed_rejects now e e' T d d' :
  find_execution (WorkflowExecution.id e) T d = Some e →
  execution_evolves e e' → save_execution now e' T d = Ok d' → rejects d d'.
Proof.
  intros Hf (Hid & HT & Hw & Hst) Hs. unfold save_execution in Hs. rewrite Hid, Hf in Hs.
  injection Hs as <-. apply find_execution_some in Hf as [Hl _]. split_and!; [done|..]; intros k.
  - cbn. rewrite lookup_fmap. destruct (wf_approvals d !! k) as [a|]; constructor.
    destruct (_ && _); [|reflexivity]. unfold approval_evolves. cbn. split_and!; auto.
  - cbn. destruct (decide (k = WorkflowExecution.id e)) as [->|Hk].
    + rewrite lookup_insert_eq, Hl. constructor. unfold execution_evolves. cbn.
      rewrite Hid, HT, Hw. split_and!; auto.
    + rewrite lookup_insert_ne by done. reflexivity.
Qed.

Lemma failExecution_rejects T eid x w :
  keyed (db w) → rejects (db w) (db (final (failExecution T eid x) w)).
Proof.
  intros Hk. unfold failExecution, change_execution, final.
  destruct (find_execution eid T (db w)) as [e|] eqn:Hf.
  2: { unfold getExecution. unfold mbind, M_bind, gets. rewrite Hf. reflexivity. }
  assert (WorkflowExecution.id e = eid) as He
    by (apply find_execution_some in Hf as [Hl _]; by apply Hk).
  set (w1 := w <| ticks ::= S |>). set (w2 := w1 <| ticks ::= S |>).
  destruct (fail_sets x (env_clock (ticks w)) e) as (e' & He' & Hid & HT & Hw & Hc & Hst).
  destruct (save_execution (env_clock (ticks w1)) e' T (db w)) as [d'|x'] eqn:Hs.
  2: { unfold save_execution in Hs. by rewrite Hid, He, Hf in Hs. }
  assert (change_execution T eid (λ now, WorkflowExecution.fail now x) w
    = (Ok e', w2 <| db := d' |>)) as E.
  { unfold change_execution.
    etransitivity; [apply bind_ok, getExecution_ok, Hf|]. cbv beta.
    etransitivity; [apply (bind_ok new_Date); reflexivity|]. cbv beta.
    etransitivity; [apply bind_ok, exec_runs, He'|]. cbv beta.
    etransitivity; [apply bind_ok, wf_write_ok, Hs|]. reflexivity. }
  unfold change_execution in E. rewrite (bind_ok _ _ _ _ _ E). cbn.
  eapply (save_failed_rejects _ e e'); [by rewrite He|by split_and!; auto|exact Hs].
Qed.

(** A rejection through [resumeAsRejected] never throws, only rejects, and
    leaves no execution of a stored template waiting. *)
Lemma resumeAsRejected_spec T eid c w :
  keyed (db w) →
  ∃ w', resumeAsRejected T eid c w = (Ok tt, w') ∧ rejects (db w) (db w')
    ∧ ∀ e, find_execution eid T (db w') = Some e →
        getTemplateById (WorkflowExecution.workflowId e) T (db w) ≠ None →
        WorkflowExecution.executionStatus e ≠ PAUSED.
Proof.
  intros Hk. unfold resumeAsRejected, try_catch, resumeExecution.
  destruct (find_execution eid T (db w)) as [e|] eqn:Hf.
  2: { unfold getExecution. unfold mbind, M_bind, gets. rewrite Hf. cbn.
       exists w. split_and!; [done|reflexivity|]. intros e. congruence. }
  rewrite (bind_ok _ _ _ _ _ (getExecution_ok _ _ _ _ Hf)).
  destruct (getTemplateById (WorkflowExecution.workflowId e) T (db w)) as [tpl|] eqn:Ht.
  2: { unfold getTemplate. unfold mbind, M_bind, gets. rewrite Ht. cbn.
       exists w. split_and!; [done|reflexivity|]. intros e0 He0 Hn.
       assert (e0 = e) as -> by congruence. done. }
  rewrite (bind_ok _ _ _ _ _ (getTemplate_ok _ _ _ _ Ht)).
  case_bool_decide as Hst; cbn [negb].
  2: { exists w. split_and!; [done|reflexivity|]. intros e0 He0 _.
       assert (e0 = e) as -> by congruence. done. }
  match goal with |- context [failExecution T eid ?x] => set (err := x) end.
  pose proof (failExecution_rejects T eid err w Hk) as Hr.
  edestruct (failExecution_moves eid T (WorkflowExecution.workflowId e)
    (WorkflowExecution.context e) PAUSED err w) as (e1 & w1 & E & Hs & Ht1).
  { exists e. split_and!; try done. apply find_execution_some in Hf as [Hl _]. by apply Hk. }
  unfold final in Hr. rewrite E in Hr. rewrite (bind_ok _ _ _ _ _ E). cbn.
  eexists. split_and!; [reflexivity|exact Hr|].
  intros e0 He0 _. destruct Hs as (e2 & Hf2 & _ & _ & _ & Hst2).
  assert (e0 = e2) as -> by (cbn in *; unfold find_execution in *; cbn in *; congruence).
  by rewrite Hst2.
Qed.

(** The approval is rejected and its execution does not wait for it. *)
Definition row_rejected (aid : string) (d : WfDb) : Prop :=
  ∃ a', wf_approvals d !! aid = Some a'
    ∧ WorkflowApproval.approvalStatus a' = ApprovalStatusEnum.REJECTED.
Definition unblocked (a : WorkflowApproval) (d : WfDb) : Prop :=
  row_rejected (WorkflowApproval.id a) d
  ∧ ∀ e, find_execution (WorkflowApproval.workflowExecutionId a)
           (WorkflowApproval.tenantId a) d = Some e →
         getTemplateById (WorkflowExecution.workflowId e) (WorkflowApproval.tenantId a) d ≠ None →
         WorkflowExecution.executionStatus e ≠ PAUSED.

Lemma row_rejected_stays aid d d' : rejects d d' → row_rejected aid d → row_rejected aid d'.
Proof.
  intros (_ & Ha & _) (a1 & Hl1 & Hs1). specialize (Ha aid). rewrite Hl1 in Ha.
  inversion Ha as [? a' Hev Hk Hl'|]; subst. exists a'. split; [done|].
  destruct Hev as (_ & _ & _ & _ & [->|]); done.
Qed.

Lemma unblocked_rejects a d d' : rejects d d' → unblocked a d → unblocked a d'.
Proof.
  intros Hr [Hrow Hex]. split; [by eapply row_rejected_stays|]. destruct Hr as (Ht & _ & He).
  intros e' He' Htpl. apply find_execution_some in He' as [Hl' HT'].
  specialize (He (WorkflowApproval.workflowExecutionId a)). rewrite Hl' in He.
  inversion He as [e ? Hev Hl|]; subst. destruct Hev as (_ & HT & Hw & Hst).
  assert (WorkflowExecution.executionStatus e ≠ PAUSED) as Hne.
  { apply Hex; [apply find_execution_some; split; [done|congruence]|].
    unfold getTemplateById in *. rewrite <- Hw, <- Ht. exact Htpl. }
  destruct Hst as [->| ->]; done.
Qed.

Lemma save_rejected_rejects now a a1 a0 d :
  wf_approvals d !! WorkflowApproval.id a = Some a0 → approval_evolves a a0 →
  approval_evolves a a1 → WorkflowApproval.approvalStatus a1 = ApprovalStatusEnum.REJECTED →
  ∃ d', save_approval now a1 (WorkflowApproval.tenantId a) d = Ok d' ∧ rejects d d'
    ∧ row_rejected (WorkflowApproval.id a) d'.
Proof.
  intros Hl (Hi0 & HT0 & Hx0 & He0 & _) (Hi1 & HT1 & Hx1 & He1 & _) Hst.
  unfold save_approval, find_approval. rewrite Hi1, Hl. cbn. rewrite HT0, String.eqb_refl.
  eexists. split; [reflexivity|]. split.
  - split_and!; [done| |intros k; reflexivity]. intros k. cbn.
    destruct (decide (k = WorkflowApproval.id a)) as [->|Hk].
    + rewrite lookup_insert_eq, Hl. constructor. unfold approval_evolves. cbn.
      split_and!; try congruence. by right.
    + rewrite lookup_insert_ne by done. reflexivity.
  - eexists. split; [cbn; apply lookup_insert_eq|]. exact Hst.
Qed.

Lemma expire_one_spec a a0 w :
  keyed (db w) → wf_approvals (db w) !! WorkflowApproval.id a = Some a0 →
  approval_evolves a a0 →
  ∃ w', expire_one a w = (Ok tt, w') ∧ rejects (db w) (db w') ∧ unblocked a (db w').
Proof.
  intros Hk Hl Hev. unfold expire_one.
  set (w1 := w <| ticks ::= S |>).
  assert (∃ a1, WorkflowApproval.reject (env_clock (ticks w)) (Some EXPIRED_COMMENT) a
    = (Ok tt, a1) ∧ approval_evolves a a1
    ∧ WorkflowApproval.approvalStatus a1 = ApprovalStatusEnum.REJECTED) as (a1 & Ha1 & Hev1 & Hst1).
  { eexists. split; [reflexivity|]. split; [|done]. unfold approval_evolves. cbn. split_and!; auto. }
  destruct (save_rejected_rejects (env_clock (ticks w1)) a a1 a0 (db w1) Hl Hev Hev1 Hst1)
    as (d2 & Hs2 & Hr2 & Hrow2).
  set (w2 := w1 <| ticks ::= S |> <| db := d2 |>).
  assert (WorkflowApproval.tenantId a1 = WorkflowApproval.tenantId a) as HT by apply Hev1.
  assert (WorkflowApproval.workflowExecutionId a1 = WorkflowApproval.workflowExecutionId a) as Hx
    by apply Hev1.
  destruct (resumeAsRejected_spec (WorkflowApproval.tenantId a)
    (WorkflowApproval.workflowExecutionId a) EXPIRED_COMMENT w2) as (w3 & E3 & Hr3 & Hex3).
  { eapply keyed_rejects, Hk. exact Hr2. }
  match goal with |- context [addJob ADMIN ?n] =>
    assert (∀ d, ∃ w4, (try_catch (addJob ADMIN n d (λ o, o)) (λ _, mret tt) : M WfW unit) w3
      = (Ok tt, w4) ∧ db w4 = db w3) as Hq end.
  { intros d. unfold try_catch.
    pose proof (addJob_db ADMIN "admin-incident-job" d (λ o, o) w3) as Hadd. unfold final in Hadd.
    destruct (addJob _ _ _ _ w3) as [[[]|x] w4]; by exists w4. }
  edestruct Hq as (w4 & E4 & Hdb4). exists w4. split.
  - etransitivity; [apply (bind_ok new_Date); reflexivity|]. cbv beta.
    etransitivity; [apply bind_ok, exec_runs, Ha1|]. cbv beta zeta. rewrite HT, Hx.
    etransitivity; [apply bind_ok, wf_write_ok, Hs2|]. cbv beta.
    etransitivity; [apply bind_ok, E3|]. exact E4.
  - rewrite Hdb4. split; [by etransitivity|]. split.
    + by eapply row_rejected_stays, Hrow2.
    + intros e He Ht. apply (Hex3 e He). destruct Hr3 as [Htpl _].
      unfold getTemplateById in *. by rewrite <- Htpl.
Qed.

Lemma expire_all as_ w0 w :
  keyed (db w0) → rejects (db w0) (db w) →
  (∀ a, a ∈ as_ → wf_approvals (db w0) !! WorkflowApproval.id a = Some a) →
  ∃ w', for_each as_ expire_one w = (Ok tt, w') ∧ rejects (db w) (db w')
    ∧ ∀ a, a ∈ as_ → unblocked a (db w').
Proof.
  intros Hk Hr Hrows. revert w Hr. induction as_ as [|a as_ IH]; intros w Hr; cbn [for_each].
  { exists w. split_and!; [done|reflexivity|]. intros a []%not_elem_of_nil. }
  assert (wf_approvals (db w0) !! WorkflowApproval.id a = Some a) as Hl
    by (apply Hrows; by left).
  pose proof Hr as (_ & Ha & _). specialize (Ha (WorkflowApproval.id a)). rewrite Hl in Ha.
  inversion Ha as [? a0 Hev Hka Hl0|]; subst.
  destruct (expire_one_spec a a0 w) as (w1 & E1 & Hr1 & Hu1); [by eapply keyed_rejects|done..|].
  destruct (IH ltac:(intros; apply Hrows; by right) w1) as (w2 & E2 & Hr2 & Hu2);
    [by etransitivity|].
  exists w2. rewrite (bind_ok _ _ _ _ _ E1). split_and!; [done|by etransitivity|].
  intros b [->|Hb]%elem_of_cons; [by eapply unblocked_rejects|by apply Hu2].
Qed.

(** C36: The sweep of expired approvals unblocks what waits for them.  It always
    completes and returns the number of pending approvals whose time is up, of
    the tenant or of all of them; each of these is [REJECTED] afterwards, the
    execution that waited for it is no longer [PAUSED] if its template exists,
    nothing else is decided, and a second sweep at the same instant finds
    nothing. *)
Theorem sweep_unblocks tenant w :
  keyed (db w) →
  let now := env_clock (ticks w) in
  let due := findExpiredPendingApprovals tenant now (db w) in
  ∃ w', sweepExpiredApprovals tenant w = (Ok (Z.of_nat (length due)), w')
    ∧ rejects (db w) (db w') ∧ (∀ a, a ∈ due → unblocked a (db w'))
    ∧ findExpiredPendingApprovals tenant now (db w') = [].
Proof.
  intros Hk now due.
  assert (∀ a d, a ∈ findExpiredPendingApprovals tenant now d ↔
    expired_pending tenant now a = true ∧ ∃ k, wf_approvals d !! k = Some a) as Hdue.
  { intros a d. unfold findExpiredPendingApprovals. rewrite row_order_perm, js_filter_elem.
    rewrite list_elem_of_fmap. split.
    - intros [([k x] & -> & Hin%elem_of_map_to_list) He]. by split; [|exists k].
    - intros [He (k & Hl)]. split; [|done]. exists (k, a). by rewrite elem_of_map_to_list. }
  set (w1 := w <| ticks ::= S |>).
  destruct (expire_all due w w1 Hk ltac:(reflexivity)) as (w' & E & Hr & Hu).
  { intros a [_ (k & Hl)]%Hdue. by rewrite (proj1 Hk k a Hl). }
  exists w'. split_and!; [|exact Hr|exact Hu|].
  - unfold sweepExpiredApprovals.
    etransitivity; [apply (bind_ok new_Date); reflexivity|]. cbv beta. rewrite gets_bind.
    etransitivity; [apply bind_ok, E|]. reflexivity.
  - destruct (findExpiredPendingApprovals tenant now (db w')) as [|a' l] eqn:El; [done|exfalso].
    assert (a' ∈ findExpiredPendingApprovals tenant now (db w')) as Hin by (rewrite El; by left).
    apply Hdue in Hin as [He (k & Hl)].
    pose proof Hr as (_ & Ha & _). specialize (Ha k). rewrite Hl in Ha.
    inversion Ha as [a ? Hev Hl0|]; subst. change (db w1) with (db w) in *.
    assert (a ∈ due) as Hin.
    { apply Hdue. split; [|by exists k]. destruct Hev as (_ & HT & _ & Hx & Hst).
      unfold expired_pending in *. rewrite HT, Hx in He.
      destruct Hst as [Hst|Hst]; rewrite Hst in He; [done|by rewrite bool_decide_eq_false_2 in He]. }
    destruct (Hu a Hin) as [(a1 & Hl1 & Hs1) _].
    rewrite (proj1 Hk k a) in Hl1 by done. assert (a1 = a') as -> by congruence.
    unfold expired_pending in He. by rewrite Hs1, bool_decide_eq_false_2 in He.
Qed.
End engine.

(** *** Sample runs *)
#[local] Instance wf_env : Env :=
  {| env_clock := λ n, 1767000000000 + 1000 * Z.of_nat n;
     env_uuid := λ n, "uuid-" +:+ pretty n;
     env_queue_add := λ _, None |}.
#[local, program] Instance wf_deps : WorkflowDeps :=
  {| service := λ _ _, mret (JStr "done"); row_order := λ l, l |}.
Next Obligation. intros. apply keeps_ret; apply _. Qed.
Next Obligation. done. Qed.

Definition step (id : string) (t : ActionTypeEnum) (n : Z) : WorkflowAction :=
  {| action_id := id; actionType := t; sequenceOrder := n;
     configuration := [("approverId", JStr "boss"); ("ticketId", JStr "t1")] |}.
Definition two_approvals : WorkflowTemplate :=
  {| template_id := "wf"; template_tenantId := "acme"; template_name := "Refund";
     template_status := ACTIVE; triggers := [TriggerTypeEnum.TICKET_CREATED];
     conditions := [{| cond_field := "amount"; operator := "gt"; cond_value := "100" |}];
     actions := [step "a1" APPROVAL 1; step "a2" ASSIGN_TICKET 2; step "a3" APPROVAL 3;
                 step "a4" ADD_TAG 4] |}.
Definition empty_wf_world : WfW :=
  {| db := {| wf_templates := [two_approvals]; wf_executions := ∅; wf_approvals := ∅;
              wf_audit := [] |};
     ticks := 0; uuids := 0; jobs := []; audits := []; realtime := []; tenantContext := None |}.
(** An event starts the template although it has no [amount]. *)
Definition wf_world : WfW :=
  final (evaluateEventTriggers "acme" TriggerTypeEnum.TICKET_CREATED [("ticketId", JStr "t1")])
    empty_wf_world.

Lemma missing_number_satisfies_witness :
  evaluateConditions (conditions two_approvals) [("ticketId", JStr "t1")] = true.
Proof.
  apply missing_number_satisfies. intros c Hc. apply list_elem_of_singleton in Hc as ->.
  split; [by left|reflexivity].
Defined.


Lemma wf_world_paused :
  stored_as "uuid-0" "acme" "wf" [("ticketId", JStr "t1")] PAUSED (db wf_world).
Proof. eexists. split; [vm_compute; reflexivity|]. by split_and!. Qed.

Lemma resume_spec_witness :
  ∃ w', resumeExecution "acme" "uuid-0" true "boss" None wf_world = (Ok tt, w')
    ∧ decided "uuid-0" "acme" "wf" [("ticketId", JStr "t1")] two_approvals true (db w').
Proof.
  exact (resume_spec "uuid-0" "acme" "wf" [("ticketId", JStr "t1")] PAUSED two_approvals
    true "boss" None wf_world wf_world_paused eq_refl).
Defined.

Lemma second_approval_never_completes_witness :
  let yes := {| d_approved := true; d_approver := "boss"; d_comments := None |} in
  let w' := decide_all "acme" "uuid-0" [yes; yes; yes] wf_world in
  stored_as "uuid-0" "acme" "wf" [("ticketId", JStr "t1")] PAUSED (db w')
  ∨ stored_as "uuid-0" "acme" "wf" [("ticketId", JStr "t1")] FAILED (db w').
Proof.
  intros yes. apply (second_approval_never_completes _ _ _ _ two_approvals).
  - exact wf_world_paused.
  - reflexivity.
  - vm_compute. lia.
Defined.

(** A day later the approval is still pending. *)
Lemma sweep_unblocks_witness :
  let late := wf_world <| ticks := 100000%nat |> in
  ∃ w', sweepExpiredApprovals None late = (Ok 1, w')
    ∧ findExpiredPendingApprovals None (env_clock 100000) (db w') = [].
Proof.
  intros late. destruct (sweep_unblocks None late) as (w' & E & _ & _ & Hn).
  - split.
    + refine (bool_decide_unpack (map_Forall (λ k a, WorkflowApproval.id a = k) _) _).
      vm_compute. exact I.
    + refine (bool_decide_unpack (map_Forall (λ k e, WorkflowExecution.id e = k) _) _).
      vm_compute. exact I.
  - exists w'. split; [exact E|exact Hn].
Defined.
End Workflows.
