(* ===== verification/Connector.v ===== *)
(** * Connector protections: circuit breaker and rate limit

    [src/modules/connectors/domain/circuit-breaker.ts], the fixed-window
    counter of [connector-rate-limit.entity.ts], and the counting script the
    execution engine sends to Redis. *)

From S2P Require Import Prelude Platform.
Open Scope Z_scope.

(** *** Circuit breaker *)
Inductive CircuitState := CLOSED | OPEN | HALF_OPEN.
#[export] Instance CircuitState_eq_dec : EqDecision CircuitState.
Proof. solve_decision. Defined.

Record CircuitBreakerOptions := {
  failureThreshold : Z;
  successThreshold : Z;
  resetTimeoutMs : Z;
}.

(** The breaker, and the snapshot it is rebuilt from. *)
Record CircuitBreaker := {
  state : CircuitState;
  failureCount : Z;
  successCount : Z;
  openedAt : option Z;
}.
#[export] Instance CircuitBreaker_Eta : Eta CircuitBreaker := λ b,
  Build_CircuitBreaker (state b) (failureCount b) (successCount b) (openedAt b).

Definition new_breaker : CircuitBreaker :=
  {| state := CLOSED; failureCount := 0; successCount := 0; openedAt := None |}.

Section breaker.
Context (options : CircuitBreakerOptions).

Definition trip (now : Z) : M CircuitBreaker unit :=
  assign state OPEN ;;
  assign openedAt (Some now) ;;
  assign successCount 0.

Definition close_breaker : M CircuitBreaker unit :=
  assign state CLOSED ;;
  assign failureCount 0 ;;
  assign successCount 0 ;;
  assign openedAt None.

Definition canRequest (now : Z) : M CircuitBreaker bool :=
  b ← gets (λ b, b);
  if bool_decide (state b = OPEN) then
    if match openedAt b with Some o => resetTimeoutMs options <=? now - o | None => false end
    then assign state HALF_OPEN ;; assign successCount 0 ;; mret true
    else mret false
  else mret true.

Definition recordSuccess : M CircuitBreaker unit :=
  b ← gets (λ b, b);
  if bool_decide (state b = HALF_OPEN) then
    modify (λ b, b <| successCount ::= λ n, n + 1 |>) ;;
    b ← gets (λ b, b);
    when (successThreshold options <=? successCount b) close_breaker
  else assign failureCount 0.

Definition recordFailure (now : Z) : M CircuitBreaker unit :=
  b ← gets (λ b, b);
  if bool_decide (state b = HALF_OPEN) then trip now
  else
    modify (λ b, b <| failureCount ::= λ n, n + 1 |>) ;;
    b ← gets (λ b, b);
    when (failureThreshold options <=? failureCount b) (trip now).
End breaker.

(** *** The fixed-window counter *)
Record ConnectorRateLimit := {
  windowSeconds : Z;
  maxRequests : Z;
  currentUsage : Z;
  resetAt : Z;
}.
#[export] Instance ConnectorRateLimit_Eta : Eta ConnectorRateLimit := λ l,
  Build_ConnectorRateLimit (windowSeconds l) (maxRequests l) (currentUsage l) (resetAt l).

(** The constructor on a stored row: a zero window or maximum is the default. *)
Definition new_rate_limit (raw : ConnectorRateLimit) : ConnectorRateLimit :=
  raw <| windowSeconds ::= λ w, js_or (Some w) 60 |>
      <| maxRequests ::= λ m, js_or (Some m) 1000 |>.

Definition rollWindowIfNeeded (now : Z) : M ConnectorRateLimit unit :=
  l ← gets (λ l, l);
  when (resetAt l <=? now)
    (assign currentUsage 0 ;; assign resetAt (now + windowSeconds l * 1000)).

Definition consume (now : Z) : M ConnectorRateLimit bool :=
  rollWindowIfNeeded now ;;
  l ← gets (λ l, l);
  if maxRequests l <=? currentUsage l then mret false
  else modify (λ l, l <| currentUsage ::= λ n, n + 1 |>) ;; mret true.

Definition updateUsage (usage : Z) : M ConnectorRateLimit unit := assign currentUsage usage.

(** *** The Redis script: the counter of the key, the maximum, and what the
    script returns and leaves.  A key that is set anew expires by itself. *)
Definition rate_script (current : option Z) (max : Z) : Z * option Z :=
  match current with
  | Some c => if max <=? c then (c, Some c) else (c + 1, Some (c + 1))
  | None => (1, Some 1)
  end.
