(* ===== verification/ConnectorEngine.v ===== *)
(** * The connector execution engine

    [src/modules/connectors/engine]: resolving a capability, the breaker and
    rate-limit gates, the call, its execution record, and the retry jobs; the
    retry engine and the connector jobs of the queue processor.

    The HTTP client, the credentials and the request builder are parameters. *)

From S2P Require Import Prelude Platform JsValue Connector.
Open Scope Z_scope.

Inductive ExecutionStatusEnum :=
  | EX_PENDING | EX_RUNNING | EX_SUCCESS | EX_FAILED | EX_RETRYING | EX_CIRCUIT_OPEN.

Record Connector := {
  connector_id : string;
  connector_name : string;
  connectorType : string;
  baseUrl : option string;
  connector_config : list (string * json);
}.
Record ConnectorCapability := {
  capability_id : string;
  capabilityType : string;
  capability_name : string;
  capability_enabled : bool;
}.

Record ExecuteOptions := {
  o_workflowId : option string;
  o_conversationId : option string;
  o_ticketId : option string;
  o_idempotencyKey : option string;
  o_attempt : option Z;
}.
#[export] Instance ExecuteOptions_Eta : Eta ExecuteOptions := λ o,
  Build_ExecuteOptions (o_workflowId o) (o_conversationId o) (o_ticketId o)
    (o_idempotencyKey o) (o_attempt o).

Record ConnectorExecution := {
  ce_id : string;
  ce_tenantId : string;
  ce_connectorId : string;
  ce_capabilityId : string;
  ce_capabilityType : string;
  ce_status : ExecutionStatusEnum;
  ce_statusCode : option Z;
  ce_requestPayload : option json;
  ce_responsePayload : option json;
  ce_error : option string;
  ce_attempt : Z;
  ce_latencyMs : Z;
  ce_options : ExecuteOptions;
  ce_startedAt : option Z;
  ce_completedAt : option Z;
}.
#[export] Instance ConnectorExecution_Eta : Eta ConnectorExecution := λ e,
  Build_ConnectorExecution (ce_id e) (ce_tenantId e) (ce_connectorId e) (ce_capabilityId e)
    (ce_capabilityType e) (ce_status e) (ce_statusCode e) (ce_requestPayload e)
    (ce_responsePayload e) (ce_error e) (ce_attempt e) (ce_latencyMs e) (ce_options e)
    (ce_startedAt e) (ce_completedAt e).

Definition markSuccess (now statusCode : Z) (response : json) (latencyMs : Z)
    : M ConnectorExecution unit :=
  assign ce_status EX_SUCCESS ;; assign ce_statusCode (Some statusCode) ;;
  assign ce_responsePayload (Some response) ;; assign ce_latencyMs latencyMs ;;
  assign ce_completedAt (Some now).
Definition markFailed (now : Z) (error : string) (latencyMs statusCode : Z)
    : M ConnectorExecution unit :=
  assign ce_status EX_FAILED ;; assign ce_error (Some error) ;;
  assign ce_statusCode (Some statusCode) ;; assign ce_latencyMs latencyMs ;;
  assign ce_completedAt (Some now).
Definition markRetrying : M ConnectorExecution unit :=
  assign ce_status EX_RETRYING ;;
  modify (λ e, e <| ce_attempt ::= λ a, js_or (Some a) 1 + 1 |>).

(** The capabilities with their connectors, by creation time: the rows the join
    of [resolveCapability] ranges over, with the tenant, and whether the connector
    is active and not deleted. *)
Record CapabilityRow := {
  r_tenantId : string;
  r_connector : Connector;
  r_live : bool;
  r_capability : ConnectorCapability;
}.

Record ConnectorLog := { cl_executionId : string; cl_level : string; cl_message : string }.

(** Redis, when it is reachable: rate counters and breaker snapshots by key. *)
Record RedisStore := {
  rates : gmap string Z;
  breakers : gmap string CircuitBreaker;
}.
#[export] Instance RedisStore_Eta : Eta RedisStore := λ r,
  Build_RedisStore (rates r) (breakers r).

Record ConnDb := {
  c_capabilities : list CapabilityRow;
  c_executions : gmap string ConnectorExecution;
  c_logs : list ConnectorLog;
  c_limits : gmap (string * string) ConnectorRateLimit;
  c_redis : option RedisStore;
  c_memory : gmap string CircuitBreaker;
  (** the requests sent so far *)
  c_sent : list json;
}.
#[export] Instance ConnDb_Eta : Eta ConnDb := λ d,
  Build_ConnDb (c_capabilities d) (c_executions d) (c_logs d) (c_limits d) (c_redis d)
    (c_memory d) (c_sent d).
Abbreviation ConnW := (World ConnDb).

(** What [axios] answers: a response, or an error with the response it carries,
    if any, and its message. *)
Inductive HttpOutcome :=
  | HttpResponse (status : Z) (data : json)
  | HttpError (response : option (Z * option json)) (message : string).

Record PreparedRequest := { req_method : string; req_url : string; req_payload : json }.

Class ConnectorEnv := {
  DEFAULT_CIRCUIT_OPTIONS : CircuitBreakerOptions;
  (** The stored credential of the connector, refreshed and decrypted. *)
  authConfig : string → Connector → result json;
  prepareRequest : Connector → ConnectorCapability → json → json → result PreparedRequest;
  (** The answer to the [n]-th request sent. *)
  axios : nat → PreparedRequest → HttpOutcome;
  JSON_stringify : json → string;
}.

Definition resolveCapability (tenant type : string) (d : ConnDb)
    : option (Connector * ConnectorCapability) :=
  (λ r, (r_connector r, r_capability r)) <$>
  js_find (λ r, String.eqb (r_tenantId r) tenant
    && String.eqb (capabilityType (r_capability r)) type
    && capability_enabled (r_capability r) && r_live r) (c_capabilities d).

Definition getBreakerGroupKey (c : Connector) : string :=
  match js_or_undef (baseUrl c) with
  | Some u => connectorType c +:+ ":" +:+ u
  | None => connectorType c
  end.

Definition breaker_key (group : string) : string := "connector:cb:" +:+ group.
Definition rate_key (tenant cid : string) : string :=
  "connector:rate:" +:+ tenant +:+ ":" +:+ cid.

Definition HttpStatus_BAD_REQUEST := 400.
Definition HttpStatus_TOO_MANY_REQUESTS := 429.
Definition HttpStatus_BAD_GATEWAY := 502.
Definition HttpStatus_SERVICE_UNAVAILABLE := 503.

(** [{ ...options, attempt }] as a job carries it. *)
Definition options_json (o : ExecuteOptions) : json :=
  JObj (opt_field "workflowId" (o_workflowId o)
        ++ opt_field "conversationId" (o_conversationId o)
        ++ opt_field "ticketId" (o_ticketId o)
        ++ opt_field "idempotencyKey" (o_idempotencyKey o)
        ++ match o_attempt o with Some a => [("attempt", JNum a)] | None => [] end).
Definition options_of (o : list (string * json)) : ExecuteOptions :=
  {| o_workflowId := str_field "workflowId" o; o_conversationId := str_field "conversationId" o;
     o_ticketId := str_field "ticketId" o; o_idempotencyKey := str_field "idempotencyKey" o;
     o_attempt := match field "attempt" o with Some (JNum a) => Some a | _ => None end |}.

(** [attempt < maxRetries], with [config.maxRetries ?? 3]. *)
Definition may_retry (c : Connector) (attempt : Z) : bool :=
  let maxRetries := match field "maxRetries" (connector_config c) with
    | None | Some JNull => JNum 3 | Some v => v end in
  match js_Number (Some maxRetries) with
  | NaN => false
  | m => negb (number_le m (js_Number (Some (JNum attempt))))
  end.

Section execution_engine.
Context `{Env, ConnectorEnv}.

(** *** The circuit breaker manager *)
Definition getBreaker (group : string) : M ConnW CircuitBreaker :=
  d ← gets db;
  let key := breaker_key group in
  let cached := r ← c_redis d; breakers r !! key in
  mret (default new_breaker (match cached with Some b => Some b | None => c_memory d !! key end)).

Definition saveBreaker (group : string) (b : CircuitBreaker) : M ConnW unit :=
  let key := breaker_key group in
  modify (λ w, w <| db ::= λ d, d <| c_memory ::= <[key := b]> |>
    <| c_redis ::= fmap (λ r, r <| breakers ::= <[key := b]> |>) |> |>).

(** *** Rate limiting *)
Definition upsertRateLimit (tenant cid : string) (l : ConnectorRateLimit) : M ConnW unit :=
  modify (λ w, w <| db ::= λ d, d <| c_limits ::= <[(tenant, cid) := l]> |> |>).

Definition syncRateLimitUsage (tenant cid : string) (l : ConnectorRateLimit) (usage : Z)
    : M ConnW unit :=
  l ← exec (updateUsage usage) l;
  upsertRateLimit tenant cid l.

Definition checkRateLimit (tenant cid : string) : M ConnW bool :=
  d ← gets db;
  match new_rate_limit <$> c_limits d !! (tenant, cid) with
  | None => mret false
  | Some limit =>
      match c_redis d with
      | Some r =>
          let key := rate_key tenant cid in
          let '(count, stored) := rate_script (rates r !! key) (maxRequests limit) in
          modify (λ w, w <| db ::= λ d, d <| c_redis := Some
            (r <| rates ::= partial_alter (λ _, stored) key |>) |> |>) ;;
          when ((Z.rem count 10 =? 0) || (maxRequests limit <=? count))
            (syncRateLimitUsage tenant cid limit count) ;;
          mret (maxRequests limit <? count)
      | None =>
          now ← new_Date;
          '(limit, allowed) ← call (consume now) limit;
          if (allowed : bool) then upsertRateLimit tenant cid limit ;; mret false
          else mret true
      end
  end.

(** *** Records *)
Definition conn_save (e : ConnectorExecution) : M ConnW unit :=
  modify (λ w, w <| db ::= λ d, d <| c_executions ::= <[ce_id e := e]> |> |>).

Definition addLog (eid level message : string) : M ConnW unit :=
  modify (λ w, w <| db ::= λ d, d <| c_logs ::= λ l, l ++
    [{| cl_executionId := eid; cl_level := level; cl_message := message |}] |> |>).

Definition new_execution (tenant : string) (c : Connector) (cap : ConnectorCapability)
    (options : ExecuteOptions) (attempt : Z) (status : ExecutionStatusEnum)
    (payload : option json) (error : option string) (completed : bool)
    : M ConnW ConnectorExecution :=
  i ← randomUUID;
  now ← new_Date;
  mret {| ce_id := i; ce_tenantId := tenant; ce_connectorId := connector_id c;
    ce_capabilityId := capability_id cap; ce_capabilityType := capabilityType cap;
    ce_status := status; ce_statusCode := None; ce_requestPayload := payload;
    ce_responsePayload := None; ce_error := error; ce_attempt := attempt;
    ce_latencyMs := 0; ce_options := options; ce_startedAt := Some now;
    ce_completedAt := if completed then Some now else None |}.

(** [eventPublisher.publish] of the events that become jobs. *)
Definition publish_incident (data : list (string * json)) : M ConnW unit :=
  try_catch (addJob ADMIN "admin-incident-job" data (λ o, o)) (λ _, mret tt).

Definition send (request : PreparedRequest) : M ConnW HttpOutcome :=
  d ← gets db;
  modify (λ w, w <| db ::= λ d, d <| c_sent ::= λ l, l ++ [req_payload request] |> |>) ;;
  mret (axios (length (c_sent d)) request).

Definition on_response (tenant : string) (c : Connector) (cap : ConnectorCapability)
    (group : string) (breaker : CircuitBreaker) (execution : ConnectorExecution)
    (startTime status : Z) (data : json) : M ConnW json :=
  now ← new_Date;
  let latencyMs := now - startTime in
  execution ← exec (markSuccess now status data latencyMs) execution;
  conn_save execution ;;
  breaker ← exec (recordSuccess DEFAULT_CIRCUIT_OPTIONS) breaker;
  saveBreaker group breaker ;;
  addLog (ce_id execution) "INFO"
    ("Connector executed successfully in " +:+ pretty latencyMs +:+ "ms. Status: "
     +:+ pretty status) ;;
  publish_incident [("tenantId", JStr tenant);
    ("affectedService", JStr ("connector:" +:+ connector_id c)); ("resolve", JBool true)] ;;
  mret data.

Definition retry_options (attempt : Z) (o : JobsOptions) : JobsOptions :=
  o <| delay := Some (2 ^ attempt * 1000) |>.

Definition on_error (tenant type : string) (params : json) (options : ExecuteOptions)
    (attempt : Z) (c : Connector) (cap : ConnectorCapability) (group : string)
    (breaker : CircuitBreaker) (execution : ConnectorExecution) (startTime : Z)
    (statusCode : Z) (errorMsg : string) : M ConnW json :=
  now ← new_Date;
  let latencyMs := now - startTime in
  execution ← exec (markFailed now errorMsg latencyMs statusCode) execution;
  conn_save execution ;;
  failedAt ← new_Date;
  breaker ← exec (recordFailure DEFAULT_CIRCUIT_OPTIONS failedAt) breaker;
  saveBreaker group breaker ;;
  addLog (ce_id execution) "ERROR"
    ("Connector execution failed in " +:+ pretty latencyMs +:+ "ms: " +:+ errorMsg) ;;
  (if may_retry c attempt then
     execution ← exec markRetrying execution;
     conn_save execution ;;
     addJob CONNECTOR "connector-retry-job"
       [("tenantId", JStr tenant); ("capabilityType", JStr type); ("params", params);
        ("options", options_json (options <| o_attempt := Some (attempt + 1) |>))]
       (retry_options attempt)
   else
     publish_incident [("tenantId", JStr tenant);
       ("affectedService", JStr ("connector:" +:+ connector_id c));
       ("title", JStr ("Connector failed: " +:+ capability_name cap));
       ("severity", JStr "HIGH"); ("description", JStr errorMsg)]) ;;
  throw (Exn (HttpException HttpStatus_BAD_GATEWAY)
    ("Connector invocation failed: " +:+ errorMsg)).

Definition execute (tenant type : string) (params : json) (options : ExecuteOptions)
    : M ConnW json :=
  let attempt := js_or (o_attempt options) 1 in
  d ← gets db;
  match resolveCapability tenant type d with
  | None => throw (Exn (HttpException HttpStatus_BAD_REQUEST)
      ("Capability " +:+ type +:+ " is not registered or configured for tenant " +:+ tenant))
  | Some (c, cap) =>
    if negb (capability_enabled cap) then
      throw (Exn (HttpException HttpStatus_BAD_REQUEST)
        ("Capability " +:+ type +:+ " is currently disabled"))
    else
      let group := getBreakerGroupKey c in
      breaker ← getBreaker group;
      now ← new_Date;
      '(breaker, allowed) ← call (canRequest DEFAULT_CIRCUIT_OPTIONS now) breaker;
      if negb allowed then
        e ← new_execution tenant c cap options attempt EX_CIRCUIT_OPEN None
              (Some "Circuit Breaker Open") true;
        conn_save e ;;
        throw (Exn (HttpException HttpStatus_SERVICE_UNAVAILABLE)
          ("Circuit breaker is OPEN for connector " +:+ connector_name c
           +:+ ". Execution blocked."))
      else
        limited ← checkRateLimit tenant (connector_id c);
        if (limited : bool) then
          e ← new_execution tenant c cap options attempt EX_FAILED None
                (Some "Rate Limit Exceeded") true;
          conn_save e ;;
          throw (Exn (HttpException HttpStatus_TOO_MANY_REQUESTS)
            ("Rate limit exceeded for connector " +:+ connector_name c +:+ "."))
        else
          auth ← of_result (authConfig tenant c);
          request ← of_result (prepareRequest c cap params auth);
          e ← new_execution tenant c cap options attempt EX_RUNNING
                (Some (req_payload request)) None false;
          conn_save e ;;
          addLog (ce_id e) "INFO" ("Started connector execution. Method: "
            +:+ req_method request +:+ ", URL: " +:+ req_url request) ;;
          startTime ← new_Date;
          outcome ← send request;
          match outcome with
          (* the records kept after a response do not throw here, so the [catch]
             sees the execution and the breaker as they were before it *)
          | HttpResponse status data =>
              try_catch (on_response tenant c cap group breaker e startTime status data)
                (λ err, on_error tenant type params options attempt c cap group breaker e
                          startTime 500 (exn_message err))
          | HttpError response message =>
              let statusCode := js_or (fst <$> response) 500 in
              let errorMsg := match js_or_undef (r ← response; r.2) with
                | Some data => JSON_stringify data | None => message end in
              on_error tenant type params options attempt c cap group breaker e startTime
                statusCode errorMsg
          end
  end.

(** *** Jobs *)

(** [processRetryJob]: it reads [options.attempt] before anything else, and
    rethrows. *)
Definition processRetryJob (tenant : option string) (type : option string) (params : option json)
    (options : option json) : M ConnW json :=
  match options with
  | None => throw (Exn JsTypeError "Cannot read properties of undefined (reading 'attempt')")
  | Some JNull => throw (Exn JsTypeError "Cannot read properties of null (reading 'attempt')")
  | Some o =>
      let fields := match o with JObj fields => fields | _ => [] end in
      execute (default "" tenant) (default "" type) (default JNull params) (options_of fields)
  end.

Definition connector_tenant (job : Job) : option string :=
  match js_or_undef (job_tenant job) with
  | Some t => Some t
  | None => str_field "tenantId" (job_data job)
  end.

(** The retry job of [ConnectorQueueProcessor]. *)
Definition handle_retry_job (job : Job) : M ConnW json :=
  processRetryJob (connector_tenant job) (str_field "capabilityType" (job_data job))
    (field "params" (job_data job)) (field "options" (job_data job)).

(** [InboxService.retryConnector] queues this job. *)
Definition inbox_retry_job (tenant conversationId executionId : string) : M ConnW unit :=
  addJob CONNECTOR "connector-retry-job"
    [("executionId", JStr executionId); ("conversationId", JStr conversationId);
     ("tenantId", JStr tenant)] (λ o, o).
End execution_engine.
