(* ===== verification/ConnectorProofs.v ===== *)
(** * Properties of the connector protections

    When the breaker trips, what the two rate limiters let through, and what
    the retries of a failing connector add up to. *)

From S2P Require Import Prelude Platform JsValue Connector ConnectorEngine.
Open Scope Z_scope.

Module Connectors.

(** *** The breaker *)

(** What a call reports, in the order reports arrive: several calls may be under
    way when the breaker trips. *)
Inductive report := Success | Failure (at_ : Z).

Section breaker.
Context (options : CircuitBreakerOptions).

Definition record (b : CircuitBreaker) (r : report) : CircuitBreaker :=
  match r with
  | Success => final (recordSuccess options) b
  | Failure t => final (recordFailure options t) b
  end.

Lemma record_not_half b r :
  state b ≠ HALF_OPEN →
  record b r = match r with
    | Success => b <| failureCount := 0 |>
    | Failure t =>
        if failureThreshold options <=? failureCount b + 1
        then {| state := OPEN; failureCount := failureCount b + 1; successCount := 0;
                openedAt := Some t |}
        else b <| failureCount := failureCount b + 1 |>
    end.
Proof.
  intros Hs. destruct r; cbn [record]; unfold recordSuccess, recordFailure, trip; run;
    rewrite bool_decide_eq_false_2 by done; cbn; [done|]. by destruct (_ <=? _).
Qed.

(** The failures at the end of a history. *)
Definition trailing (rs : list report) : Z :=
  foldl (λ n r, match r with Success => 0 | Failure _ => n + 1 end) 0 rs.

Lemma trailing_snoc rs r :
  trailing (rs ++ [r]) = match r with Success => 0 | Failure _ => trailing rs + 1 end.
Proof. unfold trailing. by rewrite foldl_app. Qed.

Definition tripped (rs : list report) : Prop :=
  ∃ n, (n ≤ length rs)%nat ∧ failureThreshold options ≤ trailing (take n rs).

Lemma tripped_snoc rs r :
  tripped (rs ++ [r]) ↔ tripped rs ∨ failureThreshold options ≤ trailing (rs ++ [r]).
Proof.
  unfold tripped. rewrite length_app. cbn. split.
  - intros (n & Hn & Ht). destruct (decide (n ≤ length rs)%nat).
    + left. exists n. by rewrite take_app_le in Ht by done.
    + right. rewrite take_ge in Ht by (rewrite length_app; cbn; lia). done.
  - intros [(n & Hn & Ht)|Ht].
    + exists n. rewrite take_app_le by done. split; [lia|done].
    + exists (S (length rs)). split; [lia|]. by rewrite take_ge by (rewrite length_app; cbn; lia).
Qed.

End breaker.

(** *** The fixed window *)

(** The calls of a list of instants, and how many are let through. *)
Fixpoint consume_all (nows : list Z) (l : ConnectorRateLimit) : Z * ConnectorRateLimit :=
  match nows with
  | [] => (0, l)
  | now :: nows' =>
      match consume now l with
      | (Ok true, l') => let '(n, l'') := consume_all nows' l' in (n + 1, l'')
      | (_, l') => consume_all nows' l'
      end
  end.

(** C38: The stored counter is a rate limit.  Within a window, of any number of
    calls exactly as many are let through as the maximum leaves room for, and
    none more; the first call after the window starts a new window of the
    configured length. *)
Theorem window_bound nows l :
  (∀ now, now ∈ nows → now < resetAt l) → currentUsage l ≤ maxRequests l →
  (consume_all nows l).1 = Z.min (Z.of_nat (length nows)) (maxRequests l - currentUsage l)
  ∧ ∀ now, resetAt l ≤ now →
      resetAt (final (consume now) l) = now + windowSeconds l * 1000
      ∧ (0 < maxRequests l → outcome (consume now) l = Ok true
         ∧ currentUsage (final (consume now) l) = 1).
Proof.
  intros Hn Hu. split.
  - revert l Hn Hu. induction nows as [|now nows IH]; intros l Hn Hu; cbn [consume_all length].
    { cbn. lia. }
    assert (now < resetAt l) as Hlt by (apply Hn; by left).
    unfold consume, rollWindowIfNeeded. run.
    destruct (Z.leb_spec (resetAt l) now); [lia|]. cbn.
    destruct (Z.leb_spec (maxRequests l) (currentUsage l)); cbn.
    + rewrite IH; [|intros; apply Hn; by right|done]. lia.
    + match goal with |- context [consume_all nows ?l'] => specialize (IH l') end.
      destruct (consume_all nows _) as [n l'']. cbn in *.
      rewrite IH; [lia|intros; apply Hn; by right|lia].
  - intros now Hge. unfold consume, rollWindowIfNeeded. run.
    destruct (Z.leb_spec (resetAt l) now); [|lia]. cbn.
    destruct (Z.leb_spec (maxRequests l) 0); cbn; split; try done; lia.
Qed.

Section engine.
Context `{Env, ConnectorEnv}.
Implicit Types (w : ConnW).

(** *** The Redis limiter *)

(** What happens to the counter of a connector: a call is checked, or the key
    expires. *)
Inductive rate_event := Checked | Expired.
Definition rate_step (T cid : string) (e : rate_event) : M ConnW bool :=
  match e with
  | Checked => checkRateLimit T cid
  | Expired => modify (λ w, w <| db ::= λ d, d <| c_redis ::= fmap (λ r,
      r <| rates ::= delete (rate_key T cid) |>) |> |>) ;; mret false
  end.
(** Was any of the calls limited? *)
Fixpoint any_limited (T cid : string) (es : list rate_event) : M ConnW bool :=
  match es with
  | [] => mret false
  | e :: es' => b ← rate_step T cid e; b' ← any_limited T cid es'; mret (b || b')
  end.

(** The counter never passes the maximum. *)
Definition below_max (T cid : string) (max : Z) (d : ConnDb) : Prop :=
  ∃ r l, c_redis d = Some r ∧ c_limits d !! (T, cid) = Some l
    ∧ maxRequests (new_rate_limit l) = max
    ∧ ∀ n, rates r !! rate_key T cid = Some n → n ≤ max.

Lemma rate_step_below T cid e max w :
  1 ≤ max → below_max T cid max (db w) →
  ∃ w', rate_step T cid e w = (Ok false, w') ∧ below_max T cid max (db w').
Proof.
  intros Hmax (r & l & Hr & Hl & Hm & Hle). destruct e; cbn [rate_step].
  - unfold checkRateLimit. rewrite gets_bind, Hl, Hr. cbn [fmap option_fmap option_map].
    rewrite Hm.
    assert (∃ count, rate_script (rates r !! rate_key T cid) max = (count, Some count)
      ∧ count ≤ max) as (count & -> & Hc).
    { unfold rate_script. destruct (rates r !! rate_key T cid) as [n|] eqn:En.
      - specialize (Hle n eq_refl). destruct (Z.leb_spec max n); eexists; (split; [done|lia]).
      - by exists 1. }
    assert (∀ l0, maxRequests (new_rate_limit (new_rate_limit l0)) = maxRequests (new_rate_limit l0))
      as Hidem.
    { intros l0. unfold new_rate_limit. cbn. unfold truthy, Z_truthy.
      destruct (maxRequests l0 =? 0) eqn:E; cbn; [done|]. by rewrite E. }
    assert (max <? count = false) as Hlt by lia.
    unfold when. destruct (_ || _); (eexists; split; [cbn; rewrite Hlt; reflexivity|]).
    all: eexists _, _; cbn; split_and!; [reflexivity|..].
    all: try (apply lookup_insert_eq). all: try exact Hl.
    all: try (intros n Hn; cbn in Hn; rewrite lookup_partial_alter_eq in Hn;
              by injection Hn as <-).
    + exact (eq_trans (Hidem l) Hm).
    + exact Hm.
  - eexists. split; [reflexivity|]. cbn. rewrite Hr. eexists _, l. cbn.
    split_and!; [reflexivity|done..|]. intros n Hn. cbn in Hn.
    by rewrite lookup_delete_eq in Hn.
Qed.

(** With Redis the rate limit limits nothing.  The script stops counting
    at the maximum and returns it, and only a count above the maximum is refused:
    whatever sequence of calls and key expiries a connector with a configured
    limit sees, every call is let through. *)
Theorem redis_never_limits T cid es r l w :
  c_redis (db w) = Some r → c_limits (db w) !! (T, cid) = Some l → 0 ≤ maxRequests l →
  rates r !! rate_key T cid = None →
  ∃ w', any_limited T cid es w = (Ok false, w').
Proof.
  intros Hr Hl Hm Hnone. set (max := maxRequests (new_rate_limit l)).
  assert (1 ≤ max) as Hmax.
  { unfold max, new_rate_limit. cbn. unfold truthy, Z_truthy.
    destruct (Z.eqb_spec (maxRequests l) 0); cbn; lia. }
  assert (below_max T cid max (db w)) as Hb.
  { exists r, l. split_and!; [done..|]. intros n. by rewrite Hnone. }
  clear -Hmax Hb. revert w Hb. induction es as [|e es IH]; intros w Hb; cbn [any_limited].
  { by eexists. }
  destruct (rate_step_below T cid e max w Hmax Hb) as (w1 & E1 & Hb1).
  rewrite (bind_ok _ _ _ _ _ E1). destruct (IH w1 Hb1) as (w2 & E2).
  rewrite (bind_ok _ _ _ _ _ E2). by exists w2.
Qed.

(** *** Retries *)

(** The breaker a call on this connector starts with. *)
Definition cached_breaker (c : Connector) (d : ConnDb) : CircuitBreaker :=
  let key := breaker_key (getBreakerGroupKey c) in
  default new_breaker (match (r ← c_redis d; breakers r !! key) with
    | Some b => Some b | None => c_memory d !! key end).

(** The capability is served by [c], which has no rate limit, and its breaker
    stands [n] more failures. *)
Definition serves (T type : string) (c : Connector) (cap : ConnectorCapability) (n : Z)
    (d : ConnDb) : Prop :=
  resolveCapability T type d = Some (c, cap) ∧ c_limits d !! (T, connector_id c) = None
  ∧ state (cached_breaker c d) = CLOSED
  ∧ failureCount (cached_breaker c d) + n < failureThreshold DEFAULT_CIRCUIT_OPTIONS.

Definition retry_job (tenantId : option string) (T type : string) (params : json)
    (options : ExecuteOptions) (attempt : Z) : Job :=
  {| job_queue := CONNECTOR; job_name := "connector-retry-job";
     job_data := [("tenantId", JStr T); ("capabilityType", JStr type); ("params", params);
       ("options", options_json (options <| o_attempt := Some (attempt + 1) |>));
       ("_tenantContext", JObj (opt_field "tenantId" tenantId))];
     job_opts := retry_options attempt DEFAULT_JOB_OPTIONS; attemptsMade := 0 |}.

Lemma cached_after_save c b w :
  cached_breaker c (db (final (saveBreaker (getBreakerGroupKey c) b) w)) = b.
Proof.
  unfold cached_breaker, saveBreaker, final. cbn.
  destruct (c_redis (db w)) as [r|]; cbn; by rewrite lookup_insert_eq.
Qed.

(** What failing does to the world around the breaker and the queue. *)
Definition same_setup (w w' : ConnW) : Prop :=
  c_capabilities (db w') = c_capabilities (db w) ∧ c_limits (db w') = c_limits (db w)
  ∧ tenantContext w' = tenantContext w.

Lemma on_error_retries T type params options attempt c cap b e start code msg w :
  state b = CLOSED → failureCount b + 1 < failureThreshold DEFAULT_CIRCUIT_OPTIONS →
  may_retry c attempt = true → (∀ job, env_queue_add job = None) →
  ∃ x w', on_error T type params options attempt c cap (getBreakerGroupKey c) b e start code
            msg w = (Throw x, w')
    ∧ exn_kind x = HttpException HttpStatus_BAD_GATEWAY
    ∧ jobs w' = jobs w ++ [retry_job (tenantContext w) T type params options attempt]
    ∧ length (c_sent (db w')) = length (c_sent (db w)) ∧ same_setup w w'
    ∧ cached_breaker c (db w') = b <| failureCount ::= λ n, n + 1 |>.
Proof.
  intros Hst Hf Hmay Hq. unfold on_error. rewrite Hmay.
  assert (exec (recordFailure DEFAULT_CIRCUIT_OPTIONS (env_clock (S (ticks w)))) b
    = λ s : ConnW, (Ok (b <| failureCount ::= λ n, n + 1 |>), s)) as Hrec.
  { unfold exec, recordFailure. run. rewrite bool_decide_eq_false_2 by (by rewrite Hst). cbn.
    replace (_ <=? _) with false by lia. done. }
  set (b' := b <| failureCount ::= λ n, n + 1 |>) in *.
  eexists _, _. split.
  { etransitivity; [apply (bind_ok new_Date); reflexivity|]. cbv beta zeta.
    etransitivity; [apply (bind_ok (exec _ _)); reflexivity|]. cbv beta.
    etransitivity; [apply (bind_ok (conn_save _)); reflexivity|]. cbv beta.
    etransitivity; [apply (bind_ok new_Date); reflexivity|]. cbv beta.
    etransitivity; [apply bind_ok; cbn; rewrite Hrec; reflexivity|]. cbv beta.
    etransitivity; [apply (bind_ok (saveBreaker _ _)); reflexivity|]. cbv beta.
    etransitivity; [apply (bind_ok (addLog _ _ _)); reflexivity|]. cbv beta.
    etransitivity.
    { apply bind_ok. etransitivity; [apply (bind_ok (exec _ _)); reflexivity|]. cbv beta.
      etransitivity; [apply (bind_ok (conn_save _)); reflexivity|]. cbv beta.
      unfold addJob. etransitivity; [apply (bind_ok getTenantId); reflexivity|]. cbv beta zeta.
      rewrite Hq. reflexivity. }
    reflexivity. }
  split_and!; [reflexivity..|by split_and!|].
  unfold cached_breaker. cbn. destruct (c_redis (db w)) as [r|]; cbn; by rewrite lookup_insert_eq.
Qed.

Lemma execute_fails T type params options c cap auth request n w :
  let attempt := js_or (o_attempt options) 1 in
  serves T type c cap n (db w) → 1 ≤ n →
  authConfig T c = Ok auth → prepareRequest c cap params auth = Ok request →
  (∀ k r, ∃ resp msg, axios k r = HttpError resp msg) → may_retry c attempt = true →
  (∀ job, env_queue_add job = None) →
  ∃ x w', execute T type params options w = (Throw x, w')
    ∧ exn_kind x = HttpException HttpStatus_BAD_GATEWAY
    ∧ jobs w' = jobs w ++ [retry_job (tenantContext w) T type params options attempt]
    ∧ length (c_sent (db w')) = S (length (c_sent (db w)))
    ∧ serves T type c cap (n - 1) (db w') ∧ tenantContext w' = tenantContext w.
Proof.
  intros attempt (Hres & Hlim & Hst & Hcount) Hn Hauth Hreq Haxios Hmay Hqueue.
  unfold execute. rewrite gets_bind, Hres. fold attempt.
  assert (capability_enabled cap = true) as Hen.
  { unfold resolveCapability in Hres. destruct (js_find _ _) as [row|] eqn:Ef; [|done].
    apply find_some in Ef as [_ [[[_ _]%andb_true_iff He]%andb_true_iff _]%andb_true_iff].
    by injection Hres as <- <-. }
  rewrite Hen. cbn [negb]. cbv zeta.
  set (b := cached_breaker c (db w)) in *.
  assert (getBreaker (getBreakerGroupKey c) w = (Ok b, w)) as Eb by reflexivity.
  assert (∀ now (s : ConnW), call (canRequest DEFAULT_CIRCUIT_OPTIONS now) b s = (Ok (b, true), s))
    as Ecan.
  { intros. unfold call, canRequest. run. rewrite bool_decide_eq_false_2 by (by rewrite Hst). done. }
  destruct (Haxios (length (c_sent (db w))) request) as (resp & msg & Eax).
  set (w1 := w <| ticks ::= S |>).
  assert (checkRateLimit T (connector_id c) w1 = (Ok false, w1)) as Erate.
  { unfold checkRateLimit. rewrite gets_bind. cbn [db w1 modify_field].
    change (c_limits (db w1)) with (c_limits (db w)). by rewrite Hlim. }
  rewrite (bind_ok _ _ _ _ _ Eb).
  rewrite (bind_ok new_Date _ _ (env_clock (ticks w)) w1 eq_refl).
  rewrite (bind_ok _ _ _ _ _ (Ecan _ w1)). cbn [negb].
  rewrite (bind_ok _ _ _ _ _ Erate).
  rewrite Hauth. rewrite (bind_ok (of_result (Ok auth)) _ w1 auth w1 eq_refl).
  rewrite Hreq. rewrite (bind_ok (of_result (Ok request)) _ w1 request w1 eq_refl).
  assert (∃ e w2, new_execution T c cap options attempt EX_RUNNING (Some (req_payload request))
    None false w1 = (Ok e, w2) ∧ db w2 = db w ∧ jobs w2 = jobs w
    ∧ tenantContext w2 = tenantContext w) as (e & w2 & E2 & Hdb2 & Hj2 & Ht2)
    by (eexists _, _; split; [reflexivity|by split_and!]).
  rewrite (bind_ok _ _ _ _ _ E2).
  rewrite (bind_ok (conn_save e) _ w2 tt (final (conn_save e) w2) eq_refl).
  set (w3 := final (conn_save e) w2).
  rewrite (bind_ok (addLog _ _ _) _ w3 tt _ eq_refl).
  set (w4 := w3 <| db ::= _ |>).
  rewrite (bind_ok new_Date _ w4 (env_clock (ticks w4)) (w4 <| ticks ::= S |>) eq_refl).
  set (w5 := w4 <| ticks ::= S |>). set (w6 := final (send request) w5).
  assert (c_sent (db w5) = c_sent (db w)) as Hsent5 by (cbn; by rewrite Hdb2).
  assert (send request w5 = (Ok (HttpError resp msg), w6)) as E6.
  { unfold send. rewrite gets_bind. cbn. rewrite Hdb2, Eax.
    unfold w6, final, send. rewrite gets_bind. cbn. by rewrite Hdb2. }
  rewrite (bind_ok _ _ _ _ _ E6).
  destruct (on_error_retries T type params options attempt c cap b e (env_clock (ticks w4))
    (js_or (fst <$> resp) 500)
    (match js_or_undef (r ← resp; r.2) with Some data => JSON_stringify data | None => msg end) w6)
    as (x & w7 & E7 & Hx & Hj & Hs & (Hc & Hl & Ht) & Hb); [done|lia|done|done|].
  assert (jobs w6 = jobs w ∧ tenantContext w6 = tenantContext w
    ∧ c_capabilities (db w6) = c_capabilities (db w) ∧ c_limits (db w6) = c_limits (db w)
    ∧ length (c_sent (db w6)) = S (length (c_sent (db w)))) as (Hj6 & Ht6 & Hc6 & Hl6 & Hs6).
  { split_and!; [exact Hj2|exact Ht2|exact (f_equal c_capabilities Hdb2)
      |exact (f_equal c_limits Hdb2)|].
    change (length (c_sent (db w5) ++ [req_payload request]) = S (length (c_sent (db w)))).
    rewrite Hsent5, length_app. cbn. lia. }
  exists x, w7. split_and!; [exact E7|exact Hx|congruence|congruence| |congruence].
  split_and!.
  - unfold resolveCapability in *. by rewrite Hc, Hc6.
  - by rewrite Hl, Hl6.
  - rewrite Hb. exact Hst.
  - rewrite Hb. cbn. lia.
Qed.

(** The handler on a retry job is [execute] on what the job carries. *)
Lemma options_roundtrip o : ∃ fields, options_json o = JObj fields ∧ options_of fields = o.
Proof.
  eexists. split; [reflexivity|]. destruct o as [[] [] [] [] []]; reflexivity.
Qed.

Lemma handle_retry_execute ctx T type params options attempt :
  truthy T = true → (∀ t, ctx = Some t → t = T) →
  handle_retry_job (retry_job ctx T type params options attempt)
  = execute T type params (options <| o_attempt := Some (attempt + 1) |>).
Proof.
  intros HT Hctx. unfold handle_retry_job, processRetryJob, retry_job. cbn.
  unfold connector_tenant, job_tenant, str_field, field, js_find. cbn.
  f_equal; [|by destruct options as [[] [] [] [] []]].
  destruct ctx as [t|]; cbn; [|done]. rewrite (Hctx t eq_refl). cbn. by rewrite HT.
Qed.

(** The queue runs a job that throws again, up to its attempts. *)
Fixpoint run_attempts (n : nat) (handler : M ConnW json) : M ConnW unit :=
  match n with
  | O => mret tt
  | S n' => try_catch (handler ;; mret tt) (λ _, run_attempts n' handler)
  end.

(** The two retry mechanisms multiply.  While a connector keeps failing and
    its breaker stays closed, a retry job that has retries left throws every time
    it is run, so the queue runs it for each of its own three attempts; and each
    of these runs sends a request and queues a successor of its own. *)
Theorem retries_multiply n T type params options attempt c cap auth request w :
  let job := retry_job (Some T) T type params options attempt in
  attempts (job_opts job) = Some 3
  ∧ (serves T type c cap (Z.of_nat n) (db w) → tenantContext w = Some T → truthy T = true →
     1 ≤ attempt → authConfig T c = Ok auth → prepareRequest c cap params auth = Ok request →
     (∀ k r, ∃ resp msg, axios k r = HttpError resp msg) → may_retry c (attempt + 1) = true →
     (∀ job, env_queue_add job = None) →
     let w' := final (run_attempts n (handle_retry_job job)) w in
     jobs w' = jobs w ++ repeat (retry_job (Some T) T type params options (attempt + 1)) n
     ∧ length (c_sent (db w')) = (n + length (c_sent (db w)))%nat).
Proof.
  intros job. split; [done|]. intros Hs Hctx HT Ha Hauth Hreq Hax Hmay Hq. cbv zeta.
  unfold job. rewrite handle_retry_execute by (done || congruence).
  clear job. revert w Hs Hctx. induction n as [|n IH]; intros w Hs Hctx.
  { cbn. by rewrite app_nil_r. }
  set (o := options <| o_attempt := Some (attempt + 1) |>) in *.
  assert (js_or (o_attempt o) 1 = attempt + 1) as Hatt.
  { cbn. unfold truthy, Z_truthy. by replace (attempt + 1 =? 0) with false by lia. }
  destruct (execute_fails T type params o c cap auth request (Z.of_nat (S n)) w)
    as (x & w1 & E & _ & Hj & Hlen & Hs1 & Ht); try done; [lia|by rewrite Hatt|].
  rewrite Hatt, Hctx in Hj.
  assert (final (run_attempts (S n) (execute T type params o)) w
    = final (run_attempts n (execute T type params o)) w1) as ->.
  { unfold final. cbn [run_attempts]. unfold try_catch. by rewrite (bind_throw _ _ _ _ _ E). }
  destruct (IH w1) as [Hj2 Hl2].
  - by replace (Z.of_nat n) with (Z.of_nat (S n) - 1) by lia.
  - congruence.
  - rewrite Hj2, Hl2, Hj, Hlen, <- app_assoc. split; [|lia]. reflexivity.
Qed.

(** The retry of the inbox queues a job without options, which fails before it
    reaches the connector. *)
Lemma inbox_retry_fails T conv x w w' job :
  inbox_retry_job T conv x w = (Ok tt, w') → jobs w' = jobs w ++ [job] →
  ∀ w1, handle_retry_job job w1
    = (Throw (Exn JsTypeError "Cannot read properties of undefined (reading 'attempt')"), w1).
Proof.
  unfold inbox_retry_job, addJob. unfold mbind, M_bind, getTenantId, gets. cbn.
  destruct (env_queue_add _); [done|]. intros [= <-] Hj w1. cbn in Hj.
  apply app_inv_head in Hj. by injection Hj as <-.
Qed.
End engine.

(** *** Sample runs *)
#[local] Instance conn_env : Env :=
  {| env_clock := λ n, 1767000000000 + 1000 * Z.of_nat n;
     env_uuid := λ n, "uuid-" +:+ pretty n;
     env_queue_add := λ _, None |}.
(** The default thresholds, and an upstream that always answers 503. *)
#[local] Instance conn_deps : ConnectorEnv :=
  {| DEFAULT_CIRCUIT_OPTIONS :=
       {| failureThreshold := 5; successThreshold := 2; resetTimeoutMs := 30000 |};
     authConfig := λ _ _, Ok JNull;
     prepareRequest := λ _ _ params _, Ok {| req_method := "GET"; req_url := "https://x";
                                             req_payload := params |};
     axios := λ _ _, HttpError (Some (503, None)) "Request failed with status code 503";
     JSON_stringify := λ _, "" |}.
Definition shop : Connector :=
  {| connector_id := "c1"; connector_name := "Shop"; connectorType := "SHOPIFY";
     baseUrl := None; connector_config := [] |}.
Definition track : ConnectorCapability :=
  {| capability_id := "k1"; capabilityType := "ORDER_TRACKING"; capability_name := "Track";
     capability_enabled := true |}.
Definition no_options : ExecuteOptions :=
  {| o_workflowId := None; o_conversationId := None; o_ticketId := None;
     o_idempotencyKey := None; o_attempt := None |}.
Definition ten_a_minute : ConnectorRateLimit :=
  {| windowSeconds := 60; maxRequests := 10; currentUsage := 0; resetAt := 1767000060000 |}.
Definition conn_world (limits : gmap (string * string) ConnectorRateLimit)
    (redis : option RedisStore) : ConnW :=
  {| db := {| c_capabilities := [{| r_tenantId := "acme"; r_connector := shop; r_live := true;
                                    r_capability := track |}];
              c_executions := ∅; c_logs := []; c_limits := limits; c_redis := redis;
              c_memory := ∅; c_sent := [] |};
     ticks := 0; uuids := 0; jobs := []; audits := []; realtime := [];
     tenantContext := Some "acme" |}.


Lemma window_bound_witness :
  (consume_all (repeat 1767000000000 12) ten_a_minute).1 = 10.
Proof.
  refine (proj1 (window_bound (repeat 1767000000000 12) ten_a_minute _ _)); [|done].
  intros now Hin. apply list_elem_of_In, repeat_spec in Hin as ->. reflexivity.
Defined.

(** Twenty calls in a window for which ten are configured. *)
Lemma redis_never_limits_witness :
  ∃ w', any_limited "acme" "c1" (repeat Checked 20)
    (conn_world {[("acme", "c1") := ten_a_minute]} (Some {| rates := ∅; breakers := ∅ |}))
    = (Ok false, w').
Proof.
  eapply (redis_never_limits "acme" "c1" (repeat Checked 20) _ ten_a_minute); try reflexivity.
  discriminate.
Defined.

Lemma retries_multiply_witness :
  let job := retry_job (Some "acme") "acme" "ORDER_TRACKING" (JObj []) no_options 1 in
  let w' := final (run_attempts 3 (handle_retry_job job)) (conn_world ∅ None) in
  jobs w' = repeat (retry_job (Some "acme") "acme" "ORDER_TRACKING" (JObj []) no_options 2) 3
  ∧ length (c_sent (db w')) = 3%nat.
Proof.
  intros job w'.
  refine (proj2 (retries_multiply 3 "acme" "ORDER_TRACKING" (JObj []) no_options 1 shop track
    JNull _ (conn_world ∅ None)) _ _ _ _ _ _ _ _ _); try reflexivity.
  - split_and!; reflexivity.
  - intros k r. by eexists _, _.
Defined.
End Connectors.
