(* ===== verification/Conversation.v ===== *)
(** * The conversation aggregate

    [src/modules/conversations/domain]: value objects, child entities and
    [conversation.aggregate.ts].  Methods are programs in [M Conversation]; the
    instant of the call is the argument [now].  Language and source are the
    cleaned strings their value objects hold. *)

From S2P Require Import Prelude Platform.
Open Scope Z_scope.

Module ConversationStatusEnum.
Inductive ConversationStatusEnum :=
  | OPEN | PENDING | ASSIGNED | WAITING_CUSTOMER | WAITING_AGENT | RESOLVED
  | CLOSED | ARCHIVED.

#[export] Instance eq_dec : EqDecision ConversationStatusEnum.
Proof. solve_decision. Defined.

#[export, program] Instance enum : JsEnum ConversationStatusEnum := {|
  enum_values := [OPEN; PENDING; ASSIGNED; WAITING_CUSTOMER; WAITING_AGENT;
    RESOLVED; CLOSED; ARCHIVED];
  enum_str s := match s with
    | OPEN => "OPEN" | PENDING => "PENDING" | ASSIGNED => "ASSIGNED"
    | WAITING_CUSTOMER => "WAITING_CUSTOMER" | WAITING_AGENT => "WAITING_AGENT"
    | RESOLVED => "RESOLVED" | CLOSED => "CLOSED" | ARCHIVED => "ARCHIVED" end |}.
Solve All Obligations with solve_enum.
End ConversationStatusEnum.
Export (hints) ConversationStatusEnum.
Abbreviation ConversationStatusEnum := ConversationStatusEnum.ConversationStatusEnum.

Module ConversationPriorityEnum.
Inductive ConversationPriorityEnum := LOW | MEDIUM | HIGH | URGENT | CRITICAL.

#[export] Instance eq_dec : EqDecision ConversationPriorityEnum.
Proof. solve_decision. Defined.

#[export, program] Instance enum : JsEnum ConversationPriorityEnum := {|
  enum_values := [LOW; MEDIUM; HIGH; URGENT; CRITICAL];
  enum_str p := match p with
    | LOW => "LOW" | MEDIUM => "MEDIUM" | HIGH => "HIGH"
    | URGENT => "URGENT" | CRITICAL => "CRITICAL" end |}.
Solve All Obligations with solve_enum.
End ConversationPriorityEnum.
Export (hints) ConversationPriorityEnum.
Abbreviation ConversationPriorityEnum := ConversationPriorityEnum.ConversationPriorityEnum.

Module ConversationSentimentEnum.
Inductive ConversationSentimentEnum := POSITIVE | NEUTRAL | NEGATIVE.

#[export] Instance eq_dec : EqDecision ConversationSentimentEnum.
Proof. solve_decision. Defined.

#[export, program] Instance enum : JsEnum ConversationSentimentEnum := {|
  enum_values := [POSITIVE; NEUTRAL; NEGATIVE];
  enum_str s := match s with
    | POSITIVE => "POSITIVE" | NEUTRAL => "NEUTRAL" | NEGATIVE => "NEGATIVE" end |}.
Solve All Obligations with solve_enum.
End ConversationSentimentEnum.
Export (hints) ConversationSentimentEnum.
Abbreviation ConversationSentimentEnum := ConversationSentimentEnum.ConversationSentimentEnum.

Import ConversationStatusEnum.

(** ** Value objects *)
Module ConversationStatus.
Definition create (raw : string) : result ConversationStatusEnum :=
  match parse_enum raw with
  | Some s => Ok s
  | None => Throw (Exn JsError ("Invalid conversation status: " +:+ raw))
  end.

Definition isTerminal (s : ConversationStatusEnum) : bool :=
  bool_decide (s = CLOSED) || bool_decide (s = ARCHIVED).
End ConversationStatus.

Module ConversationPriority.
Import ConversationPriorityEnum.
Definition create (raw : string) : result ConversationPriorityEnum :=
  match parse_enum raw with
  | Some p => Ok p
  | None => Throw (Exn JsError ("Invalid conversation priority: " +:+ raw))
  end.

Definition weight (p : ConversationPriorityEnum) : Z :=
  match p with LOW => 1 | MEDIUM => 2 | HIGH => 3 | URGENT => 4 | CRITICAL => 5 end.
End ConversationPriority.

Module ConversationLanguage.
Definition create (value : string) : result string :=
  let cleaned := js_lower (js_trim value) in
  if negb (truthy cleaned) || (js_length cleaned >? 10)
  then Throw (Exn JsError ("Invalid language code: " +:+ value))
  else Ok cleaned.
End ConversationLanguage.

Module ConversationSentiment.
Definition create (raw : string) : result ConversationSentimentEnum :=
  match parse_enum raw with
  | Some s => Ok s
  | None => Throw (Exn JsError ("Invalid conversation sentiment: " +:+ raw))
  end.
End ConversationSentiment.

Module ConversationSource.
Definition create (value : string) : result string :=
  let cleaned := js_upper (js_trim value) in
  if negb (truthy cleaned) || (js_length cleaned >? 50)
  then Throw (Exn JsError ("Invalid conversation source: " +:+ value))
  else Ok cleaned.
End ConversationSource.

(** ** Child entities

    Records hold what the constructors leave: dates that were not given are
    those of the construction. *)
Record ConversationTag := {
  tag_id : string;
  tag_tenantId : string;
  tag_conversationId : string;
  tag : string;
  color : option string;
  isSystemTag : bool;
  tag_createdAt : Z;
  tag_updatedAt : Z;
}.
#[export] Instance ConversationTag_Eta : Eta ConversationTag := λ x,
  Build_ConversationTag (tag_id x) (tag_tenantId x) (tag_conversationId x)
    (tag x) (color x) (isSystemTag x) (tag_createdAt x) (tag_updatedAt x).

Record ConversationNote := {
  note_id : string;
  note_tenantId : string;
  note_conversationId : string;
  authorId : string;
  note : string;
  visibility : string;
  note_createdAt : Z;
  note_updatedAt : Z;
}.

Record ConversationParticipant := {
  participant_row_id : string;
  participant_tenantId : string;
  participant_conversationId : string;
  participantId : string;
  participantType : string;
  joinedAt : Z;
  leftAt : option Z;
  participant_createdAt : Z;
  participant_updatedAt : Z;
}.

Record ConversationMention := {
  mention_id : string;
  mention_tenantId : string;
  mention_conversationId : string;
  mentionedUserId : string;
  mentionedBy : string;
  messageReference : option string;
  mention_createdAt : Z;
  mention_updatedAt : Z;
}.
#[export] Instance ConversationMention_Eta : Eta ConversationMention := λ x,
  Build_ConversationMention (mention_id x) (mention_tenantId x)
    (mention_conversationId x) (mentionedUserId x) (mentionedBy x)
    (messageReference x) (mention_createdAt x) (mention_updatedAt x).

(** ** Domain events *)
Inductive ConversationEvent :=
  | ConversationCreatedEvent (tenantId conversationId customerId channelId : string)
  | ConversationUpdatedEvent (tenantId conversationId status priority : string)
  | ConversationAssignedEvent (tenantId conversationId assigneeId : string)
  | ConversationTransferredEvent (tenantId conversationId : string) (fromAgentId : option string) (toAgentId : string)
  | ConversationTaggedEvent (tenantId conversationId tag : string)
  | ConversationNoteAddedEvent (tenantId conversationId noteId authorId : string)
  | ConversationResolvedEvent (tenantId conversationId : string) (resolvedBy : option string)
  | ConversationClosedEvent (tenantId conversationId : string) (reason : option string)
  | ConversationArchivedEvent (tenantId conversationId : string)
  | ConversationResolutionStartedEvent (tenantId conversationId agentId : string)
  | CustomerNotifiedOnResolutionEvent (tenantId conversationId customerId channel : string).

(** ** The aggregate *)
Record Conversation := {
  id : string;
  tenantId : string;
  customerId : string;
  channelId : option string;
  assignedAgentId : option string;
  assignedTeamId : option string;
  status : ConversationStatusEnum;
  priority : ConversationPriorityEnum;
  subject : option string;
  language : string;
  sentiment : ConversationSentimentEnum;
  source : string;
  lastMessageAt : option Z;
  lastActivityAt : Z;
  firstResponseAt : option Z;
  resolvedAt : option Z;
  closedAt : option Z;
  metadata : option (gmap string json);
  createdAt : Z;
  updatedAt : Z;
  deletedAt : option Z;
  version : Z;
  tags : list ConversationTag;
  notes : list ConversationNote;
  participants : list ConversationParticipant;
  mentions : list ConversationMention;
  domainEvents : list ConversationEvent;
}.
#[export] Instance Conversation_Eta : Eta Conversation := λ c,
  Build_Conversation (id c) (tenantId c) (customerId c) (channelId c)
    (assignedAgentId c) (assignedTeamId c) (status c) (priority c) (subject c)
    (language c) (sentiment c) (source c) (lastMessageAt c) (lastActivityAt c)
    (firstResponseAt c) (resolvedAt c) (closedAt c) (metadata c) (createdAt c)
    (updatedAt c) (deletedAt c) (version c) (tags c) (notes c) (participants c)
    (mentions c) (domainEvents c).

(** The constructor's argument. *)
Module ConversationProps.
Record ConversationProps := {
  tenantId : string;
  customerId : string;
  channelId : option string;
  assignedAgentId : option string;
  assignedTeamId : option string;
  status : ConversationStatusEnum;
  priority : ConversationPriorityEnum;
  subject : option string;
  language : string;
  sentiment : ConversationSentimentEnum;
  source : string;
  lastMessageAt : option Z;
  lastActivityAt : option Z;
  firstResponseAt : option Z;
  resolvedAt : option Z;
  closedAt : option Z;
  metadata : option (gmap string json);
  createdAt : option Z;
  updatedAt : option Z;
  deletedAt : option Z;
  version : option Z;
  tags : option (list ConversationTag);
  notes : option (list ConversationNote);
  participants : option (list ConversationParticipant);
  mentions : option (list ConversationMention);
}.
End ConversationProps.
Abbreviation ConversationProps := ConversationProps.ConversationProps.

Definition new_Conversation (now : Z) (id : string) (props : ConversationProps)
    : Conversation :=
  {| id := id;
     tenantId := ConversationProps.tenantId props;
     customerId := ConversationProps.customerId props;
     channelId := ConversationProps.channelId props;
     assignedAgentId := ConversationProps.assignedAgentId props;
     assignedTeamId := ConversationProps.assignedTeamId props;
     status := ConversationProps.status props;
     priority := ConversationProps.priority props;
     subject := ConversationProps.subject props;
     language := ConversationProps.language props;
     sentiment := ConversationProps.sentiment props;
     source := ConversationProps.source props;
     lastMessageAt := ConversationProps.lastMessageAt props;
     lastActivityAt := match ConversationProps.lastActivityAt props with
                       | Some t => t
                       | None => default now (ConversationProps.createdAt props)
                       end;
     firstResponseAt := ConversationProps.firstResponseAt props;
     resolvedAt := ConversationProps.resolvedAt props;
     closedAt := ConversationProps.closedAt props;
     metadata := ConversationProps.metadata props;
     createdAt := default now (ConversationProps.createdAt props);
     updatedAt := default now (ConversationProps.updatedAt props);
     deletedAt := ConversationProps.deletedAt props;
     version := js_or (ConversationProps.version props) 1;
     tags := default [] (ConversationProps.tags props);
     notes := default [] (ConversationProps.notes props);
     participants := default [] (ConversationProps.participants props);
     mentions := default [] (ConversationProps.mentions props);
     domainEvents := [] |}.

Definition addDomainEvent (e : ConversationEvent) : M Conversation unit :=
  modify (λ c, c <| domainEvents ::= λ l, l ++ [e] |>).

Definition clearEvents : M Conversation unit := assign domainEvents [].

(** [Conversation.create]: construct and record the creation. *)
Definition create (now : Z) (id_ : string) (props : ConversationProps) : Conversation :=
  let c := new_Conversation now id_ props in
  c <| domainEvents := [ConversationCreatedEvent (tenantId c) (id c)
         (customerId c) (js_or (channelId c) "")] |>.

Definition touch (now : Z) : M Conversation unit :=
  assign updatedAt now ;;
  assign lastActivityAt now ;;
  modify (λ c, c <| version ::= λ v, v + 1 |>).

(** The argument of [update].  Its callers set a key only to a value. *)
Record ConversationPatch := {
  p_status : option ConversationStatusEnum;
  p_priority : option ConversationPriorityEnum;
  p_subject : option string;
  p_language : option string;
  p_sentiment : option ConversationSentimentEnum;
  p_assignedTeamId : option string;
  p_metadata : option (gmap string json);
  p_lastMessageAt : option Z;
}.
#[export] Instance ConversationPatch_Eta : Eta ConversationPatch := λ p,
  Build_ConversationPatch (p_status p) (p_priority p) (p_subject p)
    (p_language p) (p_sentiment p) (p_assignedTeamId p) (p_metadata p)
    (p_lastMessageAt p).

Definition no_patch : ConversationPatch :=
  Build_ConversationPatch None None None None None None None None.

(** A key of the spread that is set overwrites. *)
Definition put {A} (p : option A) (old : option A) : option A :=
  match p with Some a => Some a | None => old end.

Definition spread_patch (p : ConversationPatch) (c : Conversation) : Conversation :=
  c <| status := default (status c) (p_status p) |>
    <| priority := default (priority c) (p_priority p) |>
    <| subject ::= put (p_subject p) |>
    <| language := default (language c) (p_language p) |>
    <| sentiment := default (sentiment c) (p_sentiment p) |>
    <| assignedTeamId ::= put (p_assignedTeamId p) |>
    <| metadata ::= put (p_metadata p) |>
    <| lastMessageAt ::= put (p_lastMessageAt p) |>.

Definition update (now : Z) (props : ConversationPatch) : M Conversation unit :=
  modify (spread_patch props) ;;
  touch now ;;
  c ← gets (λ c, c);
  addDomainEvent (ConversationUpdatedEvent (tenantId c) (id c)
    (enum_str (status c)) (enum_str (priority c))).

Definition markFirstResponse (now : Z) : M Conversation unit :=
  r ← gets firstResponseAt;
  match r with
  | None => assign firstResponseAt (Some now) ;; touch now
  | Some _ => mret tt
  end.

Definition assignAgent (now : Z) (agentProfileId : string) (teamId : option string)
    : M Conversation unit :=
  assign assignedAgentId (Some agentProfileId) ;;
  when (truthy teamId) (assign assignedTeamId teamId) ;;
  assign status ASSIGNED ;;
  touch now ;;
  c ← gets (λ c, c);
  addDomainEvent (ConversationAssignedEvent (tenantId c) (id c) agentProfileId).

Definition transfer (now : Z) (toAgentProfileId : string) : M Conversation unit :=
  fromAgentId ← gets assignedAgentId;
  assign assignedAgentId (Some toAgentProfileId) ;;
  assign status ASSIGNED ;;
  touch now ;;
  c ← gets (λ c, c);
  addDomainEvent (ConversationTransferredEvent (tenantId c) (id c) fromAgentId
    toAgentProfileId).

Definition assignTeam (now : Z) (teamId : string) : M Conversation unit :=
  assign assignedTeamId (Some teamId) ;;
  touch now.

Definition resolve (now : Z) (resolvedBy : option string) : M Conversation unit :=
  assign status RESOLVED ;;
  assign resolvedAt (Some now) ;;
  touch now ;;
  c ← gets (λ c, c);
  addDomainEvent (ConversationResolvedEvent (tenantId c) (id c) resolvedBy).

Definition close (now : Z) (reason : option string) : M Conversation unit :=
  assign status CLOSED ;;
  assign closedAt (Some now) ;;
  touch now ;;
  c ← gets (λ c, c);
  addDomainEvent (ConversationClosedEvent (tenantId c) (id c) reason).

Definition archive (now : Z) : M Conversation unit :=
  assign status ARCHIVED ;;
  touch now ;;
  c ← gets (λ c, c);
  addDomainEvent (ConversationArchivedEvent (tenantId c) (id c)).

Definition addTag (now : Z) (x : ConversationTag) : M Conversation unit :=
  l ← gets tags;
  if some (λ t, String.eqb (tag t) (tag x)) l then mret tt
  else
    modify (λ c, c <| tags ::= λ l, l ++ [x] |>) ;;
    touch now ;;
    c ← gets (λ c, c);
    addDomainEvent (ConversationTaggedEvent (tenantId c) (id c) (tag x)).

Definition removeTag (now : Z) (tagValue : string) : M Conversation unit :=
  modify (λ c, c <| tags ::= js_filter (λ t, negb (String.eqb (tag t) tagValue)) |>) ;;
  touch now.

Definition addNote (now : Z) (n : ConversationNote) : M Conversation unit :=
  modify (λ c, c <| notes ::= λ l, l ++ [n] |>) ;;
  touch now ;;
  c ← gets (λ c, c);
  addDomainEvent (ConversationNoteAddedEvent (tenantId c) (id c) (note_id n)
    (authorId n)).

Definition addParticipant (now : Z) (p : ConversationParticipant) : M Conversation unit :=
  l ← gets participants;
  if some (λ q, String.eqb (participantId q) (participantId p)) l then mret tt
  else
    modify (λ c, c <| participants ::= λ l, l ++ [p] |>) ;;
    touch now.

Definition addMention (now : Z) (m : ConversationMention) : M Conversation unit :=
  modify (λ c, c <| mentions ::= λ l, l ++ [m] |>) ;;
  touch now.

Definition softDelete (now : Z) : M Conversation unit :=
  assign deletedAt (Some now) ;;
  touch now.
