(* ===== verification/ConversationRepo.v ===== *)
(** * The conversation repository

    [src/modules/conversations/repositories]: the rows, [ConversationMapper] and
    [DrizzleConversationRepository], over the conversation tables of
    [packages/database], in the style of the ticket repository.  What SQL
    computes, [ilike], the comparison of ids and [order by], is the class
    [ConvSql]; the limits on column lengths are not modelled. *)

From S2P Require Import Prelude Platform Conversation.
Open Scope Z_scope.

(** ** Rows *)
Record ConversationRow := {
  row_id : string;
  row_tenantId : string;
  row_customerId : string;
  row_channelId : option string;
  row_assignedAgentId : option string;
  row_assignedTeamId : option string;
  row_status : string;
  row_priority : string;
  row_subject : option string;
  row_language : string;
  row_sentiment : string;
  row_source : string;
  row_lastMessageAt : option Z;
  row_lastActivityAt : option Z;
  row_firstResponseAt : option Z;
  row_resolvedAt : option Z;
  row_closedAt : option Z;
  row_metadata : option (gmap string json);
  row_createdAt : Z;
  row_updatedAt : Z;
  row_deletedAt : option Z;
  row_version : Z;
}.
#[export] Instance ConversationRow_Eta : Eta ConversationRow := λ r,
  Build_ConversationRow (row_id r) (row_tenantId r) (row_customerId r)
    (row_channelId r) (row_assignedAgentId r) (row_assignedTeamId r)
    (row_status r) (row_priority r) (row_subject r) (row_language r)
    (row_sentiment r) (row_source r) (row_lastMessageAt r)
    (row_lastActivityAt r) (row_firstResponseAt r) (row_resolvedAt r)
    (row_closedAt r) (row_metadata r) (row_createdAt r) (row_updatedAt r)
    (row_deletedAt r) (row_version r).

Record ConversationAssignment := {
  assignment_id : string;
  assignment_tenantId : string;
  assignment_conversationId : string;
  assignment_agentProfileId : option string;
  assignment_teamId : option string;
  assignedAt : Z;
  assignedBy : option string;
  assignmentType : string;
  assignment_createdAt : Z;
  assignment_updatedAt : Z;
}.

(** A row of the read model, and the entity around it. *)
Record ConversationSummary := {
  summary_id : string;
  summary_tenantId : string;
  summary_conversationId : string;
  customerName : option string;
  customerAvatar : option string;
  lastMessage : option string;
  lastMessageType : option string;
  summary_lastMessageAt : option Z;
  unreadCount : Z;
  totalMessages : Z;
  totalAttachments : Z;
  sentimentScore : Z;
  summary_priority : option string;
  summary_status : option string;
  assignedAgentName : option string;
  assignedTeamName : option string;
  summary_createdAt : Z;
  summary_updatedAt : Z;
}.
#[export] Instance ConversationSummary_Eta : Eta ConversationSummary := λ s,
  Build_ConversationSummary (summary_id s) (summary_tenantId s)
    (summary_conversationId s) (customerName s) (customerAvatar s)
    (lastMessage s) (lastMessageType s) (summary_lastMessageAt s)
    (unreadCount s) (totalMessages s) (totalAttachments s) (sentimentScore s)
    (summary_priority s) (summary_status s) (assignedAgentName s)
    (assignedTeamName s) (summary_createdAt s) (summary_updatedAt s).

Record ConvDb := {
  c_conversations : gmap string ConversationRow;
  c_tags : list ConversationTag;
  c_notes : list ConversationNote;
  c_participants : list ConversationParticipant;
  c_mentions : list ConversationMention;
  c_assignments : list ConversationAssignment;
  c_summary : list ConversationSummary;
}.
#[export] Instance ConvDb_Eta : Eta ConvDb := λ d,
  Build_ConvDb (c_conversations d) (c_tags d) (c_notes d) (c_participants d)
    (c_mentions d) (c_assignments d) (c_summary d).

(** ** [ConversationMapper] *)
Module ConversationMapper.
Definition tagToDomain (raw : ConversationTag) : ConversationTag :=
  raw <| color ::= js_or_undef |>.

Definition noteToDomain (raw : ConversationNote) : ConversationNote :=
  {| note_id := note_id raw; note_tenantId := note_tenantId raw;
     note_conversationId := note_conversationId raw; authorId := authorId raw;
     note := note raw; visibility := js_or (Some (visibility raw)) "INTERNAL";
     note_createdAt := note_createdAt raw; note_updatedAt := note_updatedAt raw |}.

Definition participantToDomain (raw : ConversationParticipant) : ConversationParticipant := raw.

Definition mentionToDomain (raw : ConversationMention) : ConversationMention :=
  raw <| messageReference ::= js_or_undef |>.

Definition assignmentToDomain (raw : ConversationAssignment) : ConversationAssignment :=
  {| assignment_id := assignment_id raw;
     assignment_tenantId := assignment_tenantId raw;
     assignment_conversationId := assignment_conversationId raw;
     assignment_agentProfileId := js_or_undef (assignment_agentProfileId raw);
     assignment_teamId := js_or_undef (assignment_teamId raw);
     assignedAt := assignedAt raw;
     assignedBy := js_or_undef (assignedBy raw);
     assignmentType := js_or (Some (assignmentType raw)) "MANUAL";
     assignment_createdAt := assignment_createdAt raw;
     assignment_updatedAt := assignment_updatedAt raw |}.

Definition summaryToDomain (raw : ConversationSummary) : ConversationSummary :=
  raw <| customerName ::= js_or_undef |>
      <| customerAvatar ::= js_or_undef |>
      <| lastMessage ::= js_or_undef |>
      <| lastMessageType ::= js_or_undef |>
      <| summary_priority ::= js_or_undef |>
      <| summary_status ::= js_or_undef |>
      <| assignedAgentName ::= js_or_undef |>
      <| assignedTeamName ::= js_or_undef |>.

(** The creation date of a row is not null, so no default date is evaluated. *)
Definition toDomain (raw : ConversationRow) (rawTags : list ConversationTag)
    (rawNotes : list ConversationNote)
    (rawParticipants : list ConversationParticipant)
    (rawMentions : list ConversationMention) : result Conversation :=
  match ConversationStatus.create (row_status raw) with
  | Throw e => Throw e
  | Ok s =>
  match ConversationPriority.create (row_priority raw) with
  | Throw e => Throw e
  | Ok p =>
  match ConversationLanguage.create (js_or (Some (row_language raw)) "en") with
  | Throw e => Throw e
  | Ok lang =>
  match ConversationSentiment.create (js_or (Some (row_sentiment raw)) "NEUTRAL") with
  | Throw e => Throw e
  | Ok sent =>
  match ConversationSource.create (js_or (Some (row_source raw)) "API") with
  | Throw e => Throw e
  | Ok src => Ok (new_Conversation (row_createdAt raw) (row_id raw)
      {| ConversationProps.tenantId := row_tenantId raw;
         ConversationProps.customerId := row_customerId raw;
         ConversationProps.channelId := js_or_undef (row_channelId raw);
         ConversationProps.assignedAgentId := js_or_undef (row_assignedAgentId raw);
         ConversationProps.assignedTeamId := js_or_undef (row_assignedTeamId raw);
         ConversationProps.status := s; ConversationProps.priority := p;
         ConversationProps.subject := js_or_undef (row_subject raw);
         ConversationProps.language := lang;
         ConversationProps.sentiment := sent; ConversationProps.source := src;
         ConversationProps.lastMessageAt := row_lastMessageAt raw;
         ConversationProps.lastActivityAt := row_lastActivityAt raw;
         ConversationProps.firstResponseAt := row_firstResponseAt raw;
         ConversationProps.resolvedAt := row_resolvedAt raw;
         ConversationProps.closedAt := row_closedAt raw;
         ConversationProps.metadata := Some (default ∅ (row_metadata raw));
         ConversationProps.createdAt := Some (row_createdAt raw);
         ConversationProps.updatedAt := Some (row_updatedAt raw);
         ConversationProps.deletedAt := row_deletedAt raw;
         ConversationProps.version := Some (js_or (Some (row_version raw)) 1);
         ConversationProps.tags := Some (tagToDomain <$> rawTags);
         ConversationProps.notes := Some (noteToDomain <$> rawNotes);
         ConversationProps.participants := Some (participantToDomain <$> rawParticipants);
         ConversationProps.mentions := Some (mentionToDomain <$> rawMentions) |})
  end end end end end.
End ConversationMapper.

(** ** Statements *)
Definition owns (tenant : string) (r : ConversationRow) : bool :=
  String.eqb (row_tenantId r) tenant.

Definition select_conversation (id tenant : string) (d : ConvDb) : option ConversationRow :=
  match c_conversations d !! id with
  | Some r => if owns tenant r then Some r else None
  | None => None
  end.

Definition tags_of (cid tenant : string) (d : ConvDb) : list ConversationTag :=
  js_filter (λ x, String.eqb (tag_conversationId x) cid
                  && String.eqb (tag_tenantId x) tenant) (c_tags d).
Definition notes_of (cid tenant : string) (d : ConvDb) : list ConversationNote :=
  js_filter (λ x, String.eqb (note_conversationId x) cid
                  && String.eqb (note_tenantId x) tenant) (c_notes d).
Definition participants_of (cid tenant : string) (d : ConvDb) : list ConversationParticipant :=
  js_filter (λ x, String.eqb (participant_conversationId x) cid
                  && String.eqb (participant_tenantId x) tenant) (c_participants d).
Definition mentions_of (cid tenant : string) (d : ConvDb) : list ConversationMention :=
  js_filter (λ x, String.eqb (mention_conversationId x) cid
                  && String.eqb (mention_tenantId x) tenant) (c_mentions d).

Definition find_conversation (id tenant : string) (d : ConvDb)
    : result (option Conversation) :=
  match select_conversation id tenant d with
  | None => Ok None
  | Some row => result_map Some
      (ConversationMapper.toDomain row (tags_of id tenant d) (notes_of id tenant d)
         (participants_of id tenant d) (mentions_of id tenant d))
  end.

(** Rows mapped without their children; a row that does not map throws. *)
Fixpoint rows_toDomain (rows : list ConversationRow) : result (list Conversation) :=
  match rows with
  | [] => Ok []
  | r :: rs =>
      match ConversationMapper.toDomain r [] [] [] [] with
      | Throw e => Throw e
      | Ok c => result_map (cons c) (rows_toDomain rs)
      end
  end.

Definition live (tenant : string) (r : ConversationRow) : bool :=
  owns tenant r && bool_decide (row_deletedAt r = None).

Definition all_rows (d : ConvDb) : list ConversationRow :=
  snd <$> map_to_list (c_conversations d).

Definition find_all (tenant : string) (d : ConvDb) : result (list Conversation) :=
  rows_toDomain (js_filter (live tenant) (all_rows d)).

(** *** [save] *)

(** The [raw] object with its two dates. *)
Definition row_of (c : Conversation) (created updated : Z) : ConversationRow :=
  {| row_id := id c; row_tenantId := tenantId c; row_customerId := customerId c;
     row_channelId := js_or_undef (channelId c);
     row_assignedAgentId := js_or_undef (assignedAgentId c);
     row_assignedTeamId := js_or_undef (assignedTeamId c);
     row_status := enum_str (status c); row_priority := enum_str (priority c);
     row_subject := js_or_undef (subject c); row_language := language c;
     row_sentiment := enum_str (sentiment c); row_source := source c;
     row_lastMessageAt := lastMessageAt c;
     row_lastActivityAt := Some (lastActivityAt c);
     row_firstResponseAt := firstResponseAt c; row_resolvedAt := resolvedAt c;
     row_closedAt := closedAt c; row_metadata := metadata c;
     row_createdAt := created; row_updatedAt := updated;
     row_deletedAt := deletedAt c; row_version := version c |}.

Definition unique_violation : exn :=
  Exn JsError "duplicate key value violates unique constraint".

Definition write_row (now : Z) (c : Conversation) (tenant : string) (d : ConvDb)
    : result ConversationRow :=
  match select_conversation (id c) tenant d with
  | Some old => Ok (row_of c (row_createdAt old) now)
  | None =>
      match c_conversations d !! id c with
      | Some _ => Throw unique_violation
      | None => Ok (row_of c (createdAt c) (createdAt c))
      end
  end.

(** [onConflictDoNothing] on the unique keys of each child table. *)
Definition insert_new {A} (conflict : A → A → bool) (x : A) (l : list A) : list A :=
  if some (conflict x) l then l else l ++ [x].

Definition tag_conflict (x y : ConversationTag) : bool :=
  String.eqb (tag_id y) (tag_id x)
  || String.eqb (tag_tenantId y) (tag_tenantId x)
     && String.eqb (tag_conversationId y) (tag_conversationId x)
     && String.eqb (tag y) (tag x).
Definition note_conflict (x y : ConversationNote) : bool :=
  String.eqb (note_id y) (note_id x).
Definition participant_conflict (x y : ConversationParticipant) : bool :=
  String.eqb (participant_row_id y) (participant_row_id x)
  || String.eqb (participant_tenantId y) (participant_tenantId x)
     && String.eqb (participant_conversationId y) (participant_conversationId x)
     && String.eqb (participantId y) (participantId x).
Definition mention_conflict (x y : ConversationMention) : bool :=
  String.eqb (mention_id y) (mention_id x).

Definition insert_all {A} (conflict : A → A → bool) (xs l : list A) : list A :=
  foldl (λ l x, insert_new conflict x l) l xs.

Definition save_conversation (now : Z) (c : Conversation) (tenant : string) (d : ConvDb)
    : result ConvDb :=
  match write_row now c tenant d with
  | Throw e => Throw e
  | Ok row => Ok
      (d <| c_conversations ::= <[id c := row]> |>
         <| c_tags ::= insert_all tag_conflict
              ((λ x, x <| color ::= js_or_undef |>) <$> tags c) |>
         <| c_notes ::= insert_all note_conflict (notes c) |>
         <| c_participants ::= insert_all participant_conflict (participants c) |>
         <| c_mentions ::= insert_all mention_conflict
              ((λ x, x <| messageReference ::= js_or_undef |>) <$> mentions c) |>)
  end.

(** [delete]: a soft delete that also archives. *)
Definition delete_conversation (now : Z) (id tenant : string) (d : ConvDb) : ConvDb :=
  match select_conversation id tenant d with
  | None => d
  | Some row => d <| c_conversations ::= <[id := row
      <| row_deletedAt := Some now |>
      <| row_status := enum_str ConversationStatusEnum.ARCHIVED |>
      <| row_updatedAt := now |>]> |>
  end.

(** *** Queries *)
Inductive order_column := by_lastActivityAt | by_priority | by_createdAt | by_lastMessageAt.

Class ConvSql := {
  ilike : string → string → bool;
  id_gt : string → string → bool;
  order_rows : order_column → bool → list ConversationRow → list ConversationRow;
  order_rows_perm : ∀ col asc l, order_rows col asc l ≡ₚ l;
}.

Record ConversationQueryOptions := {
  q_page : option Z;
  q_limit : option Z;
  q_cursor : option string;
  q_sortBy : option string;
  q_sortOrder : option string;
  q_status : option string;
  q_priority : option string;
  q_assignedAgentId : option string;
  q_assignedTeamId : option string;
  q_customerId : option string;
  q_channelId : option string;
  q_search : option string;
  q_unassigned : option bool;
}.
#[export] Instance ConversationQueryOptions_Eta : Eta ConversationQueryOptions := λ q,
  Build_ConversationQueryOptions (q_page q) (q_limit q) (q_cursor q) (q_sortBy q)
    (q_sortOrder q) (q_status q) (q_priority q) (q_assignedAgentId q)
    (q_assignedTeamId q) (q_customerId q) (q_channelId q) (q_search q)
    (q_unassigned q).
Definition no_options : ConversationQueryOptions :=
  Build_ConversationQueryOptions None None None None None None None None None
    None None None None.

(** [if (opt) conditions.push(eq(column, opt))] *)
Definition eq_condition (opt column : option string) : bool :=
  match js_or_undef opt with
  | Some v => bool_decide (column = Some v)
  | None => true
  end.

Section queries.
Context `{ConvSql}.

Definition matches (tenant : string) (q : ConversationQueryOptions) (r : ConversationRow) : bool :=
  live tenant r
  && eq_condition (q_status q) (Some (row_status r))
  && eq_condition (q_priority q) (Some (row_priority r))
  && eq_condition (q_customerId q) (Some (row_customerId r))
  && eq_condition (q_channelId q) (row_channelId r)
  && eq_condition (q_assignedAgentId q) (row_assignedAgentId r)
  && eq_condition (q_assignedTeamId q) (row_assignedTeamId r)
  && (if truthy (q_unassigned q) then bool_decide (row_assignedAgentId r = None) else true)
  && match js_or_undef (q_search q) with
     | Some s => match row_subject r with
                 | Some subj => ilike subj ("%" +:+ s +:+ "%")
                 | None => false
                 end
     | None => true
     end
  && match js_or_undef (q_cursor q) with
     | Some c => id_gt (row_id r) c
     | None => true
     end.

Definition order_by (q : ConversationQueryOptions) : order_column :=
  match q_sortBy q with
  | Some "priority" => by_priority
  | Some "createdAt" => by_createdAt
  | Some "lastMessageAt" => by_lastMessageAt
  | _ => by_lastActivityAt
  end.

(** The page: its rows, the number of matching rows and the next cursor. *)
Definition find_paginated (tenant : string) (q : ConversationQueryOptions) (d : ConvDb)
    : result (list Conversation * Z * option string) :=
  let limit := js_or (q_limit q) 20 in
  let page := js_or (q_page q) 1 in
  let offset := if truthy (q_cursor q) then 0 else (page - 1) * limit in
  let matching := js_filter (matches tenant q) (all_rows d) in
  let rows := take (Z.to_nat limit) (drop (Z.to_nat offset)
    (order_rows (order_by q) (bool_decide (q_sortOrder q = Some "ASC")) matching)) in
  let nextCursor := if Z.of_nat (length rows) =? limit
                    then row_id <$> last rows else None in
  result_map (λ data, (data, Z.of_nat (length matching), nextCursor))
    (rows_toDomain rows).

Definition search_conversations (tenant query : string) (limit : Z) (d : ConvDb)
    : result (list Conversation) :=
  let pattern := "%" +:+ query +:+ "%" in
  let hit r := live tenant r
    && (match row_subject r with Some s => ilike s pattern | None => false end
        || ilike (row_source r) pattern) in
  rows_toDomain (take (Z.to_nat limit) (js_filter hit (all_rows d))).
End queries.

(** *** Child tables *)
Definition add_assignment (a : ConversationAssignment) (tenant : string) (d : ConvDb)
    : result ConvDb :=
  if some (λ x, String.eqb (assignment_id x) (assignment_id a)) (c_assignments d)
  then Throw unique_violation
  else Ok (d <| c_assignments ::= λ l, l ++
    [{| assignment_id := assignment_id a; assignment_tenantId := tenant;
        assignment_conversationId := assignment_conversationId a;
        assignment_agentProfileId := js_or_undef (assignment_agentProfileId a);
        assignment_teamId := js_or_undef (assignment_teamId a);
        assignedAt := assignedAt a; assignedBy := js_or_undef (assignedBy a);
        assignmentType := assignmentType a;
        assignment_createdAt := assignment_createdAt a;
        assignment_updatedAt := assignment_updatedAt a |}] |>).

Definition remove_tag (cid tagValue tenant : string) (d : ConvDb) : ConvDb :=
  d <| c_tags ::= js_filter (λ x, negb
         (String.eqb (tag_conversationId x) cid && String.eqb (tag x) tagValue
          && String.eqb (tag_tenantId x) tenant)) |>.

Definition find_tags (cid tenant : string) (d : ConvDb) : list ConversationTag :=
  ConversationMapper.tagToDomain <$> tags_of cid tenant d.

Definition find_mentions (cid tenant : string) (d : ConvDb) : list ConversationMention :=
  ConversationMapper.mentionToDomain <$> mentions_of cid tenant d.

Definition is_summary (cid tenant : string) (s : ConversationSummary) : bool :=
  String.eqb (summary_conversationId s) cid && String.eqb (summary_tenantId s) tenant.

Definition get_summary (cid tenant : string) (d : ConvDb) : option ConversationSummary :=
  ConversationMapper.summaryToDomain <$> js_find (is_summary cid tenant) (c_summary d).

Definition upsert_summary (now : Z) (s : ConversationSummary) (tenant : string) (d : ConvDb)
    : result ConvDb :=
  let raw := ConversationMapper.summaryToDomain s
    <| summary_tenantId := tenant |> <| summary_updatedAt := now |> in
  let mine := is_summary (summary_conversationId s) tenant in
  if some mine (c_summary d) then
    Ok (d <| c_summary ::= fmap (λ x,
      if mine x then raw <| summary_createdAt := summary_createdAt x |> else x) |>)
  else if some (λ x, String.eqb (summary_id x) (summary_id s)) (c_summary d)
  then Throw unique_violation
  else Ok (d <| c_summary ::= λ l, l ++ [raw] |>).
