(* ===== verification/ConversationStore.v ===== *)
(** * What the conversation services share

    The repository as effects, [conversation-event.publisher.ts],
    [conversation-summary.service.ts], the [persist] and [getOrThrow] helpers,
    and the modules the services call, which are the parameters of [ConvDeps].
    The [occurredAt] stamp of an event is left out of its payload. *)

From S2P Require Import Prelude Platform Conversation ConversationRepo.
Open Scope Z_scope.

Abbreviation ConvW := (World ConvDb).

(** What the summary reads of a customer. *)
Record CustomerCard := {
  displayName : option string;
  card_syntheticEmail : bool;
  externalCustomerId : option string;
  card_email : string;
  avatarUrl : option string;
}.

(** The other modules.  Reads are functions of their arguments; the calls with
    effects write no conversation table. *)
Class ConvDeps := {
  customer_card : string → string → result CustomerCard;
  agent_displayName : string → string → result (option string);
  team_name : string → string → result (option string);
  enforceLimit : string → string → Z → M ConvW unit;
  enforceLimit_db : ∀ tenant resource n, keeps (same db) (enforceLimit tenant resource n);
  (** [AgentAssignmentService.assignEntity] for a conversation of this weight. *)
  assign_entity : string → string → string → Z → M ConvW string;
  assign_entity_db : ∀ tenant team entity w, keeps (same db) (assign_entity tenant team entity w);
  (** Tenant and profile of each offline agent. *)
  offline_agents : option string → list (string * string);
  inbox_invalidate : string → M ConvW unit;
  inbox_invalidate_db : ∀ tenant, keeps (same db) (inbox_invalidate tenant);
  processInboundMessage : string → string → string → option string → bool → M ConvW unit;
  processInboundMessage_db : ∀ t m c x b, keeps (same db) (processInboundMessage t m c x b);
}.
#[export] Hint Resolve enforceLimit_db assign_entity_db inbox_invalidate_db
  processInboundMessage_db : keeps.

(** *** Domain events on the wire *)
Definition event_name (e : ConversationEvent) : string :=
  match e with
  | ConversationCreatedEvent _ _ _ _ => "conversation.created"
  | ConversationUpdatedEvent _ _ _ _ => "conversation.updated"
  | ConversationAssignedEvent _ _ _ => "conversation.assigned"
  | ConversationTransferredEvent _ _ _ _ => "conversation.transferred"
  | ConversationTaggedEvent _ _ _ => "conversation.tagged"
  | ConversationNoteAddedEvent _ _ _ _ => "conversation.note_added"
  | ConversationResolvedEvent _ _ _ => "conversation.resolved"
  | ConversationClosedEvent _ _ _ => "conversation.closed"
  | ConversationArchivedEvent _ _ => "conversation.archived"
  | ConversationResolutionStartedEvent _ _ _ => "conversation.resolution.started"
  | CustomerNotifiedOnResolutionEvent _ _ _ _ => "customer.notified.resolution"
  end.

Definition getAggregateId (e : ConversationEvent) : string :=
  match e with
  | ConversationCreatedEvent _ i _ _ | ConversationUpdatedEvent _ i _ _
  | ConversationAssignedEvent _ i _ | ConversationTransferredEvent _ i _ _
  | ConversationTaggedEvent _ i _ | ConversationNoteAddedEvent _ i _ _
  | ConversationResolvedEvent _ i _ | ConversationClosedEvent _ i _
  | ConversationArchivedEvent _ i | ConversationResolutionStartedEvent _ i _
  | CustomerNotifiedOnResolutionEvent _ i _ _ => i
  end.

Definition event_tenant (e : ConversationEvent) : string :=
  match e with
  | ConversationCreatedEvent t _ _ _ | ConversationUpdatedEvent t _ _ _
  | ConversationAssignedEvent t _ _ | ConversationTransferredEvent t _ _ _
  | ConversationTaggedEvent t _ _ | ConversationNoteAddedEvent t _ _ _
  | ConversationResolvedEvent t _ _ | ConversationClosedEvent t _ _
  | ConversationArchivedEvent t _ | ConversationResolutionStartedEvent t _ _
  | CustomerNotifiedOnResolutionEvent t _ _ _ => t
  end.

Definition SUMMARY_TRIGGER_EVENTS : list string :=
  ["conversation.created"; "conversation.updated"; "conversation.assigned";
   "conversation.transferred"; "conversation.resolved"; "conversation.closed";
   "conversation.archived"].
Definition INBOX_PROJECTION_EVENTS : list string :=
  ["conversation.created"; "conversation.updated"].

(** The event as a payload: only the projected events are sent whole. *)
Definition event_payload (e : ConversationEvent) : list (string * json) :=
  match e with
  | ConversationCreatedEvent t i cu ch =>
      [("tenantId", JStr t); ("conversationId", JStr i);
       ("customerId", JStr cu); ("channelId", JStr ch)]
  | ConversationUpdatedEvent t i s p =>
      [("tenantId", JStr t); ("conversationId", JStr i); ("status", JStr s);
       ("priority", JStr p)]
  | _ => []
  end.

Definition SENTIMENT_SCORE (s : ConversationSentimentEnum) : Z :=
  match s with
  | ConversationSentimentEnum.POSITIVE => 1
  | ConversationSentimentEnum.NEUTRAL => 0
  | ConversationSentimentEnum.NEGATIVE => -1
  end.

Section store.
Context `{Env, ConvSql, ConvDeps}.

(** *** [IConversationRepository] *)
Definition findById (id tenantId : string) : M ConvW (option Conversation) :=
  d ← gets db;
  of_result (find_conversation id tenantId d).

Definition findPaginated (tenantId : string) (q : ConversationQueryOptions)
    : M ConvW (list Conversation * Z * option string) :=
  d ← gets db;
  of_result (find_paginated tenantId q d).

(** A statement, or a transaction: the tables change only if it succeeds. *)
Definition write (f : Z → ConvDb → result ConvDb) : M ConvW unit :=
  now ← new_Date;
  d ← gets db;
  d' ← of_result (f now d);
  assign db d'.

Definition save (c : Conversation) (tenantId : string) : M ConvW unit :=
  write (λ now, save_conversation now c tenantId).
Definition repo_delete (id tenantId : string) : M ConvW unit :=
  write (λ now d, Ok (delete_conversation now id tenantId d)).
Definition addAssignment (a : ConversationAssignment) (tenantId : string) : M ConvW unit :=
  write (λ _, add_assignment a tenantId).
Definition repo_removeTag (cid tagValue tenantId : string) : M ConvW unit :=
  write (λ _ d, Ok (remove_tag cid tagValue tenantId d)).
Definition upsertSummary (s : ConversationSummary) (tenantId : string) : M ConvW unit :=
  write (λ now, upsert_summary now s tenantId).

(** *** [ConversationEventPublisher] *)
Definition publish (event : ConversationEvent) : M ConvW unit :=
  let eventName := event_name event in
  let cid := getAggregateId event in
  try_catch
    (when (bool_decide (eventName ∈ SUMMARY_TRIGGER_EVENTS))
       (addJob CONVERSATION "conversation-summary-job"
          [("conversationId", JStr cid)] (λ o, o) ;;
        addJob CONVERSATION "conversation-analytics-job"
          [("conversationId", JStr cid); ("eventName", JStr eventName)] (λ o, o)) ;;
     when (bool_decide (eventName ∈ INBOX_PROJECTION_EVENTS))
       (addJob INBOX "inbox-projection-job"
          [("tenantId", JStr (event_tenant event)); ("eventName", JStr eventName);
           ("aggregateId", JStr cid); ("conversationId", JStr cid);
           ("payload", JObj (event_payload event))] (λ o, o)))
    (λ _, mret tt).

Definition publishAll (events : list ConversationEvent) : M ConvW unit :=
  for_each events publish.

(** *** [ConversationSummaryService.rebuild] *)
Definition names_of (tenantId : string) (c : Conversation) : option string * option string :=
  match customer_card tenantId (customerId c) with
  | Ok card => (match js_or_undef (displayName card) with
                | Some n => Some n
                | None => if card_syntheticEmail card then externalCustomerId card
                          else Some (card_email card)
                end, avatarUrl card)
  | Throw _ => (None, None)
  end.

(** A name looked up for an id that may be missing; a failing lookup gives none. *)
Definition lookup_name (find : string → result (option string)) (id_ : option string)
    : option string :=
  match js_or_undef id_ with
  | Some i => match find i with Ok n => n | Throw _ => None end
  | None => None
  end.

Definition summary_of (sid tenantId : string) (now : Z) (c : Conversation)
    (existing : option ConversationSummary) : ConversationSummary :=
  let names := names_of tenantId c in
  {| summary_id := sid; summary_tenantId := tenantId; summary_conversationId := id c;
     customerName := names.1; customerAvatar := names.2;
     lastMessage := existing ≫= lastMessage;
     lastMessageType := existing ≫= lastMessageType;
     summary_lastMessageAt := match lastMessageAt c with
                              | Some t => Some t
                              | None => existing ≫= summary_lastMessageAt
                              end;
     unreadCount := default 0 (unreadCount <$> existing);
     totalMessages := default 0 (totalMessages <$> existing);
     totalAttachments := default 0 (totalAttachments <$> existing);
     sentimentScore := SENTIMENT_SCORE (sentiment c);
     summary_priority := Some (enum_str (priority c));
     summary_status := Some (enum_str (status c));
     assignedAgentName := lookup_name (agent_displayName tenantId) (assignedAgentId c);
     assignedTeamName := lookup_name (team_name tenantId) (assignedTeamId c);
     summary_createdAt := default now (summary_createdAt <$> existing);
     summary_updatedAt := now |}.

Definition rebuild (tenantId conversationId : string)
    : M ConvW (option ConversationSummary) :=
  conversation ← findById conversationId tenantId;
  match conversation with
  | None => mret None
  | Some c =>
      existing ← gets (λ w, get_summary conversationId tenantId (db w));
      sid ← match js_or_undef (summary_id <$> existing) with
            | Some i => mret i
            | None => randomUUID
            end;
      now ← new_Date;
      let summary := summary_of sid tenantId now c existing in
      upsertSummary summary tenantId ;;
      mret (Some summary)
  end.

(** *** Helpers of the services *)
Definition persist (c : Conversation) (tenantId : string) : M ConvW Conversation :=
  save c tenantId ;;
  rebuild tenantId (id c) ;;
  publishAll (domainEvents c) ;;
  exec clearEvents c.

(** The note and tag services save and publish without rebuilding. *)
Definition persist_quietly (c : Conversation) (tenantId : string) : M ConvW Conversation :=
  save c tenantId ;;
  publishAll (domainEvents c) ;;
  exec clearEvents c.

Definition conversation_not_found (id : string) : exn :=
  Exn NotFoundException ("Conversation with ID " +:+ id +:+ " not found").

Definition getOrThrow (tenantId id : string) : M ConvW Conversation :=
  c ← findById id tenantId;
  match c with
  | Some c => mret c
  | None => throw (conversation_not_found id)
  end.
End store.

(** ** Frames *)
Section frames.
Context `{Env, ConvSql, ConvDeps}.

Lemma conv_findById_db i t : keeps (same db) (findById i t).
Proof. unfold findById. solve_keeps. Qed.
Lemma findPaginated_db t q : keeps (same db) (findPaginated t q).
Proof. unfold findPaginated. solve_keeps. Qed.
Lemma conv_getOrThrow_db t i : keeps (same db) (getOrThrow t i).
Proof. unfold getOrThrow, findById. solve_keeps. Qed.
Lemma conv_publish_db e : keeps (same db) (publish e).
Proof. unfold publish. solve_keeps. Qed.
Lemma conv_publishAll_db l : keeps (same db) (publishAll l).
Proof. unfold publishAll, publish. solve_keeps. Qed.
End frames.
#[export] Hint Resolve conv_findById_db findPaginated_db conv_getOrThrow_db conv_publish_db
  conv_publishAll_db : keeps.
