(* ===== verification/ConversationService.v ===== *)
(** * The conversation services

    [src/modules/conversations/services] and the conversation worker: the life of
    a conversation, its assignment, notes, mentions and tags. *)

From S2P Require Import Prelude Platform Conversation ConversationRepo.
From S2P Require Import ConversationStore.
Import ConversationStatusEnum.
Open Scope Z_scope.

Record CreateConversationDto := {
  d_customerId : string;
  d_channelId : option string;
  d_assignedAgentId : option string;
  d_assignedTeamId : option string;
  d_priority : option string;
  d_subject : option string;
  d_language : option string;
  d_source : option string;
  d_metadata : option (gmap string json);
}.

Record UpdateConversationDto := {
  u_status : option string;
  u_priority : option string;
  u_subject : option string;
  u_language : option string;
  u_sentiment : option string;
  u_assignedTeamId : option string;
  u_metadata : option (gmap string json);
}.

(** [if (x !== undefined) props.k = f(x)] *)
Definition maybe {A} (f : string → result A) (x : option string) : result (option A) :=
  match x with
  | None => Ok None
  | Some raw => result_map Some (f raw)
  end.

Definition update_literal (dto : UpdateConversationDto) : result ConversationPatch :=
  match maybe ConversationStatus.create (u_status dto) with
  | Throw e => Throw e
  | Ok s =>
  match maybe ConversationPriority.create (u_priority dto) with
  | Throw e => Throw e
  | Ok p =>
  match maybe ConversationLanguage.create (u_language dto) with
  | Throw e => Throw e
  | Ok l =>
  match maybe ConversationSentiment.create (u_sentiment dto) with
  | Throw e => Throw e
  | Ok m => Ok
      {| p_status := s; p_priority := p; p_subject := u_subject dto;
         p_language := l; p_sentiment := m;
         p_assignedTeamId := u_assignedTeamId dto;
         p_metadata := u_metadata dto; p_lastMessageAt := None |}
  end end end end.

(** [{ metadata }] *)
Definition metadata_patch (m : gmap string json) : ConversationPatch :=
  no_patch <| p_metadata := Some m |>.

Definition conversation_props (tenantId customerId_ : string) (channel agent team : option string)
    (s : ConversationStatusEnum) (p : ConversationPriorityEnum) (subj : option string)
    (lang : string) (sent : ConversationSentimentEnum) (src : string)
    (m : gmap string json) : ConversationProps :=
  {| ConversationProps.tenantId := tenantId; ConversationProps.customerId := customerId_;
     ConversationProps.channelId := channel; ConversationProps.assignedAgentId := agent;
     ConversationProps.assignedTeamId := team; ConversationProps.status := s;
     ConversationProps.priority := p; ConversationProps.subject := subj;
     ConversationProps.language := lang; ConversationProps.sentiment := sent;
     ConversationProps.source := src; ConversationProps.lastMessageAt := None;
     ConversationProps.lastActivityAt := None; ConversationProps.firstResponseAt := None;
     ConversationProps.resolvedAt := None; ConversationProps.closedAt := None;
     ConversationProps.metadata := Some m; ConversationProps.createdAt := None;
     ConversationProps.updatedAt := None; ConversationProps.deletedAt := None;
     ConversationProps.version := None; ConversationProps.tags := None;
     ConversationProps.notes := None; ConversationProps.participants := None;
     ConversationProps.mentions := None |}.

Section conversation_service.
Context `{Env, ConvSql, ConvDeps}.

Definition create_conversation (tenantId : string) (dto : CreateConversationDto)
    (userId : option string) : M ConvW Conversation :=
  of_result (customer_card tenantId (d_customerId dto)) ;;
  '(_, currentConversations, _) ← findPaginated tenantId (no_options <| q_limit := Some 1 |>);
  enforceLimit tenantId "conversations" currentConversations ;;
  conversationId ← randomUUID;
  let initialStatus := if truthy (d_assignedAgentId dto) then ASSIGNED else OPEN in
  s ← of_result (ConversationStatus.create (enum_str initialStatus));
  p ← of_result (ConversationPriority.create (js_or (d_priority dto) "MEDIUM"));
  l ← of_result (ConversationLanguage.create (js_or (d_language dto) "en"));
  m ← of_result (ConversationSentiment.create "NEUTRAL");
  src ← of_result (ConversationSource.create (js_or (d_source dto) "API"));
  now ← new_Date;
  let conversation := create now conversationId
    (conversation_props tenantId (d_customerId dto) (d_channelId dto)
       (d_assignedAgentId dto) (d_assignedTeamId dto) s p (d_subject dto) l m src
       (default ∅ (d_metadata dto))) in
  pid ← randomUUID;
  now ← new_Date;
  conversation ← exec (addParticipant now
    {| participant_row_id := pid; participant_tenantId := tenantId;
       participant_conversationId := conversationId;
       participantId := d_customerId dto; participantType := "CUSTOMER";
       joinedAt := now; leftAt := None; participant_createdAt := now;
       participant_updatedAt := now |}) conversation;
  conversation ← persist conversation tenantId;
  audit_log tenantId userId "CONVERSATION_CREATE"
    ("Created conversation " +:+ conversationId +:+ " for customer " +:+ d_customerId dto) ;;
  mret conversation.

Definition update_conversation (tenantId id_ : string) (dto : UpdateConversationDto)
    (userId : option string) : M ConvW Conversation :=
  conversation ← getOrThrow tenantId id_;
  props ← of_result (update_literal dto);
  now ← new_Date;
  conversation ← exec (update now props) conversation;
  conversation ← persist conversation tenantId;
  audit_log tenantId userId "CONVERSATION_UPDATE" ("Updated conversation " +:+ id_) ;;
  mret conversation.

Definition resolve_conversation (tenantId id_ : string) (userId : option string)
    : M ConvW Conversation :=
  conversation ← getOrThrow tenantId id_;
  now ← new_Date;
  conversation ← exec (resolve now userId) conversation;
  conversation ← persist conversation tenantId;
  audit_log tenantId userId "CONVERSATION_RESOLVE" ("Resolved conversation " +:+ id_) ;;
  mret conversation.

Definition close_conversation (tenantId id_ : string) (reason userId : option string)
    : M ConvW Conversation :=
  conversation ← getOrThrow tenantId id_;
  now ← new_Date;
  conversation ← exec (close now reason) conversation;
  conversation ← persist conversation tenantId;
  audit_log tenantId userId "CONVERSATION_CLOSE" ("Closed conversation " +:+ id_) ;;
  mret conversation.

(** The loops of the bulk operations: done, and the ids that failed. *)
Definition bulk_each {A} (one : string → M ConvW A) (ids : list string)
    : M ConvW (Z * list string) :=
  fold_each ids (0, []) (λ acc i,
    try_catch (one i ;; mret (acc.1 + 1, acc.2))
      (λ _, mret (acc.1, acc.2 ++ [i]))).

Definition bulkResolve (tenantId : string) (ids : list string) (userId : option string)
    : M ConvW (Z * list string) :=
  bulk_each (λ i, resolve_conversation tenantId i userId) ids.

Definition bulkClose (tenantId : string) (ids : list string) (reason userId : option string)
    : M ConvW (Z * list string) :=
  bulk_each (λ i, close_conversation tenantId i reason userId) ids.

Definition archive_conversation (tenantId id_ : string) (userId : option string)
    : M ConvW Conversation :=
  conversation ← getOrThrow tenantId id_;
  now ← new_Date;
  conversation ← exec (archive now) conversation;
  conversation ← persist conversation tenantId;
  audit_log tenantId userId "CONVERSATION_ARCHIVE" ("Archived conversation " +:+ id_) ;;
  mret conversation.

Definition delete (tenantId id_ : string) (userId : option string) : M ConvW bool :=
  conversation ← getOrThrow tenantId id_;
  now ← new_Date;
  exec (softDelete now) conversation ;;
  repo_delete id_ tenantId ;;
  audit_log tenantId userId "CONVERSATION_DELETE" ("Soft deleted conversation " +:+ id_) ;;
  mret true.

Definition merge (tenantId sourceId targetId : string) (userId : option string)
    : M ConvW Conversation :=
  source ← getOrThrow tenantId sourceId;
  target ← getOrThrow tenantId targetId;
  let tm := default ∅ (metadata target) in
  ids ← of_result (spread_array (tm !! "mergedConversationIds"));
  now ← new_Date;
  target ← exec (update now (metadata_patch
    (<["mergedConversationIds" := JArr (ids ++ [JStr sourceId])]> tm))) target;
  now ← new_Date;
  source ← exec (update now (metadata_patch
    (<["mergedInto" := JStr targetId]> (default ∅ (metadata source))))) source;
  now ← new_Date;
  source ← exec (archive now) source;
  target ← persist target tenantId;
  persist source tenantId ;;
  audit_log tenantId userId "CONVERSATION_MERGE"
    ("Merged conversation " +:+ sourceId +:+ " into " +:+ targetId) ;;
  mret target.

Definition split (tenantId id_ : string) (userId : option string) : M ConvW Conversation :=
  origin ← getOrThrow tenantId id_;
  newId ← randomUUID;
  s ← of_result (ConversationStatus.create (enum_str OPEN));
  p ← of_result (ConversationPriority.create (enum_str (priority origin)));
  l ← of_result (ConversationLanguage.create (language origin));
  m ← of_result (ConversationSentiment.create (enum_str (sentiment origin)));
  src ← of_result (ConversationSource.create (source origin));
  now ← new_Date;
  let newConversation := create now newId
    (conversation_props tenantId (customerId origin) (channelId origin) None None
       s p ((λ x, x +:+ " (split)") <$> js_or_undef (subject origin)) l m src
       {[ "splitFrom" := JStr id_ ]}) in
  newConversation ← persist newConversation tenantId;
  audit_log tenantId userId "CONVERSATION_SPLIT"
    ("Split conversation " +:+ id_ +:+ " into " +:+ newId) ;;
  mret newConversation.

(** ** [ConversationAssignmentService] *)
Definition ACTIVE_CONVERSATION_STATUSES : list ConversationStatusEnum :=
  [OPEN; PENDING; ASSIGNED; WAITING_CUSTOMER; WAITING_AGENT].

Definition notifyAssignedAgent (tenantId agentId conversationId : string) : M ConvW unit :=
  try_catch
    (addJob NOTIFICATION "conversation-assigned"
       [("tenantId", JStr tenantId); ("agentId", JStr agentId);
        ("conversationId", JStr conversationId)] (λ o, o))
    (λ _, mret tt).

Definition recordAssignment (tenantId conversationId : string)
    (agent team : option string) (type_ : string) (by_ : option string) : M ConvW unit :=
  aid ← randomUUID;
  now ← new_Date;
  addAssignment
    {| assignment_id := aid; assignment_tenantId := tenantId;
       assignment_conversationId := conversationId;
       assignment_agentProfileId := agent; assignment_teamId := team;
       assignedAt := now; assignedBy := by_;
       assignmentType := js_or (Some type_) "MANUAL";
       assignment_createdAt := now; assignment_updatedAt := now |} tenantId.

Definition assign_conversation (tenantId conversationId agentProfileId : string)
    (teamId : option string) (type_ : string) (userId : option string)
    : M ConvW Conversation :=
  conversation ← getOrThrow tenantId conversationId;
  now ← new_Date;
  conversation ← exec (assignAgent now agentProfileId teamId) conversation;
  conversation ← persist conversation tenantId;
  recordAssignment tenantId conversationId (Some agentProfileId) teamId type_ userId ;;
  notifyAssignedAgent tenantId agentProfileId conversationId ;;
  audit_log tenantId userId "CONVERSATION_ASSIGN"
    ("Assigned conversation " +:+ conversationId +:+ " to agent " +:+ agentProfileId
     +:+ " (" +:+ type_ +:+ ")") ;;
  mret conversation.

Definition autoAssign (tenantId conversationId teamId : string) (userId : option string)
    : M ConvW Conversation :=
  conversation ← getOrThrow tenantId conversationId;
  agentProfileId ← assign_entity tenantId teamId conversationId
    (ConversationPriority.weight (priority conversation));
  assign_conversation tenantId conversationId agentProfileId (Some teamId) "AUTO" userId.

Definition transfer_conversation (tenantId conversationId toAgentProfileId : string)
    (userId : option string) : M ConvW Conversation :=
  conversation ← getOrThrow tenantId conversationId;
  now ← new_Date;
  conversation ← exec (transfer now toAgentProfileId) conversation;
  conversation ← persist conversation tenantId;
  recordAssignment tenantId conversationId (Some toAgentProfileId)
    (assignedTeamId conversation) "TRANSFER" userId ;;
  notifyAssignedAgent tenantId toAgentProfileId conversationId ;;
  audit_log tenantId userId "CONVERSATION_TRANSFER"
    ("Transferred conversation " +:+ conversationId +:+ " to agent " +:+ toAgentProfileId) ;;
  mret conversation.

(** One conversation of the sweep: (reassigned, skipped). *)
Definition reassign_one (tenantId : string) (acc : Z * Z) (c : Conversation)
    : M ConvW (Z * Z) :=
  if negb (bool_decide (status c ∈ ACTIVE_CONVERSATION_STATUSES)) then mret acc
  else match js_or_undef (assignedTeamId c) with
  | None => mret (acc.1, acc.2 + 1)
  | Some team =>
      try_catch
        (autoAssign tenantId (id c) team None ;; mret (acc.1 + 1, acc.2))
        (λ _, mret (acc.1, acc.2 + 1))
  end.

Definition agent_page (agentProfileId : string) : ConversationQueryOptions :=
  no_options <| q_assignedAgentId := Some agentProfileId |> <| q_limit := Some 200 |>.

Definition reassignFromOfflineAgents (tenantId : option string) : M ConvW (Z * Z) :=
  fold_each (offline_agents tenantId) (0, 0) (λ acc agent,
    '(assigned, _, _) ← findPaginated agent.1 (agent_page agent.2);
    fold_each assigned acc (reassign_one agent.1)).

(** ** [ConversationNoteService] and [ConversationTagService] *)
Definition add_note (tenantId conversationId text : string) (visibility_ : option string)
    (author : string) : M ConvW ConversationNote :=
  conversation ← getOrThrow tenantId conversationId;
  nid ← randomUUID;
  now ← new_Date;
  let n := {| note_id := nid; note_tenantId := tenantId;
              note_conversationId := conversationId; authorId := author;
              note := text; visibility := js_or visibility_ "INTERNAL";
              note_createdAt := now; note_updatedAt := now |} in
  conversation ← exec (addNote now n) conversation;
  persist_quietly conversation tenantId ;;
  audit_log tenantId (Some author) "CONVERSATION_NOTE_ADD"
    ("Added internal note to conversation " +:+ conversationId) ;;
  mret n.

Definition mention (tenantId conversationId user : string) (reference : option string)
    (by_ : string) : M ConvW ConversationMention :=
  conversation ← getOrThrow tenantId conversationId;
  mid ← randomUUID;
  now ← new_Date;
  let m := {| mention_id := mid; mention_tenantId := tenantId;
              mention_conversationId := conversationId; mentionedUserId := user;
              mentionedBy := by_; messageReference := reference;
              mention_createdAt := now; mention_updatedAt := now |} in
  conversation ← exec (addMention now m) conversation;
  save conversation tenantId ;;
  try_catch
    (addJob NOTIFICATION "mention-alert"
       [("tenantId", JStr tenantId); ("conversationId", JStr conversationId);
        ("mentionedUserId", JStr user)] (λ o, o))
    (λ _, mret tt) ;;
  audit_log tenantId (Some by_) "CONVERSATION_MENTION"
    ("Mentioned user " +:+ user +:+ " in conversation " +:+ conversationId) ;;
  mret m.

Definition add_tag (tenantId conversationId tagValue : string) (color_ : option string)
    (system : option bool) (userId : option string) : M ConvW ConversationTag :=
  conversation ← getOrThrow tenantId conversationId;
  tid ← randomUUID;
  now ← new_Date;
  let x := {| tag_id := tid; tag_tenantId := tenantId;
              tag_conversationId := conversationId; tag := tagValue; color := color_;
              isSystemTag := nullish system false; tag_createdAt := now;
              tag_updatedAt := now |} in
  conversation ← exec (addTag now x) conversation;
  persist_quietly conversation tenantId ;;
  audit_log tenantId userId "CONVERSATION_TAG_ADD"
    ("Tagged conversation " +:+ conversationId +:+ " with " +:+ tagValue) ;;
  mret x.

Definition bulkAddTag (tenantId : string) (ids : list string) (tagValue : string)
    (color_ : option string) (system : option bool) (userId : option string)
    : M ConvW (Z * list string) :=
  bulk_each (λ i, add_tag tenantId i tagValue color_ system userId) ids.

Definition removeTag_of (tenantId conversationId tagValue : string) (userId : option string)
    : M ConvW unit :=
  getOrThrow tenantId conversationId ;;
  repo_removeTag conversationId tagValue tenantId ;;
  audit_log tenantId userId "CONVERSATION_TAG_REMOVE"
    ("Removed tag " +:+ tagValue +:+ " from conversation " +:+ conversationId).

(** ** The worker

    Jobs have no id in the model, so the message of a refused job lacks it. *)
Definition no_tenant_context (job : Job) : exn :=
  Exn JsError ("Job [" +:+ job_name job +:+ "] has no tenantId context -- refusing to process").

Definition data_str (k : string) (job : Job) : string :=
  default "undefined" (str_field k (job_data job)).
Definition data_opt (k : string) (job : Job) : option string :=
  str_field k (job_data job).

(** [job.data._tenantContext?.tenantId || job.data.tenantId] *)
Definition tenant_of_job (job : Job) : option string :=
  js_or_undef (match js_or_undef (job_tenant job) with
               | Some t => Some t
               | None => data_opt "tenantId" job
               end).

Definition handleJob (job : Job) : M ConvW (list (string * json)) :=
  let tenant := tenant_of_job job in
  let tenantId := default "undefined" tenant in
  let conversationId := data_str "conversationId" job in
  let userId := data_opt "userId" job in
  let name := job_name job in
  match tenant with
  | None => when (negb (String.eqb name "agent-offline-reassignment-job"))
              (throw (no_tenant_context job))
  | Some _ => mret tt
  end ;;
  if String.eqb name "conversation-assignment-job" then
    c ← autoAssign tenantId conversationId (data_str "teamId" job) userId;
    mret ([("conversationId", JStr (id c))] ++ opt_field "assignedAgentId" (assignedAgentId c))
  else if String.eqb name "conversation-summary-job" then
    summary ← rebuild tenantId conversationId;
    inbox_invalidate tenantId ;;
    mret [("rebuilt", JBool (bool_decide (is_Some summary)));
          ("conversationId", JStr conversationId)]
  else if String.eqb name "conversation-merge-job" then
    target ← merge tenantId (data_str "sourceId" job) (data_str "targetId" job) userId;
    mret [("targetId", JStr (id target))]
  else if String.eqb name "conversation-archive-job" then
    c ← archive_conversation tenantId conversationId userId;
    mret [("conversationId", JStr (id c)); ("status", JStr (enum_str (status c)))]
  else if String.eqb name "ai-process-message" then
    let maxAttempts := nullish (attempts (job_opts job)) 1 in
    let isLastAttempt := attemptsMade job + 1 >=? maxAttempts in
    processInboundMessage tenantId (data_str "messageId" job) conversationId
      (data_opt "messageText" job) isLastAttempt ;;
    mret []
  else if String.eqb name "agent-offline-reassignment-job" then
    r ← reassignFromOfflineAgents tenant;
    mret [("reassigned", JNum r.1); ("skipped", JNum r.2)]
  else if String.eqb name "conversation-analytics-job" then
    addJob ANALYTICS "conversation-event"
      ([("conversationId", JStr conversationId)]
       ++ opt_field "eventName" (data_opt "eventName" job)
       ++ opt_field "tenantId" tenant) (λ o, o) ;;
    mret [("forwarded", JBool true); ("conversationId", JStr conversationId)]
  else throw (Exn JsError ("Unknown job name: " +:+ name)).
End conversation_service.
