(* ===== verification/ConversationRefinement.v ===== *)
(** * The conversation services refine an abstract store

    What typed rows are and that statements keep them ([Rows]), the abstract
    store of conversations with the plan of every call ([Spec]), and the proof,
    call by call, that the services carry the plans out ([Refinement]). *)

From S2P Require Import Prelude Platform Conversation ConversationRepo.
From S2P Require Import ConversationStore ConversationService.
Open Scope Z_scope.

(** ** Well-typed rows *)
Module Rows.

(** The values of a conversation that their value objects would accept. *)
Definition clean (lang src : string) : Prop :=
  ConversationLanguage.create lang = Ok lang ∧ ConversationSource.create src = Ok src.

Lemma language_clean raw lang :
  ConversationLanguage.create raw = Ok lang → ConversationLanguage.create lang = Ok lang.
Proof.
  unfold ConversationLanguage.create. destruct (_ || _) eqn:E; [done|].
  intros [= <-]. by rewrite js_lower_trim_idem, E.
Qed.

Lemma source_clean raw src :
  ConversationSource.create raw = Ok src → ConversationSource.create src = Ok src.
Proof.
  unfold ConversationSource.create. destruct (_ || _) eqn:E; [done|].
  intros [= <-]. by rewrite js_upper_trim_idem, E.
Qed.

Lemma language_truthy lang : ConversationLanguage.create lang = Ok lang → truthy lang = true.
Proof.
  unfold ConversationLanguage.create. destruct (truthy (js_lower _)) eqn:E; [|done].
  cbn [negb orb]. destruct (_ >? _); [done|]. intros [= Hl]. by rewrite <- Hl.
Qed.

Lemma source_truthy src : ConversationSource.create src = Ok src → truthy src = true.
Proof.
  unfold ConversationSource.create. destruct (truthy (js_upper _)) eqn:E; [|done].
  cbn [negb orb]. destruct (_ >? _); [done|]. intros [= Hl]. by rewrite <- Hl.
Qed.

(** A row whose every column holds a value of its type. *)
Definition row_typed (i : string) (r : ConversationRow) : Prop :=
  row_id r = i
  ∧ (∃ s : ConversationStatusEnum, row_status r = enum_str s)
  ∧ (∃ p : ConversationPriorityEnum, row_priority r = enum_str p)
  ∧ (∃ m : ConversationSentimentEnum, row_sentiment r = enum_str m)
  ∧ clean (row_language r) (row_source r).

Definition db_typed (d : ConvDb) : Prop := map_Forall row_typed (c_conversations d).

Lemma sentiment_truthy (m : ConversationSentimentEnum) : truthy (enum_str m) = true.
Proof. by destruct m. Qed.

(** A typed row always maps to a conversation. *)
Lemma typed_toDomain i r ts ns ps ms :
  row_typed i r → ∃ c, ConversationMapper.toDomain r ts ns ps ms = Ok c.
Proof.
  intros (_ & [s Hs] & [p Hp] & [m Hm] & Hl & Hsrc).
  unfold ConversationMapper.toDomain, ConversationStatus.create,
    ConversationPriority.create, ConversationSentiment.create.
  rewrite Hs, Hp, Hm, !parse_enum_str. unfold js_or.
  by rewrite (language_truthy _ Hl), Hl, sentiment_truthy, parse_enum_str,
    (source_truthy _ Hsrc), Hsrc; eexists.
Qed.

Lemma toDomain_inv r ts ns ps ms c :
  ConversationMapper.toDomain r ts ns ps ms = Ok c →
  row_status r = enum_str (status c) ∧ row_priority r = enum_str (priority c)
  ∧ clean (language c) (source c) ∧ id c = row_id r ∧ tenantId c = row_tenantId r
  ∧ customerId c = row_customerId r
  ∧ assignedAgentId c = js_or_undef (row_assignedAgentId r)
  ∧ assignedTeamId c = js_or_undef (row_assignedTeamId r)
  ∧ resolvedAt c = row_resolvedAt r ∧ deletedAt c = row_deletedAt r
  ∧ metadata c = Some (default ∅ (row_metadata r))
  ∧ tags c = ConversationMapper.tagToDomain <$> ts ∧ domainEvents c = [].
Proof.
  unfold ConversationMapper.toDomain, ConversationStatus.create,
    ConversationPriority.create, ConversationSentiment.create.
  destruct (parse_enum (row_status r)) as [s|] eqn:Es; [|done].
  destruct (parse_enum (row_priority r)) as [p|] eqn:Ep; [|done].
  destruct (ConversationLanguage.create _) as [l|] eqn:El; [|done].
  destruct (parse_enum (js_or _ _)) as [m|]; [|done].
  destruct (ConversationSource.create _) as [src|] eqn:Esrc; [|done].
  intros [= <-]. apply parse_enum_Some in Es, Ep. unfold clean. cbn.
  apply language_clean in El. apply source_clean in Esrc. by split_and!.
Qed.

Lemma conv_owns_true T r : owns T r = true ↔ row_tenantId r = T.
Proof. apply String.eqb_eq. Qed.

Lemma conv_select_inv i T d r :
  select_conversation i T d = Some r ↔ c_conversations d !! i = Some r ∧ row_tenantId r = T.
Proof.
  unfold select_conversation. destruct (c_conversations d !! i) as [r'|]; [|naive_solver].
  destruct (owns T r') eqn:E.
  - apply conv_owns_true in E. split; [by intros [= <-]|by intros [[= ->] _]].
  - split; [done|]. intros [[= ->] Ho%conv_owns_true]. congruence.
Qed.

Lemma conv_find_inv i T d c :
  find_conversation i T d = Ok (Some c) →
  ∃ r, c_conversations d !! i = Some r ∧ row_tenantId r = T
    ∧ ConversationMapper.toDomain r (tags_of i T d) (notes_of i T d)
        (participants_of i T d) (mentions_of i T d) = Ok c.
Proof.
  unfold find_conversation. destruct (select_conversation _ _ _) as [r|] eqn:E; [|done].
  apply conv_select_inv in E as [E HT]. intros Hc. exists r.
  destruct (ConversationMapper.toDomain _ _ _ _ _); [|done].
  injection Hc as ->. done.
Qed.

Lemma row_of_typed c created updated :
  clean (language c) (source c) → row_typed (id c) (row_of c created updated).
Proof. intros Hc. split_and!; cbn; eauto; apply Hc. Qed.

Lemma conv_write_inv now c T d r :
  write_row now c T d = Ok r →
  ∃ created updated, r = row_of c created updated
  ∧ (c_conversations d !! id c = None
     ∨ ∃ old, c_conversations d !! id c = Some old ∧ row_tenantId old = T
         ∧ created = row_createdAt old).
Proof.
  unfold write_row. destruct (select_conversation _ _ _) as [old|] eqn:E.
  - apply conv_select_inv in E as [? ?]. intros [= <-]. do 2 eexists. split; [done|]. eauto.
  - destruct (c_conversations d !! id c) eqn:E2; [done|]. intros [= <-].
    do 2 eexists. split; [done|]. by left.
Qed.

Lemma conv_save_inv now c T d d' :
  save_conversation now c T d = Ok d' →
  ∃ r, write_row now c T d = Ok r
    ∧ c_conversations d' = <[id c := r]> (c_conversations d)
    ∧ c_assignments d' = c_assignments d ∧ c_summary d' = c_summary d
    ∧ c_tags d' = insert_all tag_conflict
        ((λ x, x <| color ::= js_or_undef |>) <$> tags c) (c_tags d)
    ∧ c_notes d' = insert_all note_conflict (notes c) (c_notes d)
    ∧ c_participants d' = insert_all participant_conflict (participants c) (c_participants d)
    ∧ c_mentions d' = insert_all mention_conflict
        ((λ x, x <| messageReference ::= js_or_undef |>) <$> mentions c) (c_mentions d).
Proof.
  unfold save_conversation. destruct (write_row _ _ _ _) as [r|] eqn:E; [|done].
  intros [= <-]. by exists r.
Qed.

(** What a call of tenant [T] may do to the conversation rows. *)
Definition sound (T : string) (d d' : ConvDb) : Prop :=
  (db_typed d → db_typed d')
  ∧ ∀ i r, c_conversations d !! i = Some r → row_tenantId r ≠ T →
      c_conversations d' !! i = Some r.

#[export] Instance sound_preorder T : PreOrder (sound T).
Proof.
  split; [by split; auto|]. intros d1 d2 d3 [Ht1 Ho1] [Ht2 Ho2]. split; [auto|].
  intros i r Hi HT. by apply Ho2, HT; apply Ho1.
Qed.

Definition same_rows (d d' : ConvDb) : Prop := c_conversations d' = c_conversations d.

#[export] Instance same_rows_preorder : PreOrder same_rows.
Proof. split; unfold same_rows; [done|]. by intros ??? -> ->. Qed.

Lemma same_rows_sound T d d' : same_rows d d' → sound T d d'.
Proof. intros E. unfold sound, db_typed. by rewrite E. Qed.

Lemma save_sound now c T d d' :
  tenantId c = T → clean (language c) (source c) →
  save_conversation now c T d = Ok d' → sound T d d'.
Proof.
  intros HT Hc (r & (cr & up & -> & Hold)%conv_write_inv & Er & _)%conv_save_inv.
  unfold sound, db_typed. rewrite Er. split.
  - intros Ht. apply map_Forall_insert_2; [|done]. by apply row_of_typed.
  - intros i r0 Hi Hne. destruct (decide (i = id c)) as [->|Hneq].
    + exfalso. destruct Hold as [Hn|(old & Ho & HoT & _)]; congruence.
    + by rewrite lookup_insert_ne.
Qed.

Lemma delete_sound now i T d : sound T d (delete_conversation now i T d).
Proof.
  unfold delete_conversation. destruct (select_conversation _ _ _) as [r|] eqn:E; [|reflexivity].
  apply conv_select_inv in E as [Hi HT]. unfold sound, db_typed. cbn. split.
  - intros Ht. apply map_Forall_insert_2; [|done].
    destruct (Ht _ _ Hi) as (Hid & _ & Hp & Hm & Hc).
    split; [exact Hid|]. split; [by exists ConversationStatusEnum.ARCHIVED|done].
  - intros i' r0 Hi' Hne. rewrite lookup_insert_ne; [done|]. intros ->. congruence.
Qed.
End Rows.

(** ** The abstract store

    What a client can count on: conversations by id, each with its tenant,
    customer, assignee, status, priority, whether it was resolved or deleted,
    and the two merge marks.  A call is planned on the store it finds, as a list
    of writes of whole conversations; [oracle] is the id or the agent that the
    environment chooses. *)
Module Spec.
Import ConversationStatusEnum.

Record View := {
  v_tenant : string;
  v_customer : string;
  v_agent : option string;
  v_team : option string;
  v_status : ConversationStatusEnum;
  v_priority : ConversationPriorityEnum;
  v_resolved : bool;
  v_deleted : bool;
  v_mergedInto : option json;
  v_mergedIds : option json;
}.
#[export] Instance View_Eta : Eta View := λ v,
  Build_View (v_tenant v) (v_customer v) (v_agent v) (v_team v) (v_status v)
    (v_priority v) (v_resolved v) (v_deleted v) (v_mergedInto v) (v_mergedIds v).

Abbreviation store := (gmap string View).

Inductive conv_cmd :=
  | CmdCreate (dto : CreateConversationDto) (userId : option string)
  | CmdUpdate (i : string) (dto : UpdateConversationDto) (userId : option string)
  | CmdResolve (i : string) (userId : option string)
  | CmdClose (i : string) (reason userId : option string)
  | CmdArchive (i : string) (userId : option string)
  | CmdDelete (i : string) (userId : option string)
  | CmdMerge (sourceId targetId : string) (userId : option string)
  | CmdSplit (i : string) (userId : option string)
  | CmdAssign (i agent : string) (team : option string) (type_ : string) (userId : option string)
  | CmdAutoAssign (i team : string) (userId : option string)
  | CmdTransfer (i agent : string) (userId : option string)
  | CmdNote (i text : string) (visibility_ : option string) (author : string)
  | CmdMention (i user : string) (reference : option string) (by_ : string)
  | CmdAddTag (i tagValue : string) (color_ : option string) (system : option bool) (userId : option string)
  | CmdRemoveTag (i tagValue : string) (userId : option string).

(** The conversation of the tenant under this id. *)
Definition own (T i : string) (m : store) : option View :=
  v ← m !! i; if String.eqb (v_tenant v) T then Some v else None.

(** An id a new conversation of the tenant can be saved under: no conversation
    has it, or one of the tenant's own does, which the save then overwrites. *)
Definition free (T i : string) (m : store) : option unit :=
  match m !! i with
  | Some v => if String.eqb (v_tenant v) T then Some tt else None
  | None => Some tt
  end.

Definition ok {A} (r : result A) : option A :=
  match r with Ok a => Some a | Throw _ => None end.

Definition assigned_to (agent : string) (team : option string) (v : View) : View :=
  v <| v_agent := js_or_undef (Some agent) |>
    <| v_team := if truthy team then js_or_undef team else v_team v |>
    <| v_status := ASSIGNED |>.

Definition patched (p : ConversationPatch) (v : View) : View :=
  v <| v_status := default (v_status v) (p_status p) |>
    <| v_priority := default (v_priority v) (p_priority p) |>
    <| v_team := match p_assignedTeamId p with
                 | Some t => js_or_undef (Some t) | None => v_team v end |>
    <| v_mergedInto := match p_metadata p with
                       | Some m => m !! "mergedInto" | None => v_mergedInto v end |>
    <| v_mergedIds := match p_metadata p with
                      | Some m => m !! "mergedConversationIds"
                      | None => v_mergedIds v end |>.

Definition created (T : string) (dto : CreateConversationDto) (p : ConversationPriorityEnum) : View :=
  let m := default ∅ (d_metadata dto) in
  {| v_tenant := T; v_customer := d_customerId dto;
     v_agent := js_or_undef (d_assignedAgentId dto);
     v_team := js_or_undef (d_assignedTeamId dto);
     v_status := if truthy (d_assignedAgentId dto) then ASSIGNED else OPEN;
     v_priority := p; v_resolved := false; v_deleted := false;
     v_mergedInto := m !! "mergedInto"; v_mergedIds := m !! "mergedConversationIds" |}.

Definition split_off (v : View) : View :=
  {| v_tenant := v_tenant v; v_customer := v_customer v; v_agent := None;
     v_team := None; v_status := OPEN; v_priority := v_priority v;
     v_resolved := false; v_deleted := false; v_mergedInto := None;
     v_mergedIds := None |}.

Definition plan (T oracle : string) (c : conv_cmd) (m : store)
    : option (list (string * View)) :=
  match c with
  | CmdCreate dto _ =>
      free T oracle m ;;
      p ← ok (ConversationPriority.create (js_or (d_priority dto) "MEDIUM"));
      Some [(oracle, created T dto p)]
  | CmdUpdate i dto _ =>
      v ← own T i m;
      p ← ok (update_literal dto);
      Some [(i, patched p v)]
  | CmdResolve i _ =>
      v ← own T i m;
      Some [(i, v <| v_status := RESOLVED |> <| v_resolved := true |>)]
  | CmdClose i _ _ => v ← own T i m; Some [(i, v <| v_status := CLOSED |>)]
  | CmdArchive i _ => v ← own T i m; Some [(i, v <| v_status := ARCHIVED |>)]
  | CmdDelete i _ =>
      v ← own T i m;
      Some [(i, v <| v_status := ARCHIVED |> <| v_deleted := true |>)]
  | CmdMerge s t _ =>
      vs ← own T s m;
      vt ← own T t m;
      ids ← ok (spread_array (v_mergedIds vt));
      Some [(t, vt <| v_mergedIds := Some (JArr (ids ++ [JStr s])) |>);
            (s, vs <| v_mergedInto := Some (JStr t) |> <| v_status := ARCHIVED |>)]
  | CmdSplit i _ =>
      v ← own T i m;
      free T oracle m ;;
      Some [(oracle, split_off v)]
  | CmdAssign i agent team _ _ =>
      v ← own T i m; Some [(i, assigned_to agent team v)]
  | CmdAutoAssign i team _ =>
      v ← own T i m; Some [(i, assigned_to oracle (Some team) v)]
  | CmdTransfer i agent _ =>
      v ← own T i m; Some [(i, assigned_to agent None v)]
  | CmdNote i _ _ _ | CmdMention i _ _ _ | CmdAddTag i _ _ _ _ | CmdRemoveTag i _ _ =>
      v ← own T i m; Some [(i, v)]
  end.

Fixpoint puts (ws : list (string * View)) (m : store) : store :=
  match ws with
  | [] => m
  | (i, v) :: ws' => puts ws' (<[i := v]> m)
  end.

(** The calls that can be refused for what the store does not show: a plan's
    limit or an unknown customer, an id that is taken, no agent to assign. *)
Definition external (c : conv_cmd) : bool :=
  match c with
  | CmdCreate _ _ | CmdSplit _ _ | CmdAutoAssign _ _ _ => true
  | _ => false
  end.

(** A call that returns carried out its whole plan.  A call that throws either
    had no plan and changed nothing, or failed after the first of its writes. *)
Inductive step (T : string) (c : conv_cmd) (m : store) : bool → store → Prop :=
  | step_done oracle ws :
      plan T oracle c m = Some ws → step T c m true (puts ws m)
  | step_failed oracle ws n :
      plan T oracle c m = Some ws → (0 < n)%nat → step T c m false (puts (take n ws) m)
  | step_refused :
      (∀ oracle, plan T oracle c m = None) ∨ external c = true → step T c m false m.

(** A sequence of calls, of any tenants, and which of them returned. *)
Inductive steps : store → list (string * conv_cmd) → list bool → store → Prop :=
  | steps_nil m : steps m [] [] m
  | steps_cons m m1 m2 T c cs b bs :
      step T c m b m1 → steps m1 cs bs m2 → steps m ((T, c) :: cs) (b :: bs) m2.

(** *** The store a database stands for *)
Definition view_row (r : ConversationRow) : View :=
  {| v_tenant := row_tenantId r; v_customer := row_customerId r;
     v_agent := js_or_undef (row_assignedAgentId r);
     v_team := js_or_undef (row_assignedTeamId r);
     v_status := default OPEN (parse_enum (row_status r));
     v_priority := default ConversationPriorityEnum.MEDIUM (parse_enum (row_priority r));
     v_resolved := bool_decide (is_Some (row_resolvedAt r));
     v_deleted := bool_decide (is_Some (row_deletedAt r));
     v_mergedInto := default ∅ (row_metadata r) !! "mergedInto";
     v_mergedIds := default ∅ (row_metadata r) !! "mergedConversationIds" |}.

Definition abs (d : ConvDb) : store := view_row <$> c_conversations d.

Definition view_of (c : Conversation) : View :=
  {| v_tenant := tenantId c; v_customer := customerId c;
     v_agent := js_or_undef (assignedAgentId c);
     v_team := js_or_undef (assignedTeamId c);
     v_status := status c; v_priority := priority c;
     v_resolved := bool_decide (is_Some (resolvedAt c));
     v_deleted := bool_decide (is_Some (deletedAt c));
     v_mergedInto := default ∅ (metadata c) !! "mergedInto";
     v_mergedIds := default ∅ (metadata c) !! "mergedConversationIds" |}.

Lemma view_row_of c created updated : view_row (row_of c created updated) = view_of c.
Proof.
  unfold view_row, view_of. cbn [row_of row_status row_priority row_assignedAgentId
    row_assignedTeamId row_tenantId row_customerId row_resolvedAt row_deletedAt
    row_metadata].
  by rewrite !js_or_undef_idem, !parse_enum_str.
Qed.

Lemma view_toDomain r ts ns ps ms c :
  ConversationMapper.toDomain r ts ns ps ms = Ok c → view_of c = view_row r.
Proof.
  intros (Hs & Hp & _ & _ & HT & Hc & Ha & Ht & Hr & Hd & Hm & _)%Rows.toDomain_inv.
  unfold view_of, view_row.
  by rewrite HT, Hc, Ha, Ht, Hr, Hd, Hm, Hs, Hp, !parse_enum_str, !js_or_undef_idem.
Qed.
End Spec.

(** ** Refinement *)
Module Refinement.
Import Spec Rows.

Section refinement.
Context `{HE : Env, HS : ConvSql, HD : ConvDeps}.
Implicit Types (w : ConvW) (Q : bool → ConvDb → Prop).

(** [ensures m w Q]: running [m] in [w], [Q] holds of whether it returned and
    of the tables it leaves. *)
Definition ensures {A} (m : M ConvW A) w Q : Prop := Q (is_ok (m w).1) (db (m w).2).

(** The tables [d'] are [d] after the writes [ws] of a call of tenant [T]. *)
Definition wrote (T : string) (ws : list (string * View)) (d d' : ConvDb) : Prop :=
  sound T d d' ∧ abs d' = puts ws (abs d).

Abbreviation quiet m := (keeps (db_rel same_rows) m).

Lemma wrote_rows T ws d1 d2 d3 : wrote T ws d1 d2 → same_rows d2 d3 → wrote T ws d1 d3.
Proof.
  intros [Hs Ha] E. split.
  - etransitivity; [exact Hs|]. by apply same_rows_sound.
  - unfold abs. rewrite E. exact Ha.
Qed.

Lemma wrote_nil T d : wrote T [] d d.
Proof. by split. Qed.

Lemma wrote_cons T ws ws' d1 d2 d3 :
  wrote T ws d1 d2 → wrote T ws' d2 d3 → wrote T (ws ++ ws') d1 d3.
Proof.
  intros [H1 A1] [H2 A2]. split; [by etransitivity|]. rewrite A2, A1.
  clear A1. generalize (abs d1). clear.
  induction ws as [|[i v] ws IH]; intros m; [done|]. apply (IH (<[i := v]> m)).
Qed.

Lemma quiet_db {A} (m : M ConvW A) : keeps (same db) m → quiet m.
Proof. apply keeps_db_rel, _. Qed.

(** Steps that write no conversation row. *)
Lemma ensures_frame {A B} (m : M ConvW A) (k : A → M ConvW B) w Q :
  quiet m →
  (∀ a w1, same_rows (db w) (db w1) → ensures (k a) w1 Q) →
  (∀ d1, same_rows (db w) d1 → Q false d1) →
  ensures (m ≫= k) w Q.
Proof.
  intros Hm Hk HQ. specialize (Hm w). unfold ensures, mbind, M_bind, final, db_rel in *.
  destruct (m w) as [[a|e] w1]; [by apply Hk|by apply HQ].
Qed.

Lemma ensures_tail {A} (m : M ConvW A) w Q :
  quiet m → (∀ b d1, same_rows (db w) d1 → Q b d1) → ensures m w Q.
Proof. intros Hm HQ. apply HQ, Hm. Qed.

Lemma ensures_assoc {A B C} (m : M ConvW A) (f : A → M ConvW B) (g : B → M ConvW C) w Q :
  ensures (m ≫= λ a, f a ≫= g) w Q → ensures ((m ≫= f) ≫= g) w Q.
Proof. unfold ensures. by rewrite bind_assoc. Qed.

(** A pure computation that may throw. *)
Lemma ensures_result {A B} (r : result A) (k : A → M ConvW B) w Q :
  (∀ a, r = Ok a → ensures (k a) w Q) → (ok r = None → Q false (db w)) →
  ensures (of_result r ≫= k) w Q.
Proof.
  intros Hk HQ. unfold ensures, mbind, M_bind, of_result.
  destruct r as [a|e]; [by apply Hk|by apply HQ].
Qed.

(** A method of the aggregate that never throws. *)
Lemma ensures_exec {B} (m : M Conversation unit) c (k : Conversation → M ConvW B) w Q :
  (∀ c', outcome m c' = Ok tt) → ensures (k (final m c)) w Q → ensures (exec m c ≫= k) w Q.
Proof.
  intros Hm. specialize (Hm c). unfold ensures, mbind, M_bind, exec, final, outcome in *.
  destruct (m c) as [[] c']; [done|discriminate].
Qed.

Definition good (T : string) (c : Conversation) : Prop :=
  tenantId c = T ∧ clean (language c) (source c).

Lemma own_Some T i d r :
  c_conversations d !! i = Some r → row_tenantId r = T → own T i (abs d) = Some (view_row r).
Proof.
  intros Hi HT. unfold own, abs. rewrite lookup_fmap, Hi. cbn.
  by rewrite HT, String.eqb_refl.
Qed.

Lemma own_inv T i d v :
  own T i (abs d) = Some v →
  ∃ r, c_conversations d !! i = Some r ∧ row_tenantId r = T ∧ v = view_row r.
Proof.
  unfold own, abs. rewrite lookup_fmap.
  destruct (c_conversations d !! i) as [r|]; [|done]. cbn.
  destruct (String.eqb_spec (row_tenantId r) T); [|done]. intros [= <-]. eauto.
Qed.

(** Loading a conversation of the tenant, or refusing. *)
Lemma ensures_get {B} T i (k : Conversation → M ConvW B) w Q :
  db_typed (db w) →
  (∀ c, good T c → id c = i → own T i (abs (db w)) = Some (view_of c) →
     domainEvents c = [] → ensures (k c) w Q) →
  (own T i (abs (db w)) = None → Q false (db w)) →
  ensures (getOrThrow T i ≫= k) w Q.
Proof.
  intros Ht Hk HQ. unfold ensures, getOrThrow, findById. rewrite bind_assoc, bind_assoc, gets_bind.
  unfold find_conversation. destruct (select_conversation i T (db w)) as [r|] eqn:E.
  - apply conv_select_inv in E as [Hi HT].
    destruct (typed_toDomain i r (tags_of i T (db w)) (notes_of i T (db w))
      (participants_of i T (db w)) (mentions_of i T (db w)) (Ht _ _ Hi)) as [c Hc].
    rewrite Hc. apply (Hk c).
    + apply toDomain_inv in Hc as (_ & _ & Hc & _ & HTc & _). split; [congruence|exact Hc].
    + apply toDomain_inv in Hc as (_ & _ & _ & Hid & _). rewrite Hid. by apply Ht.
    + erewrite view_toDomain by exact Hc. by apply own_Some.
    + apply toDomain_inv in Hc. apply Hc.
  - apply HQ. unfold own, abs. rewrite lookup_fmap. unfold select_conversation in E.
    destruct (c_conversations (db w) !! i) as [r|]; [|done]. cbn.
    unfold owns in E. by destruct (String.eqb _ _).
Qed.

Lemma conv_write_run (f : Z → ConvDb → result ConvDb) w :
  write f w = match f (env_clock (ticks w)) (db w) with
              | Ok d' => (Ok tt, w <| ticks ::= S |> <| db := d' |>)
              | Throw e => (Throw e, w <| ticks ::= S |>)
              end.
Proof. unfold write, new_Date. run. by destruct (f _ _). Qed.

(** Saving: the row of the conversation becomes its view; only a new
    conversation whose id is taken is refused. *)
Lemma ensures_save {B} T c (k : unit → M ConvW B) w Q :
  good T c →
  (∀ w1, wrote T [(id c, view_of c)] (db w) (db w1) →
     free T (id c) (abs (db w)) = Some tt →
     ensures (k tt) w1 Q) →
  (own T (id c) (abs (db w)) = None → Q false (db w)) →
  ensures (save c T ≫= k) w Q.
Proof.
  intros [HT Hc] Hk HQ. unfold ensures, mbind, M_bind, save. rewrite conv_write_run.
  destruct (save_conversation _ _ _ _) as [d'|e] eqn:E.
  - pose proof (save_sound _ _ _ _ _ HT Hc E) as Hs.
    apply conv_save_inv in E as (r & Hr & Er & _). apply conv_write_inv in Hr as (cr & up & -> & Hold).
    refine (Hk (w <| ticks ::= S |> <| db := d' |>) _ _).
    + split; [exact Hs|]. cbn. unfold abs. rewrite Er, fmap_insert. by rewrite view_row_of.
    + unfold free, abs. rewrite lookup_fmap.
      destruct Hold as [->|(old & -> & HoT & _)]; [done|]. cbn.
      by rewrite HoT, String.eqb_refl.
  - apply HQ. unfold save_conversation, write_row in E.
    destruct (select_conversation _ _ _) as [old|] eqn:Es; [done|].
    destruct (own T (id c) (abs (db w))) as [v|] eqn:Eo; [|done].
    apply own_inv in Eo as (r & Hi & HrT & _).
    assert (select_conversation (id c) T (db w) = Some r) by by apply conv_select_inv.
    congruence.
Qed.

Lemma quiet_write f : (∀ now d d', f now d = Ok d' → same_rows d d') → quiet (write f).
Proof.
  intros Hf w. unfold db_rel, final. rewrite conv_write_run.
  destruct (f _ (db w)) as [d'|e] eqn:E; cbn; [by eapply Hf|reflexivity].
Qed.

Lemma quiet_assignment a T : quiet (addAssignment a T).
Proof.
  apply quiet_write. intros _ d d'. unfold add_assignment.
  destruct (some _ _); [done|]. by intros [= <-].
Qed.

Lemma quiet_remove_tag i t T : quiet (repo_removeTag i t T).
Proof. apply quiet_write. by intros _ d d' [= <-]. Qed.

Lemma quiet_summary s T : quiet (upsertSummary s T).
Proof.
  apply quiet_write. intros now d d'. unfold upsert_summary.
  destruct (some _ _); [by intros [= <-]|]. destruct (some _ _); [done|].
  by intros [= <-].
Qed.
#[local] Hint Resolve quiet_assignment quiet_remove_tag quiet_summary : keeps.
#[local] Hint Extern 8 (keeps (db_rel _) _) => apply quiet_db : keeps.

Lemma quiet_rebuild T i : quiet (rebuild T i).
Proof. unfold rebuild. solve_keeps. Qed.
#[local] Hint Resolve quiet_rebuild : keeps.

Lemma quiet_record T i a t ty b : quiet (recordAssignment T i a t ty b).
Proof. unfold recordAssignment. solve_keeps. Qed.
Lemma quiet_notify T a i : quiet (notifyAssignedAgent T a i).
Proof. unfold notifyAssignedAgent. solve_keeps. Qed.
#[local] Hint Resolve quiet_record quiet_notify : keeps.

(** [persist] and what follows it, when that writes no conversation. *)
Lemma ensures_persist {B} T c (k : Conversation → M ConvW B) w Q :
  good T c →
  (∀ c' w1, wrote T [(id c, view_of c)] (db w) (db w1) →
     free T (id c) (abs (db w)) = Some tt →
     ensures (k c') w1 Q) →
  (∀ d1, wrote T [(id c, view_of c)] (db w) d1 →
     free T (id c) (abs (db w)) = Some tt →
     Q false d1) →
  (own T (id c) (abs (db w)) = None → Q false (db w)) →
  ensures (persist c T ≫= k) w Q.
Proof.
  intros Hg Hk Hfail HQ. unfold persist. apply ensures_assoc, ensures_save; [done| |done].
  intros w1 Hw Hu. apply ensures_assoc, ensures_frame; [solve_keeps| |].
  - intros _ w2 H2. apply ensures_assoc, ensures_frame; [solve_keeps| |].
    + intros _ w3 H3. apply ensures_frame; [solve_keeps| |].
      * intros c' w4 H4. apply Hk; [|done].
        do 3 (eapply wrote_rows; [|eassumption]). exact Hw.
      * intros d4 H4. apply Hfail; [|done].
        do 3 (eapply wrote_rows; [|eassumption]). exact Hw.
    + intros d3 H3. apply Hfail; [|done]. do 2 (eapply wrote_rows; [|eassumption]). exact Hw.
  - intros d2 H2. apply Hfail; [|done]. eapply wrote_rows; [|eassumption]. exact Hw.
Qed.
(** [saves T c m]: [m] saves [c], and nothing after that writes a conversation. *)
Definition saves {B} (T : string) (c : Conversation) (m : M ConvW B) : Prop :=
  ∀ w Q,
    (∀ b d1, wrote T [(id c, view_of c)] (db w) d1 →
       free T (id c) (abs (db w)) = Some tt →
       Q b d1) →
    (own T (id c) (abs (db w)) = None → Q false (db w)) →
    ensures m w Q.

Lemma saves_save {B} T c (k : unit → M ConvW B) :
  good T c → (∀ a, quiet (k a)) → saves T c (save c T ≫= k).
Proof.
  intros Hg Hk w Q HQ Hno. apply ensures_save; [done| |done]. intros w1 Hw Hu.
  apply ensures_tail; [apply Hk|]. intros b d1 E. apply HQ; [|done].
  by eapply wrote_rows.
Qed.

Lemma saves_assoc {A B} T c (k : unit → M ConvW A) (k' : A → M ConvW B) :
  good T c → (∀ a, quiet (k a ≫= k')) → saves T c ((save c T ≫= k) ≫= k').
Proof. intros Hg Hk w Q HQ Hno. by apply ensures_assoc, saves_save. Qed.

Lemma saves_persist {B} T c (k : Conversation → M ConvW B) :
  good T c → (∀ c', quiet (k c')) → saves T c (persist c T ≫= k).
Proof. intros Hg Hk. apply saves_assoc; [done|]. intros _. solve_keeps. Qed.

Lemma saves_quietly {B} T c (k : Conversation → M ConvW B) :
  good T c → (∀ c', quiet (k c')) → saves T c (persist_quietly c T ≫= k).
Proof. intros Hg Hk. apply saves_assoc; [done|]. intros _. solve_keeps. Qed.

(** The clock and the id generator never throw. *)
Lemma ensures_now {B} (k : Z → M ConvW B) w Q :
  (∀ now w1, db w1 = db w → ensures (k now) w1 Q) → ensures (new_Date ≫= k) w Q.
Proof. intros Hk. by apply Hk. Qed.

Lemma ensures_uuid {B} (k : string → M ConvW B) w Q :
  (∀ i w1, db w1 = db w → ensures (k i) w1 Q) → ensures (randomUUID ≫= k) w Q.
Proof. intros Hk. by apply Hk. Qed.

(** *** The calls *)
Definition void {A} (m : M ConvW A) : M ConvW unit := (λ _, tt) <$> m.

Definition run_cmd (T : string) (c : conv_cmd) : M ConvW unit :=
  match c with
  | CmdCreate dto u => void (create_conversation T dto u)
  | CmdUpdate i dto u => void (update_conversation T i dto u)
  | CmdResolve i u => void (resolve_conversation T i u)
  | CmdClose i r u => void (close_conversation T i r u)
  | CmdArchive i u => void (archive_conversation T i u)
  | CmdDelete i u => void (delete T i u)
  | CmdMerge a b u => void (merge T a b u)
  | CmdSplit i u => void (split T i u)
  | CmdAssign i a t ty u => void (assign_conversation T i a t ty u)
  | CmdAutoAssign i t u => void (autoAssign T i t u)
  | CmdTransfer i a u => void (transfer_conversation T i a u)
  | CmdNote i x v a => void (add_note T i x v a)
  | CmdMention i m r b => void (mention T i m r b)
  | CmdAddTag i x co sy u => void (add_tag T i x co sy u)
  | CmdRemoveTag i x u => removeTag_of T i x u
  end.

(** What a call promises of the tables. *)
Definition post (T : string) (c : conv_cmd) (d : ConvDb) (b : bool) (d' : ConvDb) : Prop :=
  sound T d d' ∧ step T c (abs d) b (abs d').

Lemma ensures_void {A} (m : M ConvW A) w Q : ensures m w Q → ensures (void m) w Q.
Proof. unfold ensures, void, fmap, M_fmap. by destruct (m w) as [[] ?]. Qed.

Lemma post_one T c o i v d b d' :
  plan T o c (abs d) = Some [(i, v)] → wrote T [(i, v)] d d' → post T c d b d'.
Proof.
  intros Hp [Hs Ha]. split; [done|]. rewrite Ha. destruct b.
  - by eapply step_done.
  - apply (step_failed T c (abs d) o [(i, v)] 1 Hp). lia.
Qed.

Lemma post_refused T c d d' :
  same_rows d d' → (∀ o, plan T o c (abs d) = None) ∨ external c = true → post T c d false d'.
Proof.
  intros E Hr. split; [by apply same_rows_sound|].
  replace (abs d') with (abs d) by (unfold abs; by rewrite E). by apply step_refused.
Qed.

(** Steps before that wrote no conversation do not count. *)
Lemma ensures_shift {A} T c (m : M ConvW A) d0 w :
  same_rows d0 (db w) → ensures m w (post T c (db w)) → ensures m w (post T c d0).
Proof.
  intros E [Hs Hst]. split; [etransitivity; [by apply same_rows_sound|exact Hs]|].
  unfold abs in *. by rewrite <- E.
Qed.

(** The shape most calls share: load, change the aggregate, save. *)
Lemma change_post {B} T o i cmd (op : Z → M Conversation unit) (f : View → View)
    (k : Conversation → M ConvW B) w :
  db_typed (db w) →
  (∀ m, plan T o cmd m = (v ← own T i m; Some [(i, f v)])) →
  (∀ o' m, own T i m = None → plan T o' cmd m = None) →
  (∀ now c, outcome (op now) c = Ok tt) →
  (∀ now c, good T c → good T (final (op now) c) ∧ id (final (op now) c) = id c
     ∧ view_of (final (op now) c) = f (view_of c)) →
  (∀ c, good T c → saves T c (k c)) →
  ensures (c ← getOrThrow T i; now ← new_Date; c ← exec (op now) c; k c) w
    (post T cmd (db w)).
Proof.
  intros Ht Hplan Hnone Hop Hf Hk. apply ensures_get; [done| |].
  - intros c Hg Hid Hown _. apply ensures_now. intros now w1 E1.
    apply ensures_exec; [apply Hop|]. destruct (Hf now c Hg) as (Hg' & Hid' & Hv).
    apply (Hk _ Hg'); rewrite E1, Hid', Hid.
    + intros b d1 Hw _. rewrite Hv in Hw. eapply (post_one _ _ o); [|exact Hw].
      by rewrite Hplan, Hown.
    + by rewrite Hown.
  - intros Hn. apply post_refused; [done|]. left. eauto.
Qed.

Ltac change_with f :=
  apply ensures_void; refine (change_post _ "" _ _ _ f _ _ _ _ _ _ _ _);
    [done|done|by intros ? ? E; cbn; rewrite E|done|by intros
    |intros; first [apply saves_persist|apply saves_quietly|apply saves_save];
     [done|intros; solve_keeps]].

Lemma resolve_post T i u w :
  db_typed (db w) → ensures (run_cmd T (CmdResolve i u)) w (post T (CmdResolve i u) (db w)).
Proof.
  intros Ht. change_with (λ v : View,
    v <| v_status := ConversationStatusEnum.RESOLVED |> <| v_resolved := true |>).
Qed.

Lemma close_post T i r u w :
  db_typed (db w) → ensures (run_cmd T (CmdClose i r u)) w (post T (CmdClose i r u) (db w)).
Proof.
  intros Ht. change_with (λ v : View, v <| v_status := ConversationStatusEnum.CLOSED |>).
Qed.

Lemma archive_post T i u w :
  db_typed (db w) → ensures (run_cmd T (CmdArchive i u)) w (post T (CmdArchive i u) (db w)).
Proof.
  intros Ht. change_with (λ v : View, v <| v_status := ConversationStatusEnum.ARCHIVED |>).
Qed.

Lemma transfer_post T i a u w :
  db_typed (db w) → ensures (run_cmd T (CmdTransfer i a u)) w (post T (CmdTransfer i a u) (db w)).
Proof. intros Ht. change_with (assigned_to a None). Qed.

Lemma assignAgent_total now agent team c :
  outcome (assignAgent now agent team) c = Ok tt.
Proof. unfold assignAgent, when. by destruct (truthy team). Qed.

Lemma assignAgent_view now agent team c T :
  good T c →
  good T (final (assignAgent now agent team) c)
  ∧ id (final (assignAgent now agent team) c) = id c
  ∧ view_of (final (assignAgent now agent team) c) = assigned_to agent team (view_of c).
Proof.
  intros Hg. unfold assignAgent, when, assigned_to, view_of.
  by destruct (truthy team).
Qed.

Lemma assign_saves T i o cmd agent team type_ u w :
  db_typed (db w) →
  (∀ m, plan T o cmd m = (v ← own T i m; Some [(i, assigned_to agent team v)])) →
  (∀ o' m, own T i m = None → plan T o' cmd m = None) →
  ensures (assign_conversation T i agent team type_ u) w (post T cmd (db w)).
Proof.
  intros Ht Hp Hn. apply (change_post _ o _ _ _ (assigned_to agent team)); [done|done|done| | |].
  - intros. apply assignAgent_total.
  - intros. by apply assignAgent_view.
  - intros c Hg. apply saves_persist; [done|]. intros. solve_keeps.
Qed.

Lemma assign_post T i a t ty u w :
  db_typed (db w) →
  ensures (run_cmd T (CmdAssign i a t ty u)) w (post T (CmdAssign i a t ty u) (db w)).
Proof.
  intros Ht. apply ensures_void, (assign_saves T i ""); [done|done|].
  by intros o' m E; cbn; rewrite E.
Qed.

Lemma auto_post T i t u w :
  db_typed (db w) →
  ensures (run_cmd T (CmdAutoAssign i t u)) w (post T (CmdAutoAssign i t u) (db w)).
Proof.
  intros Ht. apply ensures_void. unfold autoAssign. apply ensures_get; [done| |].
  - intros c _ _ _ _. unfold ensures, mbind, M_bind.
    pose proof (assign_entity_db T t i (ConversationPriority.weight (priority c)) w) as E.
    unfold final, same in E. destruct (assign_entity _ _ _ _ w) as [[agent|e] w1]; cbn in E.
    + rewrite <- E. apply (assign_saves T i agent); [by rewrite E|done|].
      by intros o' m En; cbn; rewrite En.
    + apply post_refused; [by unfold same_rows; cbn; rewrite E|by right].
  - intros Hn. apply post_refused; [done|]. by right.
Qed.

Lemma update_saves T p c now :
  good T c → clean (default (language c) (p_language p)) (source c) →
  good T (final (update now p) c) ∧ id (final (update now p) c) = id c
  ∧ view_of (final (update now p) c) = patched p (view_of c).
Proof.
  intros [HT _] Hc. split_and!; [by split|done|].
  unfold view_of, patched. destruct p as [? ? ? ? ? [tm|] [m|] ?]; done.
Qed.

Lemma update_literal_clean dto p lang src :
  update_literal dto = Ok p → clean lang src → clean (default lang (p_language p)) src.
Proof.
  unfold update_literal. intros E [Hl Hs].
  destruct (maybe ConversationStatus.create _); [|done].
  destruct (maybe ConversationPriority.create _); [|done].
  destruct (maybe ConversationLanguage.create _) as [l|] eqn:El; [|done].
  destruct (maybe ConversationSentiment.create _); [|done].
  injection E as <-. split; [|done]. cbn. unfold maybe in El.
  destruct (u_language dto) as [raw|]; [|by injection El as <-].
  destruct (ConversationLanguage.create raw) as [l'|] eqn:El'; [|done].
  injection El as <-. by eapply language_clean.
Qed.

Lemma update_post T i dto u w :
  db_typed (db w) →
  ensures (run_cmd T (CmdUpdate i dto u)) w (post T (CmdUpdate i dto u) (db w)).
Proof.
  intros Ht. apply ensures_void, ensures_get; [done| |].
  - intros c Hg Hid Hown _. apply ensures_result.
    + intros p Hp. apply ensures_now. intros now w1 E1. apply ensures_exec; [done|].
      destruct (update_saves T p c now Hg) as (Hg' & Hid' & Hv).
      { eapply update_literal_clean; [exact Hp|apply Hg]. }
      apply saves_persist; [done|intros; solve_keeps| |]; rewrite E1, Hid', Hid.
      * intros b d1 Hw _. rewrite Hv in Hw. eapply (post_one _ _ ""); [|exact Hw].
        cbn. by rewrite Hown, Hp.
      * by rewrite Hown.
    + intros Hp. apply post_refused; [done|]. left. intros o. cbn. by rewrite Hown, Hp.
  - intros Hn. apply post_refused; [done|]. left. intros o. cbn. by rewrite Hn.
Qed.

(** Adding a child: the conversation itself does not visibly change. *)
Lemma child_post {B} T i cmd (op : string → Z → M Conversation unit)
    (k : string → Z → Conversation → M ConvW B) w :
  db_typed (db w) →
  (∀ o m, plan T o cmd m = (v ← own T i m; Some [(i, v)])) →
  (∀ x now c, outcome (op x now) c = Ok tt) →
  (∀ x now c, good T c → good T (final (op x now) c) ∧ id (final (op x now) c) = id c
     ∧ view_of (final (op x now) c) = view_of c) →
  (∀ x now c, good T c → saves T c (k x now c)) →
  ensures (c ← getOrThrow T i; x ← randomUUID; now ← new_Date;
           c ← exec (op x now) c; k x now c) w (post T cmd (db w)).
Proof.
  intros Ht Hplan Hop Hf Hk. apply ensures_get; [done| |].
  - intros c Hg Hid Hown _. apply ensures_uuid. intros x w1 E1.
    apply ensures_now. intros now w2 E2.
    apply ensures_exec; [apply Hop|]. destruct (Hf x now c Hg) as (Hg' & Hid' & Hv).
    apply (Hk x now _ Hg'); rewrite E2, E1, Hid', Hid.
    + intros b d1 Hw _. rewrite Hv in Hw. eapply (post_one _ _ ""); [|exact Hw].
      by rewrite Hplan, Hown.
    + by rewrite Hown.
  - intros Hn. apply post_refused; [done|]. left. intros o. by rewrite Hplan, Hn.
Qed.

Lemma note_post T i x v a w :
  db_typed (db w) → ensures (run_cmd T (CmdNote i x v a)) w (post T (CmdNote i x v a) (db w)).
Proof.
  intros Ht. apply ensures_void, child_post; [done|done|done|by intros|].
  intros. apply saves_quietly; [done|intros; solve_keeps].
Qed.

Lemma mention_post T i u r b w :
  db_typed (db w) →
  ensures (run_cmd T (CmdMention i u r b)) w (post T (CmdMention i u r b) (db w)).
Proof.
  intros Ht. apply ensures_void, child_post; [done|done|done|by intros|].
  intros. apply saves_save; [done|intros; solve_keeps].
Qed.

Lemma addTag_run now x c :
  addTag now x c = (Ok tt,
    if some (λ t, String.eqb (tag t) (tag x)) (tags c) then c
    else c <| tags := tags c ++ [x] |> <| updatedAt := now |>
           <| lastActivityAt := now |> <| version := version c + 1 |>
           <| domainEvents := domainEvents c
                ++ [ConversationTaggedEvent (tenantId c) (id c) (tag x)] |>).
Proof.
  unfold addTag, mbind at 1, M_bind at 1, gets at 1. by destruct (some _ _).
Qed.

Lemma tag_post T i x co sy u w :
  db_typed (db w) →
  ensures (run_cmd T (CmdAddTag i x co sy u)) w (post T (CmdAddTag i x co sy u) (db w)).
Proof.
  intros Ht. apply ensures_void. unfold add_tag. apply child_post; [done|done| | |].
  - intros y now c. unfold outcome. by rewrite addTag_run.
  - intros y now c Hg. unfold final. rewrite addTag_run. by destruct (some _ _).
  - intros. apply saves_quietly; [done|intros; solve_keeps].
Qed.

Lemma remove_tag_post T i x u w :
  db_typed (db w) →
  ensures (run_cmd T (CmdRemoveTag i x u)) w (post T (CmdRemoveTag i x u) (db w)).
Proof.
  intros Ht. cbn [run_cmd]. unfold removeTag_of. apply ensures_get; [done| |].
  - intros c Hg Hid Hown _. apply ensures_tail; [solve_keeps|]. intros b d1 E.
    eapply (post_one _ _ "" i (view_of c)); [cbn; by rewrite Hown|].
    eapply wrote_rows; [|exact E]. split; [reflexivity|]. cbn. symmetry.
    apply insert_id. apply own_inv in Hown as (r & Hr & _ & ->).
    unfold abs. by rewrite lookup_fmap, Hr.
  - intros Hn. apply post_refused; [done|]. left. intros o. cbn. by rewrite Hn.
Qed.

Lemma ensures_write {B} (g : Z → ConvDb → ConvDb) (k : unit → M ConvW B) w Q :
  (∀ w1, db w1 = g (env_clock (ticks w)) (db w) → ensures (k tt) w1 Q) →
  ensures (write (λ now d, Ok (g now d)) ≫= k) w Q.
Proof. intros Hk. unfold ensures, mbind, M_bind. rewrite conv_write_run. by apply Hk. Qed.

Lemma delete_wrote now T i d v :
  own T i (abs d) = Some v →
  wrote T [(i, v <| v_status := ConversationStatusEnum.ARCHIVED |> <| v_deleted := true |>)]
    d (delete_conversation now i T d).
Proof.
  intros Hown. split; [apply delete_sound|].
  apply own_inv in Hown as (r & Hr & HT & ->). unfold delete_conversation.
  assert (select_conversation i T d = Some r) as -> by by apply conv_select_inv.
  etransitivity; [apply (fmap_insert view_row)|done].
Qed.

Lemma delete_post T i u w :
  db_typed (db w) → ensures (run_cmd T (CmdDelete i u)) w (post T (CmdDelete i u) (db w)).
Proof.
  intros Ht. apply ensures_void, ensures_get; [done| |].
  - intros c Hg Hid Hown _. apply ensures_now. intros now w1 E1.
    apply ensures_exec; [done|]. apply (ensures_write (λ now, delete_conversation now i T)).
    intros w2 E2. apply ensures_tail; [solve_keeps|]. intros b d1 E.
    eapply (post_one _ _ ""); [cbn; by rewrite Hown|].
    eapply wrote_rows; [|exact E]. rewrite E2, E1. by apply delete_wrote.
  - intros Hn. apply post_refused; [done|]. left. intros o. cbn. by rewrite Hn.
Qed.

(** *** Merge: two writes, the second on what was loaded before the first *)
Lemma own_wrote T i j v d d' :
  wrote T [(j, v)] d d' → v_tenant v = T → own T i (abs d) ≠ None → own T i (abs d') ≠ None.
Proof.
  intros [_ Ha] Hv Hi. rewrite Ha. cbn. unfold own in *. destruct (decide (i = j)) as [->|].
  - rewrite lookup_insert_eq. cbn. by rewrite Hv, String.eqb_refl.
  - by rewrite lookup_insert_ne.
Qed.

Lemma merge_saves {B} T w c1 c2 cmd o (k : Conversation → M ConvW B) :
  good T c1 → good T c2 → (∀ c, quiet (k c)) →
  own T (id c1) (abs (db w)) ≠ None → own T (id c2) (abs (db w)) ≠ None →
  plan T o cmd (abs (db w)) = Some [(id c1, view_of c1); (id c2, view_of c2)] →
  ensures (t ← persist c1 T; persist c2 T ;; k t) w (post T cmd (db w)).
Proof.
  intros H1 H2 Hk Ho1 Ho2 Hp.
  assert (∀ d1, wrote T [(id c1, view_of c1)] (db w) d1 → post T cmd (db w) false d1) as Hhalf.
  { intros d1 [Hs Ha]. split; [done|]. rewrite Ha.
    apply (step_failed T cmd (abs (db w)) o _ 1 Hp). lia. }
  apply ensures_persist; [done| |auto|done].
  intros t w1 Hw _. apply saves_persist; [done|auto| |].
  - intros b d2 Hw2 _. destruct (wrote_cons _ _ _ _ _ _ Hw Hw2) as [Hs Ha].
    split; [done|]. rewrite Ha. destruct b.
    + by apply (step_done T cmd (abs (db w)) o).
    + apply (step_failed T cmd (abs (db w)) o _ 2 Hp). lia.
  - intros Hn. exfalso. apply (own_wrote _ (id c2) _ _ _ _ Hw); [apply H1|done|done].
Qed.

Lemma metadata_view n m c :
  view_of (final (update n (metadata_patch m)) c)
  = (view_of c) <| v_mergedInto := m !! "mergedInto" |>
              <| v_mergedIds := m !! "mergedConversationIds" |>.
Proof. done. Qed.

Lemma target_view n x t :
  view_of (final (update n (metadata_patch
    (<["mergedConversationIds" := x]> (default ∅ (metadata t))))) t)
  = (view_of t) <| v_mergedIds := Some x |>.
Proof.
  rewrite metadata_view, lookup_insert_eq, lookup_insert_ne by done. done.
Qed.

Lemma source_view n n' x s :
  view_of (final (archive n') (final (update n (metadata_patch
    (<["mergedInto" := x]> (default ∅ (metadata s))))) s))
  = (view_of s) <| v_mergedInto := Some x |>
              <| v_status := ConversationStatusEnum.ARCHIVED |>.
Proof.
  transitivity ((view_of (final (update n (metadata_patch
    (<["mergedInto" := x]> (default ∅ (metadata s))))) s))
    <| v_status := ConversationStatusEnum.ARCHIVED |>); [done|].
  rewrite metadata_view, lookup_insert_eq, lookup_insert_ne by done. done.
Qed.

Lemma merge_post T a b u w :
  db_typed (db w) → ensures (run_cmd T (CmdMerge a b u)) w (post T (CmdMerge a b u) (db w)).
Proof.
  intros Ht. apply ensures_void. unfold merge. apply ensures_get; [done| |].
  2: { intros Hn. apply post_refused; [done|]. left. intros o. cbn. by rewrite Hn. }
  intros s Hs Hids Hos _. apply ensures_get; [done| |].
  2: { intros Hn. apply post_refused; [done|]. left. intros o. cbn. by rewrite Hos, Hn. }
  intros t Hgt Hidt Hot _. apply ensures_result.
  2: { intros Hn. apply post_refused; [done|]. left. intros o. cbn. by rewrite Hos, Hot; cbn; rewrite Hn. }
  intros ids Hids'. apply ensures_now. intros n1 w1 E1. apply ensures_exec; [done|].
  apply ensures_now. intros n2 w2 E2. apply ensures_exec; [done|].
  apply ensures_now. intros n3 w3 E3. apply ensures_exec; [done|].
  assert (db w3 = db w) as E by congruence. rewrite <- E.
  apply (merge_saves T w3 _ _ _ ""); [exact Hgt|exact Hs|intros; solve_keeps| | |]; rewrite E.
  - cbn [id]. change (own T (id t) (abs (db w)) ≠ None). by rewrite Hidt, Hot.
  - change (own T (id s) (abs (db w)) ≠ None). by rewrite Hids, Hos.
  - cbn [plan]. rewrite Hos, Hot. cbn [mbind option_bind].
    change (v_mergedIds (view_of t)) with (default ∅ (metadata t) !! "mergedConversationIds").
    rewrite Hids'. cbn [ok mbind option_bind]. rewrite target_view, source_view.
    by rewrite <- Hidt, <- Hids.
Qed.
(** *** New conversations *)
Lemma new_post {B} T cmd c v (k : Conversation → M ConvW B) w :
  good T c → view_of c = v → external cmd = true →
  (free T (id c) (abs (db w)) = Some tt →
     plan T (id c) cmd (abs (db w)) = Some [(id c, v)]) →
  (∀ c', quiet (k c')) →
  ensures (persist c T ≫= k) w (post T cmd (db w)).
Proof.
  intros Hg <- He Hp Hk. apply saves_persist; [done|done| |].
  - intros b d1 Hw Hu. eapply (post_one _ _ (id c)); [|exact Hw]. by apply Hp.
  - intros _. apply post_refused; [done|by right].
Qed.

Lemma priority_str p : ConversationPriority.create (enum_str p) = Ok p.
Proof. unfold ConversationPriority.create. by rewrite parse_enum_str. Qed.
Lemma status_str s : ConversationStatus.create (enum_str s) = Ok s.
Proof. unfold ConversationStatus.create. by rewrite parse_enum_str. Qed.

(** A step of a creation that may be refused from outside. *)
Ltac refusable :=
  intros; apply post_refused; [first [done|congruence]|by right].

Lemma split_post T i u w :
  db_typed (db w) → ensures (run_cmd T (CmdSplit i u)) w (post T (CmdSplit i u) (db w)).
Proof.
  intros Ht. apply ensures_void. unfold split. apply ensures_get; [done| |refusable].
  intros c [HT [Hl Hs]] Hid Hown _. apply ensures_uuid. intros o w1 E1. rewrite <- E1 in *.
  rewrite status_str, priority_str.
  do 5 (apply ensures_result; [intros ? ?|refusable]).
  apply ensures_now. intros now w2 E2. rewrite <- E2 in *. simplify_eq.
  apply (new_post _ _ _ (split_off (view_of c)));
    [split; [done|split; cbn; congruence]| |done| |intros; solve_keeps].
  - unfold view_of, split_off. cbn [metadata]. cbn.
    by rewrite !lookup_singleton_ne by done.
  - intros Hfree. cbn [plan]. rewrite Hown. cbn [mbind option_bind id create new_Conversation].
    by rewrite Hfree.
Qed.

Lemma addParticipant_view now p c :
  outcome (addParticipant now p) c = Ok tt
  ∧ view_of (final (addParticipant now p) c) = view_of c
  ∧ id (final (addParticipant now p) c) = id c
  ∧ tenantId (final (addParticipant now p) c) = tenantId c
  ∧ language (final (addParticipant now p) c) = language c
  ∧ source (final (addParticipant now p) c) = source c.
Proof.
  unfold outcome, final, addParticipant, mbind, M_bind, gets.
  by destruct (some _ _).
Qed.

Lemma create_post T dto u w :
  db_typed (db w) → ensures (run_cmd T (CmdCreate dto u)) w (post T (CmdCreate dto u) (db w)).
Proof.
  intros Ht. apply ensures_void. unfold create_conversation.
  apply ensures_result; [intros card _|refusable].
  apply ensures_frame; [solve_keeps|intros [[pg n] cur] w0 E0|refusable].
  apply ensures_frame; [solve_keeps|intros _ w1 E1|intros d1 E1; apply post_refused; [by etransitivity|by right]].
  assert (same_rows (db w) (db w1)) as E by (by etransitivity). clear E0 E1 w0.
  apply (ensures_shift _ _ _ (db w)); [exact E|].
  apply ensures_uuid. intros o w2 E2. rewrite <- E2. rewrite status_str.
  do 5 (apply ensures_result; [intros ? ?|refusable]). simplify_eq.
  apply ensures_now. intros now w3 E3. rewrite <- E3.
  apply ensures_uuid. intros pid w4 E4. rewrite <- E4.
  apply ensures_now. intros now' w5 E5. rewrite <- E5.
  apply ensures_exec; [intros c'; by apply addParticipant_view|].
  match goal with |- ensures (persist (final (addParticipant now' ?p) ?c) _ ≫= _) _ _ =>
    destruct (addParticipant_view now' p c) as (_ & Hv & Hi & HT & Hl & Hs) end.
  apply (new_post _ _ _ (created T dto a0)).
  - split; [by rewrite HT|]. rewrite Hl, Hs. split; cbn;
      [by eapply language_clean|by eapply source_clean].
  - by rewrite Hv.
  - done.
  - rewrite Hi. cbn [id create new_Conversation]. intros Hfree. cbn [plan].
    rewrite Hfree. cbn [mbind option_bind]. by rewrite H0.
  - intros. solve_keeps.
Qed.

(** Every call keeps its promise. *)
Lemma run_cmd_post T c w :
  db_typed (db w) → ensures (run_cmd T c) w (post T c (db w)).
Proof.
  destruct c; eauto using create_post, update_post, resolve_post, close_post,
    archive_post, delete_post, merge_post, split_post, assign_post, auto_post,
    transfer_post, note_post, mention_post, tag_post, remove_tag_post.
Qed.

(** *** Requests, one after the other *)
Fixpoint serve (reqs : list (string * conv_cmd)) w : list bool * ConvW :=
  match reqs with
  | [] => ([], w)
  | (T, c) :: reqs' =>
      let '(r, w1) := run_cmd T c w in
      let '(bs, w2) := serve reqs' w1 in
      (is_ok r :: bs, w2)
  end.

Lemma serve_cons T c reqs w :
  serve ((T, c) :: reqs) w
  = (is_ok (run_cmd T c w).1 :: (serve reqs (run_cmd T c w).2).1,
     (serve reqs (run_cmd T c w).2).2).
Proof.
  cbn [serve]. destruct (run_cmd T c w) as [r w1]. cbn [fst snd].
  by destruct (serve reqs w1) as [bs w2].
Qed.

Lemma serve_typed reqs w : db_typed (db w) → db_typed (db (serve reqs w).2).
Proof.
  revert w. induction reqs as [|[T c] reqs IH]; intros w Ht; [done|].
  rewrite serve_cons. apply IH. by apply (run_cmd_post T c w Ht).
Qed.

Lemma serve_steps reqs w :
  db_typed (db w) → steps (abs (db w)) reqs (serve reqs w).1 (abs (db (serve reqs w).2)).
Proof.
  revert w. induction reqs as [|[T c] reqs IH]; intros w Ht; [constructor|].
  rewrite serve_cons. destruct (run_cmd_post T c w Ht) as [[Ht' _] Hstep].
  econstructor; [exact Hstep|]. apply IH. by apply Ht'.
Qed.

Lemma serve_others reqs w T i r :
  db_typed (db w) → Forall (λ q, q.1 ≠ T) reqs →
  c_conversations (db w) !! i = Some r → row_tenantId r = T →
  c_conversations (db (serve reqs w).2) !! i = Some r.
Proof.
  intros Ht Hreqs. revert w Ht.
  induction Hreqs as [|[T' c] reqs HT' _ IH]; intros w Ht Hi HT; [done|].
  rewrite serve_cons. destruct (run_cmd_post T' c w Ht) as [[Ht' Ho] _].
  apply IH; [by apply Ht'| |done]. apply Ho; [done|]. cbn in HT'. congruence.
Qed.
End refinement.
End Refinement.
