(* ===== verification/ConversationProofs.v ===== *)
(** * Properties of the conversation services

    The theorems on conversations: refinement of the abstract store, typed rows,
    isolation, what no status prevents, merging, and the offline sweep with the
    jobs it leaves. *)

From S2P Require Import Prelude Platform Conversation ConversationRepo.
From S2P Require Import ConversationStore ConversationService ConversationRefinement.
Import ConversationStatusEnum.
Open Scope Z_scope.

Module Conversations.
Import Rows Spec Refinement.

Section conversations.
Context `{HE : Env, HS : ConvSql, HD : ConvDeps}.
Implicit Types (w : ConvW).

(** C2: The conversation services refine the abstract store: whatever sequence of
    calls tenants make, the stored conversations go through the plans of those
    calls.  A call that returns has carried out its whole plan; one that throws
    changed nothing, for want of a plan or for an outside reason, or stopped
    after one of its writes. *)
Theorem conversations_refine_store (reqs : list (string * conv_cmd)) w :
  db_typed (db w) →
  let '(bs, w') := serve reqs w in steps (abs (db w)) reqs bs (abs (db w')).
Proof.
  intros Ht. pose proof (serve_steps reqs w Ht) as Hs. by destruct (serve reqs w).
Qed.

(** C10: Rows stay well typed: after any sequence of calls every row still holds a
    status, priority, sentiment, language and source its value objects accept, so
    that loading any conversation of any tenant never throws. *)
Theorem conversation_rows_typed (reqs : list (string * conv_cmd)) w T i :
  db_typed (db w) →
  db_typed (db (serve reqs w).2)
  ∧ is_ok (find_conversation i T (db (serve reqs w).2)) = true.
Proof.
  intros Ht%(serve_typed reqs). split; [done|]. unfold find_conversation.
  destruct (select_conversation _ _ _) as [r|] eqn:E; [|done].
  apply conv_select_inv in E as [Hi _].
  destruct (typed_toDomain i r (tags_of i T (db (serve reqs w).2))
    (notes_of i T (db (serve reqs w).2)) (participants_of i T (db (serve reqs w).2))
    (mentions_of i T (db (serve reqs w).2)) (Ht _ _ Hi)) as [c ->]. done.
Qed.

(** C40: Calls made for other tenants leave a tenant's conversation rows exactly as
    they were. *)
Theorem conversations_isolated (reqs : list (string * conv_cmd)) w T i r :
  db_typed (db w) → Forall (λ q, q.1 ≠ T) reqs →
  c_conversations (db w) !! i = Some r → row_tenantId r = T →
  c_conversations (db (serve reqs w).2) !! i = Some r.
Proof. apply serve_others. Qed.

(** Merging a conversation into itself archives it and records it as merged into
    itself; the list of merged conversations that the merge computed is lost,
    since the source is saved last and was loaded before the target was saved. *)
Theorem merge_with_itself_archives T i u w :
  db_typed (db w) → is_ok (run_cmd T (CmdMerge i i u) w).1 = true →
  ∃ v, own T i (abs (db w)) = Some v
    ∧ abs (db (run_cmd T (CmdMerge i i u) w).2)
      = <[i := v <| v_mergedInto := Some (JStr i) |> <| v_status := ARCHIVED |>]>
          (abs (db w)).
Proof.
  intros Ht Hok. destruct (run_cmd_post T (CmdMerge i i u) w Ht) as [_ Hstep].
  rewrite Hok in Hstep. inversion Hstep as [o ws Hp Hb Heq| |].
  cbn [plan] in Hp. destruct (own T i (abs (db w))) as [v|]; [|done].
  cbn [mbind option_bind] in Hp. destruct (ok _) as [ids|]; [|done].
  injection Hp as <-. exists v. split; [done|]. etransitivity; [symmetry; exact Heq|].
  cbn [puts]. by rewrite insert_insert_eq.
Qed.

(** *** Nothing keeps a conversation from changing *)
Lemma publishAll_ok evs w : ∃ w', publishAll evs w = (Ok tt, w') ∧ db w' = db w.
Proof.
  pose proof (conv_publishAll_db evs w) as E. unfold final, same in E.
  pose proof (for_each_ok evs publish w (λ e s, swallow_ok _ s)) as Ho.
  unfold outcome, publishAll in *. destruct (for_each evs publish w) as [r w'].
  cbn in *. subst r. by exists w'.
Qed.

Lemma rebuild_ok T i w :
  db_typed (db w) → is_Some (get_summary i T (db w)) →
  ∃ s w', rebuild T i w = (Ok s, w').
Proof.
  intros Ht [s Hs]. unfold rebuild, findById. rewrite bind_assoc, gets_bind.
  unfold find_conversation. destruct (select_conversation i T (db w)) as [r|] eqn:E.
  2: { by do 2 eexists. }
  apply conv_select_inv in E as [Hi _].
  destruct (typed_toDomain i r (tags_of i T (db w)) (notes_of i T (db w))
    (participants_of i T (db w)) (mentions_of i T (db w)) (Ht _ _ Hi)) as [c Hc].
  rewrite Hc. pose proof Hc as Hid. apply toDomain_inv in Hid as (_ & _ & _ & Hid & _).
  destruct (Ht _ _ Hi) as [Hri _]. rewrite (bind_ok _ _ _ (Some c) w) by done.
  rewrite gets_bind, Hs.
  assert (∀ sid w0, db w0 = db w → ∃ so w',
    (now ← new_Date; upsertSummary (summary_of sid T now c (Some s)) T ;;
     mret (Some (summary_of sid T now c (Some s)))) w0 = (Ok so, w')) as Hup.
  { intros sid w0 E0. unfold new_Date, mbind at 1, M_bind at 1. unfold upsertSummary.
    set (su := summary_of _ _ _ _ _).
    unfold mbind, M_bind. rewrite conv_write_run. unfold upsert_summary.
    assert (some (is_summary (summary_conversationId su) T) (c_summary (db w)) = true) as Hx.
    { cbn [summary_conversationId summary_of su]. rewrite Hid, Hri.
      unfold get_summary in Hs. apply fmap_Some in Hs as (s0 & Hs0 & _).
      unfold some. apply existsb_exists. exists s0. by apply find_some in Hs0. }
    change (db (w0 <| ticks ::= S |>)) with (db w0). rewrite E0, Hx. by do 2 eexists. }
  destruct (js_or_undef (summary_id <$> Some s)) as [sid|].
  - by apply Hup.
  - unfold randomUUID, mbind at 1, M_bind at 1. by apply Hup.
Qed.
Lemma save_ok now T c d :
  own T (id c) (abs d) ≠ None → ∃ d1, save_conversation now c T d = Ok d1.
Proof.
  intros Ho. destruct (own T (id c) (abs d)) as [v|] eqn:E; [|done].
  apply own_inv in E as (r & Hi & HT & _).
  assert (select_conversation (id c) T d = Some r) as Es by by apply conv_select_inv.
  unfold save_conversation, write_row. rewrite Es. by eexists.
Qed.

Lemma persist_ok T c w :
  db_typed (db w) → good T c → own T (id c) (abs (db w)) ≠ None →
  is_Some (get_summary (id c) T (db w)) →
  ∃ w', persist c T w = (Ok (final clearEvents c), w').
Proof.
  intros Ht [HT Hc] Ho Hs. unfold persist.
  destruct (save_ok (env_clock (ticks w)) T c (db w) Ho) as [d1 Ed].
  set (w1 := w <| ticks ::= S |> <| db := d1 |>).
  assert (save c T w = (Ok tt, w1)) as E1 by (unfold save; rewrite conv_write_run, Ed; done).
  pose proof (save_sound _ _ _ _ _ HT Hc Ed) as [Ht1 _].
  apply conv_save_inv in Ed as (_ & _ & _ & _ & Esum & _).
  destruct (rebuild_ok T (id c) w1) as (so & w2 & E2).
  { by apply Ht1. }
  { unfold get_summary in *. change (db w1) with d1. by rewrite Esum. }
  destruct (publishAll_ok (domainEvents c) w2) as (w3 & E3 & _). exists w3.
  by rewrite (bind_ok _ _ _ _ _ E1), (bind_ok _ _ _ _ _ E2), (bind_ok _ _ _ _ _ E3).
Qed.

Lemma get_ok T i w :
  db_typed (db w) → own T i (abs (db w)) ≠ None →
  ∃ c, getOrThrow T i w = (Ok c, w) ∧ good T c ∧ id c = i.
Proof.
  intros Ht Ho.
  destruct (own T i (abs (db w))) as [v|] eqn:E; [|done].
  apply own_inv in E as (r & Hi & HT & _).
  unfold getOrThrow, findById. rewrite bind_assoc, gets_bind. unfold find_conversation.
  assert (select_conversation i T (db w) = Some r) as -> by by apply conv_select_inv.
  destruct (typed_toDomain i r (tags_of i T (db w)) (notes_of i T (db w))
    (participants_of i T (db w)) (mentions_of i T (db w)) (Ht _ _ Hi)) as [c Hc].
  rewrite Hc. exists c. split; [done|].
  apply toDomain_inv in Hc as (_ & _ & Hcl & Hid & HTc & _).
  split; [split; congruence|]. rewrite Hid. by apply Ht.
Qed.

(** The calls that set a status, and the status they set. *)
Definition sets_status (c : conv_cmd) : option (string * ConversationStatusEnum) :=
  match c with
  | CmdResolve i _ => Some (i, RESOLVED)
  | CmdClose i _ _ => Some (i, CLOSED)
  | CmdArchive i _ => Some (i, ARCHIVED)
  | _ => None
  end.

Lemma change_ok {B} T i (op : Z → M Conversation unit) (k : Conversation → M ConvW B) w :
  db_typed (db w) → own T i (abs (db w)) ≠ None → is_Some (get_summary i T (db w)) →
  (∀ now c, outcome (op now) c = Ok tt) →
  (∀ now c, good T c → good T (final (op now) c) ∧ id (final (op now) c) = id c) →
  (∀ c w1, is_ok (k c w1).1 = true) →
  is_ok ((c ← getOrThrow T i; now ← new_Date; c ← exec (op now) c;
          c ← persist c T; k c) w).1 = true.
Proof.
  intros Ht Ho Hs Hop Hf Hk. destruct (get_ok T i w Ht Ho) as (c & E & Hg & Hid).
  rewrite (bind_ok _ _ _ _ _ E). unfold new_Date, mbind at 1, M_bind at 1.
  set (now := env_clock (ticks w)). set (w1 := w <| ticks ::= S |>).
  destruct (Hf now c Hg) as [Hg' Hid'].
  rewrite (bind_ok _ _ _ (final (op now) c) w1).
  2: { specialize (Hop now c). unfold exec, final, outcome in *.
       destruct (op now c) as [[] c']; [done|discriminate]. }
  destruct (persist_ok T (final (op now) c) w1) as (w2 & E2);
    [done|done|by rewrite Hid', Hid|by rewrite Hid', Hid|].
  rewrite (bind_ok _ _ _ _ _ E2). apply Hk.
Qed.

(** No status keeps a conversation from being resolved, closed or archived, not
    even archived or soft-deleted ones: the call returns and the conversation has
    the new status, with everything else of a plan as before. *)
Theorem status_never_blocks T c i s v w :
  sets_status c = Some (i, s) → db_typed (db w) → own T i (abs (db w)) = Some v →
  is_Some (get_summary i T (db w)) →
  is_ok (run_cmd T c w).1 = true
  ∧ v_status <$> own T i (abs (db (run_cmd T c w).2)) = Some s
  ∧ v_deleted <$> own T i (abs (db (run_cmd T c w).2)) = Some (v_deleted v).
Proof.
  intros Hc Ht Ho Hs.
  assert (is_ok (run_cmd T c w).1 = true) as Hok.
  { assert (∀ A (m : M ConvW A), is_ok (m w).1 = true → is_ok (void m w).1 = true) as Hv.
    { intros A m. unfold void, fmap, M_fmap. by destruct (m w) as [[] ?]. }
    destruct c; simplify_eq Hc; intros <- <-; apply Hv, change_ok;
      try done; by rewrite Ho. }
  split; [done|]. destruct (run_cmd_post T c w Ht) as [_ Hstep]. rewrite Hok in Hstep.
  inversion Hstep as [o ws Hp Hb Heq| |]. clear Hstep.
  assert (∃ v', ws = [(i, v')] ∧ v_status v' = s ∧ v_deleted v' = v_deleted v
            ∧ v_tenant v' = T) as (v' & -> & <- & <- & HT).
  { assert (v_tenant v = T) by by apply own_inv in Ho as (r & _ & HT & ->).
    destruct c; simplify_eq Hc; intros <- <-; cbn [plan] in Hp; rewrite Ho in Hp;
      injection Hp as <-; eexists; by split_and!. }
  cbn [puts]. unfold own. rewrite lookup_insert_eq. cbn. by rewrite HT, String.eqb_refl.
Qed.

(** *** The offline sweep *)

(** The sweep looks at one page of two hundred conversations per offline agent,
    terminal ones included.  When that page holds no active conversation it
    reassigns nothing and counts nothing, whatever lies on the next page. *)
Theorem sweep_stops_at_the_page tenant T agent w cs n cur :
  offline_agents tenant = [(T, agent)] →
  find_paginated T (agent_page agent) (db w) = Ok (cs, n, cur) →
  Forall (λ c, status c ∉ ACTIVE_CONVERSATION_STATUSES) cs →
  reassignFromOfflineAgents tenant w = (Ok (0, 0), w).
Proof.
  intros Ha Hp Hcs. unfold reassignFromOfflineAgents. rewrite Ha. cbn [fold_each].
  unfold findPaginated. rewrite bind_assoc, bind_assoc, gets_bind. cbn [fst snd]. rewrite Hp.
  rewrite (bind_ok _ _ _ (cs, n, cur) w) by done.
  assert (fold_each cs (0, 0) (reassign_one T) w = (Ok (0, 0), w)) as E.
  { clear Hp. induction Hcs as [|c cs Hc _ IH]; [done|]. cbn [fold_each].
    rewrite (bind_ok _ _ _ (0, 0) w); [exact IH|].
    unfold reassign_one. by rewrite bool_decide_eq_false_2. }
  by rewrite (bind_ok _ _ _ _ _ E).
Qed.

(** A job of the conversation queue that its worker will refuse. *)
Definition refused (j : Job) : Prop :=
  job_queue j = CONVERSATION →
  ∀ w, handleJob j w = (Throw (no_tenant_context j), w).

(** Outside any tenant's context only refused conversation jobs are added. *)
Definition unattended w w' : Prop :=
  tenantContext w = None →
  tenantContext w' = None ∧ ∃ js, jobs w' = jobs w ++ js ∧ Forall refused js.

#[local] Instance unattended_preorder : PreOrder unattended.
Proof.
  split.
  - intros w E. split; [done|]. exists []. by rewrite app_nil_r.
  - intros w1 w2 w3 H12 H23 E. destruct (H12 E) as (E2 & js & J2 & Hjs).
    destruct (H23 E2) as (E3 & js' & J3 & Hjs'). split; [done|].
    exists (js ++ js'). by rewrite J3, J2, app_assoc, Forall_app.
Qed.

Lemma unattended_addJob q name data o :
  (q = CONVERSATION → str_field "tenantId" data = None
     ∧ field "_tenantContext" data = None ∧ name ≠ "agent-offline-reassignment-job") →
  keeps unattended (addJob q name data o).
Proof.
  intros Hq w E. unfold addJob, getTenantId, final. rewrite gets_bind, E. cbn [opt_field].
  match goal with |- context [env_queue_add ?j] => set (job := j) end.
  destruct (env_queue_add job) as [e|].
  { split; [done|]. exists []. by rewrite app_nil_r. }
  split; [done|]. exists [job]. split; [done|]. constructor; [|done].
  intros Hj w0. destruct (Hq Hj) as (Ht & Hc & Hn).
  assert (tenant_of_job job = None) as Ej.
  { assert (∀ k o o', field k (o ++ o') = match field k o with Some v => Some v
                                         | None => field k o' end) as Hf.
    { intros k l l'. unfold field, js_find. induction l as [|[k' v'] l IH]; [done|].
      cbn. by destruct (String.eqb k' k). }
    unfold tenant_of_job, job_tenant, data_opt, str_field.
    cbn [job job_data]. rewrite !Hf, Hc. cbn.
    unfold str_field in Ht. by destruct (field "tenantId" data) as [[]|]. }
  unfold handleJob. rewrite Ej. apply String.eqb_neq in Hn. cbn [job job_name]. by rewrite Hn.
Qed.

Lemma unattended_world {A} (m : M ConvW A) :
  keeps (λ w w', tenantContext w' = tenantContext w ∧ jobs w' = jobs w) m → keeps unattended m.
Proof.
  apply keeps_mono. intros w w' [Ec Ej] E. split; [congruence|]. exists [].
  by rewrite app_nil_r.
Qed.

Lemma unattended_write f : keeps unattended (write f).
Proof.
  apply unattended_world. intros w. unfold final. rewrite conv_write_run. by destruct (f _ _).
Qed.

Lemma unattended_now : keeps unattended new_Date.
Proof. by apply unattended_world. Qed.
Lemma unattended_uuid : keeps unattended randomUUID.
Proof. by apply unattended_world. Qed.
Lemma unattended_audit t u a d : keeps unattended (audit_log t u a d).
Proof. by apply unattended_world. Qed.
#[local] Hint Resolve unattended_write unattended_now unattended_uuid unattended_audit : keeps.
#[local] Hint Extern 2 (keeps unattended (addJob _ _ _ _)) =>
  apply unattended_addJob; [done || by intros _] : keeps.

Lemma unattended_publish e : keeps unattended (publish e).
Proof.
  unfold publish. repeat (keeps_step; try done; try apply _).
  all: by apply unattended_addJob.
Qed.
#[local] Hint Resolve unattended_publish : keeps.

Lemma unattended_persist c T : keeps unattended (persist c T).
Proof.
  unfold persist, publishAll, save, rebuild, findById, upsertSummary. solve_keeps.
Qed.
#[local] Hint Resolve unattended_persist : keeps.

(** Outside any tenant's context, where the scheduled sweep over all tenants
    runs, every job that the sweep puts on the conversation queue (the rebuilds of
    the summary and the analytics of each reassignment) is one its own worker
    refuses for want of a tenant, provided the assignment engine adds none that it
    would accept. *)
Theorem sweep_jobs_refused tenant w :
  tenantContext w = None →
  (∀ t team e n, keeps unattended (assign_entity t team e n)) →
  ∃ js, jobs (final (reassignFromOfflineAgents tenant) w) = jobs w ++ js
    ∧ Forall refused js.
Proof.
  intros E Ha. assert (keeps unattended (reassignFromOfflineAgents tenant)) as Hk.
  { unfold reassignFromOfflineAgents, findPaginated, reassign_one, autoAssign,
      assign_conversation, recordAssignment, addAssignment, notifyAssignedAgent,
      getOrThrow, findById. solve_keeps; by apply unattended_addJob. }
  by destruct (Hk w E) as [_ ?].
Qed.
End conversations.

(** *** Sample runs *)
#[local] Instance conv_env : Env := ticking_env.

Definition newest_first (a b : ConversationRow) : Z :=
  default 0 (row_lastActivityAt b) - default 0 (row_lastActivityAt a).

#[local, program] Instance conv_sql : ConvSql :=
  {| ilike _ _ := false; id_gt _ _ := false;
     order_rows _ _ l := js_sort newest_first l |}.
Next Obligation. intros. apply js_sort_perm. Qed.

#[local, program] Instance conv_deps : ConvDeps :=
  {| customer_card _ _ := Ok {| displayName := Some "Ada"; card_syntheticEmail := false;
       externalCustomerId := None; card_email := "ada@acme.test"; avatarUrl := None |};
     agent_displayName _ _ := Ok (Some "Ann"); team_name _ _ := Ok (Some "Support");
     enforceLimit _ _ _ := mret tt; assign_entity _ _ _ _ := mret "ann";
     offline_agents _ := [("acme", "bob")]; inbox_invalidate _ := mret tt;
     processInboundMessage _ _ _ _ _ := mret tt |}.
Solve All Obligations with done.

Definition sample_row (i tenant status_ : string) (activity : Z) : ConversationRow :=
  {| row_id := i; row_tenantId := tenant; row_customerId := "cust-1";
     row_channelId := None; row_assignedAgentId := Some "bob";
     row_assignedTeamId := Some "support"; row_status := status_;
     row_priority := "HIGH"; row_subject := Some "Hello"; row_language := "en";
     row_sentiment := "NEUTRAL"; row_source := "API"; row_lastMessageAt := None;
     row_lastActivityAt := Some activity; row_firstResponseAt := None;
     row_resolvedAt := None; row_closedAt := None; row_metadata := None;
     row_createdAt := 0; row_updatedAt := 0; row_deletedAt := None; row_version := 1 |}.

Definition sample_summary (i tenant : string) : ConversationSummary :=
  {| summary_id := "s-" +:+ i; summary_tenantId := tenant; summary_conversationId := i;
     customerName := None; customerAvatar := None; lastMessage := None;
     lastMessageType := None; summary_lastMessageAt := None; unreadCount := 0;
     totalMessages := 0; totalAttachments := 0; sentimentScore := 0;
     summary_priority := None; summary_status := None; assignedAgentName := None;
     assignedTeamName := None; summary_createdAt := 0; summary_updatedAt := 0 |}.

Definition db_of (rows : list ConversationRow) : ConvDb :=
  {| c_conversations := list_to_map ((λ r, (row_id r, r)) <$> rows); c_tags := [];
     c_notes := []; c_participants := []; c_mentions := []; c_assignments := [];
     c_summary := (λ r, sample_summary (row_id r) (row_tenantId r)) <$> rows |}.

Definition two_tenants : ConvDb :=
  db_of [sample_row "c1" "acme" "ARCHIVED" 5; sample_row "c2" "globex" "OPEN" 6].
Definition two_world : ConvW := fresh_world two_tenants.

Lemma sample_row_typed i tenant status_ activity :
  (∃ s : ConversationStatusEnum, status_ = enum_str s) →
  row_typed i (sample_row i tenant status_ activity).
Proof.
  intros Hs. split; [done|]. split; [done|].
  split; [by exists ConversationPriorityEnum.HIGH|].
  split; [by exists ConversationSentimentEnum.NEUTRAL|]. by split; vm_compute.
Qed.

Lemma two_typed : db_typed (db two_world).
Proof.
  apply map_Forall_insert_2; [by apply sample_row_typed; exists ARCHIVED|].
  apply map_Forall_insert_2; [by apply sample_row_typed; exists OPEN|].
  apply map_Forall_empty.
Qed.

Definition two_requests : list (string * conv_cmd) :=
  [("acme", CmdResolve "c1" None); ("acme", CmdResolve "c2" None);
   ("globex", CmdTransfer "c2" "eve" None)].

(** The second call is for another tenant's conversation and is refused. *)
Lemma conversations_refine_store_witness :
  let '(bs, w') := serve two_requests two_world in
  bs = [true; false; true] ∧ steps (abs two_tenants) two_requests bs (abs (db w')).
Proof.
  pose proof (conversations_refine_store two_requests two_world two_typed) as Hs.
  destruct (serve two_requests two_world) as [bs w'] eqn:E. split; [|exact Hs].
  assert ((serve two_requests two_world).1 = [true; false; true]) as Hb
    by (vm_compute; reflexivity).
  by rewrite E in Hb.
Defined.

Lemma conversation_rows_typed_witness :
  is_ok (find_conversation "c1" "acme" (db (serve two_requests two_world).2)) = true.
Proof. apply (conversation_rows_typed two_requests two_world "acme" "c1" two_typed). Defined.

Lemma conversations_isolated_witness :
  c_conversations (db (serve [("globex", CmdDelete "c1" None)] two_world).2) !! "c1"
  = Some (sample_row "c1" "acme" "ARCHIVED" 5).
Proof.
  apply (conversations_isolated _ two_world "acme" "c1").
  - exact two_typed.
  - by repeat constructor.
  - reflexivity.
  - reflexivity.
Defined.

Lemma merge_with_itself_archives_witness :
  ∃ v, own "globex" "c2" (abs two_tenants) = Some v
    ∧ abs (db (run_cmd "globex" (CmdMerge "c2" "c2" None) two_world).2)
      = <["c2" := v <| v_mergedInto := Some (JStr "c2") |> <| v_status := ARCHIVED |>]>
          (abs two_tenants).
Proof.
  apply (merge_with_itself_archives "globex" "c2" None two_world two_typed).
  vm_compute. reflexivity.
Defined.

Lemma status_never_blocks_witness :
  is_ok (run_cmd "acme" (CmdResolve "c1" None) two_world).1 = true.
Proof.
  apply (status_never_blocks "acme" (CmdResolve "c1" None) "c1" RESOLVED
    (view_row (sample_row "c1" "acme" "ARCHIVED" 5)) two_world).
  - reflexivity.
  - exact two_typed.
  - reflexivity.
  - eexists. reflexivity.
Defined.

(** Two hundred closed conversations, and one more, older, that is assigned. *)
Definition busy_db : ConvDb :=
  db_of (sample_row "old" "acme" "ASSIGNED" 0
    :: ((λ n, sample_row (pretty n) "acme" "CLOSED" (Z.of_nat n)) <$> seq 1 200)).
Definition busy_page : list Conversation :=
  match find_paginated "acme" (agent_page "bob") busy_db with
  | Ok (cs, _, _) => cs | Throw _ => [] end.
Definition busy_cursor : option string :=
  match find_paginated "acme" (agent_page "bob") busy_db with
  | Ok (_, _, c) => c | Throw _ => None end.

Lemma sweep_stops_at_the_page_witness :
  c_conversations busy_db !! "old" = Some (sample_row "old" "acme" "ASSIGNED" 0)
  ∧ reassignFromOfflineAgents None (fresh_world busy_db) = (Ok (0, 0), fresh_world busy_db).
Proof.
  split; [reflexivity|].
  apply (sweep_stops_at_the_page None "acme" "bob" (fresh_world busy_db)
    busy_page 201 busy_cursor).
  - reflexivity.
  - vm_compute. reflexivity.
  - apply (bool_decide_unpack _). vm_compute. exact I.
Defined.

Definition offline_world : ConvW := fresh_world (db_of [sample_row "c1" "acme" "ASSIGNED" 5]).

(** One conversation is reassigned; the rebuild of its summary is among the jobs. *)
Lemma sweep_jobs_refused_witness :
  (∃ j, j ∈ jobs (final (reassignFromOfflineAgents None) offline_world)
     ∧ job_name j = "conversation-summary-job")
  ∧ ∃ js, jobs (final (reassignFromOfflineAgents None) offline_world) = [] ++ js
     ∧ Forall refused js.
Proof.
  split.
  - eexists. split; [vm_compute; left|reflexivity].
  - apply (sweep_jobs_refused None offline_world); [reflexivity|].
    intros t team e n. apply keeps_ret, unattended_preorder.
Defined.
End Conversations.
