(* ===== verification/Crawler.v ===== *)
(** * The website crawler

    [src/modules/knowledge-base/services/crawler.service.ts].  Texts are lists of
    code units; the regular expressions of the code are scanners.  The HTTP
    client, [new URL] and the digest of [node:crypto] are the class [Web]; the
    response to a request depends on how many were made before it. *)

From S2P Require Import Prelude.
Open Scope Z_scope.

Abbreviation text := (list ascii).
Definition lit (s : string) : text := chars s.

(** *** Scanners *)

(** [l] starts with [p], letters in either case. *)
Fixpoint starts_ci (p l : text) : bool :=
  match p, l with
  | [], _ => true
  | x :: p', y :: l' => bool_decide (ascii_lower x = ascii_lower y) && starts_ci p' l'
  | _ :: _, [] => false
  end.

Fixpoint contains_ci (p l : text) : bool :=
  starts_ci p l || match l with [] => false | _ :: l' => contains_ci p l' end.

Definition boundary (l : text) : bool :=
  match l with c :: _ => negb (is_word c) | [] => true end.

(** Deletes every block from [opening] to the next [closing]; an [opening] that is
    never closed stays.  [skip] code units are being jumped over. *)
Fixpoint remove_blocks (word : bool) (opening closing : text) (skip : nat)
    (inside : bool) (l : text) : text :=
  match l with
  | [] => []
  | c :: l' =>
      match skip with
      | S k => remove_blocks word opening closing k inside l'
      | O =>
          if inside then
            if starts_ci closing l
            then remove_blocks word opening closing (length closing - 1) false l'
            else remove_blocks word opening closing 0 true l'
          else
            let rest := drop (length opening) l in
            if starts_ci opening l && (negb word || boundary rest)
               && contains_ci closing rest
            then remove_blocks word opening closing (length opening - 1) true l'
            else c :: remove_blocks word opening closing 0 false l'
      end
  end.

(** [s.replace(/from/g, to)] for a literal [from]. *)
Fixpoint replace_all (from : text) (to : ascii) (skip : nat) (l : text) : text :=
  match l with
  | [] => []
  | c :: l' =>
      match skip with
      | S k => replace_all from to k l'
      | O => if starts from l then to :: replace_all from to (length from - 1) l'
             else c :: replace_all from to 0 l'
      end
  end.

(** [content.replace(/<[^>]*>/g, ' ')] *)
Fixpoint strip_tags (inside : bool) (l : text) : text :=
  match l with
  | [] => []
  | c :: l' =>
      if inside then strip_tags (negb (bool_decide (c = ">"%char))) l'
      else if bool_decide (c = "<"%char) && existsb (λ x, bool_decide (x = ">"%char)) l'
      then " "%char :: strip_tags true l'
      else c :: strip_tags false l'
  end.

(** [content.replace(/\s+/g, ' ')] *)
Fixpoint collapse (in_space : bool) (l : text) : text :=
  match l with
  | [] => []
  | c :: l' =>
      if js_is_space c then
        if in_space then collapse true l' else " "%char :: collapse true l'
      else c :: collapse false l'
  end.

Definition trim_text (l : text) : text := rev (drop_space (rev (drop_space l))).

Definition extractTextContent (html : text) : text :=
  let content := remove_blocks true (lit "<script") (lit "</script>") 0 false html in
  let content := remove_blocks true (lit "<style") (lit "</style>") 0 false content in
  let content := remove_blocks false (lit "<!--") (lit "-->") 0 false content in
  let content := replace_all (lit "&nbsp;") " " 0 content in
  let content := replace_all (lit "&lt;") "<" 0 content in
  let content := replace_all (lit "&gt;") ">" 0 content in
  let content := replace_all (lit "&amp;") "&" 0 content in
  let content := strip_tags false content in
  trim_text (collapse false content).

(** The longest prefix without the character [stop]. *)
Fixpoint until (stop : ascii) (l : text) : text :=
  match l with
  | [] => []
  | c :: l' => if bool_decide (c = stop) then [] else c :: until stop l'
  end.

(** [html.match(/<title>([^<]+)<\/title>/i)] *)
Fixpoint match_title (l : text) : option text :=
  match l with
  | [] => None
  | _ :: l' =>
      let rest := drop 7 l in
      let body := until "<" rest in
      if starts_ci (lit "<title>") l && negb (bool_decide (body = []))
         && starts_ci (lit "</title>") (drop (length body) rest)
      then Some body else match_title l'
  end.

Definition extractTitle (html : text) : text :=
  match match_title html with Some m => trim_text m | None => [] end.

(** The quoted values that follow [href=], in either case, none of them empty; the
    quote is code unit 34. *)
Definition quote : ascii := Ascii.ascii_of_nat 34.

Fixpoint hrefs (skip : nat) (l : text) : list text :=
  match l with
  | [] => []
  | _ :: l' =>
      match skip with
      | S k => hrefs k l'
      | O =>
          let rest := drop 6 l in
          let body := until quote rest in
          if starts_ci (lit "href=" ++ [quote]) l && negb (bool_decide (body = []))
             && starts [quote] (drop (length body) rest)
          then body :: hrefs (6 + length body) l' else hrefs 0 l'
      end
  end.

(** ** The web *)
Inductive response := Html (body : text) | NotText | Unreachable.

Record ScrapedPage := {
  page_url : string;
  title : text;
  content : text;
  checksum : string;
}.

Class Web := {
  (** The answer to the [n]-th request. *)
  get : nat → string → response;
  (** [new URL(href, base)] with an empty hash: its host and its text. *)
  resolve_url : text → option string → option (string * string);
  sha256 : text → string;
}.

Section crawler.
Context `{Web}.

(** [Array.from(new Set(links))]: the first of equal elements stays. *)
Fixpoint dedupe (seen : list string) (l : list string) : list string :=
  match l with
  | [] => []
  | x :: l' => if bool_decide (x ∈ seen) then dedupe seen l'
               else x :: dedupe (x :: seen) l'
  end.

Definition ignored_href (raw : text) : bool :=
  starts (lit "javascript:") raw || starts (lit "mailto:") raw || starts (lit "#") raw.

Definition discoverLinks (html : text) (baseUrl targetDomain : string) : list string :=
  dedupe [] (omap (λ raw,
    if ignored_href raw then None
    else match resolve_url raw (Some baseUrl) with
         | Some (host, url) => if String.eqb host targetDomain then Some url else None
         | None => None
         end) (hrefs 0 html)).

Definition scrape (url : string) (html : text) : ScrapedPage :=
  let content := extractTextContent html in
  {| page_url := url;
     title := match extractTitle html with [] => lit url | t => t end;
     content := content; checksum := sha256 content |}.

(** [for (const link of links) if (!visited.has(link) && !queue.includes(link))
    queue.push(link)] *)
Definition push_links (visited queue links : list string) : list string :=
  foldl (λ q link, if bool_decide (link ∈ visited) || bool_decide (link ∈ q)
                   then q else q ++ [link]) queue links.

(** One pass of the loop on a non-empty queue: the requests made, the queue, the
    visited addresses and the results. *)
Record CrawlState := {
  requests : nat;
  queue : list string;
  visited : list string;
  results : list ScrapedPage;
}.
#[export] Instance CrawlState_Eta : Eta CrawlState := λ s,
  Build_CrawlState (requests s) (queue s) (visited s) (results s).

Definition crawl_step (domain url : string) (q : list string) (s : CrawlState) : CrawlState :=
  if bool_decide (url ∈ visited s) then s <| queue := q |>
  else
    let visited' := url :: visited s in
    let s' := s <| requests ::= S |> <| queue := q |> <| visited := visited' |> in
    match get (requests s) url with
    | Html html =>
        s' <| results ::= λ r, r ++ [scrape url html] |>
           <| queue := push_links visited' q (discoverLinks html url domain) |>
    | NotText | Unreachable => s'
    end.

(** The [while] loop; [None] when the fuel is used up. *)
Fixpoint crawl_loop (fuel : nat) (limit : Z) (domain : string) (s : CrawlState)
    : option CrawlState :=
  match fuel with
  | O => None
  | S fuel' =>
      match queue s with
      | [] => Some s
      | url :: q =>
          if Z.of_nat (length (results s)) <? limit
          then crawl_loop fuel' limit domain (crawl_step domain url q s)
          else Some s
      end
  end.

Definition initial (startUrl : string) : CrawlState :=
  {| requests := 0; queue := [startUrl]; visited := []; results := [] |}.

Definition invalid_url : exn := Exn JsTypeError "Invalid URL".

Definition crawlWebsite (fuel : nat) (startUrl : string) (limit : Z)
    : result (option (list ScrapedPage)) :=
  match resolve_url (lit startUrl) None with
  | None => Throw invalid_url
  | Some (domain, _) => Ok (results <$> crawl_loop fuel limit domain (initial startUrl))
  end.
End crawler.

(** ** [parseSitemap] *)

(** A maximal run of [[^\s<]]. *)
Fixpoint loc_body (l : text) : text :=
  match l with
  | [] => []
  | c :: l' => if js_is_space c || bool_decide (c = "<"%char) then [] else c :: loc_body l'
  end.

(** The groups of [/<loc>(https?:\/\/[^\s<]+)<\/loc>/g]. *)
Fixpoint locs (skip : nat) (l : text) : list text :=
  match l with
  | [] => []
  | _ :: l' =>
      match skip with
      | S k => locs k l'
      | O =>
          let rest := drop 5 l in
          let scheme := if starts (lit "https://") rest then 8%nat
                        else if starts (lit "http://") rest then 7%nat else 0%nat in
          let body := loc_body rest in
          if starts (lit "<loc>") l && (0 <? scheme)%nat
             && (scheme <? length body)%nat
             && starts (lit "</loc>") (drop (length body) rest)
          then body :: locs (10 + length body) l' else locs 0 l'
      end
  end.

Definition parseSitemap (r : response) : list text :=
  match r with Html xml => locs 0 xml | NotText | Unreachable => [] end.

(** ** Properties *)
Module Crawling.
Section crawling.
Context `{Web}.
Implicit Types (s : CrawlState).

(** The loop keeps its addresses apart: nothing is visited twice, the pages are of
    visited addresses, in number as many as distinct ones, and every request was
    for a new address. *)
Definition sane (limit : Z) s : Prop :=
  NoDup (visited s) ∧ length (visited s) = requests s
  ∧ NoDup (page_url <$> results s)
  ∧ (∀ u, u ∈ page_url <$> results s → u ∈ visited s)
  ∧ (results s = [] ∨ Z.of_nat (length (results s)) ≤ limit).

Lemma crawl_step_sane limit domain url q s :
  sane limit s → Z.of_nat (length (results s)) < limit →
  sane limit (crawl_step domain url q s).
Proof.
  intros (Hv & Hr & Hp & Hin & _) Hl. unfold crawl_step. case_bool_decide as Hu.
  { split_and!; try done. right. cbn. lia. }
  assert (NoDup (url :: visited s)) by by constructor.
  destruct (get _ _) as [html| |]; cbn -[scrape]; split_and!; cbn -[scrape];
    try done; try (by f_equal); try (by right; lia).
  - apply nodup_fmap_snoc; [done|]. intros Hc. by apply Hu, Hin.
  - intros u. rewrite fmap_app, elem_of_app. intros [Hu'|Hu'].
    + right. by apply Hin.
    + apply list_elem_of_singleton in Hu' as ->. left.
  - right. rewrite length_app. cbn. lia.
  - intros u Hu'. right. by apply Hin.
  - intros u Hu'. right. by apply Hin.
Qed.

(** A pass either finds a page or shortens the queue. *)
Lemma crawl_step_progress domain url q s :
  length (results (crawl_step domain url q s)) = S (length (results s))
  ∨ length (results (crawl_step domain url q s)) = length (results s)
    ∧ queue (crawl_step domain url q s) = q.
Proof.
  unfold crawl_step. case_bool_decide; [by right|].
  destruct (get _ _); cbn; [left; rewrite length_app; cbn; lia|by right|by right].
Qed.

Lemma crawl_loop_mono fuel fuel' limit domain s s' :
  (fuel ≤ fuel')%nat → crawl_loop fuel limit domain s = Some s' →
  crawl_loop fuel' limit domain s = Some s'.
Proof.
  revert fuel' s. induction fuel as [|fuel IH]; intros [|fuel'] s Hle; try done; [lia|].
  cbn. destruct (queue s) as [|url q]; [done|]. destruct (_ <? _); [|done].
  apply IH. lia.
Qed.

(** The measure is lexicographic: the pages still wanted, then the queue. *)
Lemma crawl_loop_ends limit domain s :
  sane limit s → ∃ fuel s', crawl_loop fuel limit domain s = Some s' ∧ sane limit s'.
Proof.
  remember (Z.to_nat (limit - Z.of_nat (length (results s)))) as wanted eqn:Ew.
  revert s Ew. induction (lt_wf wanted) as [wanted _ IHw]. intros s.
  remember (length (queue s)) as n eqn:En. revert s En.
  induction (lt_wf n) as [n _ IHn]. intros s En Ew Hs.
  destruct (queue s) as [|url q] eqn:Eq.
  { exists 1%nat, s. cbn. by rewrite Eq. }
  destruct (Z.ltb_spec (Z.of_nat (length (results s))) limit) as [Hl|Hl].
  2: { exists 1%nat, s. cbn. rewrite Eq. apply Z.ltb_ge in Hl. by rewrite Hl. }
  pose proof (crawl_step_sane limit domain url q s Hs Hl) as Hs'.
  assert (∃ fuel s', crawl_loop fuel limit domain (crawl_step domain url q s) = Some s'
            ∧ sane limit s') as (fuel & s' & Ef & Hs'').
  { destruct (crawl_step_progress domain url q s) as [Er|[Er Eq']].
    - eapply (IHw (Z.to_nat (limit - Z.of_nat (length (results (crawl_step domain url q s))))));
        [|reflexivity|exact Hs']. rewrite Er, Ew. lia.
    - eapply (IHn (length q)); [cbn in En; lia|by rewrite Eq'|by rewrite Er|exact Hs']. }
  exists (S fuel), s'. split; [|done]. cbn. rewrite Eq.
  apply Z.ltb_lt in Hl. by rewrite Hl.
Qed.

(** C14: The crawl ends whatever the web answers: from any valid address there is a
    number of passes after which the loop stops, and more fuel changes nothing.
    No page is returned twice, no address is requested twice, and there are no
    more pages than the limit. *)
Theorem crawl_terminates startUrl limit domain shown :
  resolve_url (lit startUrl) None = Some (domain, shown) →
  ∃ fuel pages,
    (∀ fuel', (fuel ≤ fuel')%nat → crawlWebsite fuel' startUrl limit = Ok (Some pages))
    ∧ NoDup (page_url <$> pages)
    ∧ (pages = [] ∨ Z.of_nat (length pages) ≤ limit)
    ∧ ∃ s, crawl_loop fuel limit domain (initial startUrl) = Some s
        ∧ length (visited s) = requests s ∧ NoDup (visited s).
Proof.
  intros Hd. destruct (crawl_loop_ends limit domain (initial startUrl)) as (fuel & s & E & Hs).
  { split_and!; [constructor|done|constructor|by intros u Hu%elem_of_nil|by left]. }
  destruct Hs as (Hv & Hr & Hp & _ & Hl). exists fuel, (results s). split_and!; try done.
  - intros fuel' Hle. unfold crawlWebsite. rewrite Hd.
    by rewrite (crawl_loop_mono fuel fuel' _ _ _ s).
  - by exists s.
Qed.
End crawling.

(** *** Text that was escaped *)
Lemma starts_ci_first x p c l :
  (∀ d, ascii_lower d = ascii_lower x → d = x) → c ≠ x → starts_ci (x :: p) (c :: l) = false.
Proof.
  intros Hx Hc. cbn. rewrite bool_decide_eq_false_2; [done|]. intros E. by apply Hc, Hx.
Qed.

Lemma lower_lt d : ascii_lower d = ascii_lower "<" → d = "<"%char.
Proof. by destruct d as [[] [] [] [] [] [] [] []]. Qed.

(** Without the character a block opens with, nothing is deleted. *)
Lemma remove_blocks_none word opening closing l :
  head opening = Some "<"%char → "<"%char ∉ l →
  remove_blocks word opening closing 0 false l = l.
Proof.
  destruct opening as [|x p]; intros [= ->]. induction l as [|c l IH]; intros Hl; [done|].
  apply not_elem_of_cons in Hl as [Hc Hl]. cbn [remove_blocks].
  rewrite starts_ci_first; [|exact lower_lt|done]. cbn [andb]. by rewrite IH.
Qed.

Lemma replace_all_app from to x r :
  "&"%char ∉ x →
  replace_all ("&"%char :: from) to 0 (x ++ r) = x ++ replace_all ("&"%char :: from) to 0 r.
Proof.
  induction x as [|c x IH]; intros Hx; [done|].
  apply not_elem_of_cons in Hx as [Hc Hx]. cbn.
  rewrite bool_decide_eq_false_2 by done. cbn. by rewrite IH.
Qed.

Lemma replace_all_skip from to r :
  replace_all ("&"%char :: from) to 0 ("&"%char :: from ++ r)
  = to :: replace_all ("&"%char :: from) to 0 r.
Proof.
  assert (∀ p k, k = length p →
    replace_all ("&"%char :: from) to k (p ++ r) = replace_all ("&"%char :: from) to 0 r) as Hk.
  { intros p k ->. by induction p. }
  assert (∀ p, starts p (p ++ r) = true) as Hp.
  { induction p as [|c p IH]; [done|]. cbn. by rewrite bool_decide_eq_true_2. }
  cbn. rewrite Hp. cbn. rewrite Hk; [done|lia].
Qed.

Lemma strip_inside x r :
  ">"%char ∉ x → strip_tags true (x ++ ">"%char :: r) = strip_tags false r.
Proof.
  induction x as [|c x IH]; intros Hx; [done|].
  apply not_elem_of_cons in Hx as [Hc Hx]. cbn.
  rewrite bool_decide_eq_false_2 by done. by apply IH.
Qed.

(** The entities of a page are decoded before its tags are stripped, so a text
    that a page shows between angle brackets, properly escaped, is taken for a
    tag and lost. *)
Theorem escaped_text_is_lost (x : text) :
  "<"%char ∉ x → ">"%char ∉ x → "&"%char ∉ x →
  extractTextContent (lit "&lt;" ++ x ++ lit "&gt;") = [].
Proof.
  intros Hlt Hgt Hamp. unfold extractTextContent.
  assert ("<"%char ∉ lit "&lt;" ++ x ++ lit "&gt;") as Hl.
  { rewrite !not_elem_of_app. split_and!; [|done|]; apply (bool_decide_unpack _); vm_compute; exact I. }
  rewrite (remove_blocks_none true (lit "<script")) by done.
  rewrite (remove_blocks_none true (lit "<style")) by done.
  rewrite (remove_blocks_none false (lit "<!--")) by done.
  assert (replace_all (lit "&nbsp;") " " 0 (lit "&lt;" ++ x ++ lit "&gt;")
          = lit "&lt;" ++ x ++ lit "&gt;") as ->.
  { do 4 (apply (f_equal (cons _))). by apply (replace_all_app (lit "nbsp;")). }
  assert (replace_all (lit "&lt;") "<" 0 (lit "&lt;" ++ x ++ lit "&gt;")
          = "<"%char :: x ++ lit "&gt;") as ->.
  { etransitivity; [apply (replace_all_skip (lit "lt;"))|].
    apply (f_equal (cons _)). by apply (replace_all_app (lit "lt;")). }
  assert (replace_all (lit "&gt;") ">" 0 ("<"%char :: x ++ lit "&gt;")
          = "<"%char :: x ++ [">"%char]) as ->.
  { apply (f_equal (cons _)). by apply (replace_all_app (lit "gt;")). }
  assert (replace_all (lit "&amp;") "&" 0 ("<"%char :: x ++ [">"%char])
          = "<"%char :: x ++ [">"%char]) as ->.
  { apply (f_equal (cons _)). by apply (replace_all_app (lit "amp;")). }
  assert (strip_tags false ("<"%char :: x ++ [">"%char]) = [" "%char]) as ->; [|done].
  cbn [strip_tags]. rewrite existsb_app. cbn [existsb].
  rewrite (bool_decide_eq_true_2 (">"%char = ">"%char)) by done.
  rewrite orb_true_r. cbn. by rewrite (strip_inside x []).
Qed.

(** *** A small web: two pages that link to each other and to a missing one *)
#[local] Instance small_web : Web :=
  {| get _ url :=
       if String.eqb url "http://a/1" then Html (lit "<title>One</title><a href=" ++ [quote]
         ++ lit "http://a/2" ++ [quote] ++ lit "><a href=" ++ [quote] ++ lit "http://a/3" ++ [quote])
       else if String.eqb url "http://a/2" then Html (lit "<a href=" ++ [quote]
         ++ lit "http://a/1" ++ [quote] ++ lit ">Two")
       else Unreachable;
     resolve_url raw _ := Some ("a", String.string_of_list_ascii raw);
     sha256 t := String.string_of_list_ascii t |}.

Lemma crawl_terminates_witness :
  (∃ fuel pages, (∀ fuel', (fuel ≤ fuel')%nat → crawlWebsite fuel' "http://a/1" 50 = Ok (Some pages))
     ∧ NoDup (page_url <$> pages))
  ∧ (fmap (λ p, (page_url p, title p)) <$> (results <$> crawl_loop 9 50 "a" (initial "http://a/1")))
    = Some [("http://a/1", lit "One"); ("http://a/2", lit "http://a/2")].
Proof.
  split; [|vm_compute; reflexivity].
  destruct (crawl_terminates "http://a/1" 50 "a" "http://a/1") as (fuel & pages & Hf & Hn & _);
    [reflexivity|]. by exists fuel, pages.
Defined.

Lemma escaped_text_is_lost_witness :
  extractTextContent (lit "&lt;" ++ lit "b and c" ++ lit "&gt;") = [].
Proof.
  apply escaped_text_is_lost; apply (bool_decide_unpack _); vm_compute; exact I.
Defined.
End Crawling.
