(* ===== verification/Message.v ===== *)
(** * The message aggregate

    [src/modules/messages/domain]: value objects, child entities, drafts,
    templates and [message.aggregate.ts].  Methods are programs in [M Message];
    the instant of the call is the argument [now]. *)

From S2P Require Import Prelude Platform JsValue.
Open Scope Z_scope.

Module MessageTypeEnum.
Inductive MessageTypeEnum :=
  | TEXT | IMAGE | AUDIO | VIDEO | DOCUMENT | LOCATION | CONTACT | STICKER
  | SYSTEM | AI_RESPONSE | INTERNAL_NOTE.

#[export] Instance eq_dec : EqDecision MessageTypeEnum.
Proof. solve_decision. Defined.

#[export, program] Instance enum : JsEnum MessageTypeEnum := {|
  enum_values := [TEXT; IMAGE; AUDIO; VIDEO; DOCUMENT; LOCATION; CONTACT;
    STICKER; SYSTEM; AI_RESPONSE; INTERNAL_NOTE];
  enum_str t := match t with
    | TEXT => "TEXT" | IMAGE => "IMAGE" | AUDIO => "AUDIO" | VIDEO => "VIDEO"
    | DOCUMENT => "DOCUMENT" | LOCATION => "LOCATION" | CONTACT => "CONTACT"
    | STICKER => "STICKER" | SYSTEM => "SYSTEM" | AI_RESPONSE => "AI_RESPONSE"
    | INTERNAL_NOTE => "INTERNAL_NOTE" end |}.
Solve All Obligations with solve_enum.
End MessageTypeEnum.
Export (hints) MessageTypeEnum.
Abbreviation MessageTypeEnum := MessageTypeEnum.MessageTypeEnum.

Module MessageDirectionEnum.
Inductive MessageDirectionEnum := INBOUND | OUTBOUND.

#[export] Instance eq_dec : EqDecision MessageDirectionEnum.
Proof. solve_decision. Defined.

#[export, program] Instance enum : JsEnum MessageDirectionEnum := {|
  enum_values := [INBOUND; OUTBOUND];
  enum_str d := match d with INBOUND => "INBOUND" | OUTBOUND => "OUTBOUND" end |}.
Solve All Obligations with solve_enum.
End MessageDirectionEnum.
Export (hints) MessageDirectionEnum.
Abbreviation MessageDirectionEnum := MessageDirectionEnum.MessageDirectionEnum.

Module MessageStatusEnum.
Inductive MessageStatusEnum :=
  | QUEUED | PROCESSING | SENT | DELIVERED | READ | FAILED | RETRYING | ARCHIVED.

#[export] Instance eq_dec : EqDecision MessageStatusEnum.
Proof. solve_decision. Defined.

#[export, program] Instance enum : JsEnum MessageStatusEnum := {|
  enum_values := [QUEUED; PROCESSING; SENT; DELIVERED; READ; FAILED; RETRYING; ARCHIVED];
  enum_str s := match s with
    | QUEUED => "QUEUED" | PROCESSING => "PROCESSING" | SENT => "SENT"
    | DELIVERED => "DELIVERED" | READ => "READ" | FAILED => "FAILED"
    | RETRYING => "RETRYING" | ARCHIVED => "ARCHIVED" end |}.
Solve All Obligations with solve_enum.
End MessageStatusEnum.
Export (hints) MessageStatusEnum.
Abbreviation MessageStatusEnum := MessageStatusEnum.MessageStatusEnum.

Import MessageStatusEnum.

(** ** Value objects *)
Module MessageContent.
Definition create (value : option string) : result string :=
  let cleaned := nullish value "" in
  if js_length cleaned >? 100000
  then Throw (Exn JsError "Message content exceeds maximum length of 100000")
  else Ok cleaned.

Definition isEmpty (value : string) : bool := js_length (js_trim value) =? 0.
End MessageContent.

Module MessageType.
Import MessageTypeEnum.
Definition create (raw : string) : result MessageTypeEnum :=
  match parse_enum raw with
  | Some t => Ok t
  | None => Throw (Exn JsError ("Invalid message type: " +:+ raw))
  end.

Definition isMedia (t : MessageTypeEnum) : bool :=
  bool_decide (t ∈ [IMAGE; AUDIO; VIDEO; DOCUMENT; STICKER]).

Definition isInternal (t : MessageTypeEnum) : bool := bool_decide (t = INTERNAL_NOTE).
End MessageType.

Module MessageDirection.
Import MessageDirectionEnum.
Definition create (raw : string) : result MessageDirectionEnum :=
  match parse_enum raw with
  | Some d => Ok d
  | None => Throw (Exn JsError ("Invalid message direction: " +:+ raw))
  end.

Definition isInbound (d : MessageDirectionEnum) : bool := bool_decide (d = INBOUND).
Definition isOutbound (d : MessageDirectionEnum) : bool := bool_decide (d = OUTBOUND).
End MessageDirection.

Module MessageStatus.
Definition create (raw : string) : result MessageStatusEnum :=
  match parse_enum raw with
  | Some s => Ok s
  | None => Throw (Exn JsError ("Invalid message status: " +:+ raw))
  end.

Definition rank (s : MessageStatusEnum) : Z :=
  match s with
  | QUEUED => 0 | PROCESSING => 1 | SENT => 2 | DELIVERED => 3 | READ => 4
  | FAILED => 1 | RETRYING => 1 | ARCHIVED => 5
  end.

Definition isTerminal (s : MessageStatusEnum) : bool :=
  bool_decide (s = READ) || bool_decide (s = ARCHIVED).

Definition canRetry (s : MessageStatusEnum) : bool :=
  bool_decide (s = FAILED) || bool_decide (s = RETRYING).
End MessageStatus.

Module ExternalMessageId.
Definition create (value : string) : result string :=
  let cleaned := js_trim value in
  if negb (truthy cleaned) || (js_length cleaned >? 255)
  then Throw (Exn JsError ("Invalid external message id: " +:+ value))
  else Ok cleaned.
End ExternalMessageId.

(** ** Child entities, as their constructors leave them *)
Record MessageAttachment := {
  attachment_id : string;
  attachment_tenantId : string;
  attachment_messageId : string;
  fileName : string;
  fileType : option string;
  fileSize : option Z;
  storageProvider : option string;
  storagePath : option string;
  publicUrl : option string;
  checksum : option string;
  thumbnailUrl : option string;
  attachment_metadata : gmap string json;
  attachment_createdAt : Z;
  attachment_updatedAt : Z;
}.
#[export] Instance MessageAttachment_Eta : Eta MessageAttachment := λ a,
  Build_MessageAttachment (attachment_id a) (attachment_tenantId a)
    (attachment_messageId a) (fileName a) (fileType a) (fileSize a)
    (storageProvider a) (storagePath a) (publicUrl a) (checksum a)
    (thumbnailUrl a) (attachment_metadata a) (attachment_createdAt a)
    (attachment_updatedAt a).

Definition attachThumbnail (now : Z) (url : string) (a : MessageAttachment)
    : MessageAttachment :=
  a <| thumbnailUrl := Some url |> <| attachment_updatedAt := now |>.

Record MessageReaction := {
  reaction_id : string;
  reaction_tenantId : string;
  reaction_messageId : string;
  reaction_userId : string;
  reaction : string;
  reaction_createdAt : Z;
  reaction_updatedAt : Z;
}.

Record MessageMention := {
  mention_id : string;
  mention_tenantId : string;
  mention_messageId : string;
  mentionedUserId : string;
  mentionedBy : string;
  mention_createdAt : Z;
  mention_updatedAt : Z;
}.

(** The provider is read from the metadata of the message, any JSON value. *)
Record MessageDeliveryStatus := {
  delivery_id : string;
  delivery_tenantId : string;
  delivery_messageId : string;
  provider : option json;
  providerMessageId : option string;
  delivery_status : string;
  attemptCount : Z;
  lastAttemptAt : option Z;
  failureReason : option string;
  delivery_createdAt : Z;
  delivery_updatedAt : Z;
}.
#[export] Instance MessageDeliveryStatus_Eta : Eta MessageDeliveryStatus := λ d,
  Build_MessageDeliveryStatus (delivery_id d) (delivery_tenantId d)
    (delivery_messageId d) (provider d) (providerMessageId d) (delivery_status d)
    (attemptCount d) (lastAttemptAt d) (failureReason d) (delivery_createdAt d)
    (delivery_updatedAt d).

Definition recordAttempt (now : Z) (status_ : string) (providerId reason : option string)
    (d : MessageDeliveryStatus) : MessageDeliveryStatus :=
  d <| delivery_status := status_ |>
    <| attemptCount ::= λ n, n + 1 |>
    <| lastAttemptAt := Some now |>
    <| providerMessageId ::= λ old, if truthy providerId then providerId else old |>
    <| failureReason := reason |>
    <| delivery_updatedAt := now |>.

(** ** Domain events *)
Inductive MessageEvent :=
  | MessageCreatedEvent (tenantId messageId conversationId direction messageType : string)
  | MessageReceivedEvent (tenantId messageId conversationId content senderType : string)
  | MessageSentEvent (tenantId messageId conversationId content recipientId : string)
  | MessageDeliveredEvent (tenantId messageId conversationId : string) (provider : option json)
  | MessageReadEvent (tenantId messageId conversationId : string) (readBy : option string)
  | MessageFailedEvent (tenantId messageId channelId error : string)
  | MessageRetriedEvent (tenantId messageId conversationId : string) (attempt : Z)
  | MessageArchivedEvent (tenantId messageId conversationId : string)
  | AttachmentUploadedEvent (tenantId attachmentId messageId fileName : string)
  | AttachmentDeletedEvent (tenantId attachmentId messageId : string).

(** ** The aggregate *)
Record Message := {
  id : string;
  tenantId : string;
  conversationId : string;
  channelId : option string;
  customerId : option string;
  senderId : option string;
  senderType : string;
  messageType : MessageTypeEnum;
  direction : MessageDirectionEnum;
  content : option string;
  contentHtml : option string;
  status : MessageStatusEnum;
  externalMessageId : option string;
  replyToMessageId : option string;
  threadId : option string;
  sentAt : option Z;
  deliveredAt : option Z;
  readAt : option Z;
  metadata : gmap string json;
  createdAt : Z;
  updatedAt : Z;
  deletedAt : option Z;
  version : Z;
  attachments : list MessageAttachment;
  reactions : list MessageReaction;
  mentions : list MessageMention;
  deliveryStatuses : list MessageDeliveryStatus;
  domainEvents : list MessageEvent;
}.
#[export] Instance Message_Eta : Eta Message := λ m,
  Build_Message (id m) (tenantId m) (conversationId m) (channelId m)
    (customerId m) (senderId m) (senderType m) (messageType m) (direction m)
    (content m) (contentHtml m) (status m) (externalMessageId m)
    (replyToMessageId m) (threadId m) (sentAt m) (deliveredAt m) (readAt m)
    (metadata m) (createdAt m) (updatedAt m) (deletedAt m) (version m)
    (attachments m) (reactions m) (mentions m) (deliveryStatuses m)
    (domainEvents m).

(** What the constructor is given by [Message.create]'s callers: the keys they
    leave out are absent. *)
Record MessageProps := {
  new_tenantId : string;
  new_conversationId : string;
  new_channelId : option string;
  new_customerId : option string;
  new_senderId : option string;
  new_senderType : string;
  new_messageType : MessageTypeEnum;
  new_direction : MessageDirectionEnum;
  new_content : option string;
  new_contentHtml : option string;
  new_status : MessageStatusEnum;
  new_externalMessageId : option string;
  new_replyToMessageId : option string;
  new_threadId : option string;
  new_metadata : option (gmap string json);
}.

Definition new_Message (now : Z) (id_ : string) (p : MessageProps) : Message :=
  {| id := id_; tenantId := new_tenantId p; conversationId := new_conversationId p;
     channelId := new_channelId p; customerId := new_customerId p;
     senderId := new_senderId p; senderType := new_senderType p;
     messageType := new_messageType p; direction := new_direction p;
     content := new_content p; contentHtml := new_contentHtml p;
     status := new_status p; externalMessageId := new_externalMessageId p;
     replyToMessageId := new_replyToMessageId p; threadId := new_threadId p;
     sentAt := None; deliveredAt := None; readAt := None;
     metadata := default ∅ (new_metadata p); createdAt := now; updatedAt := now;
     deletedAt := None; version := 1; attachments := []; reactions := [];
     mentions := []; deliveryStatuses := []; domainEvents := [] |}.

Definition addDomainEvent (e : MessageEvent) : M Message unit :=
  modify (λ m, m <| domainEvents ::= λ l, l ++ [e] |>).
Definition clearEvents : M Message unit := assign domainEvents [].

Definition create (now : Z) (id_ : string) (p : MessageProps) : Message :=
  let m := new_Message now id_ p in
  m <| domainEvents :=
    MessageCreatedEvent (tenantId m) (id m) (conversationId m)
      (enum_str (direction m)) (enum_str (messageType m))
    :: (if MessageDirection.isInbound (direction m)
        then [MessageReceivedEvent (tenantId m) (id m) (conversationId m)
                (js_or (content m) "") (senderType m)]
        else []) |>.

Definition touch (now : Z) : M Message unit :=
  assign updatedAt now ;;
  modify (λ m, m <| version ::= λ v, v + 1 |>).

Definition markProcessing (now : Z) : M Message unit :=
  assign status PROCESSING ;;
  touch now.

Definition markSent (now : Z) (externalId : option string) : M Message unit :=
  assign status SENT ;;
  assign sentAt (Some now) ;;
  when (truthy externalId) (assign externalMessageId externalId) ;;
  touch now ;;
  m ← gets (λ m, m);
  addDomainEvent (MessageSentEvent (tenantId m) (id m) (conversationId m)
    (js_or (content m) "") (js_or (customerId m) "")).

Definition markDelivered (now : Z) (provider_ : option json) : M Message unit :=
  assign status DELIVERED ;;
  assign deliveredAt (Some now) ;;
  touch now ;;
  m ← gets (λ m, m);
  addDomainEvent (MessageDeliveredEvent (tenantId m) (id m) (conversationId m) provider_).

Definition markRead (now : Z) (readBy : option string) : M Message unit :=
  assign status READ ;;
  assign readAt (Some now) ;;
  touch now ;;
  m ← gets (λ m, m);
  addDomainEvent (MessageReadEvent (tenantId m) (id m) (conversationId m) readBy).

Definition markFailed (now : Z) (reason : string) : M Message unit :=
  assign status FAILED ;;
  touch now ;;
  m ← gets (λ m, m);
  addDomainEvent (MessageFailedEvent (tenantId m) (id m) (js_or (channelId m) "") reason).

Definition markRetrying (now attempt : Z) : M Message unit :=
  assign status RETRYING ;;
  touch now ;;
  m ← gets (λ m, m);
  addDomainEvent (MessageRetriedEvent (tenantId m) (id m) (conversationId m) attempt).

Definition archive (now : Z) : M Message unit :=
  assign status ARCHIVED ;;
  touch now ;;
  m ← gets (λ m, m);
  addDomainEvent (MessageArchivedEvent (tenantId m) (id m) (conversationId m)).

Definition editContent (now : Z) (text html : option string) : M Message unit :=
  assign content text ;;
  match html with Some h => assign contentHtml (Some h) | None => mret tt end ;;
  touch now.

Definition assignThread (now : Z) (thread : string) : M Message unit :=
  assign threadId (Some thread) ;;
  touch now.

Definition addAttachment (now : Z) (a : MessageAttachment) : M Message unit :=
  modify (λ m, m <| attachments ::= λ l, l ++ [a] |>) ;;
  touch now.

Definition addReaction (now : Z) (r : MessageReaction) : M Message unit :=
  l ← gets reactions;
  if some (λ x, String.eqb (reaction_userId x) (reaction_userId r)
                && String.eqb (reaction x) (reaction r)) l then mret tt
  else modify (λ m, m <| reactions ::= λ l, l ++ [r] |>) ;; touch now.

Definition removeReaction (now : Z) (userId value : string) : M Message unit :=
  modify (λ m, m <| reactions ::= js_filter (λ x, negb
    (String.eqb (reaction_userId x) userId && String.eqb (reaction x) value)) |>) ;;
  touch now.

Definition addMention (now : Z) (x : MessageMention) : M Message unit :=
  l ← gets mentions;
  if some (λ y, String.eqb (mentionedUserId y) (mentionedUserId x)) l then mret tt
  else modify (λ m, m <| mentions ::= λ l, l ++ [x] |>) ;; touch now.

Definition recordDeliveryStatus (now : Z) (d : MessageDeliveryStatus) : M Message unit :=
  modify (λ m, m <| deliveryStatuses ::= λ l, l ++ [d] |>) ;;
  touch now.

Definition softDelete (now : Z) : M Message unit :=
  assign deletedAt (Some now) ;;
  touch now.

(** ** Drafts *)
Record MessageDraft := {
  draft_id : string;
  draft_tenantId : string;
  draft_conversationId : string;
  draft_authorId : string;
  draftContent : string;
  draftType : string;
  expiresAt : option Z;
  draft_createdAt : Z;
  draft_updatedAt : Z;
}.
#[export] Instance MessageDraft_Eta : Eta MessageDraft := λ d,
  Build_MessageDraft (draft_id d) (draft_tenantId d) (draft_conversationId d)
    (draft_authorId d) (draftContent d) (draftType d) (expiresAt d)
    (draft_createdAt d) (draft_updatedAt d).

Definition update_draft (now : Z) (text : string) (type : option string)
    (expires : option Z) (d : MessageDraft) : MessageDraft :=
  d <| draftContent := text |>
    <| draftType ::= λ old, js_or type old |>
    <| expiresAt ::= λ old, match expires with Some e => Some e | None => old end |>
    <| draft_updatedAt := now |>.

Definition isExpired (at_ : Z) (d : MessageDraft) : bool :=
  match expiresAt d with Some e => e <=? at_ | None => false end.

(** ** Templates

    [update] spreads a literal with every key, so a field can become
    [undefined]. *)
Record MessageTemplate := {
  template_id : string;
  template_tenantId : string;
  template_name : string;
  channelType : option string;
  category : option string;
  template_content : option string;
  template_contentHtml : option string;
  variables : option (gmap string json);
  template_language : option string;
  isActive : option bool;
  template_createdAt : Z;
  template_updatedAt : Z;
}.
#[export] Instance MessageTemplate_Eta : Eta MessageTemplate := λ t,
  Build_MessageTemplate (template_id t) (template_tenantId t) (template_name t)
    (channelType t) (category t) (template_content t) (template_contentHtml t)
    (variables t) (template_language t) (isActive t) (template_createdAt t)
    (template_updatedAt t).

(** The keys a template patch can have; the literal of the caller has them all. *)
Record TemplatePatch := {
  p_channelType : option string;
  p_category : option string;
  p_content : option string;
  p_contentHtml : option string;
  p_variables : option (gmap string json);
  p_language : option string;
  p_isActive : option bool;
}.

Definition update_template (now : Z) (p : TemplatePatch) (t : MessageTemplate)
    : MessageTemplate :=
  t <| channelType := p_channelType p |> <| category := p_category p |>
    <| template_content := p_content p |> <| template_contentHtml := p_contentHtml p |>
    <| variables := p_variables p |> <| template_language := p_language p |>
    <| isActive := p_isActive p |> <| template_updatedAt := now |>.

Definition deactivate (now : Z) (t : MessageTemplate) : MessageTemplate :=
  t <| isActive := Some false |> <| template_updatedAt := now |>.

(** *** [render]

    A placeholder is two opening braces, spaces, the key, spaces and two closing
    braces.  The key is put into a regular expression as it is: for a key of word
    characters the matches are those of the scanner below; what other keys match,
    or throw, is the parameter [RegExp]. *)
Class RegExp := {
  replace_pattern : string → list ascii → list ascii → result (list ascii);
}.

(** The length of the placeholder of [key] that [l] starts with. *)
Definition placeholder (key l : list ascii) : option nat :=
  let inner := drop_space (drop 2 l) in
  let tail := drop_space (drop (length key) inner) in
  if starts (chars "{{") l && starts key inner && starts (chars "}}") tail
  then Some (length l - length tail + 2)%nat else None.

(** The replacement text with its dollar patterns expanded. *)
Fixpoint expand (before matched after r : list ascii) : list ascii :=
  match r with
  | "$"%char :: (("$"%char :: r') as _) => "$"%char :: expand before matched after r'
  | "$"%char :: (("&"%char :: r') as _) => matched ++ expand before matched after r'
  | "$"%char :: (("`"%char :: r') as _) => before ++ expand before matched after r'
  | "$"%char :: (("'"%char :: r') as _) => after ++ expand before matched after r'
  | c :: r' => c :: expand before matched after r'
  | [] => []
  end.

Fixpoint replace_placeholder (key value before : list ascii) (skip : nat) (l : list ascii)
    : list ascii :=
  match l with
  | [] => []
  | c :: l' =>
      match skip with
      | S k => replace_placeholder key value (before ++ [c]) k l'
      | O =>
          match placeholder key l with
          | Some n => expand before (take n l) (drop n l) value
                      ++ replace_placeholder key value (before ++ [c]) (n - 1) l'
          | None => c :: replace_placeholder key value (before ++ [c]) 0 l'
          end
      end
  end.

Section render.
Context `{RegExp}.

Definition replace_key (key : string) (value : json) (l : list ascii) : result (list ascii) :=
  if forallb is_word (chars key)
  then Ok (replace_placeholder (chars key) (chars (js_String value)) [] 0 l)
  else replace_pattern key (chars (js_String value)) l.

(** The loop over the entries of the variables. *)
Fixpoint replace_keys (entries : list (string * json)) (l : list ascii) : result (list ascii) :=
  match entries with
  | [] => Ok l
  | (key, val) :: entries' =>
      match replace_key key val l with
      | Throw e => Throw e
      | Ok l' => replace_keys entries' l'
      end
  end.

Definition render (entries : list (string * json)) (t : MessageTemplate)
    : result (option string) :=
  match template_content t, entries with
  | Some text, _ => result_map (Some ∘ String.string_of_list_ascii)
                      (replace_keys entries (chars text))
  | None, [] => Ok None
  | None, _ => Throw (Exn JsTypeError "Cannot read properties of undefined (reading 'replace')")
  end.
End render.
