(* ===== verification/MessageRepo.v ===== *)
(** * The message repositories

    [src/modules/messages/repositories]: the rows, [MessageMapper] and the three
    Drizzle repositories (messages, drafts, templates), over the tables of
    [packages/database].  Child rows are kept as the entities the mapper makes of
    them; the metadata of a row is absent for SQL's null.  What SQL leaves open,
    and the conversions of the database driver, are the class [MsgSql]. *)

From S2P Require Import Prelude Platform JsValue Message.
Open Scope Z_scope.

Record MessageRow := {
  row_id : string;
  row_tenantId : string;
  row_conversationId : string;
  row_channelId : option string;
  row_customerId : option string;
  row_senderId : option string;
  row_senderType : string;
  row_messageType : string;
  row_direction : string;
  row_content : option string;
  row_contentHtml : option string;
  row_status : string;
  row_externalMessageId : option string;
  row_replyToMessageId : option string;
  row_threadId : option string;
  row_sentAt : option Z;
  row_deliveredAt : option Z;
  row_readAt : option Z;
  row_metadata : option (gmap string json);
  row_createdAt : Z;
  row_updatedAt : Z;
  row_deletedAt : option Z;
  row_version : Z;
}.
#[export] Instance MessageRow_Eta : Eta MessageRow := λ r,
  Build_MessageRow (row_id r) (row_tenantId r) (row_conversationId r)
    (row_channelId r) (row_customerId r) (row_senderId r) (row_senderType r)
    (row_messageType r) (row_direction r) (row_content r) (row_contentHtml r)
    (row_status r) (row_externalMessageId r) (row_replyToMessageId r)
    (row_threadId r) (row_sentAt r) (row_deliveredAt r) (row_readAt r)
    (row_metadata r) (row_createdAt r) (row_updatedAt r) (row_deletedAt r)
    (row_version r).

(** A template row: its columns, and the mark of a soft delete. *)
Record TemplateRow := {
  template : MessageTemplate;
  template_deletedAt : option Z;
}.
#[export] Instance TemplateRow_Eta : Eta TemplateRow := λ r,
  Build_TemplateRow (template r) (template_deletedAt r).

Record MsgTables := {
  m_messages : gmap string MessageRow;
  m_attachments : list MessageAttachment;
  m_reactions : list MessageReaction;
  m_mentions : list MessageMention;
  m_deliveries : list MessageDeliveryStatus;
  m_templates : gmap string TemplateRow;
  m_drafts : gmap string MessageDraft;
}.
#[export] Instance MsgTables_Eta : Eta MsgTables := λ d,
  Build_MsgTables (m_messages d) (m_attachments d) (m_reactions d) (m_mentions d)
    (m_deliveries d) (m_templates d) (m_drafts d).

Class MsgSql := {
  like : string → string → bool;
  (** How the driver writes a value into a text column. *)
  varchar : json → string;
  varchar_string : ∀ s, varchar (JStr s) = s;
  (** Rows in the order of their creation, ascending if the flag is set; the
      order of equal instants is not determined. *)
  by_creation : bool → list MessageRow → list MessageRow;
  by_creation_perm : ∀ asc l, by_creation asc l ≡ₚ l;
  by_creation_sorted : ∀ asc l i j x y,
    by_creation asc l !! i = Some x → by_creation asc l !! j = Some y → (i < j)%nat →
    if asc then row_createdAt x <= row_createdAt y else row_createdAt y <= row_createdAt x;
  by_last_attempt : list MessageDeliveryStatus → list MessageDeliveryStatus;
  by_last_attempt_perm : ∀ l, by_last_attempt l ≡ₚ l;
  by_update : list MessageDraft → list MessageDraft;
  by_update_perm : ∀ l, by_update l ≡ₚ l;
  (** [new Date(s)] and [toISOString()], to the millisecond. *)
  Date_parse : string → Z;
  toISOString : Z → string;
  Date_roundtrip : ∀ t, Date_parse (toISOString t) = t;
  toISOString_nonempty : ∀ t, toISOString t ≠ "";
}.

(** ** [MessageMapper] *)
Module MessageMapper.
Definition attachmentToDomain (raw : MessageAttachment) : MessageAttachment :=
  raw <| fileType ::= js_or_undef |> <| storageProvider ::= js_or_undef |>
      <| storagePath ::= js_or_undef |> <| publicUrl ::= js_or_undef |>
      <| checksum ::= js_or_undef |> <| thumbnailUrl ::= js_or_undef |>.

Definition reactionToDomain (raw : MessageReaction) : MessageReaction := raw.
Definition mentionToDomain (raw : MessageMention) : MessageMention := raw.

Definition deliveryStatusToDomain (raw : MessageDeliveryStatus) : MessageDeliveryStatus :=
  raw <| provider ::= js_or_undef |> <| providerMessageId ::= js_or_undef |>
      <| failureReason ::= js_or_undef |>.

Definition templateToDomain (raw : MessageTemplate) : MessageTemplate :=
  raw <| channelType ::= js_or_undef |> <| category ::= js_or_undef |>
      <| template_contentHtml ::= js_or_undef |>
      <| variables ::= λ v, Some (default ∅ v) |>
      <| template_language ::= λ l, Some (js_or l "en") |>
      <| isActive ::= λ b, Some (nullish b true) |>.

Definition draftToDomain (raw : MessageDraft) : MessageDraft :=
  raw <| draftType ::= λ t, js_or (Some t) "TEXT" |>.

(** The dates of a row are not null, so no default date is evaluated. *)
Definition toDomain (raw : MessageRow) (rawAttachments : list MessageAttachment)
    (rawReactions : list MessageReaction) (rawMentions : list MessageMention)
    (rawDeliveryStatuses : list MessageDeliveryStatus) : result Message :=
  match MessageType.create (row_messageType raw) with
  | Throw e => Throw e
  | Ok type =>
  match MessageDirection.create (row_direction raw) with
  | Throw e => Throw e
  | Ok dir =>
  match MessageStatus.create (row_status raw) with
  | Throw e => Throw e
  | Ok s => Ok
      {| id := row_id raw; tenantId := row_tenantId raw;
         conversationId := row_conversationId raw;
         Message.channelId := js_or_undef (row_channelId raw);
         customerId := js_or_undef (row_customerId raw);
         senderId := js_or_undef (row_senderId raw); senderType := row_senderType raw;
         messageType := type; direction := dir; content := row_content raw;
         contentHtml := row_contentHtml raw; status := s;
         externalMessageId := js_or_undef (row_externalMessageId raw);
         replyToMessageId := js_or_undef (row_replyToMessageId raw);
         threadId := js_or_undef (row_threadId raw);
         sentAt := row_sentAt raw; deliveredAt := row_deliveredAt raw;
         readAt := row_readAt raw; metadata := default ∅ (row_metadata raw);
         createdAt := row_createdAt raw; updatedAt := row_updatedAt raw;
         deletedAt := row_deletedAt raw; version := js_or (Some (row_version raw)) 1;
         attachments := attachmentToDomain <$> rawAttachments;
         reactions := reactionToDomain <$> rawReactions;
         mentions := mentionToDomain <$> rawMentions;
         deliveryStatuses := deliveryStatusToDomain <$> rawDeliveryStatuses;
         domainEvents := [] |}
  end end end.
End MessageMapper.

(** ** Messages *)
Definition owns (tenant : string) (r : MessageRow) : bool :=
  String.eqb (row_tenantId r) tenant.

Definition select_message (id tenant : string) (d : MsgTables) : option MessageRow :=
  match m_messages d !! id with
  | Some r => if owns tenant r then Some r else None
  | None => None
  end.

Definition attachments_of (mid tenant : string) (d : MsgTables) : list MessageAttachment :=
  js_filter (λ x, String.eqb (attachment_messageId x) mid
                  && String.eqb (attachment_tenantId x) tenant) (m_attachments d).
Definition reactions_of (mid tenant : string) (d : MsgTables) : list MessageReaction :=
  js_filter (λ x, String.eqb (reaction_messageId x) mid
                  && String.eqb (reaction_tenantId x) tenant) (m_reactions d).
Definition mentions_of (mid tenant : string) (d : MsgTables) : list MessageMention :=
  js_filter (λ x, String.eqb (mention_messageId x) mid
                  && String.eqb (mention_tenantId x) tenant) (m_mentions d).
Definition deliveries_of (mid tenant : string) (d : MsgTables) : list MessageDeliveryStatus :=
  js_filter (λ x, String.eqb (delivery_messageId x) mid
                  && String.eqb (delivery_tenantId x) tenant) (m_deliveries d).

Definition find_message (id tenant : string) (d : MsgTables) : result (option Message) :=
  match select_message id tenant d with
  | None => Ok None
  | Some row => result_map Some
      (MessageMapper.toDomain row (attachments_of id tenant d) (reactions_of id tenant d)
         (mentions_of id tenant d) (deliveries_of id tenant d))
  end.

(** Rows mapped without their children; a row that does not map throws. *)
Fixpoint rows_toDomain (rows : list MessageRow) : result (list Message) :=
  match rows with
  | [] => Ok []
  | r :: rs =>
      match MessageMapper.toDomain r [] [] [] [] with
      | Throw e => Throw e
      | Ok m => result_map (cons m) (rows_toDomain rs)
      end
  end.

Definition all_rows (d : MsgTables) : list MessageRow :=
  snd <$> map_to_list (m_messages d).

Definition live (tenant : string) (r : MessageRow) : bool :=
  owns tenant r && bool_decide (row_deletedAt r = None).

Definition find_all (tenant : string) (d : MsgTables) : result (list Message) :=
  rows_toDomain (js_filter (live tenant) (all_rows d)).

(** *** [save] *)
Definition row_of (m : Message) (created updated : Z) : MessageRow :=
  {| row_id := id m; row_tenantId := tenantId m; row_conversationId := conversationId m;
     row_channelId := js_or_undef (Message.channelId m);
     row_customerId := js_or_undef (customerId m);
     row_senderId := js_or_undef (senderId m); row_senderType := senderType m;
     row_messageType := enum_str (messageType m); row_direction := enum_str (direction m);
     row_content := content m; row_contentHtml := contentHtml m;
     row_status := enum_str (status m);
     row_externalMessageId := js_or_undef (externalMessageId m);
     row_replyToMessageId := js_or_undef (replyToMessageId m);
     row_threadId := js_or_undef (threadId m);
     row_sentAt := sentAt m; row_deliveredAt := deliveredAt m; row_readAt := readAt m;
     row_metadata := Some (metadata m); row_createdAt := created; row_updatedAt := updated;
     row_deletedAt := deletedAt m; row_version := version m |}.

Definition unique_violation : exn :=
  Exn JsError "duplicate key value violates unique constraint".

(** The unique index on tenant, channel and provider id; nulls are distinct. *)
Definition same_external (r x : MessageRow) : bool :=
  negb (String.eqb (row_id x) (row_id r)) && String.eqb (row_tenantId x) (row_tenantId r)
  && match row_channelId x, row_channelId r with
     | Some c, Some c' => String.eqb c c' | _, _ => false end
  && match row_externalMessageId x, row_externalMessageId r with
     | Some e, Some e' => String.eqb e e' | _, _ => false end.

Definition write_row (now : Z) (m : Message) (tenant : string) (d : MsgTables)
    : result MessageRow :=
  let checked row := if some (same_external row) (all_rows d)
                     then Throw unique_violation else Ok row in
  match select_message (id m) tenant d with
  | Some old => checked (row_of m (row_createdAt old) now)
  | None =>
      match m_messages d !! id m with
      | Some _ => Throw unique_violation
      | None => checked (row_of m (createdAt m) (createdAt m))
      end
  end.

(** [onConflictDoNothing] on the unique keys of each child table. *)
Definition insert_all {A} (conflict : A → A → bool) (xs l : list A) : list A :=
  foldl (λ l x, if some (conflict x) l then l else l ++ [x]) l xs.

Definition attachment_conflict (x y : MessageAttachment) : bool :=
  String.eqb (attachment_id y) (attachment_id x).
Definition reaction_conflict (x y : MessageReaction) : bool :=
  String.eqb (reaction_id y) (reaction_id x)
  || String.eqb (reaction_tenantId y) (reaction_tenantId x)
     && String.eqb (reaction_messageId y) (reaction_messageId x)
     && String.eqb (reaction_userId y) (reaction_userId x)
     && String.eqb (reaction y) (reaction x).
Definition mention_conflict (x y : MessageMention) : bool :=
  String.eqb (mention_id y) (mention_id x).
Definition delivery_conflict (x y : MessageDeliveryStatus) : bool :=
  String.eqb (delivery_id y) (delivery_id x).

Section statements.
Context {HSQL : MsgSql}.

(** The columns an attachment and a delivery are written with: [x || null]. *)
Definition attachment_row (a : MessageAttachment) : MessageAttachment :=
  MessageMapper.attachmentToDomain a.
Definition delivery_row (d : MessageDeliveryStatus) : MessageDeliveryStatus :=
  d <| provider ::= λ p, JStr ∘ varchar <$> js_or_undef p |>
    <| providerMessageId ::= js_or_undef |> <| failureReason ::= js_or_undef |>.

Definition save_message (now : Z) (m : Message) (tenant : string) (d : MsgTables)
    : result MsgTables :=
  match write_row now m tenant d with
  | Throw e => Throw e
  | Ok row => Ok
      (d <| m_messages ::= <[id m := row]> |>
         <| m_attachments ::= insert_all attachment_conflict (attachment_row <$> attachments m) |>
         <| m_reactions ::= insert_all reaction_conflict (reactions m) |>
         <| m_mentions ::= insert_all mention_conflict (mentions m) |>
         <| m_deliveries ::= insert_all delivery_conflict (delivery_row <$> deliveryStatuses m) |>)
  end.

(** [delete]: a soft delete that also archives. *)
Definition delete_message (now : Z) (id tenant : string) (d : MsgTables) : MsgTables :=
  match select_message id tenant d with
  | None => d
  | Some row => d <| m_messages ::= <[id := row
      <| row_deletedAt := Some now |>
      <| row_status := enum_str MessageStatusEnum.ARCHIVED |>
      <| row_updatedAt := now |>]> |>
  end.

(** *** Queries *)
Record MessageQueryOptions := {
  q_page : option Z;
  q_limit : option Z;
  q_cursor : option string;
  q_sortOrder : option string;
  q_conversationId : option string;
  q_channelId : option string;
  q_customerId : option string;
  q_direction : option string;
  q_status : option string;
  q_messageType : option string;
  q_threadId : option string;
  q_search : option string;
}.
#[export] Instance MessageQueryOptions_Eta : Eta MessageQueryOptions := λ q,
  Build_MessageQueryOptions (q_page q) (q_limit q) (q_cursor q) (q_sortOrder q)
    (q_conversationId q) (q_channelId q) (q_customerId q) (q_direction q)
    (q_status q) (q_messageType q) (q_threadId q) (q_search q).

(** [if (opt) conditions.push(eq(column, opt))] *)
Definition eq_condition (opt column : option string) : bool :=
  match js_or_undef opt with
  | Some v => bool_decide (column = Some v)
  | None => true
  end.

Definition buildConditions (tenant : string) (q : MessageQueryOptions) (r : MessageRow) : bool :=
  live tenant r
  && eq_condition (q_conversationId q) (Some (row_conversationId r))
  && eq_condition (q_channelId q) (row_channelId r)
  && eq_condition (q_customerId q) (row_customerId r)
  && eq_condition (q_direction q) (Some (row_direction r))
  && eq_condition (q_status q) (Some (row_status r))
  && eq_condition (q_messageType q) (Some (row_messageType r))
  && eq_condition (q_threadId q) (row_threadId r)
  && match js_or_undef (q_search q), row_content r with
     | None, _ => true
     | Some s, Some text => like text ("%" +:+ s +:+ "%")
     | Some _, None => false
     end.

(** The rows of a page, before they are mapped. *)
Definition page_rows (tenant : string) (q : MessageQueryOptions) (d : MsgTables)
    : list MessageRow :=
  let limit := js_or (q_limit q) 25 in
  let page := js_or (q_page q) 1 in
  let offset := if truthy (q_cursor q) then 0 else (page - 1) * limit in
  let after r := match js_or_undef (q_cursor q) with
                 | Some c => row_createdAt r <? Date_parse c
                 | None => true
                 end in
  take (Z.to_nat limit) (drop (Z.to_nat offset)
    (by_creation (bool_decide (q_sortOrder q = Some "ASC"))
       (js_filter (λ r, buildConditions tenant q r && after r) (all_rows d)))).

Definition nextCursor (q : MessageQueryOptions) (rows : list MessageRow) : option string :=
  if Z.of_nat (length rows) =? js_or (q_limit q) 25
  then toISOString ∘ row_createdAt <$> last rows else None.

Definition find_paginated (tenant : string) (q : MessageQueryOptions) (d : MsgTables)
    : result (list Message * Z * option string) :=
  let rows := page_rows tenant q d in
  let total := length (js_filter (buildConditions tenant q) (all_rows d)) in
  result_map (λ data, (data, Z.of_nat total, nextCursor q rows)) (rows_toDomain rows).

Definition find_by_conversation (tenant cid : string) (q : MessageQueryOptions)
    (d : MsgTables) : result (list Message * Z * option string) :=
  find_paginated tenant (q <| q_conversationId := Some cid |>) d.

Definition find_thread (tenant tid : string) (d : MsgTables) : result (list Message) :=
  rows_toDomain (by_creation true (js_filter (λ r, live tenant r
    && bool_decide (row_threadId r = Some tid)) (all_rows d))).

Definition external_match (tenant : string) (channel : option string) (ext : string)
    (r : MessageRow) : bool :=
  owns tenant r && bool_decide (row_externalMessageId r = Some ext)
  && eq_condition channel (row_channelId r).

(** The first row: with a channel the unique index leaves at most one. *)
Definition find_by_external (tenant : string) (channel : option string) (ext : string)
    (d : MsgTables) : result (option Message) :=
  match js_find (external_match tenant channel ext) (all_rows d) with
  | None => Ok None
  | Some r => result_map Some (MessageMapper.toDomain r [] [] [] [])
  end.

Definition search_messages (tenant query : string) (limit : Z) (d : MsgTables)
    : result (list Message) :=
  let pattern := "%" +:+ query +:+ "%" in
  let hit t := match t with Some s => like s pattern | None => false end in
  rows_toDomain (take (Z.to_nat limit) (by_creation false
    (js_filter (λ r, live tenant r && (hit (row_content r) || hit (row_contentHtml r)))
       (all_rows d)))).

(** *** Child tables *)
Definition remove_reaction (tenant mid user value : string) (d : MsgTables) : MsgTables :=
  d <| m_reactions ::= js_filter (λ x, negb
    (String.eqb (reaction_tenantId x) tenant && String.eqb (reaction_messageId x) mid
     && String.eqb (reaction_userId x) user && String.eqb (reaction x) value)) |>.

Definition is_attachment (tenant aid : string) (a : MessageAttachment) : bool :=
  String.eqb (attachment_id a) aid && String.eqb (attachment_tenantId a) tenant.

Definition get_attachment (tenant aid : string) (d : MsgTables) : option MessageAttachment :=
  MessageMapper.attachmentToDomain <$> js_find (is_attachment tenant aid) (m_attachments d).

Definition save_attachment (now : Z) (a : MessageAttachment) (tenant : string)
    (d : MsgTables) : result MsgTables :=
  let raw := attachment_row a <| attachment_tenantId := tenant |>
               <| attachment_updatedAt := now |> in
  let mine := is_attachment tenant (attachment_id a) in
  if some mine (m_attachments d) then
    Ok (d <| m_attachments ::= fmap (λ x,
      if mine x then raw <| attachment_createdAt := attachment_createdAt x |> else x) |>)
  else if some (attachment_conflict a) (m_attachments d) then Throw unique_violation
  else Ok (d <| m_attachments ::= λ l, l ++ [raw] |>).

Definition delete_attachment (tenant aid : string) (d : MsgTables) : bool * MsgTables :=
  if some (is_attachment tenant aid) (m_attachments d)
  then (true, d <| m_attachments ::= js_filter (λ x, negb (is_attachment tenant aid x)) |>)
  else (false, d).

Definition is_delivery (tenant did : string) (x : MessageDeliveryStatus) : bool :=
  String.eqb (delivery_id x) did && String.eqb (delivery_tenantId x) tenant.

Definition save_delivery (now : Z) (s : MessageDeliveryStatus) (tenant : string)
    (d : MsgTables) : result MsgTables :=
  let raw := delivery_row s <| delivery_tenantId := tenant |>
               <| delivery_updatedAt := now |> in
  let mine := is_delivery tenant (delivery_id s) in
  if some mine (m_deliveries d) then
    Ok (d <| m_deliveries ::= fmap (λ x,
      if mine x then raw <| delivery_createdAt := delivery_createdAt x |> else x) |>)
  else if some (delivery_conflict s) (m_deliveries d) then Throw unique_violation
  else Ok (d <| m_deliveries ::= λ l, l ++ [raw] |>).

Definition find_deliveries (tenant mid : string) (d : MsgTables) : list MessageDeliveryStatus :=
  MessageMapper.deliveryStatusToDomain <$> by_last_attempt (deliveries_of mid tenant d).

(** *** Bulk update and counts *)
Definition bulk_update (now : Z) (tenant : string) (ids : list string) (s : string)
    (d : MsgTables) : Z * MsgTables :=
  let hit r := owns tenant r && bool_decide (row_id r ∈ ids) in
  (Z.of_nat (length (js_filter hit (all_rows d))),
   d <| m_messages ::= fmap (λ r, if hit r
          then r <| row_status := s |> <| row_updatedAt := now |> else r) |>).

Record Counts := { total : Z; attachment_count : Z; unread : Z }.

Definition in_conversation (tenant cid : string) (r : MessageRow) : bool :=
  live tenant r && String.eqb (row_conversationId r) cid.

Definition is_unread (r : MessageRow) : bool :=
  String.eqb (row_direction r) "INBOUND" && bool_decide (row_readAt r = None).

Definition count_conversation (tenant cid : string) (d : MsgTables) : Counts :=
  {| total := Z.of_nat (length (js_filter (in_conversation tenant cid) (all_rows d)));
     unread := Z.of_nat (length (js_filter (λ r, in_conversation tenant cid r && is_unread r)
                 (all_rows d)));
     attachment_count := Z.of_nat (length (js_filter (λ a,
       String.eqb (attachment_tenantId a) tenant
       && match m_messages d !! attachment_messageId a with
          | Some r => String.eqb (row_conversationId r) cid
          | None => false
          end) (m_attachments d))) |}.

(** ** Drafts *)
Definition select_draft (id tenant : string) (d : MsgTables) : option MessageDraft :=
  match m_drafts d !! id with
  | Some x => if String.eqb (draft_tenantId x) tenant then Some x else None
  | None => None
  end.

Definition all_drafts (d : MsgTables) : list MessageDraft := snd <$> map_to_list (m_drafts d).

Definition draft_of (tenant cid author : string) (x : MessageDraft) : bool :=
  String.eqb (draft_tenantId x) tenant && String.eqb (draft_conversationId x) cid
  && String.eqb (draft_authorId x) author.

Definition find_draft (id tenant : string) (d : MsgTables) : option MessageDraft :=
  MessageMapper.draftToDomain <$> select_draft id tenant d.

Definition find_author_draft (tenant cid author : string) (d : MsgTables)
    : option MessageDraft :=
  MessageMapper.draftToDomain <$> js_find (draft_of tenant cid author) (all_drafts d).

Definition conversation_drafts (tenant cid : string) (d : MsgTables) : list MessageDraft :=
  MessageMapper.draftToDomain <$> by_update (js_filter (λ x,
    String.eqb (draft_tenantId x) tenant && String.eqb (draft_conversationId x) cid)
    (all_drafts d)).

(** The unique index on tenant, conversation and author is checked on every write. *)
Definition save_draft (now : Z) (x : MessageDraft) (tenant : string) (d : MsgTables)
    : result MsgTables :=
  let raw := x <| draft_tenantId := tenant |> <| draft_updatedAt := now |> in
  let clash y := draft_of tenant (draft_conversationId x) (draft_authorId x) y
                 && negb (String.eqb (draft_id y) (draft_id x)) in
  if some clash (all_drafts d) then Throw unique_violation
  else match select_draft (draft_id x) tenant d with
       | Some old => Ok (d <| m_drafts ::= <[draft_id x :=
           raw <| draft_createdAt := draft_createdAt old |>]> |>)
       | None => match m_drafts d !! draft_id x with
                 | Some _ => Throw unique_violation
                 | None => Ok (d <| m_drafts ::= <[draft_id x := raw]> |>)
                 end
       end.

Definition delete_draft (id tenant : string) (d : MsgTables) : bool * MsgTables :=
  match select_draft id tenant d with
  | Some _ => (true, d <| m_drafts ::= delete id |>)
  | None => (false, d)
  end.

Definition delete_expired (tenant : option string) (now : Z) (d : MsgTables)
    : Z * MsgTables :=
  let hit x := match expiresAt x with Some e => e <=? now | None => false end
    && match js_or_undef tenant with
       | Some t => String.eqb (draft_tenantId x) t | None => true end in
  (Z.of_nat (length (js_filter hit (all_drafts d))),
   d <| m_drafts ::= filter (λ kv, hit kv.2 = false) |>).

(** ** Templates *)
Definition template_owned (tenant : string) (r : TemplateRow) : bool :=
  String.eqb (template_tenantId (template r)) tenant.

Definition select_template (id tenant : string) (d : MsgTables) : option TemplateRow :=
  match m_templates d !! id with
  | Some r => if template_owned tenant r then Some r else None
  | None => None
  end.

Definition find_template (id tenant : string) (d : MsgTables) : option MessageTemplate :=
  MessageMapper.templateToDomain ∘ template <$> select_template id tenant d.

Definition named (tenant name : string) (r : TemplateRow) : bool :=
  template_owned tenant r && String.eqb (template_name (template r)) name.

Definition find_by_name (tenant name : string) (d : MsgTables) : option MessageTemplate :=
  MessageMapper.templateToDomain ∘ template
    <$> js_find (named tenant name) (snd <$> map_to_list (m_templates d)).

(** [set(raw)] leaves a column whose value is [undefined] as it was; the columns
    written with [|| null] are cleared instead. *)
Definition keep_undefined {A} (new old : option A) : option A :=
  match new with Some x => Some x | None => old end.

Definition save_template (now : Z) (t : MessageTemplate) (tenant : string)
    (d : MsgTables) : result MsgTables :=
  let raw := t <| template_tenantId := tenant |> <| channelType ::= js_or_undef |>
               <| category ::= js_or_undef |> <| template_contentHtml ::= js_or_undef |>
               <| template_updatedAt := now |> in
  let clash kv := named tenant (template_name t) kv.2 && negb (String.eqb kv.1 (template_id t)) in
  if some clash (map_to_list (m_templates d)) then Throw unique_violation
  else match select_template (template_id t) tenant d with
       | Some old => Ok (d <| m_templates ::= <[template_id t := old <| template :=
           raw <| template_content ::= λ x, keep_undefined x (template_content (template old)) |>
               <| template_language ::= λ x, keep_undefined x (template_language (template old)) |>
               <| isActive ::= λ x, keep_undefined x (isActive (template old)) |>
               <| template_createdAt := template_createdAt (template old) |> |>]> |>)
       | None => match m_templates d !! template_id t with
                 | Some _ => Throw unique_violation
                 | None => Ok (d <| m_templates ::= <[template_id t :=
                     {| template := raw; template_deletedAt := None |}]> |>)
                 end
       end.

Definition delete_template (now : Z) (id tenant : string) (d : MsgTables) : bool * MsgTables :=
  match select_template id tenant d with
  | Some old => (true, d <| m_templates ::= <[id := old
      <| template ::= λ t, t <| isActive := Some false |> <| template_updatedAt := now |> |>
      <| template_deletedAt := Some now |>]> |>)
  | None => (false, d)
  end.
End statements.
