(* ===== verification/MessageStore.v ===== *)
(** * What the message services share

    The database of the module, which contains the conversation tables, calls of
    conversation code inside it ([in_conversations]), the repositories as effects,
    [message-event.publisher.ts], [message-read-model.service.ts], the queueing of
    outgoing messages by [channel-message.service.ts], and the other modules as
    the parameters of [MsgDeps]. *)

From S2P Require Import Prelude Platform JsValue.
From S2P Require Import Conversation ConversationRepo ConversationStore ConversationService.
From S2P Require Import Message MessageRepo.
Open Scope Z_scope.

Record MsgDb := { tables : MsgTables; conversations : ConvDb }.
#[export] Instance MsgDb_Eta : Eta MsgDb := λ d, Build_MsgDb (tables d) (conversations d).

Abbreviation MsgW := (World MsgDb).

(** What the upload service reports of a stored file. *)
Record StorageReference := {
  ref_contentType : option string;
  ref_fileSize : option Z;
  ref_storageProvider : option string;
  ref_storagePath : option string;
  ref_publicUrl : option string;
  ref_checksum : option string;
  ref_thumbnailUrl : option string;
}.

(** The other modules and the upload service.  A workflow may do anything, so its
    call has no law; the others write no table of these modules. *)
Class MsgDeps := {
  channel_exists : string → string → result bool;
  findSessionIdsByConversation : string → string → list string;
  evaluateEventTriggers : string → string → list (string * json) → M MsgW unit;
  finalizeUpload : string → string → M MsgW StorageReference;
  finalizeUpload_db : ∀ t r, keeps (same db) (finalizeUpload t r);
  requestVirusScan : string → string → M MsgW string;
  requestVirusScan_db : ∀ t p, keeps (same db) (requestVirusScan t p);
  requestThumbnail : string → string → M MsgW (option string);
  requestThumbnail_db : ∀ t p, keeps (same db) (requestThumbnail t p);
  generateSignedUrl : string → string → M MsgW string;
  generateSignedUrl_db : ∀ t p, keeps (same db) (generateSignedUrl t p);
  deleteFile : string → string → M MsgW unit;
  deleteFile_db : ∀ t p, keeps (same db) (deleteFile t p);
  unlink : string → M MsgW unit;
  unlink_db : ∀ p, keeps (same db) (unlink p);
}.
#[export] Hint Resolve finalizeUpload_db requestVirusScan_db requestThumbnail_db
  generateSignedUrl_db deleteFile_db unlink_db : keeps.

(** Runs conversation code on the conversation tables. *)
Definition in_conversations {A} (m : M ConvW A) : M MsgW A := λ w,
  let '(r, w') := m {| db := conversations (db w); ticks := ticks w; uuids := uuids w;
                       jobs := jobs w; audits := audits w; realtime := realtime w;
                       tenantContext := tenantContext w |} in
  (r, {| db := (db w) <| conversations := db w' |>; ticks := ticks w'; uuids := uuids w';
         jobs := jobs w'; audits := audits w'; realtime := realtime w';
         tenantContext := tenantContext w' |}).

(** [try { m } catch (err) {...}], as a value. *)
Definition attempt {S A} (m : M S A) : M S (result A) := λ s,
  let '(r, s') := m s in (Ok r, s').

(** *** Domain events on the wire *)
Definition event_name (e : MessageEvent) : string :=
  match e with
  | MessageCreatedEvent _ _ _ _ _ => "message.created"
  | MessageReceivedEvent _ _ _ _ _ => "message.received"
  | MessageSentEvent _ _ _ _ _ => "message.sent"
  | MessageDeliveredEvent _ _ _ _ => "message.delivered"
  | MessageReadEvent _ _ _ _ => "message.read"
  | MessageFailedEvent _ _ _ _ => "message.failed"
  | MessageRetriedEvent _ _ _ _ => "message.retried"
  | MessageArchivedEvent _ _ _ => "message.archived"
  | AttachmentUploadedEvent _ _ _ _ => "attachment.uploaded"
  | AttachmentDeletedEvent _ _ _ => "attachment.deleted"
  end.

Definition getAggregateId (e : MessageEvent) : string :=
  match e with
  | MessageCreatedEvent _ i _ _ _ | MessageReceivedEvent _ i _ _ _
  | MessageSentEvent _ i _ _ _ | MessageDeliveredEvent _ i _ _
  | MessageReadEvent _ i _ _ | MessageFailedEvent _ i _ _
  | MessageRetriedEvent _ i _ _ | MessageArchivedEvent _ i _
  | AttachmentUploadedEvent _ i _ _ | AttachmentDeletedEvent _ i _ => i
  end.

(** [event.conversationId], read of received messages only. *)
Definition event_conversation (e : MessageEvent) : option string :=
  match e with MessageReceivedEvent _ _ c _ _ => Some c | _ => None end.

Definition ANALYTICS_EVENTS : list string :=
  ["message.created"; "message.received"; "message.sent"; "message.delivered";
   "message.read"; "message.failed"; "message.retried"; "message.archived"].
Definition AI_TRIGGER_EVENTS : list string := ["message.received"].

Section store.
Context {HE : Env} {HCS : ConvSql} {HCD : ConvDeps} {HS : MsgSql} {HD : MsgDeps}.

(** *** The repositories *)
Definition reading {A} (f : MsgTables → result A) : M MsgW A :=
  d ← gets (λ w, tables (db w));
  of_result (f d).

(** A statement, or a transaction: the tables change only if it succeeds. *)
Definition writing (f : Z → MsgTables → result MsgTables) : M MsgW unit :=
  now ← new_Date;
  d ← gets (λ w, tables (db w));
  d' ← of_result (f now d);
  modify (λ w, w <| db ::= λ x, x <| tables := d' |> |>).

(** A statement that also answers. *)
Definition deleting {A} (f : Z → MsgTables → A * MsgTables) : M MsgW A :=
  now ← new_Date;
  d ← gets (λ w, tables (db w));
  let '(a, d') := f now d in
  modify (λ w, w <| db ::= λ x, x <| tables := d' |> |>) ;;
  mret a.

Definition findById (id_ tenant : string) : M MsgW (option Message) :=
  reading (find_message id_ tenant).
Definition save (m : Message) (tenant : string) : M MsgW unit :=
  writing (λ now, save_message now m tenant).
Definition repo_delete (id_ tenant : string) : M MsgW unit :=
  writing (λ now d, Ok (delete_message now id_ tenant d)).
Definition findByExternalId (tenant : string) (channel : option string) (ext : string)
    : M MsgW (option Message) :=
  reading (find_by_external tenant channel ext).
Definition saveDeliveryStatus (s : MessageDeliveryStatus) (tenant : string) : M MsgW unit :=
  writing (λ now, save_delivery now s tenant).
Definition findDeliveryStatuses (tenant mid : string) : M MsgW (list MessageDeliveryStatus) :=
  reading (λ d, Ok (find_deliveries tenant mid d)).
Definition repo_removeReaction (tenant mid user value : string) : M MsgW unit :=
  writing (λ _ d, Ok (remove_reaction tenant mid user value d)).
Definition saveAttachment (a : MessageAttachment) (tenant : string) : M MsgW unit :=
  writing (λ now, save_attachment now a tenant).
Definition getAttachment (tenant aid : string) : M MsgW (option MessageAttachment) :=
  reading (λ d, Ok (get_attachment tenant aid d)).
Definition deleteAttachment (tenant aid : string) : M MsgW bool :=
  deleting (λ _, delete_attachment tenant aid).
Definition repo_bulkUpdateStatus (tenant : string) (ids : list string) (s : string)
    : M MsgW Z :=
  match ids with
  | [] => mret 0
  | _ => deleting (λ now, bulk_update now tenant ids s)
  end.
Definition countByConversation (tenant cid : string) : M MsgW Counts :=
  reading (λ d, Ok (count_conversation tenant cid d)).

(** *** [MessageEventPublisher] *)
Definition publish (event : MessageEvent) : M MsgW unit :=
  let eventName := event_name event in
  let mid := getAggregateId event in
  try_catch
    (when (bool_decide (eventName ∈ ANALYTICS_EVENTS))
       (addJob MESSAGE "message-analytics-job"
          [("messageId", JStr mid); ("eventName", JStr eventName)] (λ o, o)) ;;
     when (bool_decide (eventName ∈ AI_TRIGGER_EVENTS))
       (addJob MESSAGE "ai-workflow-trigger-job"
          ([("messageId", JStr mid)] ++ opt_field "conversationId" (event_conversation event)
           ++ [("eventName", JStr eventName)]) (λ o, o)))
    (λ _, mret tt).

Definition publishAll (events : list MessageEvent) : M MsgW unit := for_each events publish.

(** *** [MessageReadModelService] *)
Definition preview (m : Message) : string :=
  let text := js_or (content m) ("[" +:+ enum_str (messageType m) +:+ "]") in
  if js_length text >? 280 then String.substring 0 277 text +:+ "..." else text.

Definition projected (sid tenant cid : string) (now : Z) (c : Counts)
    (lastMessage_ : option Message) (existing : option ConversationSummary)
    : ConversationSummary :=
  {| summary_id := sid; summary_tenantId := tenant; summary_conversationId := cid;
     customerName := existing ≫= customerName; customerAvatar := existing ≫= customerAvatar;
     lastMessage := match lastMessage_ with
                    | Some m => Some (preview m)
                    | None => existing ≫= lastMessage
                    end;
     lastMessageType := match lastMessage_ with
                        | Some m => Some (enum_str (messageType m))
                        | None => existing ≫= lastMessageType
                        end;
     summary_lastMessageAt := match lastMessage_ with
                              | Some m => Some (createdAt m)
                              | None => existing ≫= summary_lastMessageAt
                              end;
     unreadCount := unread c; totalMessages := total c; totalAttachments := attachment_count c;
     sentimentScore := default 0 (sentimentScore <$> existing);
     summary_priority := existing ≫= summary_priority;
     summary_status := existing ≫= summary_status;
     assignedAgentName := existing ≫= assignedAgentName;
     assignedTeamName := existing ≫= assignedTeamName;
     summary_createdAt := default now (summary_createdAt <$> existing);
     summary_updatedAt := now |}.

Definition refresh (tenant cid : string) (lastMessage_ : option Message) : M MsgW unit :=
  counts ← countByConversation tenant cid;
  existing ← gets (λ w, get_summary cid tenant (conversations (db w)));
  sid ← match js_or_undef (summary_id <$> existing) with
        | Some i => mret i
        | None => randomUUID
        end;
  now ← new_Date;
  in_conversations
    (upsertSummary (projected sid tenant cid now counts lastMessage_ existing) tenant).

Definition applyMessage (tenant : string) (m : Message) : M MsgW unit :=
  refresh tenant (conversationId m) (Some m).

(** *** [ChannelMessageService.sendOutgoingMessage], without a template *)
Definition getChannel (tenant channel : string) : M MsgW unit :=
  match channel_exists channel tenant with
  | Throw e => throw e
  | Ok true => mret tt
  | Ok false => throw (Exn NotFoundException ("Channel " +:+ channel +:+ " not found"))
  end.

Definition sendOutgoingMessage (tenant channel recipient text : string) : M MsgW unit :=
  getChannel tenant channel ;;
  addJob CHANNEL "outgoing-message-job"
    [("tenantId", JStr tenant); ("channelId", JStr channel);
     ("recipientId", JStr recipient); ("content", JStr text)] (λ o, o) ;;
  audit_log tenant None "MESSAGE_OUTGOING_ENQUEUE"
    ("Enqueued outgoing message for channel " +:+ channel +:+ " to " +:+ recipient).

(** *** Helpers of the services *)
Definition message_not_found (id_ : string) : exn :=
  Exn NotFoundException ("Message with ID " +:+ id_ +:+ " not found").

Definition getOrThrow (tenant id_ : string) : M MsgW Message :=
  m ← findById id_ tenant;
  match m with
  | Some m => mret m
  | None => throw (message_not_found id_)
  end.

(** [MessageDeliveryService.persist] *)
Definition persist_delivery (m : Message) (tenant : string) : M MsgW Message :=
  save m tenant ;;
  publishAll (domainEvents m) ;;
  exec clearEvents m.

(** [MessageService.persist] *)
Definition persist (m : Message) (tenant : string) : M MsgW Message :=
  save m tenant ;;
  applyMessage tenant m ;;
  publishAll (domainEvents m) ;;
  m' ← exec clearEvents m;
  when (MessageDirection.isOutbound (direction m')
        && negb (MessageType.isInternal (messageType m')))
    (for_each (findSessionIdsByConversation tenant (conversationId m'))
       (λ sid, broadcast tenant (sid +:+ ":newMessage:" +:+ id m'))) ;;
  mret m'.
End store.
