(* ===== verification/MessageService.v ===== *)
(** * The message services

    [src/modules/messages/services] and the message worker: delivery, the inbound
    pipeline, the life of a message, attachments, templates and drafts. *)

From S2P Require Import Prelude Platform JsValue.
From S2P Require Import Conversation ConversationRepo ConversationStore ConversationService.
From S2P Require Import Message MessageRepo MessageStore.
Import MessageStatusEnum.
Open Scope Z_scope.

Record SendOptions := {
  templateName : option string;
  send_variables : option (list (string * json));
  send_channelId : option string;
}.

Record InboundMessageDto := {
  in_channelId : string;
  in_conversationId : option string;
  in_customerId : option string;
  in_externalMessageId : option string;
  in_messageType : option string;
  in_content : option string;
  in_metadata : option (gmap string json);
}.

Record CreateMessageDto := {
  d_conversationId : string;
  d_channelId : option string;
  d_customerId : option string;
  d_senderId : option string;
  d_senderType : string;
  d_messageType : option string;
  d_direction : option MessageDirectionEnum;
  d_content : option string;
  d_contentHtml : option string;
  d_replyToMessageId : option string;
  d_threadId : option string;
  d_metadata : option (gmap string json);
}.

Record UpdateMessageDto := {
  u_content : option string;
  u_contentHtml : option string;
  u_status : option MessageStatusEnum;
}.

Record ReplyMessageDto := {
  r_content : string;
  r_messageType : option string;
  r_senderType : string;
  r_senderId : option string;
}.

Record RegisterAttachmentDto := {
  a_fileName : string;
  a_fileType : option string;
  a_fileSize : option Z;
  a_uploadReference : string;
  a_metadata : option (gmap string json);
}.

Record LocalFile := {
  l_fileName : string;
  l_fileType : option string;
  l_fileSize : option Z;
  l_storagePath : string;
  l_publicUrl : string;
}.

Record CreateTemplateDto := {
  t_name : string;
  t_content : string;
  t_patch : TemplatePatch;
}.

Section message_services.
Context {HE : Env} {HCS : ConvSql} {HCD : ConvDeps} {HS : MsgSql} {HD : MsgDeps} {HR : RegExp}.

(** ** Templates *)
Definition template_not_found (id_ : string) : exn :=
  Exn NotFoundException ("Template with ID " +:+ id_ +:+ " not found").

Definition getTemplateOrThrow (tenant id_ : string) : M MsgW MessageTemplate :=
  t ← reading (λ d, Ok (find_template id_ tenant d));
  match t with
  | Some t => mret t
  | None => throw (template_not_found id_)
  end.

Definition saveTemplate (t : MessageTemplate) (tenant : string) : M MsgW unit :=
  writing (λ now, save_template now t tenant).

Definition create_template (tenant : string) (dto : CreateTemplateDto) (userId : option string)
    : M MsgW MessageTemplate :=
  existing ← reading (λ d, Ok (find_by_name tenant (t_name dto) d));
  match existing with
  | Some _ => throw (Exn (HttpException 409)
                ("Template with name " +:+ t_name dto +:+ " already exists"))
  | None =>
      tid ← randomUUID;
      now ← new_Date;
      let p := t_patch dto in
      let t := {| template_id := tid; template_tenantId := tenant;
                  template_name := t_name dto; channelType := p_channelType p;
                  category := p_category p; template_content := Some (t_content dto);
                  template_contentHtml := p_contentHtml p;
                  variables := Some (default ∅ (p_variables p));
                  template_language := Some (js_or (p_language p) "en");
                  isActive := Some (nullish (p_isActive p) true);
                  template_createdAt := now; template_updatedAt := now |} in
      saveTemplate t tenant ;;
      audit_log tenant userId "MESSAGE_TEMPLATE_CREATE"
        ("Created message template " +:+ template_name t) ;;
      mret t
  end.

Definition update_message_template (tenant id_ : string) (dto : TemplatePatch)
    (userId : option string) : M MsgW MessageTemplate :=
  t ← getTemplateOrThrow tenant id_;
  now ← new_Date;
  let t := update_template now dto t in
  saveTemplate t tenant ;;
  audit_log tenant userId "MESSAGE_TEMPLATE_UPDATE" ("Updated message template " +:+ id_) ;;
  mret t.

Definition delete_message_template (tenant id_ : string) (userId : option string)
    : M MsgW bool :=
  getTemplateOrThrow tenant id_ ;;
  deleted ← deleting (λ now, delete_template now id_ tenant);
  audit_log tenant userId "MESSAGE_TEMPLATE_DELETE" ("Deleted message template " +:+ id_) ;;
  mret deleted.

Definition render_template (tenant name : string) (entries : list (string * json))
    : M MsgW (option string) :=
  t ← reading (λ d, Ok (find_by_name tenant name d));
  match t with
  | None => throw (Exn NotFoundException ("Template " +:+ name +:+ " not found"))
  | Some t =>
      if truthy (isActive t) then of_result (render entries t)
      else throw (Exn NotFoundException ("Template " +:+ name +:+ " is inactive"))
  end.

(** ** [MessageDeliveryService] *)
Definition queueSend (tenant messageId : string) (options : SendOptions)
    (userId : option string) : M MsgW Message :=
  m ← getOrThrow tenant messageId;
  if MessageDirection.isInbound (direction m) then
    throw (Exn BadRequestException "Inbound messages cannot be sent")
  else
    m ← match js_or_undef (templateName options) with
        | Some name =>
            rendered ← render_template tenant name (default [] (send_variables options));
            now ← new_Date;
            exec (editContent now rendered None) m
        | None => mret m
        end;
    now ← new_Date;
    m ← exec (markProcessing now) m;
    m ← persist_delivery m tenant;
    addJob MESSAGE "message-send-job"
      ([("messageId", JStr messageId)]
       ++ opt_field "channelId" (match js_or_undef (send_channelId options) with
                                 | Some c => Some c
                                 | None => Message.channelId m
                                 end)) (λ o, o) ;;
    audit_log tenant userId "MESSAGE_SEND_ENQUEUE"
      ("Enqueued message " +:+ messageId +:+ " for delivery") ;;
    mret m.

Definition new_delivery (now : Z) (did tenant messageId : string) (prov : option json)
    (providerId : option string) (s : string) : MessageDeliveryStatus :=
  {| delivery_id := did; delivery_tenantId := tenant; delivery_messageId := messageId;
     provider := prov; providerMessageId := providerId; delivery_status := s;
     attemptCount := 0; lastAttemptAt := None; failureReason := None;
     delivery_createdAt := now; delivery_updatedAt := now |}.

(** The delivery object is in the list of the message once it was recorded: a
    later attempt recorded on it shows there too. *)
Definition alias_delivery (d : MessageDeliveryStatus) (m : Message) : Message :=
  m <| deliveryStatuses ::= fmap (λ x,
    if String.eqb (delivery_id x) (delivery_id d) then d else x) |>.

(** The [catch] block of [dispatch]. *)
Definition dispatch_failed (tenant : string) (delivery : MessageDeliveryStatus) (m : Message)
    (err : exn) : M MsgW Message :=
  let reason := exn_message err in
  now ← new_Date;
  let delivery := recordAttempt now (enum_str FAILED) None (Some reason) delivery in
  let m := alias_delivery delivery m in
  m ← exec (recordDeliveryStatus now delivery) m;
  m ← exec (markFailed now reason) m;
  saveDeliveryStatus delivery tenant ;;
  persist_delivery m tenant ;;
  throw err.

Definition no_channel (messageId : string) : exn :=
  Exn BadRequestException ("Message " +:+ messageId +:+ " has no channel to dispatch on").
Definition no_recipient (messageId : string) : exn :=
  Exn BadRequestException ("Message " +:+ messageId +:+ " has no recipient to dispatch to").

Definition dispatch (tenant messageId : string) : M MsgW Message :=
  m ← getOrThrow tenant messageId;
  match js_or_undef (Message.channelId m), js_or_undef (customerId m) with
  | None, _ => throw (no_channel messageId)
  | Some _, None => throw (no_recipient messageId)
  | Some channel, Some recipient =>
      did ← randomUUID;
      now ← new_Date;
      let delivery := new_delivery now did tenant messageId (metadata m !! "provider")
                        None (enum_str PROCESSING) in
      sent ← attempt (sendOutgoingMessage tenant channel recipient (nullish (content m) ""));
      match sent with
      | Throw err => dispatch_failed tenant delivery m err
      | Ok _ =>
          now ← new_Date;
          let delivery := recordAttempt now (enum_str SENT) None None delivery in
          m ← exec (recordDeliveryStatus now delivery) m;
          m ← exec (markSent now None) m;
          try_catch
            (saveDeliveryStatus delivery tenant ;; persist_delivery m tenant)
            (dispatch_failed tenant delivery m)
      end
  end.

Definition retry (tenant messageId : string) (userId : option string) : M MsgW Message :=
  m ← getOrThrow tenant messageId;
  if negb (MessageStatus.canRetry (status m)) then
    throw (Exn BadRequestException ("Message " +:+ messageId +:+ " is not in a retryable state"))
  else
    statuses ← findDeliveryStatuses tenant messageId;
    now ← new_Date;
    m ← exec (markRetrying now (Z.of_nat (length statuses) + 1)) m;
    m ← persist_delivery m tenant;
    addJob MESSAGE "message-send-job"
      ([("messageId", JStr messageId)] ++ opt_field "channelId" (Message.channelId m)) (λ o, o) ;;
    audit_log tenant userId "MESSAGE_RETRY" ("Retrying delivery of message " +:+ messageId) ;;
    mret m.

(** The [switch] of [applyDeliveryReceipt]. *)
Definition apply_receipt (now : Z) (s : string) (providerId reason : option string)
    (prov : option json) : M Message unit :=
  if String.eqb s (enum_str DELIVERED) then markDelivered now prov
  else if String.eqb s (enum_str READ) then markRead now None
  else if String.eqb s (enum_str FAILED) then
    markFailed now (js_or reason "Provider reported failure")
  else if String.eqb s (enum_str SENT) then markSent now providerId
  else mret tt.

Definition applyDeliveryReceipt (tenant messageId s : string) (providerId reason : option string)
    : M MsgW Message :=
  m ← getOrThrow tenant messageId;
  did ← randomUUID;
  now ← new_Date;
  let delivery := recordAttempt now s providerId reason
    (new_delivery now did tenant messageId None providerId s) in
  saveDeliveryStatus delivery tenant ;;
  now ← new_Date;
  m ← exec (apply_receipt now s providerId reason (metadata m !! "provider")) m;
  m ← exec (recordDeliveryStatus now delivery) m;
  m ← persist_delivery m tenant;
  refresh tenant (conversationId m) None ;;
  mret m.

(** ** [MessageInboundService] *)
Definition normalize (dto : InboundMessageDto) : InboundMessageDto :=
  {| in_channelId := in_channelId dto; in_conversationId := in_conversationId dto;
     in_customerId := in_customerId dto;
     in_externalMessageId := in_externalMessageId dto;
     in_messageType := Some (js_or (in_messageType dto) (enum_str MessageTypeEnum.TEXT));
     in_content := Some (nullish (in_content dto) "");
     in_metadata := Some (default ∅ (in_metadata dto)) |}.

Definition validate (n : InboundMessageDto) : M MsgW unit :=
  if negb (truthy (in_channelId n)) then
    throw (Exn BadRequestException "Inbound message requires a channelId")
  else if negb (truthy (in_conversationId n)) && negb (truthy (in_customerId n)) then
    throw (Exn BadRequestException
      "Inbound message requires a conversationId or customerId to resolve a conversation")
  else mret tt.

Definition resolveConversationId (tenant : string) (n : InboundMessageDto) : M MsgW string :=
  match js_or_undef (in_conversationId n) with
  | Some cid => Conversation.id <$> in_conversations (ConversationStore.getOrThrow tenant cid)
  | None => Conversation.id <$> in_conversations (create_conversation tenant
      {| ConversationService.d_customerId := default "" (in_customerId n);
         ConversationService.d_channelId := Some (in_channelId n);
         d_assignedAgentId := None; d_assignedTeamId := None; d_priority := None;
         d_subject := None; d_language := None; d_source := Some "INBOUND";
         ConversationService.d_metadata := None |} None)
  end.

Definition inbound_props (tenant cid : string) (n : InboundMessageDto)
    (type : MessageTypeEnum) : MessageProps :=
  {| new_tenantId := tenant; new_conversationId := cid;
     new_channelId := Some (in_channelId n); new_customerId := in_customerId n;
     new_senderId := None; new_senderType := "CUSTOMER"; new_messageType := type;
     new_direction := MessageDirectionEnum.INBOUND; new_content := in_content n;
     new_contentHtml := None; new_status := DELIVERED;
     new_externalMessageId := in_externalMessageId n; new_replyToMessageId := None;
     new_threadId := None; new_metadata := in_metadata n |}.

(** The persisted message, or [None] for a duplicate. *)
Definition ingest (tenant : string) (dto : InboundMessageDto) : M MsgW (option Message) :=
  let n := normalize dto in
  validate n ;;
  duplicate ← match js_or_undef (in_externalMessageId n) with
              | Some ext => findByExternalId tenant (Some (in_channelId n)) ext
              | None => mret None
              end;
  match duplicate with
  | Some _ => mret None
  | None =>
      cid ← resolveConversationId tenant n;
      mid ← randomUUID;
      type ← of_result (MessageType.create (default "" (in_messageType n)));
      now ← new_Date;
      let m := create now mid (inbound_props tenant cid n type) in
      save m tenant ;;
      applyMessage tenant m ;;
      publishAll (domainEvents m) ;;
      m ← exec clearEvents m;
      audit_log tenant None "MESSAGE_RECEIVE"
        ("Persisted inbound message " +:+ id m +:+ " on channel " +:+ in_channelId n) ;;
      mret (Some m)
  end.

(** The payload of a webhook job, and what the worker reads of it. *)
Definition encode_inbound (dto : InboundMessageDto) : list (string * json) :=
  [("channelId", JStr (in_channelId dto))]
  ++ opt_field "conversationId" (in_conversationId dto)
  ++ opt_field "customerId" (in_customerId dto)
  ++ opt_field "externalMessageId" (in_externalMessageId dto)
  ++ opt_field "messageType" (in_messageType dto)
  ++ opt_field "content" (in_content dto)
  ++ match in_metadata dto with
     | Some md => [("metadata", JObj (map_to_list md))]
     | None => []
     end.

Definition decode_inbound (o : list (string * json)) : InboundMessageDto :=
  {| in_channelId := default "" (str_field "channelId" o);
     in_conversationId := str_field "conversationId" o;
     in_customerId := str_field "customerId" o;
     in_externalMessageId := str_field "externalMessageId" o;
     in_messageType := str_field "messageType" o;
     in_content := str_field "content" o;
     in_metadata := match field "metadata" o with
                    | Some (JObj fields) => Some (list_to_map fields)
                    | _ => None
                    end |}.

Definition enqueueWebhook (tenant : string) (dto : InboundMessageDto) : M MsgW unit :=
  addJob MESSAGE "message-inbound-job"
    [("tenantId", JStr tenant); ("payload", JObj (encode_inbound dto))] (λ o, o).

(** ** [MessageService] *)
Definition create_props (tenant : string) (dto : CreateMessageDto) (c : Conversation)
    (type : MessageTypeEnum) (dir : MessageDirectionEnum) : MessageProps :=
  {| new_tenantId := tenant; new_conversationId := d_conversationId dto;
     new_channelId := match js_or_undef (d_channelId dto) with
                      | Some x => Some x
                      | None => Conversation.channelId c
                      end;
     new_customerId := Some (js_or (d_customerId dto) (Conversation.customerId c));
     new_senderId := d_senderId dto; new_senderType := d_senderType dto;
     new_messageType := type; new_direction := dir; new_content := d_content dto;
     new_contentHtml := d_contentHtml dto;
     new_status := if MessageDirection.isInbound dir then DELIVERED else QUEUED;
     new_externalMessageId := None; new_replyToMessageId := d_replyToMessageId dto;
     new_threadId := match js_or_undef (d_threadId dto) with
                     | Some x => Some x
                     | None => d_replyToMessageId dto
                     end;
     new_metadata := Some (default ∅ (d_metadata dto)) |}.

(** What follows the creation of an inbound message; both calls swallow errors. *)
Definition announce_inbound (tenant senderType_ : string) (m : Message) : M MsgW unit :=
  try_catch
    (evaluateEventTriggers tenant "MESSAGE_RECEIVED"
       ([("id", JStr (id m)); ("messageId", JStr (id m));
         ("conversationId", JStr (conversationId m))]
        ++ opt_field "channelId" (Message.channelId m)
        ++ opt_field "customerId" (customerId m) ++ opt_field "content" (content m)))
    (λ _, mret tt) ;;
  when (String.eqb senderType_ "CUSTOMER")
    (try_catch
       (addJob CONVERSATION "ai-process-message"
          ([("tenantId", JStr tenant); ("messageId", JStr (id m));
            ("conversationId", JStr (conversationId m))]
           ++ opt_field "messageText" (content m)) (λ o, o))
       (λ _, mret tt)).

Definition create_message (tenant : string) (dto : CreateMessageDto) (userId : option string)
    : M MsgW Message :=
  c ← in_conversations (ConversationStore.getOrThrow tenant (d_conversationId dto));
  let dir := default MessageDirectionEnum.OUTBOUND (d_direction dto) in
  mid ← randomUUID;
  type ← of_result (MessageType.create
    (js_or (d_messageType dto) (enum_str MessageTypeEnum.TEXT)));
  now ← new_Date;
  m ← persist (create now mid (create_props tenant dto c type dir)) tenant;
  audit_log tenant userId "MESSAGE_CREATE"
    ("Created " +:+ enum_str dir +:+ " message " +:+ mid +:+ " in conversation "
     +:+ d_conversationId dto) ;;
  when (MessageDirection.isInbound dir) (announce_inbound tenant (d_senderType dto) m) ;;
  mret m.

Definition reply (tenant replyTo : string) (dto : ReplyMessageDto) (userId : option string)
    : M MsgW Message :=
  parent ← getOrThrow tenant replyTo;
  create_message tenant
    {| d_conversationId := conversationId parent; d_channelId := Message.channelId parent;
       d_customerId := customerId parent; d_senderId := r_senderId dto;
       d_senderType := r_senderType dto;
       d_messageType := Some (js_or (r_messageType dto) (enum_str MessageTypeEnum.TEXT));
       d_direction := Some MessageDirectionEnum.OUTBOUND; d_content := Some (r_content dto);
       d_contentHtml := None; d_replyToMessageId := Some replyTo;
       d_threadId := Some (js_or (threadId parent) (id parent)); d_metadata := None |} userId.

Definition applyStatus (now : Z) (s : MessageStatusEnum) : M Message unit :=
  match s with
  | READ => markRead now None
  | DELIVERED => markDelivered now None
  | ARCHIVED => archive now
  | SENT => markSent now None
  | FAILED => markFailed now "Marked failed"
  | QUEUED | PROCESSING | RETRYING => throw (Exn BadRequestException
      ("Status " +:+ enum_str s +:+ " cannot be set directly"))
  end.

Definition update (tenant id_ : string) (dto : UpdateMessageDto) (userId : option string)
    : M MsgW Message :=
  m ← getOrThrow tenant id_;
  now ← new_Date;
  m ← match u_content dto, u_contentHtml dto with
      | None, None => mret m
      | text, html => exec (editContent now
          (Some (nullish text (nullish (content m) ""))) html) m
      end;
  m ← match u_status dto with
      | Some s => exec (applyStatus now s) m
      | None => mret m
      end;
  m ← persist m tenant;
  audit_log tenant userId "MESSAGE_UPDATE" ("Updated message " +:+ id_) ;;
  mret m.

Definition mark_read (tenant id_ : string) (userId : option string) : M MsgW Message :=
  m ← getOrThrow tenant id_;
  now ← new_Date;
  m ← exec (markRead now userId) m;
  persist m tenant.

Definition archive_message (tenant id_ : string) (userId : option string) : M MsgW Message :=
  m ← getOrThrow tenant id_;
  now ← new_Date;
  m ← exec (archive now) m;
  m ← persist m tenant;
  audit_log tenant userId "MESSAGE_ARCHIVE" ("Archived message " +:+ id_) ;;
  mret m.

Definition delete_message_of (tenant id_ : string) (userId : option string) : M MsgW bool :=
  m ← getOrThrow tenant id_;
  now ← new_Date;
  m ← exec (softDelete now) m;
  repo_delete id_ tenant ;;
  refresh tenant (conversationId m) None ;;
  audit_log tenant userId "MESSAGE_DELETE" ("Soft deleted message " +:+ id_) ;;
  mret true.

Definition react (tenant id_ userId value : string) : M MsgW Message :=
  m ← getOrThrow tenant id_;
  rid ← randomUUID;
  now ← new_Date;
  m ← exec (addReaction now
    {| reaction_id := rid; reaction_tenantId := tenant; reaction_messageId := id_;
       reaction_userId := userId; reaction := value; reaction_createdAt := now;
       reaction_updatedAt := now |}) m;
  persist m tenant.

Definition remove_reaction_of (tenant id_ userId value : string) : M MsgW unit :=
  getOrThrow tenant id_ ;;
  repo_removeReaction tenant id_ userId value.

Definition mention (tenant id_ user by_ : string) : M MsgW Message :=
  m ← getOrThrow tenant id_;
  xid ← randomUUID;
  now ← new_Date;
  m ← exec (addMention now
    {| mention_id := xid; mention_tenantId := tenant; mention_messageId := id_;
       mentionedUserId := user; mentionedBy := by_; mention_createdAt := now;
       mention_updatedAt := now |}) m;
  persist m tenant.

Definition bulkUpdateStatus (tenant : string) (ids : list string) (s : MessageStatusEnum)
    (userId : option string) : M MsgW Z :=
  updated ← repo_bulkUpdateStatus tenant ids (enum_str s);
  audit_log tenant userId "MESSAGE_BULK_UPDATE"
    ("Bulk set status " +:+ enum_str s +:+ " on " +:+ pretty updated +:+ " messages") ;;
  mret updated.

(** ** [MessageAttachmentService] *)
Definition messageOrThrow (messageId tenant : string) : M MsgW Message :=
  getOrThrow tenant messageId.

Definition persistAndNotify (a : MessageAttachment) (cid : string) (userId : option string)
    : M MsgW MessageAttachment :=
  let tenant := attachment_tenantId a in
  saveAttachment a tenant ;;
  refresh tenant cid None ;;
  addJob MESSAGE "attachment-processing-job"
    [("attachmentId", JStr (attachment_id a))] (λ o, o) ;;
  publish (AttachmentUploadedEvent tenant (attachment_id a) (attachment_messageId a)
    (fileName a)) ;;
  audit_log tenant userId "ATTACHMENT_UPLOAD"
    ("Registered attachment " +:+ attachment_id a +:+ " on message "
     +:+ attachment_messageId a) ;;
  mret a.

Definition register (tenant messageId : string) (dto : RegisterAttachmentDto)
    (userId : option string) : M MsgW MessageAttachment :=
  m ← messageOrThrow messageId tenant;
  ref ← finalizeUpload tenant (a_uploadReference dto);
  aid ← randomUUID;
  now ← new_Date;
  persistAndNotify
    {| attachment_id := aid; attachment_tenantId := tenant; attachment_messageId := messageId;
       fileName := a_fileName dto;
       fileType := match js_or_undef (a_fileType dto) with
                   | Some t => Some t
                   | None => ref_contentType ref
                   end;
       fileSize := match a_fileSize dto with Some n => Some n | None => ref_fileSize ref end;
       storageProvider := ref_storageProvider ref; storagePath := ref_storagePath ref;
       publicUrl := ref_publicUrl ref; checksum := ref_checksum ref;
       thumbnailUrl := ref_thumbnailUrl ref;
       attachment_metadata := default ∅ (a_metadata dto);
       attachment_createdAt := now; attachment_updatedAt := now |} (conversationId m) userId.

Definition registerLocal (tenant messageId : string) (file : LocalFile)
    (userId : option string) : M MsgW MessageAttachment :=
  m ← messageOrThrow messageId tenant;
  aid ← randomUUID;
  now ← new_Date;
  persistAndNotify
    {| attachment_id := aid; attachment_tenantId := tenant; attachment_messageId := messageId;
       fileName := l_fileName file; fileType := l_fileType file; fileSize := l_fileSize file;
       storageProvider := Some "LOCAL"; storagePath := Some (l_storagePath file);
       publicUrl := Some (l_publicUrl file); checksum := None; thumbnailUrl := None;
       attachment_metadata := ∅; attachment_createdAt := now; attachment_updatedAt := now |}
    (conversationId m) userId.

Definition MEDIA_THUMBNAIL_TYPES : list string := ["image/"; "video/"].

Definition is_local (a : MessageAttachment) : bool :=
  bool_decide (storageProvider a = Some "LOCAL").

Definition process_attachment (tenant aid : string) : M MsgW unit :=
  a ← getAttachment tenant aid;
  match a with
  | None => mret tt
  | Some a =>
      match js_or_undef (storagePath a) with
      | None => mret tt
      | Some path =>
          if is_local a then mret tt
          else
            scan ← requestVirusScan tenant path;
            if String.eqb scan "INFECTED" then
              deleteFile tenant path ;;
              deleteAttachment tenant aid ;;
              mret tt
            else
              when (some (λ prefix, starts (chars prefix) (chars (js_or (fileType a) "")))
                      MEDIA_THUMBNAIL_TYPES)
                (url ← requestThumbnail tenant path;
                 match js_or_undef url with
                 | Some u =>
                     now ← new_Date;
                     saveAttachment (attachThumbnail now u a) tenant
                 | None => mret tt
                 end)
      end
  end.

Definition attachment_not_found (aid : string) : exn :=
  Exn NotFoundException ("Attachment " +:+ aid +:+ " not found").

Definition getSignedUrl (tenant aid : string) : M MsgW (option string) :=
  a ← getAttachment tenant aid;
  match a with
  | None => throw (attachment_not_found aid)
  | Some a =>
      match js_or_undef (storagePath a) with
      | None => throw (attachment_not_found aid)
      | Some path =>
          if is_local a then mret (publicUrl a)
          else Some <$> generateSignedUrl tenant path
      end
  end.

Definition delete_attachment_of (tenant aid : string) (userId : option string) : M MsgW bool :=
  a ← getAttachment tenant aid;
  match a with
  | None => throw (attachment_not_found aid)
  | Some a =>
      match js_or_undef (storagePath a) with
      | Some path => if is_local a then try_catch (unlink path) (λ _, mret tt)
                     else deleteFile tenant path
      | None => mret tt
      end ;;
      deleted ← deleteAttachment tenant aid;
      owner ← findById (attachment_messageId a) tenant;
      match owner with
      | Some m => refresh tenant (conversationId m) None
      | None => mret tt
      end ;;
      publish (AttachmentDeletedEvent tenant aid (attachment_messageId a)) ;;
      audit_log tenant userId "ATTACHMENT_DELETE" ("Deleted attachment " +:+ aid) ;;
      mret deleted
  end.

(** ** [MessageDraftService] *)
Record SaveDraftDto := {
  s_conversationId : string;
  s_draftContent : string;
  s_draftType : option string;
  s_expiresAt : option string;
}.

Definition saveDraft (x : MessageDraft) (tenant : string) : M MsgW unit :=
  writing (λ now, save_draft now x tenant).

Definition save_draft_of (tenant author : string) (dto : SaveDraftDto)
    : M MsgW MessageDraft :=
  existing ← reading (λ d, Ok (find_author_draft tenant (s_conversationId dto) author d));
  let expires := Date_parse <$> js_or_undef (s_expiresAt dto) in
  match existing with
  | Some x =>
      now ← new_Date;
      let x := update_draft now (s_draftContent dto) (s_draftType dto) expires x in
      saveDraft x tenant ;;
      mret x
  | None =>
      did ← randomUUID;
      now ← new_Date;
      let x := {| draft_id := did; draft_tenantId := tenant;
                  draft_conversationId := s_conversationId dto; draft_authorId := author;
                  draftContent := s_draftContent dto;
                  draftType := js_or (s_draftType dto) "TEXT"; expiresAt := expires;
                  draft_createdAt := now; draft_updatedAt := now |} in
      saveDraft x tenant ;;
      mret x
  end.

Definition getForAuthor (tenant cid author : string) : M MsgW MessageDraft :=
  x ← reading (λ d, Ok (find_author_draft tenant cid author d));
  match x with
  | Some x => mret x
  | None => throw (Exn NotFoundException "No draft found for this author")
  end.

Definition discard (tenant did : string) : M MsgW bool :=
  deleting (λ _, delete_draft did tenant).

Definition send_draft (tenant did senderType_ : string) (senderId_ : option string)
    : M MsgW Message :=
  x ← reading (λ d, Ok (find_draft did tenant d));
  match x with
  | None => throw (Exn NotFoundException ("Draft with ID " +:+ did +:+ " not found"))
  | Some x =>
      m ← create_message tenant
        {| d_conversationId := draft_conversationId x; d_channelId := None;
           d_customerId := None; d_senderId := senderId_; d_senderType := senderType_;
           d_messageType := Some (js_or (Some (draftType x)) (enum_str MessageTypeEnum.TEXT));
           d_direction := Some MessageDirectionEnum.OUTBOUND;
           d_content := Some (draftContent x); d_contentHtml := None;
           d_replyToMessageId := None; d_threadId := None; d_metadata := None |} senderId_;
      deleting (λ _, delete_draft did tenant) ;;
      audit_log tenant senderId_ "MESSAGE_DRAFT_SEND"
        ("Sent draft " +:+ did +:+ " as message " +:+ id m) ;;
      mret m
  end.

(** The instant is read by the service; the statement takes it as a parameter. *)
Definition cleanupExpired (tenant : option string) : M MsgW Z :=
  now ← new_Date;
  deleting (λ _, delete_expired tenant now).

(** ** The worker

    A tenant that is missing only logs a warning; as a filter it matches no row. *)
Definition tenant_of_message_job (job : Job) : option string :=
  js_or_undef (match js_or_undef (job_tenant job) with
               | Some t => Some t
               | None => data_opt "tenantId" job
               end).

Definition status_answer (m : Message) : list (string * json) :=
  [("messageId", JStr (id m)); ("status", JStr (enum_str (status m)))].

Definition handleJob (job : Job) : M MsgW (list (string * json)) :=
  let tenant := tenant_of_message_job job in
  let tenantId_ := default "undefined" tenant in
  let messageId := data_str "messageId" job in
  let name := job_name job in
  if String.eqb name "message-send-job" then
    status_answer <$> dispatch tenantId_ messageId
  else if String.eqb name "message-delivery-job" then
    status_answer <$> applyDeliveryReceipt tenantId_ messageId (data_str "status" job)
      (data_opt "providerMessageId" job) (data_opt "failureReason" job)
  else if String.eqb name "message-retry-job" then
    status_answer <$> retry tenantId_ messageId None
  else if String.eqb name "attachment-processing-job" then
    process_attachment tenantId_ (data_str "attachmentId" job) ;;
    mret [("processed", JBool true); ("attachmentId", JStr (data_str "attachmentId" job))]
  else if String.eqb name "draft-cleanup-job" then
    removed ← cleanupExpired tenant;
    mret [("removed", JNum removed)]
  else if String.eqb name "message-inbound-job" then
    match field "payload" (job_data job) with
    | Some (JObj payload) =>
        m ← ingest tenantId_ (decode_inbound payload);
        mret [("deduplicated", JBool (bool_decide (m = None)))]
    | _ => throw (Exn JsTypeError "Cannot read properties of undefined (reading 'channelId')")
    end
  else if String.eqb name "message-analytics-job" then
    addJob ANALYTICS "message-event"
      ([("messageId", JStr messageId)] ++ opt_field "eventName" (data_opt "eventName" job)
       ++ opt_field "tenantId" tenant) (λ o, o) ;;
    mret [("forwarded", JBool true); ("messageId", JStr messageId)]
  else if String.eqb name "ai-workflow-trigger-job" then
    addJob WORKFLOW "run-workflow"
      ([("trigger", JStr "MESSAGE_RECEIVED"); ("messageId", JStr messageId)]
       ++ opt_field "conversationId" (data_opt "conversationId" job)
       ++ opt_field "tenantId" tenant) (λ o, o) ;;
    mret [("triggered", JBool true); ("messageId", JStr messageId)]
  else throw (Exn JsError ("Unknown job name: " +:+ name)).
End message_services.
