(* ===== verification/MessageProofs.v ===== *)
(** * What holds of messages

    The inbound pipeline stores a message once, what a dispatch and a receipt
    leave, and how a refused job strands a message. *)

From S2P Require Import Prelude Platform JsValue.
From S2P Require Import Conversation ConversationRepo ConversationStore ConversationService.
From S2P Require Import Message MessageRepo MessageStore MessageService.
Import MessageStatusEnum.
Open Scope Z_scope.

Module Messages.
Section messages.
Context {HE : Env} {HCS : ConvSql} {HCD : ConvDeps} {HS : MsgSql} {HD : MsgDeps} {HR : RegExp}.
Implicit Types (w : MsgW) (m : Message) (d : MsgTables).

(** ** Frames: what leaves the message tables alone *)
Abbreviation untouched := (same (λ w : MsgW, tables (db w))).

Lemma db_untouched {A} (p : M MsgW A) : keeps (same db) p → keeps untouched p.
Proof. intros Hp w. unfold same. by rewrite (Hp w). Qed.

Lemma in_conversations_untouched {A} (p : M ConvW A) : keeps untouched (in_conversations p).
Proof. intros w. unfold same, final, in_conversations. by destruct (p _) as [r w']. Qed.

Lemma reading_untouched {A} (f : MsgTables → result A) : keeps untouched (reading f).
Proof. unfold reading. solve_keeps. Qed.
Hint Resolve in_conversations_untouched reading_untouched : keeps.

Lemma new_Date_untouched : keeps untouched new_Date.
Proof. apply db_untouched. eauto with keeps. Qed.
Lemma randomUUID_untouched : keeps untouched randomUUID.
Proof. apply db_untouched. eauto with keeps. Qed.
Lemma addJob_untouched q n o f : keeps untouched (addJob q n o f).
Proof. apply db_untouched. eauto with keeps. Qed.
Lemma audit_untouched t u a x : keeps untouched (audit_log t u a x).
Proof. apply db_untouched. eauto with keeps. Qed.
Lemma broadcast_untouched t p : keeps untouched (broadcast t p).
Proof. apply db_untouched. eauto with keeps. Qed.
Hint Resolve new_Date_untouched randomUUID_untouched addJob_untouched audit_untouched
  broadcast_untouched : keeps.

Lemma publishAll_untouched l : keeps untouched (publishAll l).
Proof. unfold publishAll, publish. solve_keeps. Qed.
Lemma publish_untouched e : keeps untouched (publish e).
Proof. unfold publish. solve_keeps. Qed.
Lemma refresh_untouched t c l : keeps untouched (refresh t c l).
Proof. unfold refresh, countByConversation. solve_keeps. Qed.
Lemma sendOutgoing_untouched t c r x : keeps untouched (sendOutgoingMessage t c r x).
Proof. unfold sendOutgoingMessage, getChannel. solve_keeps. Qed.
Lemma resolve_untouched t n : keeps untouched (resolveConversationId t n).
Proof. unfold resolveConversationId. solve_keeps. Qed.
Lemma validate_same n w : final (validate n) w = w.
Proof. unfold validate. by repeat case_match. Qed.
End messages.
#[export] Hint Resolve in_conversations_untouched reading_untouched new_Date_untouched
  randomUUID_untouched addJob_untouched audit_untouched broadcast_untouched
  publishAll_untouched publish_untouched refresh_untouched sendOutgoing_untouched
  resolve_untouched : keeps.

Section inbound.
Context {HE : Env} {HCS : ConvSql} {HCD : ConvDeps} {HS : MsgSql} {HD : MsgDeps} {HR : RegExp}.
Implicit Types (w : MsgW) (m : Message) (d : MsgTables).

Abbreviation untouched := (same (λ w : MsgW, tables (db w))).

(** The message an ingest stores. *)
Definition ingested (tenant : string) (dto : InboundMessageDto) (d d' : MsgTables) : Prop :=
  ∃ now saved mid cid type,
    save_message saved (create now mid (inbound_props tenant cid (normalize dto) type))
      tenant d = Ok d'.

(** A statement, run. *)
Lemma writing_run f w :
  writing f w = match f (env_clock (ticks w)) (tables (db w)) with
    | Ok d' => (Ok tt, w <| ticks ::= S |> <| db ::= λ x, x <| tables := d' |> |>)
    | Throw e => (Throw e, w <| ticks ::= S |>)
    end.
Proof.
  unfold writing, mbind, M_bind, new_Date, gets, of_result, modify. cbn.
  by destruct (f _ _).
Qed.

Lemma ingest_tables tenant dto w :
  tables (db (final (ingest tenant dto) w)) = tables (db w)
  ∨ truthy (in_channelId dto) = true
    ∧ (∀ ext, js_or_undef (in_externalMessageId dto) = Some ext →
        find_by_external tenant (Some (in_channelId dto)) ext (tables (db w)) = Ok None)
    ∧ ingested tenant dto (tables (db w)) (tables (db (final (ingest tenant dto) w))).
Proof.
  unfold ingest. rewrite final_bind.
  assert (final (validate (normalize dto)) w = w) as Hv by apply validate_same.
  assert (outcome (validate (normalize dto)) w = Ok tt → truthy (in_channelId dto) = true) as Hc.
  { unfold validate. cbn. by destruct (truthy (in_channelId dto)). }
  unfold final, outcome in Hv, Hc. destruct (validate (normalize dto) w) as [[[]|e] wv]; cbn in Hv, Hc;
    subst wv; [|by left].
  specialize (Hc eq_refl). rewrite final_bind. cbn [in_externalMessageId normalize].
  set (look := match js_or_undef (in_externalMessageId dto) with Some ext => _ | None => _ end).
  assert (look w = (match js_or_undef (in_externalMessageId dto) with
     | Some ext => find_by_external tenant (Some (in_channelId dto)) ext (tables (db w))
     | None => Ok None end, w)) as Elook.
  { subst look. by destruct (js_or_undef _). }
  rewrite Elook. clearbody look. clear Elook look.
  destruct (match js_or_undef (in_externalMessageId dto) with Some ext => _ | None => _ end)
    as [[dup|]|e] eqn:Edup; [by left| |by left].
  assert (∀ ext, js_or_undef (in_externalMessageId dto) = Some ext →
    find_by_external tenant (Some (in_channelId dto)) ext (tables (db w)) = Ok None) as Hnone.
  { intros ext Ex. by rewrite Ex in Edup. }
  clear Edup. rewrite final_bind.
  pose proof (resolve_untouched tenant (normalize dto) w) as Hres. unfold same, final in Hres.
  destruct (resolveConversationId _ _ _) as [[cid|e] w2]; cbn in Hres; [|by left].
  rewrite final_bind. cbn [randomUUID]. rewrite final_bind.
  destruct (of_result _ _) as [[type|e] w3] eqn:Et; [|left; by injection Et as _ <-].
  injection Et as Et <-. rewrite final_bind. cbn [new_Date]. rewrite final_bind.
  set (m := create _ _ _). set (w4 := _ <| ticks ::= S |>).
  assert (tables (db w4) = tables (db w)) as H4 by exact Hres.
  unfold save. rewrite writing_run. rewrite H4.
  destruct (save_message _ _ _ _) as [d'|e] eqn:Es; [|by left]. right.
  split_and!; [done|done|]. exists (env_clock (ticks w2)), (env_clock (ticks w4)), (env_uuid (uuids w2)), cid, type.
  match goal with |- context [final ?p ?w5] =>
    assert (keeps untouched p) as Hp by (unfold applyMessage; solve_keeps);
    specialize (Hp w5); unfold same in Hp; rewrite Hp end.
  exact Es.
Qed.

Lemma all_rows_elem d r : r ∈ all_rows d ↔ ∃ k, m_messages d !! k = Some r.
Proof.
  unfold all_rows. rewrite list_elem_of_fmap. split.
  - intros ([k x] & -> & Hx%elem_of_map_to_list). by exists k.
  - intros [k Hk]. exists (k, r). split; [done|]. by apply elem_of_map_to_list.
Qed.

Lemma save_rows now m tenant d d' :
  save_message now m tenant d = Ok d' →
  ∃ created updated, m_messages d' = <[id m := row_of m created updated]> (m_messages d).
Proof.
  unfold save_message, write_row. destruct (select_message _ _ _) as [old|].
  - destruct (some _ _); [done|]. intros [= <-]. by eexists _, _.
  - destruct (m_messages d !! id m); [done|]. destruct (some _ _); [done|].
    intros [= <-]. by eexists _, _.
Qed.

(** What was saved maps back. *)
Lemma row_of_toDomain m created updated l1 l2 l3 l4 :
  ∃ m', MessageMapper.toDomain (row_of m created updated) l1 l2 l3 l4 = Ok m'.
Proof.
  unfold MessageMapper.toDomain, MessageType.create, MessageDirection.create,
    MessageStatus.create.
  cbn [row_messageType row_direction row_status row_of]. rewrite !parse_enum_str. by eexists.
Qed.

(** The row a match finds is the one just stored. *)
Lemma ingested_found tenant dto d d' ext :
  truthy (in_channelId dto) = true →
  js_or_undef (in_externalMessageId dto) = Some ext →
  find_by_external tenant (Some (in_channelId dto)) ext d = Ok None →
  ingested tenant dto d d' →
  ∃ m, find_by_external tenant (Some (in_channelId dto)) ext d' = Ok (Some m).
Proof.
  intros Hch Hext Hnone (now & saved & mid & cid & type & Hs).
  apply save_rows in Hs as (created & updated & Hrows).
  set (m := create _ _ _) in Hrows. change (id m) with mid in Hrows.
  set (row := row_of m created updated) in Hrows.
  assert (external_match tenant (Some (in_channelId dto)) ext row = true) as Hrow.
  { unfold external_match, eq_condition, owns. cbn. rewrite String.eqb_refl, Hext.
    rewrite bool_decide_eq_true_2 by done. cbn. rewrite Hch. cbn.
    by rewrite bool_decide_eq_true_2. }
  unfold find_by_external in *.
  destruct (js_find _ (all_rows d)) as [r|] eqn:Eold.
  { by destruct (MessageMapper.toDomain _ _ _ _ _). }
  destruct (js_find _ (all_rows d')) as [r|] eqn:Enew.
  2: { exfalso. assert (row ∈ all_rows d') as Hin.
       { apply all_rows_elem. exists mid. rewrite Hrows. apply lookup_insert_eq. }
       apply list_elem_of_In in Hin.
       pose proof (find_none _ _ Enew _ Hin). congruence. }
  apply find_some in Enew as [Hin Hm]. apply list_elem_of_In, all_rows_elem in Hin as [k Hk].
  rewrite Hrows in Hk. destruct (decide (k = mid)) as [->|Hne].
  - rewrite lookup_insert_eq in Hk. injection Hk as <-.
    subst row. destruct (row_of_toDomain m created updated [] [] [] []) as [m' ->]. by eexists.
  - rewrite lookup_insert_ne in Hk by done.
    assert (r ∈ all_rows d) as Hr by (apply all_rows_elem; by exists k).
    apply list_elem_of_In in Hr. pose proof (find_none _ _ Eold _ Hr). congruence.
Qed.

(** C18: A provider message is stored once: after a first attempt that stored
    it, whether that attempt returned or failed later, a second one with the same
    provider id answers that it is a duplicate and changes nothing at all; what
    the first attempt did not reach is never done. *)
Theorem ingest_once tenant dto ext w r w1 :
  ingest tenant dto w = (r, w1) →
  js_or_undef (in_externalMessageId dto) = Some ext →
  tables (db w1) ≠ tables (db w) →
  ingest tenant dto w1 = (Ok None, w1).
Proof.
  intros Hrun Hext Hchanged.
  destruct (ingest_tables tenant dto w) as [Hsame|(Hch & Hnone & Hin)];
    unfold final in *; rewrite Hrun in *; cbn [snd] in *; [done|].
  destruct (ingested_found _ _ _ _ _ Hch Hext (Hnone _ Hext) Hin) as [m Hm].
  assert (validate (normalize dto) w1 = (Ok tt, w1)) as Hv.
  { assert (outcome (validate (normalize dto)) w = Ok tt) as Ho.
    { unfold ingest in Hrun. destruct (validate (normalize dto) w) as [[[]|e] wv] eqn:Ev;
        [unfold outcome; by rewrite Ev|].
      rewrite (bind_throw _ _ _ _ _ Ev) in Hrun. injection Hrun as _ <-.
      pose proof (validate_same (normalize dto) w) as Hvs. unfold final in Hvs.
      rewrite Ev in Hvs. cbn in Hvs. by subst wv. }
    revert Ho. unfold validate, outcome. by repeat case_match. }
  unfold ingest. rewrite (bind_ok _ _ _ _ _ Hv). cbn [in_externalMessageId normalize].
  rewrite Hext. unfold findByExternalId, reading. cbn.
  unfold mbind, M_bind, gets, of_result. cbn [in_channelId normalize]. by rewrite Hm.
Qed.
End inbound.

(** ** Delivery *)
Section delivery.
Context {HE : Env} {HCS : ConvSql} {HCD : ConvDeps} {HS : MsgSql} {HD : MsgDeps} {HR : RegExp}.
Implicit Types (w : MsgW) (m : Message) (d : MsgTables).

(** Rows under their ids, and the unique index on provider ids. *)
Definition indexed d : Prop := ∀ i r, m_messages d !! i = Some r →
  row_id r = i ∧ some (same_external r) (all_rows d) = false.

Lemma msg_select_inv i tenant d r :
  select_message i tenant d = Some r → m_messages d !! i = Some r ∧ row_tenantId r = tenant.
Proof.
  unfold select_message, owns. destruct (m_messages d !! i); [|done].
  destruct (String.eqb_spec (row_tenantId m) tenant); [|done]. by intros [= <-].
Qed.

Lemma msg_find_inv i tenant d m :
  find_message i tenant d = Ok (Some m) →
  ∃ r, select_message i tenant d = Some r ∧ id m = row_id r ∧ tenantId m = row_tenantId r
    ∧ Message.channelId m = js_or_undef (row_channelId r)
    ∧ externalMessageId m = js_or_undef (row_externalMessageId r)
    ∧ deliveryStatuses m = MessageMapper.deliveryStatusToDomain <$> deliveries_of i tenant d
    ∧ domainEvents m = [].
Proof.
  unfold find_message. destruct (select_message i tenant d) as [r|]; [|done].
  unfold MessageMapper.toDomain.
  destruct (MessageType.create _); [|done]. destruct (MessageDirection.create _); [|done].
  destruct (MessageStatus.create _); [|done]. intros [= <-]. by exists r.
Qed.

(** The keys of a message are those of its row. *)
Definition keyed r m : Prop :=
  id m = row_id r ∧ tenantId m = row_tenantId r
  ∧ Message.channelId m = js_or_undef (row_channelId r)
  ∧ externalMessageId m = js_or_undef (row_externalMessageId r).

(** A message that was loaded can be saved again while its keys stay. *)
Lemma resave now i tenant d r m :
  indexed d → select_message i tenant d = Some r → keyed r m →
  ∃ d' created, save_message now m tenant d = Ok d'
    ∧ m_messages d' = <[i := row_of m created now]> (m_messages d)
    ∧ m_deliveries d' = insert_all delivery_conflict (delivery_row <$> deliveryStatuses m)
        (m_deliveries d).
Proof.
  intros Hwf Hsel (Hri & Hrt & Hrc & Hre).
  pose proof (msg_select_inv _ _ _ _ Hsel) as [Hl _]. destruct (Hwf _ _ Hl) as [Hid Hno].
  assert (id m = i) as Hi by congruence.
  unfold save_message, write_row. rewrite Hi, Hsel.
  replace (some _ _) with false; [by eexists _, _|]. symmetry. apply some_false.
  intros x Hx. pose proof (proj1 (some_false _ _) Hno x Hx) as Hold.
  revert Hold. unfold same_external. cbn. rewrite Hri, Hrt, Hrc, Hre, !js_or_undef_idem.
  destruct (row_channelId r) as [c|], (row_externalMessageId r) as [e|]; cbn;
    destruct (row_channelId x), (row_externalMessageId x); rewrite ?andb_false_r; try done;
    repeat case_match; rewrite ?andb_false_r; try done; by simplify_eq.
Qed.

(** Nothing is inserted when every new row meets one of its own key. *)
Lemma insert_all_known {A} (conflict : A → A → bool) xs l :
  (∀ x, x ∈ xs → ∃ y, y ∈ l ∧ conflict x y = true) → insert_all conflict xs l = l.
Proof.
  induction xs as [|x xs IH]; intros Hall; [done|]. cbn.
  replace (some (conflict x) l) with true.
  - apply IH. intros y Hy. apply Hall. by right.
  - destruct (Hall x) as (y & Hy & E); [left|]. symmetry. apply existsb_exists.
    exists y. split; [by apply list_elem_of_In|done].
Qed.

Lemma insert_all_present xs l :
  (∀ x : MessageDeliveryStatus, x ∈ xs → ∃ y, y ∈ l ∧ delivery_id y = delivery_id x) →
  insert_all delivery_conflict xs l = l.
Proof.
  intros Hall. apply insert_all_known. intros x (y & Hy & E)%Hall. exists y.
  split; [done|]. unfold delivery_conflict. by rewrite E, String.eqb_refl.
Qed.

Lemma getOrThrow_run tenant i w m :
  find_message i tenant (tables (db w)) = Ok (Some m) → getOrThrow tenant i w = (Ok m, w).
Proof.
  intros Hf. unfold getOrThrow, findById, reading, mbind, M_bind, gets, of_result.
  by rewrite Hf.
Qed.

Lemma publish_run e w : ∃ w', publish e w = (Ok tt, w') ∧ db w' = db w.
Proof.
  pose proof (swallow_ok (when (bool_decide (event_name e ∈ ANALYTICS_EVENTS))
       (addJob MESSAGE "message-analytics-job"
          [("messageId", JStr (getAggregateId e)); ("eventName", JStr (event_name e))] (λ o, o)) ;;
     when (bool_decide (event_name e ∈ AI_TRIGGER_EVENTS))
       (addJob MESSAGE "ai-workflow-trigger-job"
          ([("messageId", JStr (getAggregateId e))] ++ opt_field "conversationId" (event_conversation e)
           ++ [("eventName", JStr (event_name e))]) (λ o, o))) w) as Ho.
  assert (keeps (same db) (publish e)) as Hk by (unfold publish; solve_keeps).
  specialize (Hk w). unfold same, final, outcome in *. fold (publish e) in Ho.
  destruct (publish e w) as [r w']. cbn in *. subst r. by exists w'.
Qed.

Lemma publishAll_run l w : ∃ w', publishAll l w = (Ok tt, w') ∧ db w' = db w.
Proof.
  revert w. induction l as [|e l IH]; intros w; [by exists w|].
  destruct (publish_run e w) as (w1 & E1 & D1). destruct (IH w1) as (w2 & E2 & D2).
  exists w2. split; [|congruence]. unfold publishAll in *. cbn [for_each].
  by rewrite (bind_ok _ _ _ _ _ E1).
Qed.

Lemma persist_delivery_run m tenant w d' :
  save_message (env_clock (ticks w)) m tenant (tables (db w)) = Ok d' →
  ∃ w', persist_delivery m tenant w = (Ok (m <| domainEvents := [] |>), w')
    ∧ db w' = (db w) <| tables := d' |>.
Proof.
  intros Hs. unfold persist_delivery.
  erewrite bind_ok by (unfold save; rewrite writing_run, Hs; reflexivity).
  destruct (publishAll_run (domainEvents m) (w <| ticks ::= S |> <| db ::= λ x, x <| tables := d' |> |>))
    as (w' & E & D). rewrite (bind_ok _ _ _ _ _ E). by exists w'.
Qed.

(** One more entry in the ledger of a message. *)
Definition recorded d d' (mid s : string) (reason : option string) : Prop :=
  ∃ x, m_deliveries d' = m_deliveries d ++ [x] ∧ delivery_messageId x = mid
    ∧ delivery_status x = s ∧ attemptCount x = 1 ∧ failureReason x = js_or_undef reason.

(** Every entry a message was loaded with is still in the ledger. *)
Lemma loaded_present i tenant d m l :
  find_message i tenant d = Ok (Some m) →
  ∀ x, x ∈ delivery_row <$> deliveryStatuses m →
    ∃ y, y ∈ m_deliveries d ++ l ∧ delivery_id y = delivery_id x.
Proof.
  intros Hf x. destruct (msg_find_inv _ _ _ _ Hf) as (r & _ & _ & _ & _ & _ & -> & _).
  rewrite <- list_fmap_compose, list_elem_of_fmap. intros (y & -> & Hy).
  exists y. split; [|done]. apply elem_of_app. left.
  unfold deliveries_of in Hy. by apply js_filter_elem in Hy as [Hy _].
Qed.

(** The ledger row of an entry. *)
Definition ledger_row (now : Z) (tenant : string) (x : MessageDeliveryStatus) :=
  delivery_row x <| delivery_tenantId := tenant |> <| delivery_updatedAt := now |>.

Lemma saveDelivery_run tenant x w :
  (∀ y, y ∈ m_deliveries (tables (db w)) → delivery_id y ≠ delivery_id x) →
  saveDeliveryStatus x tenant w = (Ok tt, w <| ticks ::= S |> <| db ::= λ b, b <| tables ::= λ d,
    d <| m_deliveries ::= λ l, l ++ [ledger_row (env_clock (ticks w)) tenant x] |> |> |>).
Proof.
  intros Hfresh. unfold saveDeliveryStatus. rewrite writing_run. unfold save_delivery.
  assert (∀ p, (∀ y, delivery_id y ≠ delivery_id x → p y = false) →
    some p (m_deliveries (tables (db w))) = false) as Hnone.
  { intros p Hp. apply some_false. intros y Hy. by apply Hp, Hfresh. }
  rewrite !Hnone; [done|..]; intros y Hy; unfold delivery_conflict, is_delivery;
    by rewrite (proj2 (String.eqb_neq _ _) Hy).
Qed.

(** Saving a message that lists what it was loaded with and the new entry. *)
Lemma save_listed tenant mid d raw w m m' x :
  indexed d → find_message mid tenant d = Ok (Some m) →
  tables (db w) = d <| m_deliveries ::= λ l, l ++ [raw] |> → delivery_id raw = delivery_id x →
  id m' = id m → tenantId m' = tenantId m → Message.channelId m' = Message.channelId m →
  externalMessageId m' = externalMessageId m → deliveryStatuses m' = deliveryStatuses m ++ [x] →
  ∃ created now w',
    persist_delivery m' tenant w = (Ok (m' <| domainEvents := [] |>), w')
    ∧ m_messages (tables (db w')) = <[mid := row_of m' created now]> (m_messages d)
    ∧ m_deliveries (tables (db w')) = m_deliveries d ++ [raw]
    ∧ conversations (db w') = conversations (db w).
Proof.
  intros Hwf Hf Hw Hraw Hi Ht Hc He Hds.
  destruct (msg_find_inv _ _ _ _ Hf) as (r & Hsel & Hri & Hrt & Hrc & Hre & _).
  destruct (resave (env_clock (ticks w)) mid tenant (tables (db w)) r m')
    as (d2 & created & E2 & Em & Ed);
    [by rewrite Hw|by rewrite Hw|by unfold keyed; rewrite Hi, Ht, Hc, He|].
  destruct (persist_delivery_run m' tenant w d2 E2) as (w2 & E3 & D2).
  exists created, (env_clock (ticks w)), w2. rewrite D2. rewrite Hw in Em, Ed.
  split_and!; [done|exact Em| |done].
  change (m_deliveries d2 = m_deliveries d ++ [raw]). rewrite Ed. apply insert_all_present.
  rewrite Hds, fmap_app. intros y [Hy|Hy]%elem_of_app.
  - exact (loaded_present _ _ _ _ [raw] Hf y Hy).
  - apply list_elem_of_singleton in Hy as ->. exists raw.
    split; [|done]. cbn. apply elem_of_app. right. by left.
Qed.

(** A new ledger entry, then the message that lists it. *)
Lemma record_and_save tenant mid w m m' x :
  indexed (tables (db w)) →
  find_message mid tenant (tables (db w)) = Ok (Some m) →
  (∀ y, y ∈ m_deliveries (tables (db w)) → delivery_id y ≠ delivery_id x) →
  id m' = id m → tenantId m' = tenantId m → Message.channelId m' = Message.channelId m →
  externalMessageId m' = externalMessageId m → deliveryStatuses m' = deliveryStatuses m ++ [x] →
  delivery_messageId x = mid → attemptCount x = 1 →
  ∃ created now w',
    (saveDeliveryStatus x tenant ;; persist_delivery m' tenant) w
      = (Ok (m' <| domainEvents := [] |>), w')
    ∧ m_messages (tables (db w')) = <[mid := row_of m' created now]> (m_messages (tables (db w)))
    ∧ recorded (tables (db w)) (tables (db w')) mid (delivery_status x) (failureReason x)
    ∧ conversations (db w') = conversations (db w).
Proof.
  intros Hwf Hf Hfresh Hi Ht Hc He Hds Hmid Hcount.
  rewrite (bind_ok _ _ _ _ _ (saveDelivery_run tenant x w Hfresh)).
  set (raw := ledger_row (env_clock (ticks w)) tenant x).
  destruct (save_listed tenant mid (tables (db w)) raw (w <| ticks ::= S |> <| db ::= λ b,
    b <| tables ::= λ d, d <| m_deliveries ::= λ l, l ++ [raw] |> |> |>) m m' x)
    as (created & t & w' & E & Hm & Hd & Hcv); try done.
  exists created, t, w'. split_and!; try done. by eexists.
Qed.

Lemma sendOutgoing_db t c r x : keeps (same db) (sendOutgoingMessage t c r x).
Proof. unfold sendOutgoingMessage, getChannel. solve_keeps. Qed.

(** Without an entry of that id the alias changes nothing. *)
Lemma alias_fresh x m :
  (∀ y, y ∈ deliveryStatuses m → delivery_id y ≠ delivery_id x) →
  deliveryStatuses (alias_delivery x m) = deliveryStatuses m.
Proof.
  intros Hfresh. cbn. rewrite <- (list_fmap_id (deliveryStatuses m)) at 2.
  apply list_fmap_ext. intros k y Hy. cbn.
  rewrite (proj2 (String.eqb_neq _ _)); [done|].
  apply Hfresh. by eapply list_elem_of_lookup_2.
Qed.

(** C19: A dispatch, whatever the status of the message: it queues the message on
    its channel and then marks it SENT with one successful entry in the ledger;
    if that throws, the message is FAILED with the reason in the ledger and the
    error is rethrown.  Either way one message row and one ledger row are
    written. *)
Theorem dispatch_spec tenant mid w m channel recipient r w2 :
  let d := tables (db w) in
  indexed d →
  find_message mid tenant d = Ok (Some m) →
  js_or_undef (Message.channelId m) = Some channel →
  js_or_undef (customerId m) = Some recipient →
  (∀ y, y ∈ m_deliveries d → delivery_id y ≠ env_uuid (uuids w)) →
  sendOutgoingMessage tenant channel recipient (nullish (content m) "")
    (w <| uuids ::= S |> <| ticks ::= S |>) = (r, w2) →
  ∃ w' row,
    m_messages (tables (db w')) = <[mid := row]> (m_messages d)
    ∧ conversations (db w') = conversations (db w)
    ∧ match r with
      | Ok _ => ∃ m', dispatch tenant mid w = (Ok m', w') ∧ status m' = SENT
          ∧ row_status row = "SENT" ∧ is_Some (row_sentAt row)
          ∧ recorded d (tables (db w')) mid "SENT" None
      | Throw e => dispatch tenant mid w = (Throw e, w') ∧ row_status row = "FAILED"
          ∧ row_sentAt row = sentAt m
          ∧ recorded d (tables (db w')) mid "FAILED" (Some (exn_message e))
      end.
Proof.
  intros d Hwf Hf Hch Hcu Hfresh Hsend. subst d.
  set (x0 := new_delivery (env_clock (ticks (w <| uuids ::= S |>))) (env_uuid (uuids w)) tenant mid
    (metadata m !! "provider") None (enum_str PROCESSING)).
  pose proof (sendOutgoing_db tenant channel recipient (nullish (content m) "")
    (w <| uuids ::= S |> <| ticks ::= S |>)) as Hdb.
  unfold same, final in Hdb. rewrite Hsend in Hdb. cbn in Hdb.
  set (now := env_clock (ticks w2)). set (w3 := w2 <| ticks ::= S |>).
  assert (db w3 = db w) as H3 by exact Hdb.
  unfold dispatch. rewrite (bind_ok _ _ _ _ _ (getOrThrow_run _ _ _ _ Hf)), Hch, Hcu.
  erewrite bind_ok by reflexivity. erewrite bind_ok by reflexivity. fold x0.
  erewrite bind_ok by (unfold attempt; rewrite Hsend; reflexivity).
  destruct r as [[]|e].
  - set (x := recordAttempt now (enum_str SENT) None None x0).
    set (m' := final (markSent now None) (final (recordDeliveryStatus now x) m)).
    destruct (record_and_save tenant mid w3 m m' x) as (created & t & w4 & E & Hm & Hr & Hc);
      try (by rewrite H3); try done.
    exists w4, (row_of m' created t). rewrite H3 in *. split_and!; [done|done|].
    exists (m' <| domainEvents := [] |>). split_and!; try done.
    erewrite bind_ok by reflexivity. erewrite bind_ok by (by apply exec_ok).
    erewrite bind_ok by (by apply exec_ok). unfold try_catch. fold now x m' w3. by rewrite E.
  - set (x := recordAttempt now (enum_str FAILED) None (Some (exn_message e)) x0).
    assert (deliveryStatuses (alias_delivery x m) = deliveryStatuses m) as Hal.
    { apply alias_fresh. intros y Hy.
      destruct (loaded_present _ _ _ _ [] Hf (delivery_row y)) as (z & Hz & Ez);
        [by apply list_elem_of_fmap_2|].
      rewrite app_nil_r in Hz. intros E. apply (Hfresh z Hz). rewrite Ez. exact E. }
    set (m' := final (markFailed now (exn_message e))
      (final (recordDeliveryStatus now x) (alias_delivery x m))).
    destruct (record_and_save tenant mid w3 m m' x) as (created & t & w4 & E & Hm & Hr & Hc);
      try (by rewrite H3); try done.
    { change (deliveryStatuses (alias_delivery x m) ++ [x] = deliveryStatuses m ++ [x]).
      by rewrite Hal. }
    exists w4, (row_of m' created t). rewrite H3 in *. split_and!; try done.
    unfold dispatch_failed. erewrite bind_ok by reflexivity.
    erewrite bind_ok by (by apply exec_ok). erewrite bind_ok by (by apply exec_ok).
    fold now x m' w3. rewrite <- bind_assoc. by rewrite (bind_ok _ _ _ _ _ E).
Qed.

(** A receipt of a provider decides the status of a message whatever it was:
    DELIVERED, READ, FAILED and SENT are copied, so that a late DELIVERED undoes
    READ, and any other text leaves the status; the reading time is never
    cleared, and the ledger records the receipt as it came. *)
Theorem receipt_overwrites tenant mid s providerId reason w m :
  let d := tables (db w) in
  let w' := final (applyDeliveryReceipt tenant mid s providerId reason) w in
  indexed d →
  find_message mid tenant d = Ok (Some m) →
  (∀ y, y ∈ m_deliveries d → delivery_id y ≠ env_uuid (uuids w)) →
  (s = "SENT" → truthy providerId = false) →
  ∃ row,
    m_messages (tables (db w')) = <[mid := row]> (m_messages d)
    ∧ row_status row = (if bool_decide (s ∈ ["DELIVERED"; "READ"; "FAILED"; "SENT"])
                        then s else enum_str (status m))
    ∧ (is_Some (readAt m) → is_Some (row_readAt row))
    ∧ recorded d (tables (db w')) mid s reason.
Proof.
  intros d w' Hwf Hf Hfresh Hsent. subst d w'.
  unfold applyDeliveryReceipt. rewrite !final_bind, (getOrThrow_run _ _ _ _ Hf).
  rewrite final_bind. cbn [randomUUID]. rewrite final_bind. cbn [new_Date].
  set (w1 := _ <| ticks ::= S |>).
  set (x := recordAttempt _ s providerId reason _).
  assert (tables (db w1) = tables (db w)) as H1 by done.
  rewrite final_bind, (saveDelivery_run tenant x w1) by (rewrite H1; exact Hfresh).
  set (w2 := w1 <| ticks ::= S |> <| db ::= _ |>). set (raw := ledger_row _ tenant x) in w2.
  rewrite final_bind. cbn [new_Date].
  set (m1 := final (apply_receipt (env_clock (ticks w2)) s providerId reason
    (metadata m !! "provider")) m).
  assert (outcome (apply_receipt (env_clock (ticks w2)) s providerId reason
    (metadata m !! "provider")) m = Ok tt
    ∧ id m1 = id m ∧ tenantId m1 = tenantId m ∧ Message.channelId m1 = Message.channelId m
    ∧ externalMessageId m1 = externalMessageId m ∧ deliveryStatuses m1 = deliveryStatuses m
    ∧ enum_str (status m1) = (if bool_decide (s ∈ ["DELIVERED"; "READ"; "FAILED"; "SENT"])
                              then s else enum_str (status m))
    ∧ (is_Some (readAt m) → is_Some (readAt m1))) as (Ho & Hi & Ht & Hc & He & Hds & Hst & Hrd).
  { subst m1. unfold apply_receipt.
    destruct (String.eqb_spec s (enum_str DELIVERED)) as [->|N1]; [by split_and!|].
    destruct (String.eqb_spec s (enum_str READ)) as [->|N2]; [by split_and!|].
    destruct (String.eqb_spec s (enum_str FAILED)) as [->|N3]; [by split_and!|].
    destruct (String.eqb_spec s (enum_str SENT)) as [->|N4].
    - unfold markSent. rewrite (Hsent eq_refl). by split_and!.
    - rewrite bool_decide_eq_false_2; [by split_and!|].
      rewrite !elem_of_cons, elem_of_nil. naive_solver. }
  rewrite final_bind, exec_ok by exact Ho. fold m1. rewrite final_bind, exec_ok by done.
  set (m2 := final (recordDeliveryStatus _ x) m1).
  destruct (save_listed tenant mid (tables (db w)) raw (w2 <| ticks ::= S |>) m m2 x)
    as (created & t & w3 & E & Hm & Hd & _); try done.
  { change (deliveryStatuses m1 ++ [x] = deliveryStatuses m ++ [x]). by rewrite Hds. }
  rewrite final_bind, E, final_bind.
  assert (keeps (same (λ w : MsgW, tables (db w)))
    (refresh tenant (conversationId (m2 <| domainEvents := [] |>)) None ;;
     (mret (m2 <| domainEvents := [] |>) : M MsgW Message))) as Hk by solve_keeps.
  specialize (Hk w3). unfold same in Hk. rewrite final_bind in Hk. rewrite Hk.
  exists (row_of m2 created t). split_and!; [exact Hm|exact Hst|exact Hrd|].
  exists raw. by split_and!.
Qed.

(** What a stored message is read back as. *)
Lemma find_stored mid tenant d m created updated :
  m_messages d !! mid = Some (row_of m created updated) → tenantId m = tenant →
  ∃ m', find_message mid tenant d = Ok (Some m') ∧ status m' = status m
    ∧ direction m' = direction m.
Proof.
  intros Hl Ht. unfold find_message, select_message. rewrite Hl. unfold owns.
  cbn [row_tenantId row_of]. rewrite Ht, String.eqb_refl.
  unfold MessageMapper.toDomain, MessageType.create, MessageDirection.create,
    MessageStatus.create.
  cbn [row_messageType row_direction row_status row_of]. rewrite !parse_enum_str.
  by eexists.
Qed.

(** When the queue refuses the job of a message that is sent, the call throws
    with the message already saved as PROCESSING, a status that retry refuses. *)
Theorem refused_send_strands tenant mid options userId w m e :
  indexed (tables (db w)) →
  find_message mid tenant (tables (db w)) = Ok (Some m) →
  MessageDirection.isInbound (direction m) = false →
  js_or_undef (templateName options) = None →
  (∀ job, job_name job = "message-send-job" → env_queue_add job = Some e) →
  ∃ w' row,
    queueSend tenant mid options userId w = (Throw e, w')
    ∧ m_messages (tables (db w')) = <[mid := row]> (m_messages (tables (db w)))
    ∧ row_status row = "PROCESSING"
    ∧ outcome (retry tenant mid userId) w'
      = Throw (Exn BadRequestException ("Message " +:+ mid +:+ " is not in a retryable state")).
Proof.
  intros Hwf Hf Hin Htpl Hq. destruct (msg_find_inv _ _ _ _ Hf) as (r & Hsel & Hi & Ht & Hc & He & _).
  pose proof (msg_select_inv _ _ _ _ Hsel) as [_ HT].
  set (m' := final (markProcessing (env_clock (ticks w))) m).
  destruct (resave (env_clock (ticks (w <| ticks ::= S |>))) mid tenant (tables (db w)) r m')
    as (d2 & created & E2 & Em & _); [done..|].
  destruct (persist_delivery_run m' tenant (w <| ticks ::= S |>) d2 E2) as (w2 & E3 & D2).
  assert (tables (db w2) = d2) as Hd2 by by rewrite D2.
  exists w2, (row_of m' created (env_clock (ticks (w <| ticks ::= S |>)))).
  rewrite Hd2. split_and!; [|done|done|].
  - unfold queueSend. rewrite (bind_ok _ _ _ _ _ (getOrThrow_run _ _ _ _ Hf)), Hin, Htpl.
    erewrite bind_ok by reflexivity. erewrite bind_ok by reflexivity.
    erewrite bind_ok by (by apply exec_ok). fold m'. rewrite (bind_ok _ _ _ _ _ E3).
    apply bind_throw. unfold addJob, getTenantId. rewrite gets_bind. by rewrite Hq.
  - destruct (find_stored mid tenant (tables (db w2)) m' created
      (env_clock (ticks (w <| ticks ::= S |>)))) as (m2 & Hm2 & Hst & _).
    { by rewrite Hd2, Em, lookup_insert_eq. }
    { change (tenantId m = tenant). congruence. }
    unfold retry, outcome. rewrite (bind_ok _ _ _ _ _ (getOrThrow_run _ _ _ _ Hm2)).
    by rewrite Hst.
Qed.
End delivery.

(** ** Webhook jobs and templates *)

(** What a webhook job carries is what the worker reads: decoding the payload
    gives back every field of the inbound message, missing ones and metadata
    included. *)
Theorem inbound_roundtrip dto : decode_inbound (encode_inbound dto) = dto.
Proof.
  destruct dto as [ch cv cu ex ty co md]. unfold encode_inbound, decode_inbound. cbn.
  destruct cv, cu, ex, ty, co, md as [md|]; cbn; try done; by rewrite list_to_map_to_list.
Qed.

Section templates.
Context {HE : Env} {HCS : ConvSql} {HCD : ConvDeps} {HS : MsgSql} {HD : MsgDeps} {HR : RegExp}.
Implicit Types (w : MsgW) (d : MsgTables).

(** The columns a saved template takes from its row. *)
Definition kept_columns (now : Z) (t old : MessageTemplate) (tenant : string) : MessageTemplate :=
  {| template_id := template_id t; template_tenantId := tenant;
     template_name := template_name t;
     channelType := js_or_undef (channelType t); category := js_or_undef (category t);
     template_content := keep_undefined (template_content t) (template_content old);
     template_contentHtml := js_or_undef (template_contentHtml t); variables := variables t;
     template_language := keep_undefined (template_language t) (template_language old);
     isActive := keep_undefined (isActive t) (isActive old);
     template_createdAt := template_createdAt old; template_updatedAt := now |}.

Lemma save_template_over now t tenant d old :
  select_template (template_id t) tenant d = Some old →
  (∀ k r, m_templates d !! k = Some r → named tenant (template_name t) r = true →
     k = template_id t) →
  save_template now t tenant d = Ok (d <| m_templates ::=
    <[template_id t := old <| template := kept_columns now t (template old) tenant |>]> |>).
Proof.
  intros Hs Hu. unfold save_template. rewrite Hs. replace (some _ _) with false.
  - by destruct t, old as [[] ].
  - symmetry. apply some_false. intros [k r] Hk. apply elem_of_map_to_list in Hk. cbn.
    destruct (named tenant _ r) eqn:Hn; [|done]. rewrite (Hu _ _ Hk Hn).
    by rewrite String.eqb_refl.
Qed.

(** A template patch: the content, the language and the active flag keep what
    is stored when the patch lacks them, but the channel type, the category, the
    HTML and the variables are written as the patch has them, so a patch that
    lacks one erases it. *)
Theorem template_update_spec T i p u w old :
  select_template i T (tables (db w)) = Some old → template_id (template old) = i →
  (∀ k r, m_templates (tables (db w)) !! k = Some r →
     named T (template_name (template old)) r = true → k = i) →
  m_templates (tables (db (final (update_message_template T i p u) w)))
  = <[i := old <| template := {|
       template_id := i; template_tenantId := T;
       template_name := template_name (template old);
       channelType := js_or_undef (p_channelType p); category := js_or_undef (p_category p);
       template_content := keep_undefined (p_content p) (template_content (template old));
       template_contentHtml := js_or_undef (p_contentHtml p); variables := p_variables p;
       template_language := keep_undefined (p_language p) (template_language (template old));
       isActive := keep_undefined (p_isActive p) (isActive (template old));
       template_createdAt := template_createdAt (template old);
       template_updatedAt := env_clock (S (ticks w)) |} |>]> (m_templates (tables (db w))).
Proof.
  intros Hs Hi Hu. unfold update_message_template.
  assert (getTemplateOrThrow T i w
    = (Ok (MessageMapper.templateToDomain (template old)), w)) as Hget.
  { unfold getTemplateOrThrow, reading, find_template. rewrite bind_assoc, gets_bind.
    by rewrite Hs. }
  rewrite final_bind, Hget. unfold new_Date. rewrite final_bind. cbn [mbind M_bind].
  unfold saveTemplate. rewrite final_bind, writing_run.
  rewrite (save_template_over _ _ T _ old).
  - by rewrite <- Hi.
  - change (select_template (template_id (template old)) T (tables (db w)) = Some old).
    by rewrite Hi.
  - change (∀ k r, m_templates (tables (db w)) !! k = Some r →
      named T (template_name (template old)) r = true → k = template_id (template old)).
    by rewrite Hi.
Qed.
End templates.

(** ** Pages of messages *)
Section pages.
Context {HS : MsgSql}.
Implicit Types (d : MsgTables) (q : MessageQueryOptions).

(** The rows a first page is cut from, in their order. *)
Definition ordered (tenant : string) q d : list MessageRow :=
  by_creation (bool_decide (q_sortOrder q = Some "ASC"))
    (js_filter (λ r, buildConditions tenant q r && true) (all_rows d)).

Lemma first_page tenant q d :
  q_cursor q = None → q_page q = None →
  page_rows tenant q d = take (Z.to_nat (js_or (q_limit q) 25)) (ordered tenant q d).
Proof. intros Hc Hp. unfold page_rows, ordered. by rewrite Hc, Hp. Qed.

(** A row of the page after a cursor is older than the cursor, and among the
    rows the first page was cut from. *)
Lemma next_page_row tenant q c d r :
  q_cursor q = None → c ≠ "" → r ∈ page_rows tenant (q <| q_cursor := Some c |>) d →
  row_createdAt r < Date_parse c ∧ r ∈ ordered tenant q d.
Proof.
  intros Hq Hc Hr. unfold page_rows in Hr. cbn in Hr.
  unfold truthy, string_truthy in Hr. rewrite (proj2 (String.eqb_neq _ _) Hc) in Hr.
  cbn [negb] in Hr. apply list_elem_of_lookup in Hr as [k Hk].
  apply lookup_take_Some in Hk as [Hk _]. rewrite lookup_drop in Hk.
  apply list_elem_of_lookup_2 in Hk. rewrite by_creation_perm in Hk.
  apply js_filter_elem in Hk as [Hin Hk]. apply andb_true_iff in Hk as [Hb Ht].
  split; [by apply Z.ltb_lt|]. unfold ordered. rewrite by_creation_perm.
  apply js_filter_elem. split; [done|]. rewrite andb_true_r. exact Hb.
Qed.

(** Following the cursor of a full page: in the default order every row of
    the next page is older than every row of the first one, so nothing is shown
    twice; in ascending order the filter is the same, and the next page shows only
    rows that the first one already had. *)
Theorem cursor_pages tenant q d c r :
  q_cursor q = None → q_page q = None →
  nextCursor q (page_rows tenant q d) = Some c →
  r ∈ page_rows tenant (q <| q_cursor := Some c |>) d →
  if bool_decide (q_sortOrder q = Some "ASC") then r ∈ page_rows tenant q d
  else ∀ x, x ∈ page_rows tenant q d → row_createdAt r < row_createdAt x.
Proof.
  intros Hq Hp Hcur Hr. unfold nextCursor in Hcur.
  destruct (Z.eqb_spec (Z.of_nat (length (page_rows tenant q d))) (js_or (q_limit q) 25))
    as [Hlen|]; [|done].
  destruct (last (page_rows tenant q d)) as [z|] eqn:Ez; [|done]. injection Hcur as <-.
  apply next_page_row in Hr as [Hlt Hin]; [|done|apply toISOString_nonempty].
  rewrite Date_roundtrip in Hlt. rewrite last_lookup in Ez.
  rewrite first_page in * by done. set (n := Z.to_nat (js_or (q_limit q) 25)) in *.
  set (k := pred (length (take n (ordered tenant q d)))) in *.
  apply lookup_take_Some in Ez as [Ez Hk].
  apply list_elem_of_lookup in Hin as [j Hj].
  pose proof (λ i j x y, by_creation_sorted (bool_decide (q_sortOrder q = Some "ASC"))
    (js_filter (λ r, buildConditions tenant q r && true) (all_rows d)) i j x y) as Hsorted.
  fold (ordered tenant q d) in Hsorted.
  case_bool_decide.
  - apply list_elem_of_lookup. exists j. apply lookup_take_Some. split; [done|].
    destruct (decide (j < n)%nat) as [|Hge]; [done|].
    specialize (Hsorted k j z r Ez Hj ltac:(lia)). cbn in Hsorted. lia.
  - intros x Hx. apply list_elem_of_lookup in Hx as [i Hi].
    assert (i <= k)%nat as Hik.
    { apply lookup_lt_Some in Hi. subst k. lia. }
    apply lookup_take_Some in Hi as [Hi _].
    destruct (decide (i = k)) as [->|Hne]; [by simplify_eq|].
    specialize (Hsorted i k x z Hi Ez ltac:(lia)). cbn in Hsorted. lia.
Qed.
End pages.
End Messages.
