(* ===== verification/MessageCounts.v ===== *)
(** * The counts of the inbox

    The summary of a conversation carries the number of its messages, of the unread
    ones and of the attachments.  The message services recompute them, the
    conversation services copy them: whatever calls are made, one after the other,
    those numbers are the ones the message tables give. *)

From S2P Require Import Prelude Platform JsValue.
From S2P Require Import Conversation ConversationRepo ConversationStore ConversationService.
From S2P Require Import ConversationRefinement.
From S2P Require Import Message MessageRepo MessageStore MessageService MessageProofs.
Open Scope Z_scope.

Module InboxCounts.
Import Messages.

Definition triple : Type := Z * Z * Z.

(** What the summary says; nothing is zero. *)
Definition summary_counts (T cid : string) (c : ConvDb) : triple :=
  match js_find (is_summary cid T) (c_summary c) with
  | Some s => (totalMessages s, unreadCount s, totalAttachments s)
  | None => (0, 0, 0)
  end.

(** What the tables say. *)
Definition table_counts (T cid : string) (d : MsgTables) : triple :=
  let c := count_conversation T cid d in (total c, unread c, attachment_count c).

Definition exact_at (b : MsgDb) (T cid : string) : Prop :=
  summary_counts T cid (conversations b) = table_counts T cid (tables b).

Definition exact (b : MsgDb) : Prop := ∀ T cid, exact_at b T cid.

Lemma is_summary_true cid T s :
  is_summary cid T s = true ↔ summary_conversationId s = cid ∧ summary_tenantId s = T.
Proof. unfold is_summary. by rewrite andb_true_iff, !String.eqb_eq. Qed.

(** *** Writing a summary *)
Lemma upsert_counts now s T c c' T' cid' :
  upsert_summary now s T c = Ok c' →
  summary_counts T' cid' c' =
    if bool_decide (T' = T ∧ cid' = summary_conversationId s)
    then (totalMessages s, unreadCount s, totalAttachments s)
    else summary_counts T' cid' c.
Proof.
  unfold upsert_summary. set (mine := is_summary (summary_conversationId s) T).
  set (raw := ConversationMapper.summaryToDomain s <| summary_tenantId := T |>
    <| summary_updatedAt := now |>).
  assert (mine raw = true) as Hraw by by apply is_summary_true.
  destruct (some mine (c_summary c)) eqn:Esome.
  - set (g := λ x, if mine x then raw <| summary_createdAt := summary_createdAt x |> else x).
    intros Hok. assert (c_summary c' = g <$> c_summary c) as Hl by (by injection Hok as <-).
    unfold summary_counts. rewrite Hl.
    assert (∀ x, is_summary cid' T' (g x) = is_summary cid' T' x) as Hg.
    { intros x. subst g. cbn. destruct (mine x) eqn:Ex; [|done].
      apply is_summary_true in Ex as [E1 E2]. unfold is_summary. cbn. by rewrite E1, E2. }
    rewrite (js_find_fmap _ g) by exact Hg.
    destruct (js_find (is_summary cid' T') (c_summary c)) as [x|] eqn:Ex; cbn.
    + apply find_some in Ex as [_ Ex]. subst g. cbn. destruct (mine x) eqn:Emine.
      * apply is_summary_true in Emine as [E1 E2], Ex as [E3 E4].
        rewrite bool_decide_eq_true_2 by (split; congruence). done.
      * rewrite bool_decide_eq_false_2; [done|]. intros [-> ->]. subst mine. congruence.
    + rewrite bool_decide_eq_false_2; [done|]. intros [-> ->]. fold mine in Ex.
      rewrite js_find_some, Ex in Esome. by case_bool_decide as Hs; [destruct Hs|].
  - destruct (some (λ x, String.eqb (summary_id x) _) _); [done|]. intros Hok.
    assert (c_summary c' = c_summary c ++ [raw]) as Hl by (by injection Hok as <-).
    unfold summary_counts. rewrite Hl.
    rewrite js_find_app.
    destruct (js_find (is_summary cid' T') (c_summary c)) as [x|] eqn:Ex.
    + rewrite bool_decide_eq_false_2; [done|]. intros [-> ->]. fold mine in Ex.
      by rewrite js_find_some, Ex in Esome.
    + unfold js_find. cbn [find]. case_bool_decide as Hk.
      * destruct Hk as [-> ->]. fold mine. by rewrite Hraw.
      * destruct (is_summary cid' T' raw) eqn:E; [|done].
        apply is_summary_true in E as [E1 E2]. destruct Hk. by rewrite <- E1, <- E2.
Qed.

(** *** Counting rows *)
Definition tally (p : MessageRow → bool) (ms : gmap string MessageRow) : Z :=
  Z.of_nat (length (js_filter p (snd <$> map_to_list ms))).

Lemma js_filter_length {A} (p : A → bool) l l' :
  l ≡ₚ l' → length (js_filter p l) = length (js_filter p l').
Proof.
  unfold js_filter. induction 1 as [|x l l' _ IH|x y l|l1 l2 l3 _ IH1 _ IH2]; cbn; [done| | |congruence].
  - destruct (p x); cbn; by rewrite ?IH.
  - by destruct (p x), (p y).
Qed.

Lemma tally_insert p i r ms : tally p (<[i := r]> ms) = (if p r then 1 else 0) + tally p (base.delete i ms).
Proof.
  unfold tally. rewrite <- insert_delete_eq.
  rewrite (js_filter_length p _ (snd <$> ((i, r) :: map_to_list (base.delete i ms)))).
  - unfold js_filter. cbn. destruct (p r); cbn [length]; lia.
  - apply fmap_Permutation, map_to_list_insert, lookup_delete_eq.
Qed.

Lemma tally_lookup p i r ms :
  ms !! i = Some r → tally p ms = (if p r then 1 else 0) + tally p (base.delete i ms).
Proof. intros Hi. rewrite <- (insert_id ms i r Hi) at 1. apply tally_insert. Qed.

Lemma tally_replace p i r r' ms :
  ms !! i = Some r → p r' = p r → tally p (<[i := r']> ms) = tally p ms.
Proof. intros Hi Hp. by rewrite tally_insert, (tally_lookup p i r ms Hi), Hp. Qed.

Lemma tally_new p i r ms :
  ms !! i = None → p r = false → tally p (<[i := r]> ms) = tally p ms.
Proof. intros Hi Hp. by rewrite tally_insert, Hp, delete_id by done. Qed.

Definition attached (T cid : string) (ms : gmap string MessageRow) (a : MessageAttachment) : bool :=
  String.eqb (attachment_tenantId a) T
  && match ms !! attachment_messageId a with
     | Some r => String.eqb (row_conversationId r) cid
     | None => false
     end.

Lemma table_counts_eq T cid d :
  table_counts T cid d =
    (tally (in_conversation T cid) (m_messages d),
     tally (λ r, in_conversation T cid r && is_unread r) (m_messages d),
     Z.of_nat (length (js_filter (attached T cid (m_messages d)) (m_attachments d)))).
Proof. done. Qed.

(** *** What a write does to the counts *)

(** The row of [m] replaces one of the same conversation, or is new and no
    attachment refers to it. *)
Definition in_place (i : string) (row : MessageRow) d : Prop :=
  (m_messages d !! i = None ∧ ∀ a, a ∈ m_attachments d → attachment_messageId a ≠ i)
  ∨ ∃ old, m_messages d !! i = Some old ∧ row_tenantId old = row_tenantId row
      ∧ row_conversationId old = row_conversationId row.

Lemma attached_insert T cid i row d :
  in_place i row d →
  js_filter (attached T cid (<[i := row]> (m_messages d))) (m_attachments d)
  = js_filter (attached T cid (m_messages d)) (m_attachments d).
Proof.
  intros Hp. apply js_filter_ext. intros a Ha. unfold attached.
  destruct (decide (attachment_messageId a = i)) as [Hi|Hi]; [|by rewrite lookup_insert_ne].
  destruct Hp as [[_ Hno]|(old & Hold & _ & Hc)]; [by destruct (Hno a Ha)|].
  by rewrite Hi, lookup_insert_eq, Hold, Hc.
Qed.

Lemma in_conversation_other T cid r :
  (T, cid) ≠ (row_tenantId r, row_conversationId r) → in_conversation T cid r = false.
Proof.
  intros Hne. unfold in_conversation, live, owns.
  destruct (String.eqb_spec (row_tenantId r) T) as [<-|]; [|done].
  destruct (String.eqb_spec (row_conversationId r) cid) as [<-|]; [done|].
  by rewrite andb_false_r.
Qed.

(** Other conversations do not notice. *)
Lemma write_elsewhere T cid i row d d' :
  in_place i row d → m_messages d' = <[i := row]> (m_messages d) →
  m_attachments d' = m_attachments d →
  (T, cid) ≠ (row_tenantId row, row_conversationId row) →
  table_counts T cid d' = table_counts T cid d.
Proof.
  intros Hp Hm Ha Hne. rewrite !table_counts_eq, Hm, Ha, (attached_insert T cid) by done.
  pose proof (in_conversation_other _ _ _ Hne) as Hrow.
  assert (∀ p, p row = false → (∀ old, m_messages d !! i = Some old → p old = false) →
    tally p (<[i := row]> (m_messages d)) = tally p (m_messages d)) as Ht.
  { intros p Hpr Hpo. destruct (m_messages d !! i) as [old|] eqn:Ei; [|by apply tally_new].
    apply (tally_replace p i old); [done|]. by rewrite Hpr, (Hpo old). }
  assert (∀ old, m_messages d !! i = Some old → in_conversation T cid old = false) as Hold.
  { intros old Hl. apply in_conversation_other.
    destruct Hp as [[Hn _]|(o & Ho & E1 & E2)]; [congruence|]. simplify_eq. by rewrite E1, E2. }
  rewrite !Ht; try done; [by rewrite Hrow|]. intros old Hl. by rewrite (Hold old Hl).
Qed.

(** A write that keeps what is counted does not matter at all. *)
Lemma write_quiet T cid i old row d d' :
  m_messages d !! i = Some old → m_messages d' = <[i := row]> (m_messages d) →
  m_attachments d' = m_attachments d →
  row_tenantId old = row_tenantId row → row_conversationId old = row_conversationId row →
  row_deletedAt old = row_deletedAt row → row_direction old = row_direction row →
  row_readAt old = row_readAt row →
  table_counts T cid d' = table_counts T cid d.
Proof.
  intros Hl Hm Ha Ht Hc Hd Hdir Hr.
  assert (in_conversation T cid row = in_conversation T cid old) as E1.
  { unfold in_conversation, live, owns. by rewrite Ht, Hc, Hd. }
  assert (is_unread row = is_unread old) as E2 by (unfold is_unread; by rewrite Hdir, Hr).
  rewrite !table_counts_eq, Hm, Ha, (attached_insert T cid) by (right; by exists old).
  rewrite !(tally_replace _ i old) by (done || by rewrite ?E1, ?E2). done.
Qed.

Lemma bulk_counts T cid now tenant ids s d :
  table_counts T cid (bulk_update now tenant ids s d).2 = table_counts T cid d.
Proof.
  rewrite !table_counts_eq. cbn [bulk_update snd].
  set (g := λ r : MessageRow, if owns tenant r && bool_decide (row_id r ∈ ids) then _ else r).
  change (m_messages (d <| m_messages ::= fmap g |>)) with (g <$> m_messages d).
  change (m_attachments (d <| m_messages ::= fmap g |>)) with (m_attachments d).
  assert (∀ r, in_conversation T cid (g r) = in_conversation T cid r
    ∧ is_unread (g r) = is_unread r ∧ row_conversationId (g r) = row_conversationId r) as Hg.
  { intros r. subst g. cbn. by destruct (_ && _). }
  assert (∀ p, (∀ r, p (g r) = p r) → tally p (g <$> m_messages d) = tally p (m_messages d)) as Ht.
  { intros p Hp. unfold tally. rewrite map_to_list_fmap, <- !list_fmap_compose.
    f_equal. induction (map_to_list (m_messages d)) as [|[k r] l IH]; [done|].
    unfold js_filter in *. cbn. rewrite Hp. destruct (p r); cbn; by rewrite IH. }
  rewrite !Ht.
  - f_equal. f_equal. f_equal. apply js_filter_ext. intros a _. unfold attached.
    rewrite lookup_fmap. destruct (m_messages d !! _) as [r|]; [|done]. cbn.
    by destruct (Hg r) as (_ & _ & ->).
  - intros r. by destruct (Hg r) as (-> & -> & _).
  - intros r. by destruct (Hg r) as (-> & _).
Qed.

(** *** The conversation services copy the counts *)
Section conversations.
Context {HE : Env} {HCS : ConvSql} {HCD : ConvDeps}.
Implicit Types (w : ConvW).

Definition conversations_keyed (c : ConvDb) : Prop :=
  ∀ i r, c_conversations c !! i = Some r → ConversationRepo.row_id r = i.

Definition counts_kept (c c' : ConvDb) : Prop :=
  conversations_keyed c →
  conversations_keyed c' ∧ ∀ T cid, summary_counts T cid c' = summary_counts T cid c.

#[export] Instance counts_kept_preorder : PreOrder counts_kept.
Proof.
  split; [intros c Hk; by split|]. intros a b c H1 H2 Ha.
  destruct (H1 Ha) as [Hb Hab]. destruct (H2 Hb) as [Hc Hbc].
  split; [done|]. intros T cid. by rewrite Hbc, Hab.
Qed.

Abbreviation kept := (keeps (db_rel counts_kept)).

Lemma db_kept {A} (p : M ConvW A) : keeps (same db) p → kept p.
Proof. apply keeps_db_rel, _. Qed.

Lemma write_kept f :
  (∀ now d d', f now d = Ok d' → c_summary d' = c_summary d
     ∧ (conversations_keyed d → conversations_keyed d')) → kept (write f).
Proof.
  intros Hf w. unfold db_rel, final. rewrite Refinement.conv_write_run.
  destruct (f _ (db w)) as [d'|e] eqn:E; [|done]. cbn. intros Hk.
  destruct (Hf _ _ _ E) as [Hs Hkd]. split; [by apply Hkd|]. intros T cid.
  unfold summary_counts. by rewrite Hs.
Qed.

Lemma keyed_set i r c c' :
  ConversationRepo.row_id r = i → c_conversations c' = <[i := r]> (c_conversations c) →
  conversations_keyed c → conversations_keyed c'.
Proof.
  intros Hr Hc Hk j x. rewrite Hc. destruct (decide (i = j)) as [<-|Hne].
  - rewrite lookup_insert_eq. by intros [= <-].
  - rewrite lookup_insert_ne by done. apply Hk.
Qed.

Lemma save_kept c T : kept (ConversationStore.save c T).
Proof.
  apply write_kept. intros now d d' Hs.
  destruct (Rows.conv_save_inv _ _ _ _ _ Hs) as (r & Hw & Hc & _ & Hsum & _).
  split; [done|]. destruct (Rows.conv_write_inv _ _ _ _ _ Hw) as (a & b & -> & _).
  intros Hk. by eapply keyed_set; [|exact Hc|exact Hk].
Qed.
Lemma delete_kept i T : kept (ConversationStore.repo_delete i T).
Proof.
  apply write_kept. intros now d d' [= <-]. unfold delete_conversation.
  destruct (select_conversation i T d) as [r|] eqn:E; [|done]. split; [done|].
  intros Hk. eapply keyed_set; [|reflexivity|exact Hk].
  apply Rows.conv_select_inv in E as [E _]. exact (Hk _ _ E).
Qed.
Lemma assignment_kept a T : kept (addAssignment a T).
Proof.
  apply write_kept. intros now d d'. unfold add_assignment.
  destruct (some _ _); [done|]. by intros [= <-].
Qed.
Lemma removeTag_kept c x T : kept (repo_removeTag c x T).
Proof. apply write_kept. by intros now d d' [= <-]. Qed.

(** A rebuilt summary has the counts of the one it replaces. *)
Lemma rebuild_kept T cid : kept (rebuild T cid).
Proof.
  intros w. unfold db_rel, rebuild. rewrite final_bind.
  destruct (ConversationStore.findById cid T w) as [[[c|]|e] w1] eqn:Efind;
    pose proof (conv_findById_db cid T w) as Hf; unfold same, final in Hf; rewrite Efind in Hf;
    cbn in Hf; [|change (counts_kept (db w) (db w1)); by rewrite Hf..].
  assert (conversations_keyed (db w) → Conversation.id c = cid) as Hid.
  { intros Hk. revert Efind.
    unfold ConversationStore.findById, mbind, M_bind, gets, of_result.
    destruct (find_conversation cid T (db w)) as [o|] eqn:Ef; [|done]. intros [= -> ->].
    apply Rows.conv_find_inv in Ef as (r & Hr & _ & Hto).
    apply Rows.toDomain_inv in Hto as (_ & _ & _ & Hc & _). rewrite Hc. by apply Hk. }
  rewrite final_gets_bind. set (existing := get_summary cid T (db w1)). rewrite final_bind.
  set (pick := match js_or_undef (summary_id <$> existing) with Some i => mret i | None => randomUUID end).
  assert (∃ sid w2, pick w1 = (Ok sid, w2) ∧ db w2 = db w1) as (sid & w2 & -> & D2).
  { subst pick. destruct (js_or_undef _); by eexists _, _. }
  rewrite final_bind. cbn [new_Date]. rewrite final_bind. unfold upsertSummary.
  rewrite Refinement.conv_write_run. change (db (w2 <| ticks ::= S |>)) with (db w2). rewrite D2.
  destruct (upsert_summary _ _ T (db w1)) as [c'|e] eqn:Eu.
  2: { change (counts_kept (db w) (db w2)). by rewrite D2, Hf. }
  cbn. intros Hk. rewrite <- Hf in Hk. split.
  - revert Eu. unfold upsert_summary. destruct (some _ _); [by intros [= <-]|].
    destruct (some _ _); [done|]. by intros [= <-].
  - intros T' c0. rewrite (upsert_counts _ _ _ _ _ T' c0 Eu). rewrite Hf in Hk.
    cbn [summary_conversationId summary_of]. rewrite (Hid Hk).
    case_bool_decide as E; [|by rewrite Hf]. destruct E as [-> ->].
    unfold summary_counts. rewrite <- Hf. subst existing. unfold get_summary.
    by destruct (js_find (is_summary cid T) (c_summary (db w1))).
Qed.

Hint Resolve save_kept delete_kept assignment_kept removeTag_kept rebuild_kept : keeps.
Hint Extern 3 (keeps (db_rel counts_kept) _) =>
  apply db_kept; solve [eauto with keeps nocore] : keeps.

Lemma persist_kept c T : kept (ConversationStore.persist c T).
Proof. unfold ConversationStore.persist. solve_keeps. Qed.
Lemma persist_quietly_kept c T : kept (persist_quietly c T).
Proof. unfold persist_quietly. solve_keeps. Qed.
Hint Resolve persist_kept persist_quietly_kept : keeps.

Lemma void_kept {A} (p : M ConvW A) : kept p → kept (Refinement.void p).
Proof. intros Hp. unfold Refinement.void. by apply keeps_fmap. Qed.

Lemma assign_kept T i a t ty u : kept (assign_conversation T i a t ty u).
Proof. unfold assign_conversation, recordAssignment, notifyAssignedAgent. solve_keeps. Qed.
Hint Resolve assign_kept : keeps.

Lemma autoAssign_kept T i t u : kept (autoAssign T i t u).
Proof. unfold autoAssign. solve_keeps. Qed.
Hint Resolve autoAssign_kept : keeps.

(** Every call of the conversation services, whatever it answers. *)
Lemma conversation_calls_kept T c : kept (Refinement.run_cmd T c).
Proof.
  destruct c; cbn [Refinement.run_cmd]; try apply void_kept; try apply _;
    unfold create_conversation, update_conversation, resolve_conversation, close_conversation,
      archive_conversation, delete, merge, split, transfer_conversation, recordAssignment,
      notifyAssignedAgent, add_note, ConversationService.mention, add_tag, removeTag_of;
    solve_keeps.
Qed.

Lemma sweep_kept t : kept (reassignFromOfflineAgents t).
Proof. unfold reassignFromOfflineAgents, reassign_one. solve_keeps. Qed.

Lemma create_conversation_kept T dto u : kept (create_conversation T dto u).
Proof. unfold create_conversation. solve_keeps. Qed.
End conversations.

(** *** What the services do *)
Section services.
Context {HE : Env} {HCS : ConvSql} {HCD : ConvDeps} {HS : MsgSql} {HD : MsgDeps} {HR : RegExp}.
Implicit Types (w : MsgW) (m : Message) (d : MsgTables).

Definition keyed_rows d : Prop := ∀ i r, m_messages d !! i = Some r → row_id r = i.

Definition inv (b : MsgDb) : Prop := exact b ∧ keyed_rows (tables b).

Definition sound (b : MsgDb) : Prop := inv b ∧ conversations_keyed (conversations b).

Lemma loaded i T d m :
  find_message i T d = Ok (Some m) →
  ∃ r, m_messages d !! i = Some r ∧ row_tenantId r = T ∧ id m = row_id r ∧ tenantId m = T
    ∧ conversationId m = row_conversationId r ∧ deletedAt m = row_deletedAt r
    ∧ row_direction r = enum_str (direction m) ∧ readAt m = row_readAt r
    ∧ attachments m = MessageMapper.attachmentToDomain <$> attachments_of i T d.
Proof.
  unfold find_message. destruct (select_message i T d) as [r|] eqn:Es; [|done].
  apply msg_select_inv in Es as [Hl Ht]. unfold MessageMapper.toDomain, MessageDirection.create.
  destruct (MessageType.create _); [|done].
  destruct (parse_enum (row_direction r)) as [dir|] eqn:Ed; [|done].
  destruct (MessageStatus.create _); [|done]. intros [= <-]. exists r.
  apply parse_enum_Some in Ed. by split_and!.
Qed.

Lemma getOrThrow_inv i T w m w' :
  getOrThrow T i w = (Ok m, w') → w' = w ∧ find_message i T (tables (db w)) = Ok (Some m).
Proof.
  unfold getOrThrow, findById, reading, mbind, M_bind, gets, of_result.
  destruct (find_message i T _) as [[m'|]|]; [|done|done]. by intros [= <- <-].
Qed.

Lemma refresh_counts T cid l w w' :
  refresh T cid l w = (Ok tt, w') →
  tables (db w') = tables (db w)
  ∧ ∀ T' c', summary_counts T' c' (conversations (db w')) =
      if bool_decide (T' = T ∧ c' = cid) then table_counts T cid (tables (db w))
      else summary_counts T' c' (conversations (db w)).
Proof.
  unfold refresh. intros H.
  apply bind_inv in H as (c & w1 & [= <- <-] & H).
  apply bind_inv in H as (ex & w1 & [= <- <-] & H).
  apply bind_inv in H as (sid & w1 & H1 & H).
  assert (db w1 = db w) as D1 by (by destruct (js_or_undef _); injection H1 as _ <-).
  apply bind_inv in H as (now & w2 & [= <- <-] & H).
  set (s := projected _ _ _ _ _ _ _) in H. clear H1.
  revert H. unfold in_conversations, upsertSummary, write, mbind, M_bind, new_Date, gets, of_result.
  cbn. rewrite D1. destruct (upsert_summary _ s T (conversations (db w))) as [c'|] eqn:Eu; [|done].
  intros [= <-]. cbn. split; [done|]. intros T' c0.
  rewrite (upsert_counts _ _ _ _ _ T' c0 Eu). done.
Qed.

(** A refresh repairs the one conversation it is for. *)
Lemma refresh_exact T cid l w w' :
  refresh T cid l w = (Ok tt, w') →
  (∀ T' c', (T', c') ≠ (T, cid) → exact_at (db w) T' c') → exact (db w').
Proof.
  intros [Ht Hs]%refresh_counts Hothers T' c'. unfold exact_at. rewrite Hs, Ht.
  case_bool_decide as Hk; [by destruct Hk as [-> ->]|]. apply Hothers. intros [= -> ->]. by apply Hk.
Qed.

(** What a save writes, when the message lists attachments the table has. *)
Definition listed m d : Prop := ∀ x, x ∈ attachment_row <$> attachments m →
  ∃ y, y ∈ m_attachments d ∧ attachment_id y = attachment_id x.

Lemma save_writes now m T d d' :
  save_message now m T d = Ok d' → listed m d →
  (∃ created updated, m_messages d' = <[id m := row_of m created updated]> (m_messages d))
  ∧ m_attachments d' = m_attachments d.
Proof.
  intros Hs Hl. split; [by eapply save_rows|]. unfold save_message in Hs.
  destruct (write_row now m T d); [|done]. injection Hs as <-.
  change (insert_all attachment_conflict (attachment_row <$> attachments m) (m_attachments d)
          = m_attachments d).
  apply insert_all_known. intros x (y & Hy & E)%Hl. exists y. split; [done|].
  unfold attachment_conflict. by rewrite E, String.eqb_refl.
Qed.

Lemma loaded_listed i T d m : find_message i T d = Ok (Some m) → listed m d.
Proof.
  intros Hf x Hx. destruct (loaded _ _ _ _ Hf) as (r & _ & _ & _ & _ & _ & _ & _ & _ & Ha).
  rewrite Ha, <- list_fmap_compose in Hx. apply list_elem_of_fmap in Hx as (y & -> & Hy).
  exists y. split; [|done]. unfold attachments_of in Hy. by apply js_filter_elem in Hy as [Hy _].
Qed.

Lemma keyed_insert i r d d' :
  keyed_rows d → row_id r = i → m_messages d' = <[i := r]> (m_messages d) → keyed_rows d'.
Proof.
  intros Hk Hr Hm j x. rewrite Hm. destruct (decide (i = j)) as [<-|Hne].
  - rewrite lookup_insert_eq. by intros [= <-].
  - rewrite lookup_insert_ne by done. apply Hk.
Qed.

Lemma writing_inv f w w' :
  writing f w = (Ok tt, w') → ∃ now d', f now (tables (db w)) = Ok d'
    ∧ tables (db w') = d' ∧ conversations (db w') = conversations (db w).
Proof.
  rewrite writing_run. destruct (f _ _) as [d'|] eqn:E; [|done]. intros [= <-].
  by exists (env_clock (ticks w)), d'.
Qed.

Lemma run_keeps {A} (R : MsgW → MsgW → Prop) (p : M MsgW A) w a w' :
  keeps R p → p w = (Ok a, w') → R w w'.
Proof. intros Hp E. specialize (Hp w). unfold final in Hp. by rewrite E in Hp. Qed.

Lemma run_same {A} (p : M MsgW A) w a w' : keeps (same db) p → p w = (Ok a, w') → db w' = db w.
Proof. apply run_keeps. Qed.

Lemma msg_publishAll_db l : keeps (same db) (publishAll l).
Proof. unfold publishAll, publish. solve_keeps. Qed.

(** A save with the message in place, and the counts taken anew. *)
Lemma store_inv T m w w1 w2 :
  save m T w = (Ok tt, w1) → applyMessage T m w1 = (Ok tt, w2) →
  inv (db w) → tenantId m = T → listed m (tables (db w)) →
  (∀ created updated, in_place (id m) (row_of m created updated) (tables (db w))) →
  inv (db w2).
Proof.
  intros H1 H2 [He Hk] HT Hl Hp. apply writing_inv in H1 as (now & d1 & Hs & Ht1 & Hc1).
  destruct (save_writes _ _ _ _ _ Hs Hl) as [(created & updated & Hm) Ha]. subst d1. split.
  - apply (refresh_exact _ _ _ _ _ H2). intros T' c' Hne. unfold exact_at.
    rewrite Hc1, (write_elsewhere T' c' (id m) (row_of m created updated) (tables (db w)));
      [apply He|apply Hp|done|done|]. cbn. by rewrite HT.
  - apply refresh_counts in H2 as [-> _].
    by apply (keyed_insert (id m) (row_of m created updated) (tables (db w))).
Qed.

Lemma msg_persist_inv T m w m' w' :
  persist m T w = (Ok m', w') → inv (db w) → tenantId m = T → listed m (tables (db w)) →
  (∀ created updated, in_place (id m) (row_of m created updated) (tables (db w))) →
  inv (db w').
Proof.
  intros H Hi HT Hl Hp. unfold persist in H.
  apply bind_inv in H as ([] & w1 & H1 & H). apply bind_inv in H as ([] & w2 & H2 & H).
  apply bind_inv in H as ([] & w3 & H3 & H). apply (run_same _ _ _ _ (msg_publishAll_db _)) in H3.
  apply bind_inv in H as (m1 & w4 & [= <- <-] & H). apply bind_inv in H as ([] & w5 & H5 & [= <- <-]).
  apply run_same in H5; [|solve_keeps]. rewrite H5, H3. by eapply store_inv.
Qed.

(** [persist] of the delivery service, for a message whose counted fields are those
    of its row. *)
Lemma persist_delivery_inv T i m0 m w m' w' :
  persist_delivery m T w = (Ok m', w') → inv (db w) →
  find_message i T (tables (db w)) = Ok (Some m0) →
  id m = id m0 → tenantId m = tenantId m0 → conversationId m = conversationId m0 →
  deletedAt m = deletedAt m0 → direction m = direction m0 → readAt m = readAt m0 →
  attachments m = attachments m0 → inv (db w').
Proof.
  intros H [He Hk] Hf Hi Ht Hc Hd Hdir Hr Hat. unfold persist_delivery in H.
  apply bind_inv in H as ([] & w1 & H1 & H). apply writing_inv in H1 as (now & d1 & Hs & Ht1 & Hc1).
  apply bind_inv in H as ([] & w3 & H3 & [= <- <-]).
  apply (run_same _ _ _ _ (msg_publishAll_db _)) in H3.
  destruct (loaded _ _ _ _ Hf) as (r & Hrow & HrT & Hid & HmT & Hcv & Hdel & Hdr & Hrd & _).
  assert (listed m (tables (db w))) as Hl.
  { unfold listed. rewrite Hat. exact (loaded_listed _ _ _ _ Hf). }
  destruct (save_writes _ _ _ _ _ Hs Hl) as [(created & updated & Hm) Ha]. subst d1.
  pose proof (Hk _ _ Hrow) as Hri. rewrite H3. split.
  - intros T' c'. unfold exact_at. rewrite Hc1.
    rewrite (write_quiet T' c' (id m) r (row_of m created updated) (tables (db w)));
      [apply He| |done|done|cbn [row_tenantId row_conversationId row_deletedAt row_direction
        row_readAt row_of]; congruence..].
    by rewrite Hi, Hid, Hri.
  - by apply (keyed_insert (id m) (row_of m created updated) (tables (db w))).
Qed.

(** *** Messages that were loaded and changed *)
Definition fixed m := (id m, tenantId m, conversationId m, attachments m).
Definition uncounted m := (fixed m, deletedAt m, direction m, readAt m).

Lemma exec_final {T} (p : M T unit) (t t' : T) w w' :
  exec p t w = (Ok t', w') → w' = w ∧ t' = final p t.
Proof. unfold exec, final. destruct (p t) as [[[]|e] x]; [|done]. by intros [= <- <-]. Qed.

Lemma persist_loaded T i m0 m w m' w' :
  persist m T w = (Ok m', w') → inv (db w) →
  find_message i T (tables (db w)) = Ok (Some m0) → fixed m = fixed m0 → inv (db w').
Proof.
  intros H Hinv Hf [= Hi Ht Hc Ha].
  destruct (loaded _ _ _ _ Hf) as (r & Hrow & HrT & Hid & HmT & Hcv & _).
  pose proof (proj2 Hinv _ _ Hrow) as Hri.
  apply (msg_persist_inv T m w m' w'); [exact H|exact Hinv|congruence| |].
  - unfold listed. rewrite Ha. exact (loaded_listed _ _ _ _ Hf).
  - intros created updated. right. exists r. cbn. split_and!; [|congruence..].
    by rewrite Hi, Hid, Hri.
Qed.

Lemma markRead_fixed now by_ : keeps (same fixed) (markRead now by_).
Proof. unfold markRead, touch, addDomainEvent. solve_keeps. Qed.
Lemma archive_fixed now : keeps (same fixed) (archive now).
Proof. unfold archive, touch, addDomainEvent. solve_keeps. Qed.
Lemma addReaction_fixed now x : keeps (same fixed) (addReaction now x).
Proof. unfold addReaction, touch. solve_keeps. Qed.
Lemma addMention_fixed now x : keeps (same fixed) (addMention now x).
Proof. unfold addMention, touch. solve_keeps. Qed.
Lemma editContent_uncounted now t h : keeps (same uncounted) (editContent now t h).
Proof. unfold editContent, touch. solve_keeps. Qed.
Lemma markProcessing_uncounted now : keeps (same uncounted) (markProcessing now).
Proof. unfold markProcessing, touch. solve_keeps. Qed.
Lemma markRetrying_uncounted now n : keeps (same uncounted) (markRetrying now n).
Proof. unfold markRetrying, touch, addDomainEvent. solve_keeps. Qed.
Lemma markSent_uncounted now e : keeps (same uncounted) (markSent now e).
Proof. unfold markSent, touch, addDomainEvent. solve_keeps. Qed.
Lemma recordDelivery_uncounted now x : keeps (same uncounted) (recordDeliveryStatus now x).
Proof. unfold recordDeliveryStatus, touch. solve_keeps. Qed.
Lemma applyStatus_fixed now s : keeps (same fixed) (applyStatus now s).
Proof.
  unfold applyStatus, markRead, markDelivered, archive, markSent, markFailed, touch, addDomainEvent.
  solve_keeps.
Qed.
Lemma receipt_fixed now s p r x : keeps (same fixed) (apply_receipt now s p r x).
Proof.
  unfold apply_receipt, markRead, markDelivered, markSent, markFailed, touch, addDomainEvent.
  solve_keeps.
Qed.
Lemma uncounted_fixed (p : M Message unit) : keeps (same uncounted) p → keeps (same fixed) p.
Proof. intros Hp m. exact (f_equal (λ u, u.1.1.1) (Hp m)). Qed.

Lemma getOrThrow_read T i : keeps (same db) (getOrThrow T i).
Proof. unfold getOrThrow, findById, reading. solve_keeps. Qed.

(** *** The calls *)
Inductive msg_cmd :=
  | DoCreate (dto : CreateMessageDto) (u : option string)
  | DoReply (i : string) (dto : ReplyMessageDto) (u : option string)
  | DoUpdate (i : string) (dto : UpdateMessageDto) (u : option string)
  | DoMarkRead (i : string) (u : option string)
  | DoArchive (i : string) (u : option string)
  | DoDelete (i : string) (u : option string)
  | DoReact (i user value : string)
  | DoUnreact (i user value : string)
  | DoMention (i user by_ : string)
  | DoBulk (ids : list string) (s : MessageStatusEnum) (u : option string)
  | DoSend (i : string) (options : SendOptions) (u : option string)
  | DoDispatch (i : string)
  | DoRetry (i : string) (u : option string)
  | DoReceipt (i s : string) (providerId reason : option string)
  | DoIngest (dto : InboundMessageDto)
  | DoRegister (i : string) (dto : RegisterAttachmentDto) (u : option string)
  | DoRegisterLocal (i : string) (file : LocalFile) (u : option string).

(** Runs a call; the answer is the ids it added. *)
Definition run_msg (T : string) (c : msg_cmd) : M MsgW (list string) :=
  match c with
  | DoCreate dto u => (λ m, [id m]) <$> create_message T dto u
  | DoReply i dto u => (λ m, [id m]) <$> reply T i dto u
  | DoUpdate i dto u => (λ _, []) <$> update T i dto u
  | DoMarkRead i u => (λ _, []) <$> mark_read T i u
  | DoArchive i u => (λ _, []) <$> archive_message T i u
  | DoDelete i u => (λ _, []) <$> delete_message_of T i u
  | DoReact i user value => (λ _, []) <$> react T i user value
  | DoUnreact i user value => (λ _, []) <$> remove_reaction_of T i user value
  | DoMention i user by_ => (λ _, []) <$> mention T i user by_
  | DoBulk ids s u => (λ _, []) <$> bulkUpdateStatus T ids s u
  | DoSend i options u => (λ _, []) <$> queueSend T i options u
  | DoDispatch i => (λ _, []) <$> dispatch T i
  | DoRetry i u => (λ _, []) <$> retry T i u
  | DoReceipt i s p r => (λ _, []) <$> applyDeliveryReceipt T i s p r
  | DoIngest dto => (λ o, match o with Some m => [id m] | None => [] end) <$> ingest T dto
  | DoRegister i dto u => (λ a, [attachment_id a]) <$> register T i dto u
  | DoRegisterLocal i file u => (λ a, [attachment_id a]) <$> registerLocal T i file u
  end.

(** An id that no message and no attachment has or refers to. *)
Definition unused d (i : string) : Prop :=
  m_messages d !! i = None
  ∧ ∀ a, a ∈ m_attachments d → attachment_messageId a ≠ i ∧ attachment_id a ≠ i.

Lemma fmap_inv {A B} (f : A → B) (p : M MsgW A) w b w' :
  (f <$> p) w = (Ok b, w') → ∃ a, p w = (Ok a, w') ∧ b = f a.
Proof.
  unfold fmap, M_fmap. destruct (p w) as [[a|] w1]; [|done]. intros [= <- <-]. by exists a.
Qed.

(** An edit of a loaded message that is persisted. *)
Lemma edit_inv T i (p : M Message unit) m0 w w1 m w2 m' w' :
  find_message i T (tables (db w)) = Ok (Some m0) → db w1 = db w → keeps (same fixed) p →
  exec p m0 w1 = (Ok m, w2) → persist m T w2 = (Ok m', w') → inv (db w) → inv (db w').
Proof.
  intros Hf D1 Hp He H Hinv. apply exec_final in He as [-> ->].
  apply (persist_loaded T i m0 _ _ _ _ H); [by rewrite D1|by rewrite D1|apply Hp].
Qed.

Lemma mark_read_inv T i u w m w' : mark_read T i u w = (Ok m, w') → inv (db w) → inv (db w').
Proof.
  unfold mark_read. intros H Hi.
  apply bind_inv in H as (m0 & w1 & [-> Hf]%getOrThrow_inv & H).
  apply bind_inv in H as (now & w2 & [= <- <-] & H). apply bind_inv in H as (m1 & w3 & He & H).
  eapply edit_inv; [exact Hf| |apply markRead_fixed|exact He|exact H|exact Hi]. done.
Qed.

Lemma archive_inv T i u w m w' :
  archive_message T i u w = (Ok m, w') → inv (db w) → inv (db w').
Proof.
  unfold archive_message. intros H Hi.
  apply bind_inv in H as (m0 & w1 & [-> Hf]%getOrThrow_inv & H).
  apply bind_inv in H as (now & w2 & [= <- <-] & H). apply bind_inv in H as (m1 & w3 & He & H).
  apply bind_inv in H as (m2 & w4 & Hp & H). apply run_same in H as ->; [|solve_keeps].
  eapply edit_inv; [exact Hf| |apply archive_fixed|exact He|exact Hp|exact Hi]. done.
Qed.

Lemma react_inv T i user v w m w' : react T i user v w = (Ok m, w') → inv (db w) → inv (db w').
Proof.
  unfold react. intros H Hi.
  apply bind_inv in H as (m0 & w1 & [-> Hf]%getOrThrow_inv & H).
  apply bind_inv in H as (rid & w2 & [= <- <-] & H). apply bind_inv in H as (now & w2 & [= <- <-] & H).
  apply bind_inv in H as (m1 & w3 & He & H).
  eapply edit_inv; [exact Hf| |apply addReaction_fixed|exact He|exact H|exact Hi]. done.
Qed.

Lemma mention_inv T i user b w m w' :
  mention T i user b w = (Ok m, w') → inv (db w) → inv (db w').
Proof.
  unfold mention. intros H Hi.
  apply bind_inv in H as (m0 & w1 & [-> Hf]%getOrThrow_inv & H).
  apply bind_inv in H as (rid & w2 & [= <- <-] & H). apply bind_inv in H as (now & w2 & [= <- <-] & H).
  apply bind_inv in H as (m1 & w3 & He & H).
  eapply edit_inv; [exact Hf| |apply addMention_fixed|exact He|exact H|exact Hi]. done.
Qed.

Lemma update_inv T i dto u w m w' :
  update T i dto u w = (Ok m, w') → inv (db w) → inv (db w').
Proof.
  unfold update. intros H Hi.
  apply bind_inv in H as (m0 & w1 & [-> Hf]%getOrThrow_inv & H).
  apply bind_inv in H as (now & w2 & [= <- <-] & H).
  apply bind_inv in H as (m1 & w3 & H1 & H). apply bind_inv in H as (m2 & w4 & H2 & H).
  apply bind_inv in H as (m3 & w5 & Hp & H). apply run_same in H as ->; [|solve_keeps].
  assert (w3 = w <| ticks ::= S |> ∧ fixed m1 = fixed m0) as [-> E1].
  { destruct (u_content dto), (u_contentHtml dto);
      first [by injection H1 as <- <- | apply exec_final in H1 as [-> ->]; split; [done|];
             apply uncounted_fixed, editContent_uncounted]. }
  assert (db w4 = db w ∧ fixed m2 = fixed m1) as [D E2].
  { destruct (u_status dto); [|by injection H2 as <- <-].
    apply exec_final in H2 as [-> ->]. split; [done|]. apply applyStatus_fixed. }
  apply (persist_loaded T i m0 _ _ _ _ Hp); [by rewrite D|by rewrite D|congruence].
Qed.

(** *** Statements that do not touch what is counted *)
Lemma same_counts_inv w w' :
  inv (db w) → conversations (db w') = conversations (db w) →
  (∀ T cid, table_counts T cid (tables (db w')) = table_counts T cid (tables (db w))) →
  keyed_rows (tables (db w')) → inv (db w').
Proof. intros [He _] Hc Ht Hk. split; [|done]. intros T cid. unfold exact_at. rewrite Hc, Ht. apply He. Qed.

Lemma saveDelivery_inv x T w w' :
  saveDeliveryStatus x T w = (Ok tt, w') → inv (db w) →
  inv (db w') ∧ m_messages (tables (db w')) = m_messages (tables (db w))
  ∧ ∀ i m, find_message i T (tables (db w)) = Ok (Some m) →
      ∃ m', find_message i T (tables (db w')) = Ok (Some m') ∧ uncounted m' = uncounted m.
Proof.
  intros (now & d' & Hs & Ht & Hc)%writing_inv Hinv.
  assert (m_messages d' = m_messages (tables (db w))
    ∧ m_attachments d' = m_attachments (tables (db w))) as [Em Ea].
  { unfold save_delivery in Hs. destruct (some _ _); [by injection Hs as <-|].
    destruct (some _ _); [done|]. by injection Hs as <-. }
  split_and!.
  - apply (same_counts_inv w); [done|done| |].
    + intros T' cid. by rewrite Ht, !table_counts_eq, Em, Ea.
    + intros i r. rewrite Ht, Em. apply Hinv.
  - by rewrite Ht.
  - intros i m. rewrite Ht. unfold find_message, select_message. rewrite Em.
    destruct (match m_messages _ !! i with Some _ => _ | None => _ end) as [r|]; [|done].
    unfold MessageMapper.toDomain.
    destruct (MessageType.create _); [|done]. destruct (MessageDirection.create _); [|done].
    destruct (MessageStatus.create _); [|done]. intros [= <-]. eexists. split; [done|].
    unfold uncounted, fixed, attachments_of. by rewrite Ea.
Qed.

Lemma unreact_inv T i user v w w' :
  remove_reaction_of T i user v w = (Ok tt, w') → inv (db w) → inv (db w').
Proof.
  unfold remove_reaction_of. intros H Hi.
  apply bind_inv in H as (m0 & w1 & [-> Hf]%getOrThrow_inv & H).
  apply writing_inv in H as (now & d' & [= <-] & Ht & Hc).
  apply (same_counts_inv w); [done|done| |]; rewrite Ht; [done|]. apply Hi.
Qed.

Lemma bulk_inv T ids s u w n w' :
  bulkUpdateStatus T ids s u w = (Ok n, w') → inv (db w) → inv (db w').
Proof.
  unfold bulkUpdateStatus. intros H Hi. apply bind_inv in H as (k & w1 & H1 & H).
  apply run_same in H as ->; [|solve_keeps].
  destruct ids as [|i ids]; [by injection H1 as _ <-|]. unfold repo_bulkUpdateStatus, deleting in H1.
  apply bind_inv in H1 as (now & w2 & [= <- <-] & H1). apply bind_inv in H1 as (d & w2 & [= <- <-] & H1).
  cbn in H1. injection H1 as _ <-.
  apply (same_counts_inv w); [exact Hi|done| |].
  - intros T' cid. apply (bulk_counts T' cid (env_clock (ticks w)) T (i :: ids)).
  - intros j r. cbn. rewrite lookup_fmap. destruct (m_messages _ !! j) as [r0|] eqn:Ej; [|done].
    cbn. intros [= <-]. rewrite <- (proj2 Hi _ _ Ej). by destruct (_ && _).
Qed.

(** A chain of steps that keep what is counted, then the save of the delivery
    service. *)
Lemma deliver_inv T i m0 m w m' w' :
  persist_delivery m T w = (Ok m', w') → inv (db w) →
  find_message i T (tables (db w)) = Ok (Some m0) → uncounted m = uncounted m0 → inv (db w').
Proof. intros H Hi Hf [= ???????]. by eapply persist_delivery_inv. Qed.

Lemma queueSend_inv T i o u w m w' : queueSend T i o u w = (Ok m, w') → inv (db w) → inv (db w').
Proof.
  unfold queueSend. intros H Hi. apply bind_inv in H as (m0 & w1 & [-> Hf]%getOrThrow_inv & H).
  destruct (MessageDirection.isInbound _); [done|].
  apply bind_inv in H as (m1 & w2 & H1 & H). apply bind_inv in H as (now & w3 & [= <- <-] & H).
  apply bind_inv in H as (m2 & w4 & [-> ->]%exec_final & H). apply bind_inv in H as (m3 & w5 & Hp & H).
  assert (db w' = db w5) as -> by (eapply run_same; [|exact H]; solve_keeps).
  assert (db w2 = db w ∧ uncounted m1 = uncounted m0) as [D E].
  { destruct (js_or_undef _); [|by injection H1 as <- <-].
    apply bind_inv in H1 as (t & w6 & H6 & H1). apply bind_inv in H1 as (n & w7 & [= <- <-] & H1).
    apply exec_final in H1 as [-> ->]. split; [|apply editContent_uncounted].
    change (db w6 = db w). eapply run_same; [|exact H6]. unfold render_template, reading. solve_keeps. }
  eapply deliver_inv; [exact Hp|by rewrite D|rewrite D; exact Hf|].
  etransitivity; [apply markProcessing_uncounted|exact E].
Qed.

Lemma retry_inv T i u w m w' : retry T i u w = (Ok m, w') → inv (db w) → inv (db w').
Proof.
  unfold retry. intros H Hi. apply bind_inv in H as (m0 & w1 & [-> Hf]%getOrThrow_inv & H).
  destruct (negb _); [done|]. apply bind_inv in H as (l & w1 & [= <- <-] & H).
  apply bind_inv in H as (now & w3 & [= <- <-] & H).
  apply bind_inv in H as (m2 & w4 & [-> ->]%exec_final & H). apply bind_inv in H as (m3 & w5 & Hp & H).
  assert (db w' = db w5) as -> by (eapply run_same; [|exact H]; solve_keeps).
  eapply deliver_inv; [exact Hp|done|exact Hf|]. apply markRetrying_uncounted.
Qed.

Lemma dispatch_failed_throws T x m e w m' w' : dispatch_failed T x m e w ≠ (Ok m', w').
Proof.
  unfold dispatch_failed. intros H.
  repeat (apply bind_inv in H as (? & ? & _ & H)). done.
Qed.

Lemma attempt_db {A} (p : M MsgW A) : keeps (same db) p → keeps (same db) (attempt p).
Proof. intros Hp w. specialize (Hp w). unfold same, final, attempt in *. by destruct (p w). Qed.

Lemma dispatch_inv T i w m w' : dispatch T i w = (Ok m, w') → inv (db w) → inv (db w').
Proof.
  unfold dispatch. intros H Hi. apply bind_inv in H as (m0 & w1 & [-> Hf]%getOrThrow_inv & H).
  destruct (js_or_undef (Message.channelId m0)); [|done].
  destruct (js_or_undef (customerId m0)); [|done].
  apply bind_inv in H as (did & w1 & [= <- <-] & H). apply bind_inv in H as (now & w2 & [= <- <-] & H).
  apply bind_inv in H as (sent & w3 & H3 & H).
  assert (db w3 = db w) as D
    by exact (run_same _ _ _ _ (attempt_db _ (sendOutgoing_db _ _ _ _)) H3).
  destruct sent as [[]|e]; [|by apply dispatch_failed_throws in H].
  apply bind_inv in H as (now & w4 & [= <- <-] & H).
  apply bind_inv in H as (m1 & w5 & [-> ->]%exec_final & H).
  apply bind_inv in H as (m2 & w6 & [-> ->]%exec_final & H).
  unfold try_catch in H. set (x := recordAttempt _ _ _ _ _) in H.
  destruct ((saveDeliveryStatus x T ;; _) _) as [[m'|e] w7] eqn:E in H;
    [|by apply dispatch_failed_throws in H]. injection H as -> ->.
  apply bind_inv in E as ([] & w8 & H8 & Hp).
  destruct (saveDelivery_inv _ _ _ _ H8) as (Hi8 & _ & Hf8); [by cbn; rewrite D|].
  destruct (Hf8 i m0) as (m' & Hm' & E'); [cbn; rewrite D; exact Hf|].
  eapply deliver_inv; [exact Hp|done|exact Hm'|]. rewrite E'.
  etransitivity; [apply markSent_uncounted|apply recordDelivery_uncounted].
Qed.

(** The row of a loaded message is replaced; the other conversations stay exact. *)
Lemma deliver_elsewhere T i m0 m w m' w' :
  persist_delivery m T w = (Ok m', w') → inv (db w) →
  find_message i T (tables (db w)) = Ok (Some m0) → fixed m = fixed m0 →
  keyed_rows (tables (db w')) ∧ conversationId m' = conversationId m
  ∧ ∀ T' c', (T', c') ≠ (T, conversationId m) → exact_at (db w') T' c'.
Proof.
  intros H [He Hk] Hf [= Hi Ht Hc Hat]. unfold persist_delivery in H.
  apply bind_inv in H as ([] & w1 & H1 & H). apply writing_inv in H1 as (now & d1 & Hs & Ht1 & Hc1).
  apply bind_inv in H as ([] & w3 & H3 & [= <- <-]).
  apply (run_same _ _ _ _ (msg_publishAll_db _)) in H3.
  destruct (loaded _ _ _ _ Hf) as (r & Hrow & HrT & Hid & HmT & Hcv & _).
  assert (listed m (tables (db w))) as Hl.
  { unfold listed. rewrite Hat. exact (loaded_listed _ _ _ _ Hf). }
  destruct (save_writes _ _ _ _ _ Hs Hl) as [(created & updated & Hm) Ha]. subst d1.
  pose proof (Hk _ _ Hrow) as Hri. rewrite H3. split_and!; [|done|].
  - by apply (keyed_insert (id m) (row_of m created updated) (tables (db w))).
  - intros T' c' Hne. unfold exact_at. rewrite Hc1.
    rewrite (write_elsewhere T' c' (id m) (row_of m created updated) (tables (db w)));
      [apply He| |done|done|].
    + right. exists r. cbn. split_and!; [by rewrite Hi, Hid, Hri|congruence..].
    + cbn. congruence.
Qed.

Lemma receipt_inv T i s p r w m w' :
  applyDeliveryReceipt T i s p r w = (Ok m, w') → inv (db w) → inv (db w').
Proof.
  unfold applyDeliveryReceipt. intros H Hi.
  apply bind_inv in H as (m0 & w1 & [-> Hf]%getOrThrow_inv & H).
  apply bind_inv in H as (did & w1 & [= <- <-] & H). apply bind_inv in H as (now & w2 & [= <- <-] & H).
  apply bind_inv in H as ([] & w3 & H3 & H). apply bind_inv in H as (now & w4 & [= <- <-] & H).
  apply bind_inv in H as (m1 & w5 & [-> ->]%exec_final & H).
  apply bind_inv in H as (m2 & w6 & [-> ->]%exec_final & H).
  apply bind_inv in H as (m3 & w7 & Hp & H). apply bind_inv in H as ([] & w8 & Hr & [= <- <-]).
  destruct (saveDelivery_inv _ _ _ _ H3) as (Hi3 & _ & Hf3); [done|].
  destruct (Hf3 i m0 Hf) as (m' & Hm' & E').
  edestruct (deliver_elsewhere T i m') as (Hk & Hc & Hoth); [exact Hp|exact Hi3|exact Hm'| |].
  { etransitivity; [apply uncounted_fixed, recordDelivery_uncounted|].
    etransitivity; [apply receipt_fixed|]. symmetry. exact (f_equal (λ u, u.1.1.1) E'). }
  split.
  - apply (refresh_exact _ _ _ _ _ Hr). intros T' c' Hne. apply Hoth. by rewrite <- Hc.
  - by apply refresh_counts in Hr as [-> _].
Qed.

Lemma delete_inv T i u w b w' :
  delete_message_of T i u w = (Ok b, w') → inv (db w) → inv (db w').
Proof.
  unfold delete_message_of. intros H [He Hk].
  apply bind_inv in H as (m0 & w1 & [-> Hf]%getOrThrow_inv & H).
  apply bind_inv in H as (now & w2 & [= <- <-] & H).
  apply bind_inv in H as (m1 & w3 & [-> ->]%exec_final & H).
  apply bind_inv in H as ([] & w4 & H4 & H). apply bind_inv in H as ([] & w5 & H5 & H).
  assert (db w' = db w5) as -> by (eapply run_same; [|exact H]; solve_keeps). clear H.
  apply writing_inv in H4 as (now & d' & [= <-] & Ht & Hc).
  destruct (loaded _ _ _ _ Hf) as (r & Hrow & HrT & Hid & HmT & Hcv & _).
  assert (select_message i T (tables (db w)) = Some r) as Hsel.
  { unfold select_message, owns. by rewrite Hrow, HrT, String.eqb_refl. }
  change (tables (db (w <| ticks ::= S |>))) with (tables (db w)) in Ht.
  unfold delete_message in Ht. rewrite Hsel in Ht. set (row := r <| row_deletedAt := _ |> <| _ := _ |> <| _ := _ |>) in Ht.
  split.
  - apply (refresh_exact _ _ _ _ _ H5). intros T' c' Hne. unfold exact_at. rewrite Hc.
    rewrite (write_elsewhere T' c' i row (tables (db w))); [apply He| |by rewrite Ht|by rewrite Ht|].
    + right. by exists r.
    + subst row. cbn. rewrite HrT, <- Hcv. exact Hne.
  - apply refresh_counts in H5 as [-> _]. rewrite Ht.
    apply (keyed_insert i row (tables (db w))); [done| |done]. exact (Hk _ _ Hrow).
Qed.

(** *** New messages and attachments *)
Lemma in_conversations_db {A} (p : M ConvW A) : keeps (same db) p → keeps (same db) (in_conversations p).
Proof.
  intros Hp w. unfold same, final, in_conversations. specialize (Hp {| db := conversations (db w);
    ticks := ticks w; uuids := uuids w; jobs := jobs w; audits := audits w;
    realtime := realtime w; tenantContext := tenantContext w |}). unfold same, final in Hp.
  destruct (p _) as [r w']. cbn in *. rewrite Hp. by destruct (db w).
Qed.

Lemma in_conversations_sound {A} (p : M ConvW A) w :
  keeps (db_rel counts_kept) p → sound (db w) → sound (db (final (in_conversations p) w)).
Proof.
  intros Hp [[He Hk] Hck]. unfold final, in_conversations.
  specialize (Hp {| db := conversations (db w); ticks := ticks w; uuids := uuids w;
    jobs := jobs w; audits := audits w; realtime := realtime w;
    tenantContext := tenantContext w |}). unfold db_rel, final in Hp.
  destruct (p _) as [r w1]. cbn in Hp |- *.
  destruct (Hp Hck) as [Hck' Hs]. split; [|exact Hck']. split; [|exact Hk].
  intros T cid. unfold exact_at. cbn. rewrite Hs. apply He.
Qed.

Lemma in_conversations_inv {A} (p : M ConvW A) w a w' :
  keeps (db_rel counts_kept) p → in_conversations p w = (Ok a, w') →
  sound (db w) → sound (db w') ∧ tables (db w') = tables (db w).
Proof.
  intros Hp H Hs. pose proof (in_conversations_sound p w Hp Hs) as Hs'. unfold final in Hs'.
  rewrite H in Hs'. split; [done|]. unfold in_conversations in H.
  destruct (p _) as [r w1]. by injection H as _ <-.
Qed.

Lemma unused_in_place i d created updated m :
  id m = i → unused d i → in_place (id m) (row_of m created updated) d.
Proof. intros -> [Hn Ha]. left. split; [done|]. intros a Hin. by apply Ha. Qed.

(** The conversation rows: no message call but the inbound pipeline writes one. *)
Abbreviation rows_same := (same (λ w : MsgW, c_conversations (conversations (db w)))).

Lemma db_rows {A} (p : M MsgW A) : keeps (same db) p → keeps rows_same p.
Proof. intros Hp w. unfold same. by rewrite (Hp w). Qed.
Lemma writing_rows f : keeps rows_same (writing f).
Proof. intros w. unfold same, final. rewrite writing_run. by destruct (f _ _). Qed.
Lemma deleting_rows {A} (f : Z → MsgTables → A * MsgTables) : keeps rows_same (deleting f).
Proof.
  intros w. unfold same, final, deleting, mbind, M_bind, new_Date, gets, modify. cbn.
  by destruct (f _ _).
Qed.
Lemma refresh_rows T cid l : keeps rows_same (refresh T cid l).
Proof.
  unfold refresh. apply keeps_bind; [apply _|apply db_rows; unfold countByConversation, reading; solve_keeps|].
  intros c. apply keeps_bind; [apply _|by apply db_rows|]. intros ex.
  apply keeps_bind; [apply _|apply db_rows; solve_keeps|]. intros sid.
  apply keeps_bind; [apply _|by apply db_rows|]. intros now w.
  unfold same, final, in_conversations, upsertSummary. rewrite Refinement.conv_write_run. cbn.
  destruct (upsert_summary _ _ _ _) as [c'|] eqn:E; [|done]. cbn.
  revert E. unfold upsert_summary. destruct (some _ _); [by intros [= <-]|].
  destruct (some _ _); [done|]. by intros [= <-].
Qed.
Hint Resolve writing_rows deleting_rows refresh_rows : keeps.
Hint Extern 3 (keeps rows_same _) => apply db_rows; solve [eauto with keeps nocore] : keeps.

Lemma loading_rows T i : keeps rows_same (getOrThrow T i).
Proof. apply db_rows, getOrThrow_read. Qed.
Lemma publishing_rows l : keeps rows_same (publishAll l).
Proof. apply db_rows, msg_publishAll_db. Qed.
Hint Resolve loading_rows publishing_rows : keeps.

Lemma persist_rows m T : keeps rows_same (persist m T).
Proof. unfold persist, save, applyMessage. solve_keeps. Qed.
Lemma persist_delivery_rows m T : keeps rows_same (persist_delivery m T).
Proof. unfold persist_delivery, save. solve_keeps. Qed.
Hint Resolve persist_rows persist_delivery_rows : keeps.

(** ** The invariant along calls *)
Abbreviation preserved := (db_rel (λ b b', sound b → sound b')).

#[export] Instance preserved_preorder : PreOrder (λ b b', sound b → sound b').
Proof. split; [by intros b|]. intros a b c H1 H2 Ha. by apply H2, H1. Qed.

Lemma db_preserved {A} (p : M MsgW A) : keeps (same db) p → keeps preserved p.
Proof. apply keeps_db_rel, _. Qed.

Lemma announce_preserved T s m :
  (∀ t n c, keeps preserved (evaluateEventTriggers t n c)) → keeps preserved (announce_inbound T s m).
Proof.
  intros Htrig. unfold announce_inbound. apply keeps_bind; [apply _| |].
  - apply keeps_try_catch; [apply _|apply Htrig|]. intros e. by apply db_preserved.
  - intros _. apply db_preserved. solve_keeps.
Qed.

Lemma persist_same T m w m' w' :
  persist m T w = (Ok m', w') → m' = m <| domainEvents := [] |>.
Proof.
  unfold persist. intros H. apply bind_inv in H as (? & ? & _ & H).
  apply bind_inv in H as (? & ? & _ & H). apply bind_inv in H as (? & ? & _ & H).
  apply bind_inv in H as (m1 & ? & [= <- <-] & H). by apply bind_inv in H as (? & ? & _ & [= <- <-]).
Qed.

Lemma create_sound T dto u w m w' :
  (∀ t n c, keeps preserved (evaluateEventTriggers t n c)) →
  create_message T dto u w = (Ok m, w') → sound (db w) →
  unused (tables (db w)) (id m) → sound (db w').
Proof.
  intros Htrig. unfold create_message. intros H [Hi Hck] Hun.
  apply bind_inv in H as (c & w1 & H1 & H).
  apply run_same in H1; [|apply in_conversations_db, conv_getOrThrow_db].
  apply bind_inv in H as (mid & w2 & [= <- <-] & H). apply bind_inv in H as (ty & w3 & H3 & H).
  assert (w3 = w1 <| uuids ::= S |>) as -> by by injection H3.
  apply bind_inv in H as (now & w4 & [= <- <-] & H). apply bind_inv in H as (m1 & w5 & Hp & H).
  apply bind_inv in H as ([] & w6 & H6 & H). apply run_same in H6; [|solve_keeps].
  apply bind_inv in H as ([] & w7 & H7 & [= <- <-]).
  set (w2 := w1 <| uuids ::= S |> <| ticks ::= S |>) in Hp.
  assert (db w2 = db w) as D2 by exact H1. set (m0 := create _ _ _) in Hp.
  assert (sound (db w6)) as Hs6.
  { rewrite H6. split.
    - eapply (msg_persist_inv T m0 w2); [exact Hp|by rewrite D2|done| |].
      + intros x Hx. by apply elem_of_nil in Hx.
      + intros created updated. eapply unused_in_place; [reflexivity|]. rewrite D2.
        by rewrite (persist_same _ _ _ _ _ Hp) in Hun.
    - intros i r. pose proof (run_keeps _ _ _ _ _ (persist_rows m0 T) Hp) as Hr.
      unfold same in Hr. cbn [db] in Hr. intros Hl. rewrite Hr, H1 in Hl. by apply Hck. }
  destruct (MessageDirection.isInbound _); [|by injection H7 as <-]. cbn [when] in H7.
  by apply (run_keeps _ _ _ _ _ (announce_preserved T (d_senderType dto) m1 Htrig) H7).
Qed.

Lemma resolve_sound T n w cid w' :
  resolveConversationId T n w = (Ok cid, w') → sound (db w) →
  sound (db w') ∧ tables (db w') = tables (db w).
Proof.
  unfold resolveConversationId. intros H Hs.
  assert (∃ A (p : M ConvW A) a, keeps (db_rel counts_kept) p
    ∧ in_conversations p w = (Ok a, w')) as (A & p & a & Hp & Hr).
  { destruct (js_or_undef _); apply fmap_inv in H as (c & H & _);
      [exists Conversation, (ConversationStore.getOrThrow T s), c
      |eexists Conversation, _, c; split; [|exact H]; apply create_conversation_kept].
    split; [|exact H]. apply db_kept, conv_getOrThrow_db. }
  exact (in_conversations_inv _ _ _ _ Hp Hr Hs).
Qed.

Lemma ingest_sound T dto w o w' :
  ingest T dto w = (Ok o, w') → sound (db w) →
  (∀ m, o = Some m → unused (tables (db w)) (id m)) → sound (db w').
Proof.
  unfold ingest. intros H Hs Hun.
  apply bind_inv in H as ([] & w1 & H1 & H).
  pose proof (validate_same (normalize dto) w) as Hv. unfold final in Hv. rewrite H1 in Hv.
  cbn in Hv. subst w1. apply bind_inv in H as (dup & w1 & H2 & H).
  assert (w1 = w) as ->.
  { destruct (js_or_undef _); [|by injection H2]. unfold findByExternalId, reading in H2.
    by apply bind_inv in H2 as (d & w2 & [= <- <-] & [= _ <-]). }
  destruct dup; [by injection H as _ <-|].
  apply bind_inv in H as (cid & w1 & H3 & H). apply resolve_sound in H3 as [[Hi Hck] Ht]; [|done].
  apply bind_inv in H as (mid & w2 & [= <- <-] & H). apply bind_inv in H as (ty & w3 & H4 & H).
  assert (w3 = w1 <| uuids ::= S |>) as -> by by injection H4.
  apply bind_inv in H as (now & w4 & [= <- <-] & H). set (m0 := create _ _ _) in H.
  apply bind_inv in H as ([] & w5 & H5 & H). apply bind_inv in H as ([] & w6 & H6 & H).
  apply bind_inv in H as ([] & w7 & H7 & H). apply bind_inv in H as (m1 & w8 & [= <- <-] & H).
  apply bind_inv in H as ([] & w9 & H9 & [= <- <-]).
  apply run_same in H9; [|solve_keeps]. apply (run_same _ _ _ _ (msg_publishAll_db _)) in H7.
  rewrite H9, H7. split.
  - eapply (store_inv T m0); [exact H5|exact H6|exact Hi|done| |].
    + intros x Hx. by apply elem_of_nil in Hx.
    + intros created updated. eapply unused_in_place; [reflexivity|]. cbn [db]. rewrite Ht.
      exact (Hun _ eq_refl).
  - pose proof (run_keeps _ _ _ _ _ (refresh_rows _ _ _) H6) as R6. unfold save in H5.
    pose proof (run_keeps _ _ _ _ _ (writing_rows _) H5) as R5.
    unfold same in R5, R6. intros i r. rewrite R6, R5. apply Hck.
Qed.

(** A new attachment of a loaded message. *)
Lemma notify_inv T i m0 a u w b w' :
  persistAndNotify a (conversationId m0) u w = (Ok b, w') → inv (db w) →
  find_message i T (tables (db w)) = Ok (Some m0) →
  attachment_tenantId a = T → attachment_messageId a = i →
  (∀ x, x ∈ m_attachments (tables (db w)) → attachment_id x ≠ attachment_id a) → inv (db w').
Proof.
  unfold persistAndNotify. intros H [He Hk] Hf HT Hm Hnew. rewrite HT in H.
  apply bind_inv in H as ([] & w1 & H1 & H). apply bind_inv in H as ([] & w2 & H2 & H).
  assert (db w' = db w2) as ->.
  { eapply run_same; [|exact H]. unfold publish. solve_keeps. }
  apply writing_inv in H1 as (now & d' & Hs & Ht & Hc).
  destruct (loaded _ _ _ _ Hf) as (r & Hrow & HrT & _ & _ & Hcv & _).
  unfold save_attachment in Hs.
  assert (∀ p, (∀ x, attachment_id x ≠ attachment_id a → p x = false) →
    some p (m_attachments (tables (db w))) = false) as Hnone.
  { intros p Hp. apply some_false. intros x Hx. by apply Hp, Hnew. }
  rewrite !Hnone in Hs; [|by intros x Hx; unfold attachment_conflict, is_attachment;
    rewrite (proj2 (String.eqb_neq _ _) Hx)..].
  set (raw := attachment_row a <| attachment_tenantId := _ |> <| attachment_updatedAt := _ |>) in Hs.
  injection Hs as <-. split.
  - apply (refresh_exact _ _ _ _ _ H2). intros T' c' Hne. unfold exact_at. rewrite Hc, Ht.
    rewrite He. rewrite !table_counts_eq. cbn [m_messages m_attachments]. f_equal.
    unfold js_filter. rewrite List.filter_app. cbn [List.filter].
    replace (attached T' c' (m_messages (tables (db w))) raw) with false; [by rewrite app_nil_r|].
    symmetry. unfold attached, raw. cbn. rewrite Hm, Hrow.
    destruct (String.eqb_spec T T') as [<-|]; [|done].
    destruct (String.eqb_spec (row_conversationId r) c') as [<-|]; [|done].
    by rewrite Hcv in Hne.
  - apply refresh_counts in H2 as [-> _]. rewrite Ht. exact Hk.
Qed.

Lemma notify_same a cid u w b w' : persistAndNotify a cid u w = (Ok b, w') → b = a.
Proof.
  unfold persistAndNotify. intros H. repeat (apply bind_inv in H as (? & ? & _ & H)). by injection H.
Qed.

Lemma register_inv T i dto u w a w' :
  register T i dto u w = (Ok a, w') → inv (db w) → unused (tables (db w)) (attachment_id a) →
  inv (db w').
Proof.
  unfold register, messageOrThrow. intros H Hi [_ Hun].
  apply bind_inv in H as (m0 & w1 & [-> Hf]%getOrThrow_inv & H).
  apply bind_inv in H as (ref & w2 & H2 & H). apply run_same in H2; [|eauto with keeps].
  apply bind_inv in H as (aid & w3 & [= <- <-] & H). apply bind_inv in H as (now & w4 & [= <- <-] & H).
  rewrite (notify_same _ _ _ _ _ _ H) in Hun.
  eapply notify_inv; [exact H| | |done|done|]; cbn [db]; rewrite H2; [done|done|].
  intros x Hx. by apply Hun.
Qed.

Lemma registerLocal_inv T i file u w a w' :
  registerLocal T i file u w = (Ok a, w') → inv (db w) →
  unused (tables (db w)) (attachment_id a) → inv (db w').
Proof.
  unfold registerLocal, messageOrThrow. intros H Hi [_ Hun].
  apply bind_inv in H as (m0 & w1 & [-> Hf]%getOrThrow_inv & H).
  apply bind_inv in H as (aid & w3 & [= <- <-] & H). apply bind_inv in H as (now & w4 & [= <- <-] & H).
  rewrite (notify_same _ _ _ _ _ _ H) in Hun.
  eapply notify_inv; [exact H|exact Hi|exact Hf|done|done|]. intros x Hx. by apply Hun.
Qed.

(** The calls that leave the conversation rows as they are. *)
Lemma edit_rows T c :
  match c with DoCreate _ _ | DoReply _ _ _ | DoIngest _ => True
  | _ => keeps rows_same (run_msg T c) end.
Proof.
  destruct c; try done; cbn [run_msg]; apply keeps_fmap; try apply _;
    unfold update, mark_read, archive_message, delete_message_of, react, remove_reaction_of,
      mention, bulkUpdateStatus, repo_bulkUpdateStatus, repo_removeReaction, repo_delete,
      queueSend, render_template, retry, findDeliveryStatuses, applyDeliveryReceipt,
      saveDeliveryStatus, register, registerLocal, messageOrThrow, persistAndNotify,
      saveAttachment, publish, reading; try solve_keeps.
  unfold dispatch. apply keeps_bind; [apply _|eauto with keeps|]. intros m.
  destruct (js_or_undef _); [|solve_keeps]. destruct (js_or_undef _); [|solve_keeps].
  apply keeps_bind; [apply _|eauto with keeps|]. intros did.
  apply keeps_bind; [apply _|eauto with keeps|]. intros now.
  apply keeps_bind; [apply _|apply db_rows, attempt_db, sendOutgoing_db|]. intros sent.
  unfold dispatch_failed, saveDeliveryStatus. solve_keeps.
Qed.

Lemma run_msg_sound T c ids w w' :
  (∀ t n c, keeps preserved (evaluateEventTriggers t n c)) →
  run_msg T c w = (Ok ids, w') → sound (db w) →
  (∀ i, i ∈ ids → unused (tables (db w)) i) → sound (db w').
Proof.
  intros Htrig H Hs Hun.
  assert (∀ Q : Prop, Q → keeps rows_same (run_msg T c) → inv (db w') → sound (db w')) as Hedit.
  { intros Q _ Hk Hi. split; [done|]. pose proof (run_keeps _ _ _ _ _ Hk H) as Hr.
    unfold same in Hr. intros i r. rewrite Hr. apply Hs. }
  pose proof (edit_rows T c) as Hrows. destruct Hs as [Hi Hck].
  destruct c; cbn [run_msg] in H; apply fmap_inv in H as H'; destruct H' as (x & Hx & ->);
    try (apply (Hedit True I Hrows); clear Hedit Hrows).
  - eapply create_sound; [done|exact Hx|done|]. apply Hun. left.
  - unfold reply in Hx. apply bind_inv in Hx as (m0 & w1 & [-> Hf]%getOrThrow_inv & Hx).
    eapply create_sound; [done|exact Hx|done|]. apply Hun. left.
  - by eapply update_inv.
  - by eapply mark_read_inv.
  - by eapply archive_inv.
  - by eapply delete_inv.
  - by eapply react_inv.
  - destruct x. by eapply unreact_inv.
  - by eapply mention_inv.
  - by eapply bulk_inv.
  - by eapply queueSend_inv.
  - by eapply dispatch_inv.
  - by eapply retry_inv.
  - by eapply receipt_inv.
  - eapply ingest_sound; [exact Hx|done|]. intros m ->. apply Hun. left.
  - eapply register_inv; [exact Hx|done|]. apply Hun. left.
  - eapply registerLocal_inv; [exact Hx|done|]. apply Hun. left.
Qed.

(** *** Calls, one after the other *)

(** A message call that returns, with ids of its own; a conversation call or the
    offline sweep, whatever they answer. *)
Inductive step : MsgW → MsgW → Prop :=
  | step_message T c ids w w' :
      run_msg T c w = (Ok ids, w') → (∀ i, i ∈ ids → unused (tables (db w)) i) → step w w'
  | step_conversation T c w : step w (final (in_conversations (Refinement.run_cmd T c)) w)
  | step_sweep t w : step w (final (in_conversations (reassignFromOfflineAgents t)) w).

Lemma step_sound w w' :
  (∀ t n c, keeps preserved (evaluateEventTriggers t n c)) →
  step w w' → sound (db w) → sound (db w').
Proof.
  intros Htrig [T c ids w1 w2 H Hun|T c w1|t w1] Hs.
  - by eapply run_msg_sound.
  - apply in_conversations_sound; [apply conversation_calls_kept|done].
  - apply in_conversations_sound; [apply sweep_kept|done].
Qed.


(** The removal of an infected attachment is not followed by a new count. *)
Lemma infected_not_recounted T aid : keeps (same (λ w : MsgW, conversations (db w))) (process_attachment T aid).
Proof.
  assert (∀ A (p : M MsgW A), keeps (same db) p → keeps (same (λ w : MsgW, conversations (db w))) p) as Hdb.
  { intros A p Hp w. unfold same. by rewrite (Hp w). }
  assert (∀ f, keeps (same (λ w : MsgW, conversations (db w))) (writing f)) as Hw.
  { intros f w. unfold same, final. rewrite writing_run. by destruct (f _ _). }
  assert (∀ A (f : Z → MsgTables → A * MsgTables),
    keeps (same (λ w : MsgW, conversations (db w))) (deleting f)) as Hd.
  { intros A f w. unfold same, final, deleting, mbind, M_bind, new_Date, gets, modify. cbn.
    by destruct (f _ _). }
  unfold process_attachment, getAttachment, deleteAttachment, saveAttachment, reading.
  repeat first [apply Hw | apply Hd | apply Hdb; solve [eauto with keeps] | keeps_step; try apply _].
Qed.
End services.
End InboxCounts.
