(* ===== verification/MessageSamples.v ===== *)
(** * Messages on concrete data

    A tenant with one conversation, a stored message, and the theorems on messages
    applied to them. *)

From Stdlib Require HexString.
From S2P Require Import Prelude Platform JsValue.
From S2P Require Import Conversation ConversationRepo ConversationStore ConversationService.
From S2P Require Import ConversationProofs.
From S2P Require Import Message MessageRepo MessageStore MessageService MessageProofs MessageCounts.
Import MessageStatusEnum.
Open Scope Z_scope.

#[local] Existing Instance Conversations.conv_env.
#[local] Existing Instance Conversations.conv_sql.
#[local] Existing Instance Conversations.conv_deps.

(** Oldest or newest first. *)
Definition created_order (asc : bool) (a b : MessageRow) : Z :=
  if asc then row_createdAt a - row_createdAt b else row_createdAt b - row_createdAt a.

#[local] Instance created_order_comparator asc : Comparator (created_order asc).
Proof. split; intros; unfold created_order in *; destruct asc; lia. Qed.

Lemma strongly_sorted_lookup {A} (R : A → A → Prop) l i j x y :
  StronglySorted R l → l !! i = Some x → l !! j = Some y → (i < j)%nat → R x y.
Proof.
  intros Hs. revert i j. induction Hs as [|z l Hs IH Hz]; intros i j Hi Hj Hlt; [done|].
  destruct i as [|i], j as [|j]; try lia; cbn in Hi, Hj.
  - injection Hi as <-. rewrite Forall_forall in Hz. apply Hz. by eapply list_elem_of_lookup_2.
  - eapply IH; [exact Hi|exact Hj|lia].
Qed.

#[local, program] Instance msg_sql : MsgSql :=
  {| like _ _ := false; varchar := js_String;
     by_creation asc l := js_sort (created_order asc) l;
     by_last_attempt l := l; by_update l := l;
     Date_parse := HexString.to_Z; toISOString := HexString.of_Z |}.
Next Obligation. done. Qed.
Next Obligation. intros. apply js_sort_perm. Qed.
Next Obligation.
  intros asc l i j x y Hi Hj Hlt.
  pose proof (strongly_sorted_lookup _ _ i j x y (js_sort_sorted (created_order asc) l) Hi Hj Hlt) as H.
  cbn in H. unfold created_order in H. destruct asc; lia.
Qed.
Next Obligation. done. Qed.
Next Obligation. done. Qed.
Next Obligation. apply HexString.to_Z_of_Z. Qed.
Next Obligation. by intros []. Qed.

#[local, program] Instance msg_deps : MsgDeps :=
  {| channel_exists i _ := Ok (String.eqb i "chan-1");
     findSessionIdsByConversation _ _ := ["session-1"];
     evaluateEventTriggers _ _ _ := mret tt;
     finalizeUpload _ _ := mret {| ref_contentType := Some "image/png"; ref_fileSize := Some 10;
       ref_storageProvider := Some "S3"; ref_storagePath := Some "a/b"; ref_publicUrl := None;
       ref_checksum := None; ref_thumbnailUrl := None |};
     requestVirusScan _ _ := mret "CLEAN"; requestThumbnail _ _ := mret None;
     generateSignedUrl _ p := mret p; deleteFile _ _ := mret tt; unlink _ := mret tt |}.
Solve All Obligations with done.

#[local] Instance no_regexp : RegExp :=
  {| replace_pattern _ _ l := Ok l |}.

Definition no_messages : MsgTables :=
  {| m_messages := ∅; m_attachments := []; m_reactions := []; m_mentions := [];
     m_deliveries := []; m_templates := ∅; m_drafts := ∅ |}.

(** Conversation c1 of acme, without messages. *)
Definition quiet_world : MsgW :=
  fresh_world {| tables := no_messages;
    conversations := Conversations.db_of [Conversations.sample_row "c1" "acme" "OPEN" 5] |}.

Definition hello : InboundMessageDto :=
  {| in_channelId := "chan-1"; in_conversationId := Some "c1"; in_customerId := None;
     in_externalMessageId := Some "ext-1"; in_messageType := None;
     in_content := Some "Hello"; in_metadata := None |}.

Definition after_hello : MsgW := final (ingest "acme" hello) quiet_world.

Lemma ingest_once_witness :
  is_ok (ingest "acme" hello quiet_world).1 = true
  ∧ ingest "acme" hello after_hello = (Ok None, after_hello).
Proof.
  split; [vm_compute; reflexivity|].
  apply (Messages.ingest_once "acme" hello "ext-1" quiet_world
    (outcome (ingest "acme" hello) quiet_world)).
  - unfold outcome, after_hello, final. by destruct (ingest _ _ _).
  - reflexivity.
  - intros E. apply (f_equal (λ d, size (m_messages d))) in E. by vm_compute in E.
Defined.

(** A queued reply of an agent. *)
Definition answer (status_ : string) : MessageRow :=
  {| row_id := "m1"; row_tenantId := "acme"; row_conversationId := "c1";
     row_channelId := Some "chan-1"; row_customerId := Some "cust-1"; row_senderId := None;
     row_senderType := "AGENT"; row_messageType := "TEXT"; row_direction := "OUTBOUND";
     row_content := Some "Hi"; row_contentHtml := None; row_status := status_;
     row_externalMessageId := None; row_replyToMessageId := None; row_threadId := None;
     row_sentAt := None; row_deliveredAt := None; row_readAt := Some 7; row_metadata := None;
     row_createdAt := 1; row_updatedAt := 1; row_deletedAt := None; row_version := 1 |}.

Definition one_message (status_ : string) : MsgW :=
  quiet_world <| db ::= λ b, b <| tables ::= λ d,
    d <| m_messages := {[ "m1" := answer status_ ]} |> |> |>.

Definition the_message (status_ : MessageStatusEnum) : Message :=
  match find_message "m1" "acme" (tables (db (one_message (enum_str status_)))) with
  | Ok (Some m) => m
  | _ => create 0 "" {| new_tenantId := ""; new_conversationId := ""; new_channelId := None;
           new_customerId := None; new_senderId := None; new_senderType := "";
           new_messageType := MessageTypeEnum.TEXT;
           new_direction := MessageDirectionEnum.INBOUND; new_content := None;
           new_contentHtml := None; new_status := status_; new_externalMessageId := None;
           new_replyToMessageId := None; new_threadId := None; new_metadata := None |}
  end.

Lemma one_indexed s : Messages.indexed (tables (db (one_message s))).
Proof.
  intros i r Hr. cbn in Hr. apply lookup_singleton_Some in Hr as [<- <-].
  split; [done|]. reflexivity.
Qed.

Lemma dispatch_spec_witness :
  ∃ w' row, row_status row = "SENT"
    ∧ m_messages (tables (db w')) = <[ "m1" := row ]> (m_messages (tables (db (one_message "READ")))).
Proof.
  pose proof (Messages.dispatch_spec "acme" "m1" (one_message "READ") (the_message READ)
    "chan-1" "cust-1"
    (outcome (sendOutgoingMessage "acme" "chan-1" "cust-1" "Hi")
       ((one_message "READ") <| uuids ::= S |> <| ticks ::= S |>))
    (final (sendOutgoingMessage "acme" "chan-1" "cust-1" "Hi")
       ((one_message "READ") <| uuids ::= S |> <| ticks ::= S |>))) as H.
  cbv zeta in H.
  destruct H as (w' & row & Hm & _ & m' & _ & _ & Hs & _);
    [apply one_indexed|reflexivity|reflexivity|reflexivity|by intros y Hy%elem_of_nil
    |reflexivity|].
  by exists w', row.
Defined.

Lemma receipt_overwrites_witness :
  ∃ row, m_messages (tables (db (final (applyDeliveryReceipt "acme" "m1" "DELIVERED" None None)
           (one_message "READ")))) = <[ "m1" := row ]> (m_messages (tables (db (one_message "READ"))))
    ∧ row_status row = "DELIVERED".
Proof.
  destruct (Messages.receipt_overwrites "acme" "m1" "DELIVERED" None None (one_message "READ")
    (the_message READ)) as (row & Hm & Hs & _);
    [apply one_indexed|reflexivity|by intros y Hy%elem_of_nil|done|].
  by exists row.
Defined.

(** A queue that refuses the jobs that send messages. *)
Definition refusal : exn := Exn JsError "Connection is closed".
Definition refusing_env : Env :=
  {| env_clock := @env_clock Conversations.conv_env; env_uuid := @env_uuid Conversations.conv_env;
     env_queue_add job := if String.eqb (job_name job) "message-send-job" then Some refusal else None |}.

Lemma refused_send_strands_witness :
  ∃ w' row, queueSend (HE := refusing_env) "acme" "m1"
      {| templateName := None; send_variables := None; send_channelId := None |} None
      (one_message "QUEUED") = (Throw refusal, w')
    ∧ m_messages (tables (db w')) = <[ "m1" := row ]> (m_messages (tables (db (one_message "QUEUED")))).
Proof.
  destruct (Messages.refused_send_strands (HE := refusing_env) "acme" "m1"
    {| templateName := None; send_variables := None; send_channelId := None |} None
    (one_message "QUEUED") (the_message QUEUED) refusal) as (w' & row & E & Hm & _);
    [apply one_indexed|reflexivity|reflexivity|reflexivity
    |by intros job Hj; cbn; rewrite Hj|].
  by exists w', row.
Defined.

(** A stored template, and a patch of its text. *)
Definition greeting : TemplateRow :=
  {| template := {| template_id := "t1"; template_tenantId := "acme";
       template_name := "greeting"; channelType := Some "EMAIL"; category := Some "welcome";
       template_content := Some "Hello {{name}}"; template_contentHtml := Some "<p>Hello</p>";
       variables := Some {[ "name" := JStr "" ]}; template_language := Some "de";
       isActive := Some false; template_createdAt := 1; template_updatedAt := 1 |};
     template_deletedAt := None |}.

Definition new_text : TemplatePatch :=
  {| p_channelType := None; p_category := None; p_content := Some "Hi {{name}}";
     p_contentHtml := None; p_variables := None; p_language := None; p_isActive := None |}.

Definition one_template : MsgW :=
  quiet_world <| db ::= λ b, b <| tables ::= λ d,
    d <| m_templates := {[ "t1" := greeting ]} |> |> |>.

Lemma template_update_spec_witness :
  ∃ t, template <$>
      m_templates (tables (db (final (update_message_template "acme" "t1" new_text None)
        one_template))) !! "t1" = Some t
    ∧ template_content t = Some "Hi {{name}}" ∧ template_language t = Some "de"
    ∧ isActive t = Some false
    ∧ channelType t = None ∧ category t = None ∧ template_contentHtml t = None
    ∧ variables t = None.
Proof.
  rewrite (Messages.template_update_spec "acme" "t1" new_text None one_template greeting).
  - rewrite lookup_insert_eq. by eexists.
  - reflexivity.
  - reflexivity.
  - intros k r Hk _. cbn in Hk. by apply lookup_singleton_Some in Hk as [<- _].
Defined.

(** Three messages, two on a page. *)
Definition three_messages : MsgTables :=
  no_messages <| m_messages := list_to_map ((λ k, ("m" +:+ pretty k,
    (answer "SENT") <| row_id := "m" +:+ pretty k |> <| row_createdAt := k |>)) <$> [1; 2; 3]) |>.

Definition pages_of (order : string) : MessageQueryOptions :=
  {| q_page := None; q_limit := Some 2; q_cursor := None; q_sortOrder := Some order;
     q_conversationId := None; q_channelId := None; q_customerId := None; q_direction := None;
     q_status := None; q_messageType := None; q_threadId := None; q_search := None |}.

Definition next_of (order : string) : list MessageRow :=
  match nextCursor (pages_of order) (page_rows "acme" (pages_of order) three_messages) with
  | Some c => page_rows "acme" ((pages_of order) <| q_cursor := Some c |>) three_messages
  | None => []
  end.

Lemma cursor_pages_witness :
  row_id <$> next_of "ASC" = ["m1"] ∧ row_id <$> next_of "DESC" = ["m1"]
  ∧ ∀ r, r ∈ next_of "DESC" → ∀ x, x ∈ page_rows "acme" (pages_of "DESC") three_messages →
      row_createdAt r < row_createdAt x.
Proof.
  split; [vm_compute; reflexivity|]. split; [vm_compute; reflexivity|]. intros r Hr.
  apply (Messages.cursor_pages "acme" (pages_of "DESC") three_messages "0x2" r);
    [reflexivity|reflexivity|vm_compute; reflexivity|].
  exact Hr.
Defined.

(** A customer writes: one message, unread. *)
Definition write_in : CreateMessageDto :=
  {| d_conversationId := "c1"; d_channelId := None; d_customerId := None; d_senderId := None;
     d_senderType := "CUSTOMER"; d_messageType := None;
     d_direction := Some MessageDirectionEnum.INBOUND; d_content := Some "Help";
     d_contentHtml := None; d_replyToMessageId := None; d_threadId := None; d_metadata := None |}.

Definition after_write : MsgW :=
  final (InboxCounts.run_msg "acme" (InboxCounts.DoCreate write_in None)) quiet_world.

