(* ===== verification/Settings.v ===== *)
(** * Tenant settings: the entities

    [src/modules/settings/domain/entities.ts]: a module per entity, each with its
    properties and [toJSON].  The constructor gives a missing configuration the
    empty object and missing dates the present; the records are what it builds, so
    [configuration] and [metadata] are always objects.

    A patch [{...this.props, ...props}] is the function that writes its keys, over
    values that were computed from the object before the call; every caller in the
    services passes all its keys with a value. *)

From Stdlib Require Import QArith.
From S2P Require Import Prelude Platform.
Open Scope Z_scope.

(** The JSON of a number that need not be an integer; [json] has integers only. *)
Class JsonNumber := json_number : Q → json.

#[export] Instance Q_truthy : Truthy Q := λ q, negb (Qeq_bool q 0).

Definition opt_number `{JsonNumber} (k : string) (v : option Q) : list (string * json) :=
  match v with Some q => [(k, json_number q)] | None => [] end.

(** What every entity has. *)
Class Entity (A : Type) := {
  entity_id : A → string;
  entity_tenantId : A → string;
  entity_createdAt : A → Z;
  with_createdAt : Z → A → A;
  with_updatedAt : Z → A → A;
  entity_json : A → json;
  with_createdAt_id t x : entity_id (with_createdAt t x) = entity_id x;
  with_createdAt_tenant t x : entity_tenantId (with_createdAt t x) = entity_tenantId x;
  with_createdAt_at t x : entity_createdAt (with_createdAt t x) = t;
  with_createdAt_same x : with_createdAt (entity_createdAt x) x = x;
  with_updatedAt_id t x : entity_id (with_updatedAt t x) = entity_id x;
  with_updatedAt_tenant t x : entity_tenantId (with_updatedAt t x) = entity_tenantId x;
  with_updatedAt_at t x : entity_createdAt (with_updatedAt t x) = entity_createdAt x;
}.

(** [update(props)] of every entity. *)
Definition update {A} `{Entity A} (now : Z) (props : A → A) (this : A) : A :=
  with_updatedAt now (props this).

Module Branding.
Record BrandingSettings := {
  id : string;
  tenantId : string;
  logoUrl : option string;
  faviconUrl : option string;
  primaryColor : string;
  secondaryColor : string;
  themeMode : string;
  emailHeader : option string;
  emailFooter : option string;
  customCss : option string;
  createdAt : Z;
  updatedAt : Z;
}.
#[global] Instance BrandingSettings_Eta : Eta BrandingSettings := λ x,
  Build_BrandingSettings (id x) (tenantId x) (logoUrl x) (faviconUrl x)
  (primaryColor x) (secondaryColor x) (themeMode x) (emailHeader x) (emailFooter x)
  (customCss x) (createdAt x) (updatedAt x).

Definition toJSON (x : BrandingSettings) : json :=
  JObj ([("id", JStr (id x)); ("tenantId", JStr (tenantId x))] ++
    opt_field "logoUrl" (logoUrl x) ++ opt_field "faviconUrl" (faviconUrl x) ++
    [("primaryColor", JStr (primaryColor x));
    ("secondaryColor", JStr (secondaryColor x)); ("themeMode", JStr (themeMode x))] ++
    opt_field "emailHeader" (emailHeader x) ++
    opt_field "emailFooter" (emailFooter x) ++ opt_field "customCss" (customCss x) ++
    [("createdAt", JNum (createdAt x)); ("updatedAt", JNum (updatedAt x))]).

#[global, program] Instance BrandingSettings_Entity : Entity BrandingSettings :=
  {| entity_id := id; entity_tenantId := tenantId; entity_createdAt := createdAt;
     with_createdAt t x := x <| createdAt := t |>;
     with_updatedAt t x := x <| updatedAt := t |>; entity_json := toJSON |}.
Solve All Obligations with first [done | by intros [] | by intros ? []].
End Branding.

Module Hours.
Record BusinessHours := {
  id : string;
  tenantId : string;
  dayOfWeek : Z;
  startTime : string;
  endTime : string;
  isOpen : bool;
  timezone : string;
  createdAt : Z;
  updatedAt : Z;
}.
#[global] Instance BusinessHours_Eta : Eta BusinessHours := λ x,
  Build_BusinessHours (id x) (tenantId x) (dayOfWeek x) (startTime x) (endTime x)
  (isOpen x) (timezone x) (createdAt x) (updatedAt x).

Definition toJSON (x : BusinessHours) : json :=
  JObj ([("id", JStr (id x)); ("tenantId", JStr (tenantId x));
    ("dayOfWeek", JNum (dayOfWeek x)); ("startTime", JStr (startTime x));
    ("endTime", JStr (endTime x)); ("isOpen", JBool (isOpen x));
    ("timezone", JStr (timezone x)); ("createdAt", JNum (createdAt x));
    ("updatedAt", JNum (updatedAt x))]).

#[global, program] Instance BusinessHours_Entity : Entity BusinessHours :=
  {| entity_id := id; entity_tenantId := tenantId; entity_createdAt := createdAt;
     with_createdAt t x := x <| createdAt := t |>;
     with_updatedAt t x := x <| updatedAt := t |>; entity_json := toJSON |}.
Solve All Obligations with first [done | by intros [] | by intros ? []].
End Hours.

Module Holidays.
Record Holiday := {
  id : string;
  tenantId : string;
  holidayName : string;
  holidayDate : Z;
  isRecurring : bool;
  country : option string;
  region : option string;
  createdAt : Z;
  updatedAt : Z;
}.
#[global] Instance Holiday_Eta : Eta Holiday := λ x,
  Build_Holiday (id x) (tenantId x) (holidayName x) (holidayDate x) (isRecurring x)
  (country x) (region x) (createdAt x) (updatedAt x).

Definition toJSON (x : Holiday) : json :=
  JObj ([("id", JStr (id x)); ("tenantId", JStr (tenantId x));
    ("holidayName", JStr (holidayName x)); ("holidayDate", JNum (holidayDate x));
    ("isRecurring", JBool (isRecurring x))] ++ opt_field "country" (country x) ++
    opt_field "region" (region x) ++ [("createdAt", JNum (createdAt x));
    ("updatedAt", JNum (updatedAt x))]).

#[global, program] Instance Holiday_Entity : Entity Holiday :=
  {| entity_id := id; entity_tenantId := tenantId; entity_createdAt := createdAt;
     with_createdAt t x := x <| createdAt := t |>;
     with_updatedAt t x := x <| updatedAt := t |>; entity_json := toJSON |}.
Solve All Obligations with first [done | by intros [] | by intros ? []].
End Holidays.

Module Flags.
Record FeatureFlag := {
  id : string;
  tenantId : string;
  featureKey : string;
  enabled : bool;
  rolloutPercentage : Z;
  configuration : gmap string json;
  createdAt : Z;
  updatedAt : Z;
}.
#[global] Instance FeatureFlag_Eta : Eta FeatureFlag := λ x,
  Build_FeatureFlag (id x) (tenantId x) (featureKey x) (enabled x)
  (rolloutPercentage x) (configuration x) (createdAt x) (updatedAt x).

Definition toJSON (x : FeatureFlag) : json :=
  JObj ([("id", JStr (id x)); ("tenantId", JStr (tenantId x));
    ("featureKey", JStr (featureKey x)); ("enabled", JBool (enabled x));
    ("rolloutPercentage", JNum (rolloutPercentage x));
    ("configuration", JObj (map_to_list (configuration x)));
    ("createdAt", JNum (createdAt x)); ("updatedAt", JNum (updatedAt x))]).

#[global, program] Instance FeatureFlag_Entity : Entity FeatureFlag :=
  {| entity_id := id; entity_tenantId := tenantId; entity_createdAt := createdAt;
     with_createdAt t x := x <| createdAt := t |>;
     with_updatedAt t x := x <| updatedAt := t |>; entity_json := toJSON |}.
Solve All Obligations with first [done | by intros [] | by intros ? []].
End Flags.

Module Ai.
Record AiSettings := {
  id : string;
  tenantId : string;
  defaultAgent : option string;
  confidenceThreshold : Q;
  escalationThreshold : Q;
  allowedLanguages : list string;
  defaultLanguage : string;
  autoResponseEnabled : bool;
  autoEscalationEnabled : bool;
  costLimitDaily : option Q;
  costLimitMonthly : option Q;
  modelConfiguration : gmap string json;
  createdAt : Z;
  updatedAt : Z;
}.
#[global] Instance AiSettings_Eta : Eta AiSettings := λ x,
  Build_AiSettings (id x) (tenantId x) (defaultAgent x) (confidenceThreshold x)
  (escalationThreshold x) (allowedLanguages x) (defaultLanguage x)
  (autoResponseEnabled x) (autoEscalationEnabled x) (costLimitDaily x)
  (costLimitMonthly x) (modelConfiguration x) (createdAt x) (updatedAt x).

Definition toJSON `{JsonNumber} (x : AiSettings) : json :=
  JObj ([("id", JStr (id x)); ("tenantId", JStr (tenantId x))] ++
    opt_field "defaultAgent" (defaultAgent x) ++
    [("confidenceThreshold", json_number (confidenceThreshold x));
    ("escalationThreshold", json_number (escalationThreshold x));
    ("allowedLanguages", JArr (JStr <$> allowedLanguages x));
    ("defaultLanguage", JStr (defaultLanguage x));
    ("autoResponseEnabled", JBool (autoResponseEnabled x));
    ("autoEscalationEnabled", JBool (autoEscalationEnabled x))] ++
    opt_number "costLimitDaily" (costLimitDaily x) ++
    opt_number "costLimitMonthly" (costLimitMonthly x) ++
    [("modelConfiguration", JObj (map_to_list (modelConfiguration x)));
    ("createdAt", JNum (createdAt x)); ("updatedAt", JNum (updatedAt x))]).

#[global, program] Instance AiSettings_Entity `{JsonNumber} : Entity AiSettings :=
  {| entity_id := id; entity_tenantId := tenantId; entity_createdAt := createdAt;
     with_createdAt t x := x <| createdAt := t |>;
     with_updatedAt t x := x <| updatedAt := t |>; entity_json := toJSON |}.
Solve All Obligations with first [done | by intros [] | by intros ? []].
End Ai.

Module Channels.
Record ChannelSettings := {
  id : string;
  tenantId : string;
  channelType : string;
  enabled : bool;
  businessHoursOnly : bool;
  autoAssignmentEnabled : bool;
  configuration : gmap string json;
  createdAt : Z;
  updatedAt : Z;
}.
#[global] Instance ChannelSettings_Eta : Eta ChannelSettings := λ x,
  Build_ChannelSettings (id x) (tenantId x) (channelType x) (enabled x)
  (businessHoursOnly x) (autoAssignmentEnabled x) (configuration x) (createdAt x)
  (updatedAt x).

Definition toJSON (x : ChannelSettings) : json :=
  JObj ([("id", JStr (id x)); ("tenantId", JStr (tenantId x));
    ("channelType", JStr (channelType x)); ("enabled", JBool (enabled x));
    ("businessHoursOnly", JBool (businessHoursOnly x));
    ("autoAssignmentEnabled", JBool (autoAssignmentEnabled x));
    ("configuration", JObj (map_to_list (configuration x)));
    ("createdAt", JNum (createdAt x)); ("updatedAt", JNum (updatedAt x))]).

#[global, program] Instance ChannelSettings_Entity : Entity ChannelSettings :=
  {| entity_id := id; entity_tenantId := tenantId; entity_createdAt := createdAt;
     with_createdAt t x := x <| createdAt := t |>;
     with_updatedAt t x := x <| updatedAt := t |>; entity_json := toJSON |}.
Solve All Obligations with first [done | by intros [] | by intros ? []].
End Channels.

Module Notifications.
Record NotificationSettings := {
  id : string;
  tenantId : string;
  emailEnabled : bool;
  smsEnabled : bool;
  pushEnabled : bool;
  webhookEnabled : bool;
  digestEnabled : bool;
  configuration : gmap string json;
  createdAt : Z;
  updatedAt : Z;
}.
#[global] Instance NotificationSettings_Eta : Eta NotificationSettings := λ x,
  Build_NotificationSettings (id x) (tenantId x) (emailEnabled x) (smsEnabled x)
  (pushEnabled x) (webhookEnabled x) (digestEnabled x) (configuration x) (createdAt x)
  (updatedAt x).

Definition toJSON (x : NotificationSettings) : json :=
  JObj ([("id", JStr (id x)); ("tenantId", JStr (tenantId x));
    ("emailEnabled", JBool (emailEnabled x)); ("smsEnabled", JBool (smsEnabled x));
    ("pushEnabled", JBool (pushEnabled x));
    ("webhookEnabled", JBool (webhookEnabled x));
    ("digestEnabled", JBool (digestEnabled x));
    ("configuration", JObj (map_to_list (configuration x)));
    ("createdAt", JNum (createdAt x)); ("updatedAt", JNum (updatedAt x))]).

#[global, program] Instance NotificationSettings_Entity : Entity NotificationSettings :=
  {| entity_id := id; entity_tenantId := tenantId; entity_createdAt := createdAt;
     with_createdAt t x := x <| createdAt := t |>;
     with_updatedAt t x := x <| updatedAt := t |>; entity_json := toJSON |}.
Solve All Obligations with first [done | by intros [] | by intros ? []].
End Notifications.

Module Sla.
Record SlaSettings := {
  id : string;
  tenantId : string;
  responseTimeTarget : Z;
  resolutionTimeTarget : Z;
  escalationTimeTarget : Z;
  businessHoursOnly : bool;
  configuration : gmap string json;
  createdAt : Z;
  updatedAt : Z;
}.
#[global] Instance SlaSettings_Eta : Eta SlaSettings := λ x,
  Build_SlaSettings (id x) (tenantId x) (responseTimeTarget x) (resolutionTimeTarget x)
  (escalationTimeTarget x) (businessHoursOnly x) (configuration x) (createdAt x)
  (updatedAt x).

Definition toJSON (x : SlaSettings) : json :=
  JObj ([("id", JStr (id x)); ("tenantId", JStr (tenantId x));
    ("responseTimeTarget", JNum (responseTimeTarget x));
    ("resolutionTimeTarget", JNum (resolutionTimeTarget x));
    ("escalationTimeTarget", JNum (escalationTimeTarget x));
    ("businessHoursOnly", JBool (businessHoursOnly x));
    ("configuration", JObj (map_to_list (configuration x)));
    ("createdAt", JNum (createdAt x)); ("updatedAt", JNum (updatedAt x))]).

#[global, program] Instance SlaSettings_Entity : Entity SlaSettings :=
  {| entity_id := id; entity_tenantId := tenantId; entity_createdAt := createdAt;
     with_createdAt t x := x <| createdAt := t |>;
     with_updatedAt t x := x <| updatedAt := t |>; entity_json := toJSON |}.
Solve All Obligations with first [done | by intros [] | by intros ? []].
End Sla.

Module Security.
Record SecuritySettings := {
  id : string;
  tenantId : string;
  sessionTimeout : Z;
  ipWhitelist : list string;
  mfaRequired : bool;
  apiKeyRotationDays : Z;
  auditRetentionDays : Z;
  configuration : gmap string json;
  createdAt : Z;
  updatedAt : Z;
}.
#[global] Instance SecuritySettings_Eta : Eta SecuritySettings := λ x,
  Build_SecuritySettings (id x) (tenantId x) (sessionTimeout x) (ipWhitelist x)
  (mfaRequired x) (apiKeyRotationDays x) (auditRetentionDays x) (configuration x)
  (createdAt x) (updatedAt x).

Definition toJSON (x : SecuritySettings) : json :=
  JObj ([("id", JStr (id x)); ("tenantId", JStr (tenantId x));
    ("sessionTimeout", JNum (sessionTimeout x));
    ("ipWhitelist", JArr (JStr <$> ipWhitelist x));
    ("mfaRequired", JBool (mfaRequired x));
    ("apiKeyRotationDays", JNum (apiKeyRotationDays x));
    ("auditRetentionDays", JNum (auditRetentionDays x));
    ("configuration", JObj (map_to_list (configuration x)));
    ("createdAt", JNum (createdAt x)); ("updatedAt", JNum (updatedAt x))]).

#[global, program] Instance SecuritySettings_Entity : Entity SecuritySettings :=
  {| entity_id := id; entity_tenantId := tenantId; entity_createdAt := createdAt;
     with_createdAt t x := x <| createdAt := t |>;
     with_updatedAt t x := x <| updatedAt := t |>; entity_json := toJSON |}.
Solve All Obligations with first [done | by intros [] | by intros ? []].
End Security.

Module Widget.
Record WidgetSettings := {
  id : string;
  tenantId : string;
  widgetName : string;
  widgetColor : string;
  widgetPosition : string;
  welcomeMessage : option string;
  offlineMessage : option string;
  avatarUrl : option string;
  customCss : option string;
  customJs : option string;
  createdAt : Z;
  updatedAt : Z;
}.
#[global] Instance WidgetSettings_Eta : Eta WidgetSettings := λ x,
  Build_WidgetSettings (id x) (tenantId x) (widgetName x) (widgetColor x)
  (widgetPosition x) (welcomeMessage x) (offlineMessage x) (avatarUrl x) (customCss x)
  (customJs x) (createdAt x) (updatedAt x).

Definition toJSON (x : WidgetSettings) : json :=
  JObj ([("id", JStr (id x)); ("tenantId", JStr (tenantId x));
    ("widgetName", JStr (widgetName x)); ("widgetColor", JStr (widgetColor x));
    ("widgetPosition", JStr (widgetPosition x))] ++
    opt_field "welcomeMessage" (welcomeMessage x) ++
    opt_field "offlineMessage" (offlineMessage x) ++
    opt_field "avatarUrl" (avatarUrl x) ++ opt_field "customCss" (customCss x) ++
    opt_field "customJs" (customJs x) ++ [("createdAt", JNum (createdAt x));
    ("updatedAt", JNum (updatedAt x))]).

#[global, program] Instance WidgetSettings_Entity : Entity WidgetSettings :=
  {| entity_id := id; entity_tenantId := tenantId; entity_createdAt := createdAt;
     with_createdAt t x := x <| createdAt := t |>;
     with_updatedAt t x := x <| updatedAt := t |>; entity_json := toJSON |}.
Solve All Obligations with first [done | by intros [] | by intros ? []].
End Widget.

Module Limits.
Record UsageLimits := {
  id : string;
  tenantId : string;
  maxAgents : Z;
  maxConversations : Z;
  maxMessages : Z;
  maxWorkflows : Z;
  maxConnectors : Z;
  maxDocuments : Z;
  maxStorage : Z;
  maxAiRequests : Z;
  createdAt : Z;
  updatedAt : Z;
}.
#[global] Instance UsageLimits_Eta : Eta UsageLimits := λ x,
  Build_UsageLimits (id x) (tenantId x) (maxAgents x) (maxConversations x)
  (maxMessages x) (maxWorkflows x) (maxConnectors x) (maxDocuments x) (maxStorage x)
  (maxAiRequests x) (createdAt x) (updatedAt x).

Definition toJSON (x : UsageLimits) : json :=
  JObj ([("id", JStr (id x)); ("tenantId", JStr (tenantId x));
    ("maxAgents", JNum (maxAgents x)); ("maxConversations", JNum (maxConversations x));
    ("maxMessages", JNum (maxMessages x)); ("maxWorkflows", JNum (maxWorkflows x));
    ("maxConnectors", JNum (maxConnectors x)); ("maxDocuments", JNum (maxDocuments x));
    ("maxStorage", JNum (maxStorage x)); ("maxAiRequests", JNum (maxAiRequests x));
    ("createdAt", JNum (createdAt x)); ("updatedAt", JNum (updatedAt x))]).

#[global, program] Instance UsageLimits_Entity : Entity UsageLimits :=
  {| entity_id := id; entity_tenantId := tenantId; entity_createdAt := createdAt;
     with_createdAt t x := x <| createdAt := t |>;
     with_updatedAt t x := x <| updatedAt := t |>; entity_json := toJSON |}.
Solve All Obligations with first [done | by intros [] | by intros ? []].
End Limits.

Module Preferences.
Record TenantPreferences := {
  id : string;
  tenantId : string;
  theme : string;
  notificationsEnabled : bool;
  autoResolveDays : Z;
  autoCloseDays : Z;
  metadata : gmap string json;
  createdAt : Z;
  updatedAt : Z;
}.
#[global] Instance TenantPreferences_Eta : Eta TenantPreferences := λ x,
  Build_TenantPreferences (id x) (tenantId x) (theme x) (notificationsEnabled x)
  (autoResolveDays x) (autoCloseDays x) (metadata x) (createdAt x) (updatedAt x).

Definition toJSON (x : TenantPreferences) : json :=
  JObj ([("id", JStr (id x)); ("tenantId", JStr (tenantId x));
    ("theme", JStr (theme x)); ("notificationsEnabled", JBool (notificationsEnabled x));
    ("autoResolveDays", JNum (autoResolveDays x));
    ("autoCloseDays", JNum (autoCloseDays x));
    ("metadata", JObj (map_to_list (metadata x))); ("createdAt", JNum (createdAt x));
    ("updatedAt", JNum (updatedAt x))]).

#[global, program] Instance TenantPreferences_Entity : Entity TenantPreferences :=
  {| entity_id := id; entity_tenantId := tenantId; entity_createdAt := createdAt;
     with_createdAt t x := x <| createdAt := t |>;
     with_updatedAt t x := x <| updatedAt := t |>; entity_json := toJSON |}.
Solve All Obligations with first [done | by intros [] | by intros ? []].
End Preferences.

Module Tenants.
Record TenantSettings := {
  id : string;
  tenantId : string;
  tenantName : string;
  industry : option string;
  timezone : string;
  locale : string;
  country : option string;
  currency : string;
  supportEmail : option string;
  supportPhone : option string;
  websiteUrl : option string;
  status : string;
  metadata : gmap string json;
  createdAt : Z;
  updatedAt : Z;
  version : Z;
}.
#[global] Instance TenantSettings_Eta : Eta TenantSettings := λ x,
  Build_TenantSettings (id x) (tenantId x) (tenantName x) (industry x) (timezone x)
  (locale x) (country x) (currency x) (supportEmail x) (supportPhone x) (websiteUrl x)
  (status x) (metadata x) (createdAt x) (updatedAt x) (version x).

Definition toJSON (x : TenantSettings) : json :=
  JObj ([("id", JStr (id x)); ("tenantId", JStr (tenantId x));
    ("tenantName", JStr (tenantName x))] ++ opt_field "industry" (industry x) ++
    [("timezone", JStr (timezone x)); ("locale", JStr (locale x))] ++
    opt_field "country" (country x) ++ [("currency", JStr (currency x))] ++
    opt_field "supportEmail" (supportEmail x) ++
    opt_field "supportPhone" (supportPhone x) ++
    opt_field "websiteUrl" (websiteUrl x) ++ [("status", JStr (status x));
    ("metadata", JObj (map_to_list (metadata x))); ("createdAt", JNum (createdAt x));
    ("updatedAt", JNum (updatedAt x)); ("version", JNum (version x))]).

#[global, program] Instance TenantSettings_Entity : Entity TenantSettings :=
  {| entity_id := id; entity_tenantId := tenantId; entity_createdAt := createdAt;
     with_createdAt t x := x <| createdAt := t |>;
     with_updatedAt t x := x <| updatedAt := t |>; entity_json := toJSON |}.
Solve All Obligations with first [done | by intros [] | by intros ? []].

(** [update] also counts a version. *)
Definition update (now : Z) (props : TenantSettings → TenantSettings)
    (this : TenantSettings) : TenantSettings :=
  (with_updatedAt now (props this)) <| version := (if truthy (version this) then version this else 1) + 1 |>.
End Tenants.

(** *** The aggregate

    [TenantSettings] has a slot for each of its children; the repository never
    fills them, every kind of settings is loaded by its own service. *)
Record SettingsAggregate := {
  settings : Tenants.TenantSettings;
  branding : option Branding.BrandingSettings;
  preferences : option Preferences.TenantPreferences;
  businessHours : list Hours.BusinessHours;
  holidays : list Holidays.Holiday;
  featureFlags : list Flags.FeatureFlag;
  aiSettings : option Ai.AiSettings;
  channelSettings : list Channels.ChannelSettings;
  notificationSettings : option Notifications.NotificationSettings;
  slaSettings : option Sla.SlaSettings;
  securitySettings : option Security.SecuritySettings;
  widgetSettings : option Widget.WidgetSettings;
  usageLimits : option Limits.UsageLimits;
}.
#[export] Instance SettingsAggregate_Eta : Eta SettingsAggregate := λ x,
  Build_SettingsAggregate (settings x) (branding x) (preferences x) (businessHours x)
    (holidays x) (featureFlags x) (aiSettings x) (channelSettings x)
    (notificationSettings x) (slaSettings x) (securitySettings x) (widgetSettings x)
    (usageLimits x).

Section setters.
Context (now : Z).
Implicit Types (this : SettingsAggregate).
Definition touched this : SettingsAggregate :=
  this <| settings ::= λ s, s <| Tenants.updatedAt := now |> |>.

Definition setBranding (x : Branding.BrandingSettings) this :=
  touched (this <| branding := Some x |>).
Definition setPreferences (x : Preferences.TenantPreferences) this :=
  touched (this <| preferences := Some x |>).
Definition setBusinessHours (x : list Hours.BusinessHours) this :=
  touched (this <| businessHours := x |>).
Definition setHolidays (x : list Holidays.Holiday) this :=
  touched (this <| holidays := x |>).
Definition setFeatureFlags (x : list Flags.FeatureFlag) this :=
  touched (this <| featureFlags := x |>).
Definition setAiSettings (x : Ai.AiSettings) this :=
  touched (this <| aiSettings := Some x |>).
Definition setChannelSettings (x : list Channels.ChannelSettings) this :=
  touched (this <| channelSettings := x |>).
Definition setNotificationSettings (x : Notifications.NotificationSettings) this :=
  touched (this <| notificationSettings := Some x |>).
Definition setSlaSettings (x : Sla.SlaSettings) this :=
  touched (this <| slaSettings := Some x |>).
Definition setSecuritySettings (x : Security.SecuritySettings) this :=
  touched (this <| securitySettings := Some x |>).
Definition setWidgetSettings (x : Widget.WidgetSettings) this :=
  touched (this <| widgetSettings := Some x |>).
Definition setUsageLimits (x : Limits.UsageLimits) this :=
  touched (this <| usageLimits := Some x |>).
End setters.
