(* ===== verification/SettingsRepo.v ===== *)
(** * Tenant settings: the tables and the repository

    [src/modules/settings/repositories/drizzle-settings-repository.ts] over the
    thirteen tables of [packages/database/src/schema.ts], and the Redis store the
    module uses.  A row is the entity it holds.  The tables of one row per tenant
    have no unique index on the tenant: a row is found by the tenant, in the order
    the database scans the table, and an update writes every row of the tenant. *)

From Stdlib Require Import QArith.
From S2P Require Import Prelude Platform Settings.
Open Scope Z_scope.

(** ** Tables *)
Record SettingsDb := {
  tenantSettings : list Tenants.TenantSettings;
  tenantBranding : list Branding.BrandingSettings;
  tenantPreferences : list Preferences.TenantPreferences;
  tenantBusinessHours : list Hours.BusinessHours;
  tenantHolidays : list Holidays.Holiday;
  tenantFeatureFlags : list Flags.FeatureFlag;
  tenantAiSettings : list Ai.AiSettings;
  tenantChannelSettings : list Channels.ChannelSettings;
  tenantNotificationSettings : list Notifications.NotificationSettings;
  tenantSlaSettings : list Sla.SlaSettings;
  tenantSecuritySettings : list Security.SecuritySettings;
  tenantWidgetSettings : list Widget.WidgetSettings;
  tenantUsageLimits : list Limits.UsageLimits;
  (** the keys of Redis, when it can be reached *)
  redis : option (gmap string string);
}.
#[export] Instance SettingsDb_Eta : Eta SettingsDb := λ d,
  Build_SettingsDb (tenantSettings d) (tenantBranding d) (tenantPreferences d)
    (tenantBusinessHours d) (tenantHolidays d) (tenantFeatureFlags d) (tenantAiSettings d)
    (tenantChannelSettings d) (tenantNotificationSettings d) (tenantSlaSettings d)
    (tenantSecuritySettings d) (tenantWidgetSettings d) (tenantUsageLimits d) (redis d).
Abbreviation SettingsW := (World SettingsDb).

(** What the database decides: the order in which it scans a table, and the value
    a [numeric(10, 2)] column holds of a number, if it fits. *)
Class SettingsSql := {
  scan {A} : list A → list A;
  numeric_10_2 : Q → option Q;
  scan_perm {A} (l : list A) : scan l ≡ₚ l;
}.

Definition unique_violation : exn :=
  Exn JsError "duplicate key value violates unique constraint".
Definition column_error : exn := Exn JsError "value out of range for its column".

(** Texts against the lengths of their [varchar] columns, [integer] columns. *)
Definition fits (l : list (Z * string)) : bool := every (λ c, js_length c.2 <=? c.1) l.
Definition int4 (z : Z) : bool := (-2147483648 <=? z) && (z <=? 2147483647).
Definition int8 (z : Z) : bool :=
  (-9223372036854775808 <=? z) && (z <=? 9223372036854775807).

(** A table: its rows, the row a save writes ([raw]), the entity a row is read
    as, and which pairs of rows a unique index forbids besides those of one id. *)
Class Table (A : Type) := {
  table_entity :: Entity A;
  rows : SettingsDb → list A;
  with_rows : list A → SettingsDb → SettingsDb;
  columns : A → result A;
  toDomain : A → A;
  unique_index : A → A → bool;
}.

Section statements.
Context {HE : Env} {HS : SettingsSql}.

Definition by_tenant {A} `{Entity A} (tenant : string) (r : A) : bool :=
  String.eqb (entity_tenantId r) tenant.
Definition by_id {A} `{Entity A} (id : string) (r : A) : bool :=
  String.eqb (entity_id r) id.

(** No two rows have the same id or the same key of the unique index. *)
Definition clash {A} `{Table A} (x y : A) : bool :=
  by_id (entity_id x) y || unique_index x y.
Fixpoint distinct_rows {A} `{Table A} (l : list A) : bool :=
  match l with
  | [] => true
  | x :: l' => negb (some (clash x) l') && distinct_rows l'
  end.
Definition checked {A} `{Table A} (l : list A) : result (list A) :=
  if distinct_rows l then Ok l else Throw unique_violation.

(** [update.set(raw).where(target)] and [insert.values]: [raw] has no creation
    date, an insert adds it. *)
Definition update_rows {A} `{Table A} (target : A → bool) (raw : A) (l : list A)
    : result (list A) :=
  checked ((λ r, if target r then with_createdAt (entity_createdAt r) raw else r) <$> l).
Definition insert_row {A} `{Table A} (raw : A) (l : list A) : result (list A) :=
  checked (l ++ [raw]).

(** [const [existing] = select.where(found)], then
    [if (existing) update.where(target) else insert]: two statements, what other
    requests write between them the first does not see. *)
Definition write_found {A} `{Table A} (target : A → A → bool) (existing : option A)
    (raw : A) (l : list A) : result (list A) :=
  match existing with
  | Some existing => update_rows (target existing) raw l
  | None => insert_row raw l
  end.
Definition write_rows {A} `{Table A} (found : A → bool) (target : A → A → bool)
    (raw : A) (l : list A) : result (list A) :=
  write_found target (js_find found (scan l)) raw l.

Definition save_rows {A} `{Table A} (found : A → bool) (target : A → A → bool) (x : A)
    : M SettingsW unit :=
  now ← new_Date;
  raw ← of_result (columns (with_updatedAt now x));
  l ← gets (λ w, rows (db w));
  l' ← of_result (write_rows found target raw l);
  modify (λ w, w <| db ::= with_rows l' |>).

(** The tables of one row per tenant. *)
Definition save_of_tenant {A} `{Table A} (x : A) : M SettingsW unit :=
  save_rows (by_tenant (entity_tenantId x)) (λ _, by_tenant (entity_tenantId x)) x.

(** The others: the update is of the row that was found. *)
Definition save_one {A} `{Table A} (found : A → bool) (x : A) : M SettingsW unit :=
  save_rows found (λ existing, by_id (entity_id existing)) x.

(** [const [row] = select.where(found)] and the list of a tenant *)
Definition find_row {A} `{Table A} (found : A → bool) (d : SettingsDb) : option A :=
  toDomain <$> js_find found (scan (rows d)).
Definition tenant_rows {A} `{Table A} (tenant : string) (d : SettingsDb) : list A :=
  toDomain <$> js_filter (by_tenant tenant) (scan (rows d)).

Definition delete_row {A} (T : Table A) (id tenant : string) : M SettingsW unit :=
  modify (λ w, w <| db ::= λ d,
    with_rows (js_filter (λ r : A, negb (by_id id r && by_tenant tenant r)) (rows d)) d |>).
End statements.

(** ** The columns of each table *)
Section columns.
Context {HS : SettingsSql}.

(** [version || 1], the getter and the constructor *)
Definition version_or_1 (v : Z) : Z := if truthy v then v else 1.

Definition settings_columns (x : Tenants.TenantSettings) : result Tenants.TenantSettings :=
  if fits [(255, Tenants.tenantName x); (100, default "" (Tenants.industry x));
           (50, Tenants.timezone x); (10, Tenants.locale x);
           (50, default "" (Tenants.country x)); (10, Tenants.currency x);
           (255, default "" (Tenants.supportEmail x));
           (50, default "" (Tenants.supportPhone x));
           (255, default "" (Tenants.websiteUrl x)); (50, Tenants.status x)]
     && int4 (Tenants.version x)
  then Ok (x <| Tenants.industry ::= js_or_undef |> <| Tenants.country ::= js_or_undef |>
             <| Tenants.supportEmail ::= js_or_undef |>
             <| Tenants.supportPhone ::= js_or_undef |>
             <| Tenants.websiteUrl ::= js_or_undef |>
             <| Tenants.version ::= version_or_1 |>)
  else Throw column_error.
Definition settings_domain (r : Tenants.TenantSettings) : Tenants.TenantSettings :=
  r <| Tenants.industry ::= js_or_undef |> <| Tenants.country ::= js_or_undef |>
    <| Tenants.supportEmail ::= js_or_undef |> <| Tenants.supportPhone ::= js_or_undef |>
    <| Tenants.websiteUrl ::= js_or_undef |>
    <| Tenants.version ::= version_or_1 |>.

Definition branding_columns (x : Branding.BrandingSettings)
    : result Branding.BrandingSettings :=
  if fits [(500, default "" (Branding.logoUrl x)); (500, default "" (Branding.faviconUrl x));
           (20, Branding.primaryColor x); (20, Branding.secondaryColor x);
           (20, Branding.themeMode x)]
  then Ok (x <| Branding.logoUrl ::= js_or_undef |> <| Branding.faviconUrl ::= js_or_undef |>
             <| Branding.emailHeader ::= js_or_undef |>
             <| Branding.emailFooter ::= js_or_undef |>
             <| Branding.customCss ::= js_or_undef |>)
  else Throw column_error.
Definition branding_domain (r : Branding.BrandingSettings) : Branding.BrandingSettings :=
  r <| Branding.logoUrl ::= js_or_undef |> <| Branding.faviconUrl ::= js_or_undef |>
    <| Branding.emailHeader ::= js_or_undef |> <| Branding.emailFooter ::= js_or_undef |>
    <| Branding.customCss ::= js_or_undef |>.

Definition preferences_columns (x : Preferences.TenantPreferences)
    : result Preferences.TenantPreferences :=
  if fits [(50, Preferences.theme x)] && int4 (Preferences.autoResolveDays x)
     && int4 (Preferences.autoCloseDays x)
  then Ok x else Throw column_error.

Definition hours_columns (x : Hours.BusinessHours) : result Hours.BusinessHours :=
  if fits [(8, Hours.startTime x); (8, Hours.endTime x); (50, Hours.timezone x)]
     && int4 (Hours.dayOfWeek x)
  then Ok x else Throw column_error.

Definition holiday_columns (x : Holidays.Holiday) : result Holidays.Holiday :=
  if fits [(255, Holidays.holidayName x); (50, default "" (Holidays.country x));
           (50, default "" (Holidays.region x))]
  then Ok (x <| Holidays.country ::= js_or_undef |> <| Holidays.region ::= js_or_undef |>)
  else Throw column_error.
Definition holiday_domain (r : Holidays.Holiday) : Holidays.Holiday :=
  r <| Holidays.country ::= js_or_undef |> <| Holidays.region ::= js_or_undef |>.

Definition flag_columns (x : Flags.FeatureFlag) : result Flags.FeatureFlag :=
  if fits [(100, Flags.featureKey x)] && int4 (Flags.rolloutPercentage x)
  then Ok x else Throw column_error.

(** [ai.costLimitDaily ? String(ai.costLimitDaily) : null] in a [numeric(10, 2)]. *)
Definition cost_column (c : option Q) : result (option Q) :=
  match js_or_undef c with
  | None => Ok None
  | Some q => match numeric_10_2 q with
              | Some q' => Ok (Some q')
              | None => Throw column_error
              end
  end.
Definition ai_columns (x : Ai.AiSettings) : result Ai.AiSettings :=
  if fits [(255, default "" (Ai.defaultAgent x)); (10, Ai.defaultLanguage x)] then
    match cost_column (Ai.costLimitDaily x), cost_column (Ai.costLimitMonthly x) with
    | Ok daily, Ok monthly =>
        Ok (x <| Ai.defaultAgent ::= js_or_undef |> <| Ai.costLimitDaily := daily |>
              <| Ai.costLimitMonthly := monthly |>)
    | Throw e, _ | _, Throw e => Throw e
    end
  else Throw column_error.
(** A numeric column is read as a text, which is never empty. *)
Definition ai_domain (r : Ai.AiSettings) : Ai.AiSettings :=
  r <| Ai.defaultAgent ::= js_or_undef |>.

Definition channel_columns (x : Channels.ChannelSettings) : result Channels.ChannelSettings :=
  if fits [(50, Channels.channelType x)] then Ok x else Throw column_error.

Definition sla_columns (x : Sla.SlaSettings) : result Sla.SlaSettings :=
  if int4 (Sla.responseTimeTarget x) && int4 (Sla.resolutionTimeTarget x)
     && int4 (Sla.escalationTimeTarget x)
  then Ok x else Throw column_error.

Definition security_columns (x : Security.SecuritySettings)
    : result Security.SecuritySettings :=
  if int4 (Security.sessionTimeout x) && int4 (Security.apiKeyRotationDays x)
     && int4 (Security.auditRetentionDays x)
  then Ok x else Throw column_error.

Definition widget_columns (x : Widget.WidgetSettings) : result Widget.WidgetSettings :=
  if fits [(255, Widget.widgetName x); (20, Widget.widgetColor x);
           (50, Widget.widgetPosition x); (500, default "" (Widget.avatarUrl x))]
  then Ok (x <| Widget.welcomeMessage ::= js_or_undef |>
             <| Widget.offlineMessage ::= js_or_undef |>
             <| Widget.avatarUrl ::= js_or_undef |> <| Widget.customCss ::= js_or_undef |>
             <| Widget.customJs ::= js_or_undef |>)
  else Throw column_error.
Definition widget_domain (r : Widget.WidgetSettings) : Widget.WidgetSettings :=
  r <| Widget.welcomeMessage ::= js_or_undef |> <| Widget.offlineMessage ::= js_or_undef |>
    <| Widget.avatarUrl ::= js_or_undef |> <| Widget.customCss ::= js_or_undef |>
    <| Widget.customJs ::= js_or_undef |>.

Definition limits_columns (x : Limits.UsageLimits) : result Limits.UsageLimits :=
  if every int4 [Limits.maxAgents x; Limits.maxConversations x; Limits.maxMessages x;
                 Limits.maxWorkflows x; Limits.maxConnectors x; Limits.maxDocuments x;
                 Limits.maxAiRequests x]
     && int8 (Limits.maxStorage x)
  then Ok x else Throw column_error.
End columns.

Section tables.
Context {HS : SettingsSql} {HJ : JsonNumber}.

#[global] Instance settings_table : Table Tenants.TenantSettings :=
  {| rows := tenantSettings; with_rows l d := d <| tenantSettings := l |>;
     columns := settings_columns; toDomain := settings_domain; unique_index _ _ := false |}.
#[global] Instance branding_table : Table Branding.BrandingSettings :=
  {| rows := tenantBranding; with_rows l d := d <| tenantBranding := l |>;
     columns := branding_columns; toDomain := branding_domain; unique_index _ _ := false |}.
#[global] Instance preferences_table : Table Preferences.TenantPreferences :=
  {| rows := tenantPreferences; with_rows l d := d <| tenantPreferences := l |>;
     columns := preferences_columns; toDomain x := x; unique_index _ _ := false |}.
#[global] Instance hours_table : Table Hours.BusinessHours :=
  {| rows := tenantBusinessHours; with_rows l d := d <| tenantBusinessHours := l |>;
     columns := hours_columns; toDomain x := x; unique_index _ _ := false |}.
#[global] Instance holidays_table : Table Holidays.Holiday :=
  {| rows := tenantHolidays; with_rows l d := d <| tenantHolidays := l |>;
     columns := holiday_columns; toDomain := holiday_domain; unique_index _ _ := false |}.
#[global] Instance flags_table : Table Flags.FeatureFlag :=
  {| rows := tenantFeatureFlags; with_rows l d := d <| tenantFeatureFlags := l |>;
     columns := flag_columns; toDomain x := x;
     unique_index x y := by_tenant (entity_tenantId x) y
       && String.eqb (Flags.featureKey y) (Flags.featureKey x) |}.
#[global] Instance ai_table : Table Ai.AiSettings :=
  {| rows := tenantAiSettings; with_rows l d := d <| tenantAiSettings := l |>;
     columns := ai_columns; toDomain := ai_domain; unique_index _ _ := false |}.
#[global] Instance channels_table : Table Channels.ChannelSettings :=
  {| rows := tenantChannelSettings; with_rows l d := d <| tenantChannelSettings := l |>;
     columns := channel_columns; toDomain x := x;
     unique_index x y := by_tenant (entity_tenantId x) y
       && String.eqb (Channels.channelType y) (Channels.channelType x) |}.
#[global] Instance notifications_table : Table Notifications.NotificationSettings :=
  {| rows := tenantNotificationSettings;
     with_rows l d := d <| tenantNotificationSettings := l |>;
     columns := Ok; toDomain x := x; unique_index _ _ := false |}.
#[global] Instance sla_table : Table Sla.SlaSettings :=
  {| rows := tenantSlaSettings; with_rows l d := d <| tenantSlaSettings := l |>;
     columns := sla_columns; toDomain x := x; unique_index _ _ := false |}.
#[global] Instance security_table : Table Security.SecuritySettings :=
  {| rows := tenantSecuritySettings; with_rows l d := d <| tenantSecuritySettings := l |>;
     columns := security_columns; toDomain x := x; unique_index _ _ := false |}.
#[global] Instance widget_table : Table Widget.WidgetSettings :=
  {| rows := tenantWidgetSettings; with_rows l d := d <| tenantWidgetSettings := l |>;
     columns := widget_columns; toDomain := widget_domain; unique_index _ _ := false |}.
#[global] Instance limits_table : Table Limits.UsageLimits :=
  {| rows := tenantUsageLimits; with_rows l d := d <| tenantUsageLimits := l |>;
     columns := limits_columns; toDomain x := x; unique_index _ _ := false |}.
End tables.

(** ** [DrizzleSettingsRepository] *)
Section repository.
Context {HE : Env} {HS : SettingsSql} {HJ : JsonNumber}.

Definition saveSettings (x : Tenants.TenantSettings) := save_of_tenant x.
Definition getSettingsByTenant (tenant : string) : SettingsDb → option Tenants.TenantSettings :=
  find_row (by_tenant tenant).

Definition saveBranding (x : Branding.BrandingSettings) := save_of_tenant x.
Definition getBranding (tenant : string) : SettingsDb → option Branding.BrandingSettings :=
  find_row (by_tenant tenant).

Definition savePreferences (x : Preferences.TenantPreferences) := save_of_tenant x.
Definition getPreferences (tenant : string)
    : SettingsDb → option Preferences.TenantPreferences := find_row (by_tenant tenant).

Definition saveBusinessHours (x : Hours.BusinessHours) :=
  save_one (λ r, by_tenant (Hours.tenantId x) r && (Hours.dayOfWeek r =? Hours.dayOfWeek x)) x.
Definition getBusinessHours (tenant : string) : SettingsDb → list Hours.BusinessHours :=
  tenant_rows tenant.
Definition deleteBusinessHours (id tenant : string) := delete_row hours_table id tenant.

Definition saveHoliday (x : Holidays.Holiday) :=
  save_one (λ r, by_id (Holidays.id x) r && by_tenant (Holidays.tenantId x) r) x.
Definition getHolidays (tenant : string) : SettingsDb → list Holidays.Holiday :=
  tenant_rows tenant.
Definition deleteHoliday (id tenant : string) := delete_row holidays_table id tenant.

Definition saveFeatureFlag (x : Flags.FeatureFlag) :=
  save_one (λ r, by_tenant (Flags.tenantId x) r
    && String.eqb (Flags.featureKey r) (Flags.featureKey x)) x.
Definition getFeatureFlags (tenant : string) : SettingsDb → list Flags.FeatureFlag :=
  tenant_rows tenant.
Definition getFeatureFlagByKey (tenant key : string) : SettingsDb → option Flags.FeatureFlag :=
  find_row (λ r, by_tenant tenant r && String.eqb (Flags.featureKey r) key).
Definition deleteFeatureFlag (id tenant : string) := delete_row flags_table id tenant.

Definition saveAiSettings (x : Ai.AiSettings) := save_of_tenant x.
Definition getAiSettings (tenant : string) : SettingsDb → option Ai.AiSettings :=
  find_row (by_tenant tenant).

Definition saveChannelSettings (x : Channels.ChannelSettings) :=
  save_one (λ r, by_tenant (Channels.tenantId x) r
    && String.eqb (Channels.channelType r) (Channels.channelType x)) x.
Definition getChannelSettings (tenant : string) : SettingsDb → list Channels.ChannelSettings :=
  tenant_rows tenant.
Definition getChannelSettingsByType (tenant type : string)
    : SettingsDb → option Channels.ChannelSettings :=
  find_row (λ r, by_tenant tenant r && String.eqb (Channels.channelType r) type).

Definition saveNotificationSettings (x : Notifications.NotificationSettings) := save_of_tenant x.
Definition getNotificationSettings (tenant : string)
    : SettingsDb → option Notifications.NotificationSettings := find_row (by_tenant tenant).

Definition saveSlaSettings (x : Sla.SlaSettings) := save_of_tenant x.
Definition getSlaSettings (tenant : string) : SettingsDb → option Sla.SlaSettings :=
  find_row (by_tenant tenant).

Definition saveSecuritySettings (x : Security.SecuritySettings) := save_of_tenant x.
Definition getSecuritySettings (tenant : string)
    : SettingsDb → option Security.SecuritySettings := find_row (by_tenant tenant).

Definition saveWidgetSettings (x : Widget.WidgetSettings) := save_of_tenant x.
Definition getWidgetSettings (tenant : string) : SettingsDb → option Widget.WidgetSettings :=
  find_row (by_tenant tenant).

Definition saveUsageLimits (x : Limits.UsageLimits) := save_of_tenant x.
Definition getUsageLimits (tenant : string) : SettingsDb → option Limits.UsageLimits :=
  find_row (by_tenant tenant).
End repository.
