(* ===== verification/SettingsEngine.v ===== *)
(** * Feature flags and business hours

    [src/modules/settings/engines]: the feature flag engine with its Redis cache,
    and the business hours engine.  Both read the settings tables; the engines do
    not write them.  Keys of Redis stay until they are deleted: their expiry (a minute
    for a flag) is not modelled. *)

From S2P Require Import Prelude Platform JsDate JsValue Settings SettingsRepo.
Open Scope Z_scope.

(** ** [FeatureFlagEngine] *)

(** [ToInt32] and [x << n]. *)
Definition to_int32 (z : Z) : Z := (z + 2 ^ 31) mod 2 ^ 32 - 2 ^ 31.
Definition shl32 (z n : Z) : Z := to_int32 (Z.shiftl (to_int32 z) n).

(** The hash is a number, it is not wrapped: [hash_exact] shows that it is an
    integer a double holds exactly. *)
Definition hash_step (hash : Z) (c : ascii) : Z :=
  Z.of_N (Ascii.N_of_ascii c) + (shl32 hash 5 - hash).
Definition hash_of (id : string) : Z :=
  foldl hash_step 0 (String.list_ascii_of_string id).

(** [Math.abs(hash % 100)], the remainder with the sign of the hash. *)
Definition getDeterministicPercentage (id : string) : Z := Z.abs (Z.rem (hash_of id) 100).

(** The environment of the process. *)
Class ProcessEnv := process_env : string → option string.

Definition flag_key (tenant featureKey : string) : string :=
  "settings:flags:" +:+ tenant +:+ ":" +:+ featureKey.
Definition bool_text (b : bool) : string := if b then "true" else "false".

Section flags.
Context {HS : SettingsSql} {HJ : JsonNumber} {HP : ProcessEnv}.

(** Redis commands; without a connection they throw. *)
Definition redis_down : exn :=
  Exn JsError "Reached the max retries per request limit (which is 20).".
Definition redis_command {A} (f : gmap string string → A * gmap string string)
    : M SettingsW A := λ w,
  match redis (db w) with
  | None => (Throw redis_down, w)
  | Some s => let '(a, s') := f s in (Ok a, w <| db ::= λ d, d <| redis := Some s' |> |>)
  end.
Definition redis_get (key : string) : M SettingsW (option string) :=
  redis_command (λ s, (s !! key, s)).
Definition redis_set (key value : string) : M SettingsW unit :=
  redis_command (λ s, (tt, <[key := value]> s)).
Definition redis_del (key : string) : M SettingsW unit :=
  redis_command (λ s, (tt, base.delete key s)).

(** What the engine catches is logged. *)
Definition logged {A} (m : M SettingsW A) (a : A) : M SettingsW A :=
  try_catch m (λ _, mret a).

(** The percentage roll-out of a flag that is on. *)
Definition rolled_out (flag : Flags.FeatureFlag) (userId : option string) (tenant : string)
    : bool :=
  if Flags.enabled flag && (Flags.rolloutPercentage flag <? 100) then
    getDeterministicPercentage (js_or userId tenant) <? Flags.rolloutPercentage flag
  else Flags.enabled flag.

Definition resolveFlag (tenant featureKey : string) (userId : option string)
    : M SettingsW bool :=
  match process_env ("FEATURE_FLAG_" +:+ js_upper featureKey) with
  | Some v => mret (String.eqb v "true")
  | None =>
      cached ← logged (redis_get (flag_key tenant featureKey)) None;
      match cached with
      | Some v => mret (String.eqb v "true")
      | None =>
          flag ← gets (λ w, getFeatureFlagByKey tenant featureKey (db w));
          match flag with
          | None => mret false
          | Some flag =>
              let resolved := rolled_out flag userId tenant in
              logged (redis_set (flag_key tenant featureKey) (bool_text resolved)) tt ;;
              mret resolved
          end
      end
  end.

Definition invalidateCache (tenant featureKey : string) : M SettingsW unit :=
  logged (redis_del (flag_key tenant featureKey)) tt.
End flags.

(** ** Dates in the time of the server

    [to_local] is the local wall clock of an instant, as the time value a UTC clock
    would show; [of_local] is the instant of a wall clock. *)
Class LocalTime := {
  to_local : Z → Z;
  of_local : Z → Z;
}.

Section business_hours.
Context {HL : LocalTime} {HS : SettingsSql}.
Implicit Types (t : Z) (holidays : list Holidays.Holiday) (hours : list Hours.BusinessHours).

Definition local_day t : Z := to_local t / ms_per_day.
(** [getDay()]; [getFullYear()], [getMonth()] and [getDate()] together *)
Definition getDay t : Z := (local_day t + 4) mod 7.
Definition local_date t : Z * Z * Z := civil_from_days (local_day t).
(** [setHours(h, m, s, 0)] *)
Definition setHours t (h m s : Z) : Z :=
  of_local (local_day t * ms_per_day + h * ms_per_hour + m * ms_per_minute + s * 1000).
(** [setDate(getDate() + 1)] *)
Definition next_date t : Z := of_local (to_local t + ms_per_day).
Definition next_midnight t : Z := setHours (next_date t) 0 0 0.

(** [isHoliday] *)
Definition holiday_on t (h : Holidays.Holiday) : bool :=
  let '(year, month, day) := local_date t in
  let '(hy, hm, hd) := local_date (Holidays.holidayDate h) in
  (hd =? day) && (hm =? month) && (Holidays.isRecurring h || (hy =? year)).
Definition isHoliday (tenant : string) t (d : SettingsDb) : bool :=
  some (holiday_on t) (getHolidays tenant d).

(** [parseInt(x, 10)]: [None] is [NaN]. *)
Definition parseInt (s : string) : option Z :=
  let '(neg, l) := signed (String.list_ascii_of_string (trim_start s)) in
  let '(value, count, _) := digits 10 0 0 l in
  match count with
  | O => None
  | _ => Some (if neg then - value else value)
  end.

(** [getDateWithTime]: [None] is an invalid date. *)
Definition getDateWithTime t (timeStr : string) : option Z :=
  let parts := parseInt <$> split_char ":"%char timeStr in
  match mjoin (parts !! 0%nat), mjoin (parts !! 1%nat) with
  | Some hh, Some mm => Some (setHours t hh mm (default 0 (mjoin (parts !! 2%nat))))
  | _, _ => None
  end.

(** [getTimeString] *)
Definition getTimeString t : string :=
  let ms := to_local t mod ms_per_day in
  pad 2 (ms / ms_per_hour) +:+ ":" +:+ pad 2 (ms / ms_per_minute mod 60)
  +:+ ":" +:+ pad 2 (ms / 1000 mod 60).

Definition hours_of_day t hours : option Hours.BusinessHours :=
  js_find (λ h, Hours.dayOfWeek h =? getDay t) hours.

(** The hours of the day of an open day. *)
Definition open_day t hours : option Hours.BusinessHours :=
  match hours_of_day t hours with
  | Some h => if Hours.isOpen h then Some h else None
  | None => None
  end.

Definition isOpenNow (tenant : string) t (d : SettingsDb) : bool :=
  if isHoliday tenant t d then false
  else match open_day t (getBusinessHours tenant d) with
       | None => false
       | Some h => String.leb (Hours.startTime h) (getTimeString t)
                   && String.leb (getTimeString t) (Hours.endTime h)
       end.

(** Comparisons of dates are false when one of them is invalid. *)
Definition date_lt (a b : option Z) : bool :=
  match a, b with Some a, Some b => a <? b | _, _ => false end.

(** The loop of [nextOpenTime] over at most [n] days. *)
Fixpoint next_open (n : nat) holidays hours (date checkDate : Z) : option (option Z) :=
  match n with
  | O => None
  | S n' =>
      let later := next_open n' holidays hours date (next_date checkDate) in
      if some (holiday_on checkDate) holidays then later
      else match open_day checkDate hours with
           | None => later
           | Some h =>
               let openDate := getDateWithTime checkDate (Hours.startTime h) in
               if date_lt (Some date) openDate
                  || date_lt (Some date) (getDateWithTime checkDate (Hours.endTime h))
               then Some openDate else later
           end
  end.

Definition nextOpenTime (tenant : string) (date : Z) (d : SettingsDb) : option (option Z) :=
  let hours := getBusinessHours tenant d in
  match hours with
  | [] => None
  | _ => next_open 30 (getHolidays tenant d) hours date date
  end.

(** The loop of [calculateBusinessTime].  Every round counts one for [daysSafety],
    so the fuel is what is left of its bound.  [remaining] is counted in
    milliseconds, [None] is [NaN]. *)
Fixpoint business_loop (fuel : nat) holidays hours (current : Z) (remaining : option Z) : Z :=
  match fuel, remaining with
  | O, _ | _, None => current
  | S fuel', Some rest =>
      if rest <=? 0 then current
      else
        let skip := business_loop fuel' holidays hours (next_midnight current) remaining in
        if some (holiday_on current) holidays then skip
        else match open_day current hours with
             | None => skip
             | Some h =>
                 let openTime := getDateWithTime current (Hours.startTime h) in
                 let closeTime := getDateWithTime current (Hours.endTime h) in
                 let start := if date_lt (Some current) openTime
                              then default current openTime else current in
                 if date_lt (Some start) closeTime then
                   let window := default 0 closeTime - start in
                   if rest <=? window then start + rest
                   else business_loop fuel' holidays hours (next_midnight start)
                          (Some (rest - window))
                 else match closeTime with
                      | Some _ => business_loop fuel' holidays hours (next_midnight start) remaining
                      | None => next_midnight start
                      end
             end
  end.

Definition daysSafety : nat := 60.

Definition calculateBusinessTime (tenant : string) (startDate durationSeconds : Z)
    (d : SettingsDb) : Z :=
  match getBusinessHours tenant d with
  | [] => startDate + durationSeconds * 1000
  | hours => business_loop daysSafety (getHolidays tenant d) hours startDate
               (Some (durationSeconds * 1000))
  end.
End business_hours.
