(* ===== verification/SettingsService.v ===== *)
(** * Tenant settings: the services

    [src/modules/settings/services] and the queue processor: one module per
    service, over the repository and the engines.  [uuidv4()] is the same source
    of identifiers as [randomUUID()].  The billing and IAM services and the mail
    service are parameters. *)

From Stdlib Require Import QArith.
From S2P Require Import Prelude Platform JsDate JsValue Settings SettingsRepo SettingsEngine.
Open Scope Z_scope.

(** What the services call outside the module: the quotas of the plan of a tenant
    ([status?.subscription?.plan?.metadata?.quotas]), the addresses of its
    administrators, and the mail service, which does not write settings. *)
Class SettingsDeps := {
  plan_quotas : string → result (option json);
  tenant_admins : string → result (list (option string));
  sendEmail : string → string → string → Z → Z → string → M SettingsW unit;
  JSON_stringify : json → string;
  Date_parse : string → Z;
  sendEmail_db t a r u l n : keeps (same db) (sendEmail t a r u l n);
}.
#[export] Hint Resolve sendEmail_db : keeps.

(** [d !== undefined ? d : old] for a key that may be missing from the object too,
    and [d || old] for objects and arrays, which are always true. *)
Definition kept {A} (d old : option A) : option A :=
  match d with Some a => Some a | None => old end.

Section publisher.
Context {HE : Env}.

(** [SettingsEventPublisher.publish] *)
Definition publish (tenant eventName : string) (payload : json) : M SettingsW unit :=
  let data := [("tenantId", JStr tenant); ("eventName", JStr eventName); ("payload", payload)] in
  let flagKey := match payload with JObj l => field "featureKey" l | _ => None end in
  try_catch
    (addJob SETTINGS "settings-sync-job" data (λ o, o) ;;
     addJob SETTINGS "settings-audit-job" data (λ o, o) ;;
     when (String.eqb eventName "feature_flag.updated")
       (addJob SETTINGS "feature-flag-refresh-job"
          (("tenantId", JStr tenant) :: match flagKey with
             | Some k => [("flagKey", k)]
             | None => []
             end) (λ o, o)) ;;
     when (String.eqb eventName "usage_limit.updated")
       (addJob SETTINGS "usage-limit-job" [("tenantId", JStr tenant)] (λ o, o)))
    (λ _, mret tt).

(** [new X(uuidv4(), {...})] without dates. *)
Definition construct {A} (new : string → Z → Z → A) : M SettingsW A :=
  id ← randomUUID;
  created ← new_Date;
  updated ← new_Date;
  mret (new id created updated).

(** [let x = get(); if (!x) { x = new X(...); save(x) } return x] *)
Definition get_or_create {A} (get : SettingsDb → option A) (new : string → Z → Z → A)
    (save : A → M SettingsW unit) : M SettingsW A :=
  found ← gets (λ w, get (db w));
  match found with
  | Some x => mret x
  | None => x ← construct new; save x ;; mret x
  end.

(** [save(x); publish(event, x.toJSON()); return x] *)
Definition store {A} `{Entity A} (save : A → M SettingsW unit) (tenant event : string)
    (x : A) : M SettingsW A :=
  save x ;; publish tenant event (entity_json x) ;; mret x.
End publisher.

(** ** [TenantSettingsService] *)
Module TenantSettingsService.
Record CreateTenantSettingsDto := {
  tenantName : string;
  industry : option string;
  timezone : option string;
  locale : option string;
  country : option string;
  currency : option string;
  supportEmail : option string;
  supportPhone : option string;
  websiteUrl : option string;
  metadata : option (gmap string json);
}.
Record UpdateTenantSettingsDto := {
  u_tenantName : option string;
  u_industry : option string;
  u_timezone : option string;
  u_locale : option string;
  u_country : option string;
  u_currency : option string;
  u_supportEmail : option string;
  u_supportPhone : option string;
  u_websiteUrl : option string;
  u_status : option string;
  u_metadata : option (gmap string json);
}.

Definition settings_of (tenant : string) (dto : CreateTenantSettingsDto)
    (id : string) (created updated : Z) : Tenants.TenantSettings :=
  {| Tenants.id := id; Tenants.tenantId := tenant; Tenants.tenantName := tenantName dto;
     Tenants.industry := industry dto; Tenants.timezone := js_or (timezone dto) "UTC";
     Tenants.locale := js_or (locale dto) "en"; Tenants.country := country dto;
     Tenants.currency := js_or (currency dto) "USD";
     Tenants.supportEmail := supportEmail dto; Tenants.supportPhone := supportPhone dto;
     Tenants.websiteUrl := websiteUrl dto; Tenants.status := "ACTIVE";
     Tenants.metadata := default ∅ (metadata dto); Tenants.createdAt := created;
     Tenants.updatedAt := updated; Tenants.version := 1 |}.

Definition default_workspace : CreateTenantSettingsDto :=
  {| tenantName := "Default Workspace"; industry := None; timezone := Some "UTC";
     locale := Some "en"; country := None; currency := Some "USD"; supportEmail := None;
     supportPhone := None; websiteUrl := None; metadata := None |}.

(** The keys of the patch: what the request has, else what the settings have. *)
Definition patch (dto : UpdateTenantSettingsDto) (s this : Tenants.TenantSettings)
    : Tenants.TenantSettings :=
  this <| Tenants.tenantName := js_or (u_tenantName dto) (Tenants.tenantName s) |>
    <| Tenants.industry := kept (u_industry dto) (Tenants.industry s) |>
    <| Tenants.timezone := js_or (u_timezone dto) (Tenants.timezone s) |>
    <| Tenants.locale := js_or (u_locale dto) (Tenants.locale s) |>
    <| Tenants.country := kept (u_country dto) (Tenants.country s) |>
    <| Tenants.currency := js_or (u_currency dto) (Tenants.currency s) |>
    <| Tenants.supportEmail := kept (u_supportEmail dto) (Tenants.supportEmail s) |>
    <| Tenants.supportPhone := kept (u_supportPhone dto) (Tenants.supportPhone s) |>
    <| Tenants.websiteUrl := kept (u_websiteUrl dto) (Tenants.websiteUrl s) |>
    <| Tenants.status := js_or (u_status dto) (Tenants.status s) |>
    <| Tenants.metadata := default (Tenants.metadata s) (u_metadata dto) |>.

Section service.
Context {HE : Env} {HS : SettingsSql} {HJ : JsonNumber}.

Definition createSettings (tenant : string) (dto : CreateTenantSettingsDto)
    : M SettingsW Tenants.TenantSettings :=
  s ← construct (settings_of tenant dto);
  store saveSettings tenant "settings.updated" s.

Definition getSettings (tenant : string) : M SettingsW Tenants.TenantSettings :=
  found ← gets (λ w, getSettingsByTenant tenant (db w));
  match found with
  | Some s => mret s
  | None => createSettings tenant default_workspace
  end.

Definition updateSettings (tenant : string) (dto : UpdateTenantSettingsDto)
    : M SettingsW Tenants.TenantSettings :=
  s ← getSettings tenant;
  now ← new_Date;
  store saveSettings tenant "settings.updated" (Tenants.update now (patch dto s) s).
End service.
End TenantSettingsService.

(** ** [BrandingService] *)
Module BrandingService.
Record UpdateBrandingDto := {
  logoUrl : option string;
  faviconUrl : option string;
  primaryColor : option string;
  secondaryColor : option string;
  themeMode : option string;
  emailHeader : option string;
  emailFooter : option string;
  customCss : option string;
}.

Definition defaults (tenant id : string) (created updated : Z) : Branding.BrandingSettings :=
  {| Branding.id := id; Branding.tenantId := tenant; Branding.logoUrl := None;
     Branding.faviconUrl := None; Branding.primaryColor := "#1A73E8";
     Branding.secondaryColor := "#E8F0FE"; Branding.themeMode := "LIGHT";
     Branding.emailHeader := None; Branding.emailFooter := None; Branding.customCss := None;
     Branding.createdAt := created; Branding.updatedAt := updated |}.

Definition patch (dto : UpdateBrandingDto) (b this : Branding.BrandingSettings)
    : Branding.BrandingSettings :=
  this <| Branding.logoUrl := kept (logoUrl dto) (Branding.logoUrl b) |>
    <| Branding.faviconUrl := kept (faviconUrl dto) (Branding.faviconUrl b) |>
    <| Branding.primaryColor := js_or (primaryColor dto) (Branding.primaryColor b) |>
    <| Branding.secondaryColor := js_or (secondaryColor dto) (Branding.secondaryColor b) |>
    <| Branding.themeMode := js_or (themeMode dto) (Branding.themeMode b) |>
    <| Branding.emailHeader := kept (emailHeader dto) (Branding.emailHeader b) |>
    <| Branding.emailFooter := kept (emailFooter dto) (Branding.emailFooter b) |>
    <| Branding.customCss := kept (customCss dto) (Branding.customCss b) |>.

Section service.
Context {HE : Env} {HS : SettingsSql}.

Definition getBranding (tenant : string) : M SettingsW Branding.BrandingSettings :=
  get_or_create (SettingsRepo.getBranding tenant) (defaults tenant) saveBranding.

Definition updateBranding (tenant : string) (dto : UpdateBrandingDto)
    : M SettingsW Branding.BrandingSettings :=
  b ← getBranding tenant;
  now ← new_Date;
  store saveBranding tenant "branding.updated" (update now (patch dto b) b).
End service.
End BrandingService.

(** ** [BusinessHoursService] *)
Module BusinessHoursService.
Record SaveBusinessHoursDto := {
  dayOfWeek : Z;
  startTime : string;
  endTime : string;
  isOpen : bool;
  timezone : string;
}.

Definition hours_of (tenant : string) (dto : SaveBusinessHoursDto) (id : string)
    (created updated : Z) : Hours.BusinessHours :=
  {| Hours.id := id; Hours.tenantId := tenant; Hours.dayOfWeek := dayOfWeek dto;
     Hours.startTime := startTime dto; Hours.endTime := endTime dto;
     Hours.isOpen := isOpen dto; Hours.timezone := timezone dto;
     Hours.createdAt := created; Hours.updatedAt := updated |}.

Definition nine_to_five (day : Z) : SaveBusinessHoursDto :=
  {| dayOfWeek := day; startTime := "09:00:00"; endTime := "17:00:00"; isOpen := true;
     timezone := "UTC" |}.

Section service.
Context {HE : Env} {HS : SettingsSql}.

Fixpoint provision (tenant : string) (days : list Z) : M SettingsW (list Hours.BusinessHours) :=
  match days with
  | [] => mret []
  | day :: days' =>
      h ← construct (hours_of tenant (nine_to_five day));
      SettingsRepo.saveBusinessHours h ;;
      hs ← provision tenant days';
      mret (h :: hs)
  end.

Definition getBusinessHours (tenant : string) : M SettingsW (list Hours.BusinessHours) :=
  l ← gets (λ w, SettingsRepo.getBusinessHours tenant (db w));
  match l with
  | [] => provision tenant [1; 2; 3; 4; 5]
  | _ => mret l
  end.

Definition saveBusinessHours (tenant : string) (dto : SaveBusinessHoursDto)
    : M SettingsW Hours.BusinessHours :=
  hoursList ← getBusinessHours tenant;
  hours ← match js_find (λ h, Hours.dayOfWeek h =? dayOfWeek dto) hoursList with
          | Some existing =>
              updated ← new_Date;
              mret (hours_of tenant dto (Hours.id existing) (Hours.createdAt existing) updated)
          | None => construct (hours_of tenant dto)
          end;
  store SettingsRepo.saveBusinessHours tenant "business_hours.updated" hours.

Definition deleteBusinessHours (tenant id : string) : M SettingsW unit :=
  SettingsRepo.deleteBusinessHours id tenant ;;
  publish tenant "business_hours.updated" (JObj [("id", JStr id); ("action", JStr "DELETED")]).
End service.
End BusinessHoursService.

(** ** [HolidayService] *)
Module HolidayService.
Record SaveHolidayDto := {
  holidayName : string;
  holidayDate : string;
  isRecurring : bool;
  country : option string;
  region : option string;
}.

Definition holiday_of (tenant : string) (dto : SaveHolidayDto) (date : Z) (id : string)
    (created updated : Z) : Holidays.Holiday :=
  {| Holidays.id := id; Holidays.tenantId := tenant; Holidays.holidayName := holidayName dto;
     Holidays.holidayDate := date; Holidays.isRecurring := isRecurring dto;
     Holidays.country := country dto; Holidays.region := region dto;
     Holidays.createdAt := created; Holidays.updatedAt := updated |}.

Section service.
Context {HE : Env} {HS : SettingsSql} {HD : SettingsDeps}.

Definition saveHoliday (tenant : string) (dto : SaveHolidayDto) : M SettingsW Holidays.Holiday :=
  l ← gets (λ w, getHolidays tenant (db w));
  let date := Date_parse (holidayDate dto) in
  let same_holiday h := String.eqb (js_lower (Holidays.holidayName h)) (js_lower (holidayName dto))
                        && (Holidays.holidayDate h =? date) in
  holiday ← match js_find same_holiday l with
            | Some existing =>
                updated ← new_Date;
                mret (holiday_of tenant dto date (Holidays.id existing)
                        (Holidays.createdAt existing) updated)
            | None => construct (holiday_of tenant dto date)
            end;
  store SettingsRepo.saveHoliday tenant "holiday.created" holiday.

Definition deleteHoliday (tenant id : string) : M SettingsW unit :=
  SettingsRepo.deleteHoliday id tenant ;;
  publish tenant "holiday.updated" (JObj [("id", JStr id); ("action", JStr "DELETED")]).
End service.
End HolidayService.

(** ** [FeatureFlagService] *)
Module FeatureFlagService.
Record SaveFeatureFlagDto := {
  featureKey : string;
  enabled : bool;
  rolloutPercentage : Z;
  configuration : option (gmap string json);
}.

Definition flag_of (tenant : string) (dto : SaveFeatureFlagDto) (conf : gmap string json)
    (id : string) (created updated : Z) : Flags.FeatureFlag :=
  {| Flags.id := id; Flags.tenantId := tenant; Flags.featureKey := featureKey dto;
     Flags.enabled := enabled dto; Flags.rolloutPercentage := rolloutPercentage dto;
     Flags.configuration := conf; Flags.createdAt := created; Flags.updatedAt := updated |}.

Section service.
Context {HE : Env} {HS : SettingsSql}.

Definition saveFeatureFlag (tenant : string) (dto : SaveFeatureFlagDto)
    : M SettingsW Flags.FeatureFlag :=
  existing ← gets (λ w, getFeatureFlagByKey tenant (featureKey dto) (db w));
  flag ← match existing with
         | Some old =>
             updated ← new_Date;
             mret (flag_of tenant dto (default (Flags.configuration old) (configuration dto))
                     (Flags.id old) (Flags.createdAt old) updated)
         | None => construct (flag_of tenant dto (default ∅ (configuration dto)))
         end;
  SettingsRepo.saveFeatureFlag flag ;;
  invalidateCache tenant (featureKey dto) ;;
  publish tenant "feature_flag.updated" (Flags.toJSON flag) ;;
  mret flag.

Definition deleteFeatureFlag (tenant id : string) : M SettingsW unit :=
  l ← gets (λ w, getFeatureFlags tenant (db w));
  match js_find (λ f, String.eqb (Flags.id f) id) l with
  | None => mret tt
  | Some old =>
      SettingsRepo.deleteFeatureFlag id tenant ;;
      invalidateCache tenant (Flags.featureKey old) ;;
      publish tenant "feature_flag.updated"
        (JObj [("id", JStr id); ("featureKey", JStr (Flags.featureKey old));
               ("action", JStr "DELETED")])
  end.
End service.
End FeatureFlagService.

(** ** [AiSettingsService] *)
Module AiSettingsService.
Record UpdateAiSettingsDto := {
  defaultAgent : option string;
  confidenceThreshold : option Q;
  escalationThreshold : option Q;
  allowedLanguages : option (list string);
  defaultLanguage : option string;
  autoResponseEnabled : option bool;
  autoEscalationEnabled : option bool;
  costLimitDaily : option Q;
  costLimitMonthly : option Q;
  modelConfiguration : option (gmap string json);
}.

Definition defaults (tenant id : string) (created updated : Z) : Ai.AiSettings :=
  {| Ai.id := id; Ai.tenantId := tenant; Ai.defaultAgent := None;
     Ai.confidenceThreshold := 7 # 10; Ai.escalationThreshold := 4 # 10;
     Ai.allowedLanguages := ["en"]; Ai.defaultLanguage := "en";
     Ai.autoResponseEnabled := true; Ai.autoEscalationEnabled := true;
     Ai.costLimitDaily := None; Ai.costLimitMonthly := None; Ai.modelConfiguration := ∅;
     Ai.createdAt := created; Ai.updatedAt := updated |}.

Definition patch (dto : UpdateAiSettingsDto) (s this : Ai.AiSettings) : Ai.AiSettings :=
  this <| Ai.defaultAgent := kept (defaultAgent dto) (Ai.defaultAgent s) |>
    <| Ai.confidenceThreshold := default (Ai.confidenceThreshold s) (confidenceThreshold dto) |>
    <| Ai.escalationThreshold := default (Ai.escalationThreshold s) (escalationThreshold dto) |>
    <| Ai.allowedLanguages := default (Ai.allowedLanguages s) (allowedLanguages dto) |>
    <| Ai.defaultLanguage := js_or (defaultLanguage dto) (Ai.defaultLanguage s) |>
    <| Ai.autoResponseEnabled := default (Ai.autoResponseEnabled s) (autoResponseEnabled dto) |>
    <| Ai.autoEscalationEnabled :=
         default (Ai.autoEscalationEnabled s) (autoEscalationEnabled dto) |>
    <| Ai.costLimitDaily := kept (costLimitDaily dto) (Ai.costLimitDaily s) |>
    <| Ai.costLimitMonthly := kept (costLimitMonthly dto) (Ai.costLimitMonthly s) |>
    <| Ai.modelConfiguration := default (Ai.modelConfiguration s) (modelConfiguration dto) |>.

Section service.
Context {HE : Env} {HS : SettingsSql} {HJ : JsonNumber}.

Definition getAiSettings (tenant : string) : M SettingsW Ai.AiSettings :=
  get_or_create (SettingsRepo.getAiSettings tenant) (defaults tenant) saveAiSettings.

Definition updateAiSettings (tenant : string) (dto : UpdateAiSettingsDto)
    : M SettingsW Ai.AiSettings :=
  s ← getAiSettings tenant;
  now ← new_Date;
  store saveAiSettings tenant "ai_settings.updated" (update now (patch dto s) s).
End service.
End AiSettingsService.

(** ** [ChannelSettingsService] *)
Module ChannelSettingsService.
Record UpdateChannelSettingsDto := {
  channelType : string;
  enabled : option bool;
  businessHoursOnly : option bool;
  autoAssignmentEnabled : option bool;
  configuration : option (gmap string json);
}.

Definition channel_of (tenant type : string) (on assign_ : bool) (id : string)
    (created updated : Z) : Channels.ChannelSettings :=
  {| Channels.id := id; Channels.tenantId := tenant; Channels.channelType := type;
     Channels.enabled := on; Channels.businessHoursOnly := false;
     Channels.autoAssignmentEnabled := assign_; Channels.configuration := ∅;
     Channels.createdAt := created; Channels.updatedAt := updated |}.

Definition patch (dto : UpdateChannelSettingsDto) (s this : Channels.ChannelSettings)
    : Channels.ChannelSettings :=
  this <| Channels.enabled := default (Channels.enabled s) (enabled dto) |>
    <| Channels.businessHoursOnly :=
         default (Channels.businessHoursOnly s) (businessHoursOnly dto) |>
    <| Channels.autoAssignmentEnabled :=
         default (Channels.autoAssignmentEnabled s) (autoAssignmentEnabled dto) |>
    <| Channels.configuration := default (Channels.configuration s) (configuration dto) |>.

Section service.
Context {HE : Env} {HS : SettingsSql}.

Definition getChannelSettings (tenant : string) : M SettingsW (list Channels.ChannelSettings) :=
  l ← gets (λ w, SettingsRepo.getChannelSettings tenant (db w));
  match l with
  | [] =>
      emailChan ← construct (channel_of tenant "EMAIL" true true);
      chatChan ← construct (channel_of tenant "WEB_CHAT" true true);
      saveChannelSettings emailChan ;;
      saveChannelSettings chatChan ;;
      mret [emailChan; chatChan]
  | _ => mret l
  end.

Definition getChannelSettingsByType (tenant type : string)
    : M SettingsW Channels.ChannelSettings :=
  get_or_create (SettingsRepo.getChannelSettingsByType tenant type)
    (channel_of tenant type false false) saveChannelSettings.

Definition updateChannelSettings (tenant : string) (dto : UpdateChannelSettingsDto)
    : M SettingsW Channels.ChannelSettings :=
  s ← getChannelSettingsByType tenant (channelType dto);
  now ← new_Date;
  store saveChannelSettings tenant "channel_settings.updated" (update now (patch dto s) s).
End service.
End ChannelSettingsService.

(** ** [NotificationSettingsService] *)
Module NotificationSettingsService.
Record UpdateNotificationSettingsDto := {
  emailEnabled : option bool;
  smsEnabled : option bool;
  pushEnabled : option bool;
  webhookEnabled : option bool;
  digestEnabled : option bool;
  configuration : option (gmap string json);
}.

Definition defaults (tenant id : string) (created updated : Z)
    : Notifications.NotificationSettings :=
  {| Notifications.id := id; Notifications.tenantId := tenant;
     Notifications.emailEnabled := true; Notifications.smsEnabled := false;
     Notifications.pushEnabled := false; Notifications.webhookEnabled := false;
     Notifications.digestEnabled := false; Notifications.configuration := ∅;
     Notifications.createdAt := created; Notifications.updatedAt := updated |}.

Definition patch (dto : UpdateNotificationSettingsDto)
    (s this : Notifications.NotificationSettings) : Notifications.NotificationSettings :=
  this <| Notifications.emailEnabled := default (Notifications.emailEnabled s) (emailEnabled dto) |>
    <| Notifications.smsEnabled := default (Notifications.smsEnabled s) (smsEnabled dto) |>
    <| Notifications.pushEnabled := default (Notifications.pushEnabled s) (pushEnabled dto) |>
    <| Notifications.webhookEnabled :=
         default (Notifications.webhookEnabled s) (webhookEnabled dto) |>
    <| Notifications.digestEnabled :=
         default (Notifications.digestEnabled s) (digestEnabled dto) |>
    <| Notifications.configuration :=
         default (Notifications.configuration s) (configuration dto) |>.

Section service.
Context {HE : Env} {HS : SettingsSql}.

Definition getNotificationSettings (tenant : string)
    : M SettingsW Notifications.NotificationSettings :=
  get_or_create (SettingsRepo.getNotificationSettings tenant) (defaults tenant)
    saveNotificationSettings.

Definition updateNotificationSettings (tenant : string) (dto : UpdateNotificationSettingsDto)
    : M SettingsW Notifications.NotificationSettings :=
  s ← getNotificationSettings tenant;
  now ← new_Date;
  store saveNotificationSettings tenant "settings.updated" (update now (patch dto s) s).
End service.
End NotificationSettingsService.

(** ** [SlaSettingsService] *)
Module SlaSettingsService.
Record UpdateSlaSettingsDto := {
  responseTimeTarget : option Z;
  resolutionTimeTarget : option Z;
  escalationTimeTarget : option Z;
  businessHoursOnly : option bool;
  configuration : option (gmap string json);
}.

Definition defaults (tenant id : string) (created updated : Z) : Sla.SlaSettings :=
  {| Sla.id := id; Sla.tenantId := tenant; Sla.responseTimeTarget := 3600;
     Sla.resolutionTimeTarget := 86400; Sla.escalationTimeTarget := 14400;
     Sla.businessHoursOnly := true; Sla.configuration := ∅; Sla.createdAt := created;
     Sla.updatedAt := updated |}.

Definition patch (dto : UpdateSlaSettingsDto) (s this : Sla.SlaSettings) : Sla.SlaSettings :=
  this <| Sla.responseTimeTarget := default (Sla.responseTimeTarget s) (responseTimeTarget dto) |>
    <| Sla.resolutionTimeTarget :=
         default (Sla.resolutionTimeTarget s) (resolutionTimeTarget dto) |>
    <| Sla.escalationTimeTarget :=
         default (Sla.escalationTimeTarget s) (escalationTimeTarget dto) |>
    <| Sla.businessHoursOnly := default (Sla.businessHoursOnly s) (businessHoursOnly dto) |>
    <| Sla.configuration := default (Sla.configuration s) (configuration dto) |>.

Section service.
Context {HE : Env} {HS : SettingsSql}.

Definition getSlaSettings (tenant : string) : M SettingsW Sla.SlaSettings :=
  get_or_create (SettingsRepo.getSlaSettings tenant) (defaults tenant) saveSlaSettings.

Definition updateSlaSettings (tenant : string) (dto : UpdateSlaSettingsDto)
    : M SettingsW Sla.SlaSettings :=
  s ← getSlaSettings tenant;
  now ← new_Date;
  store saveSlaSettings tenant "sla_settings.updated" (update now (patch dto s) s).
End service.
End SlaSettingsService.

(** ** [SecuritySettingsService] *)
Module SecuritySettingsService.
Record UpdateSecuritySettingsDto := {
  sessionTimeout : option Z;
  ipWhitelist : option (list string);
  mfaRequired : option bool;
  apiKeyRotationDays : option Z;
  auditRetentionDays : option Z;
  configuration : option (gmap string json);
}.

Definition defaults (tenant id : string) (created updated : Z) : Security.SecuritySettings :=
  {| Security.id := id; Security.tenantId := tenant; Security.sessionTimeout := 3600;
     Security.ipWhitelist := []; Security.mfaRequired := false;
     Security.apiKeyRotationDays := 90; Security.auditRetentionDays := 365;
     Security.configuration := ∅; Security.createdAt := created;
     Security.updatedAt := updated |}.

Definition patch (dto : UpdateSecuritySettingsDto) (s this : Security.SecuritySettings)
    : Security.SecuritySettings :=
  this <| Security.sessionTimeout := default (Security.sessionTimeout s) (sessionTimeout dto) |>
    <| Security.ipWhitelist := default (Security.ipWhitelist s) (ipWhitelist dto) |>
    <| Security.mfaRequired := default (Security.mfaRequired s) (mfaRequired dto) |>
    <| Security.apiKeyRotationDays :=
         default (Security.apiKeyRotationDays s) (apiKeyRotationDays dto) |>
    <| Security.auditRetentionDays :=
         default (Security.auditRetentionDays s) (auditRetentionDays dto) |>
    <| Security.configuration := default (Security.configuration s) (configuration dto) |>.

Section service.
Context {HE : Env} {HS : SettingsSql}.

Definition getSecuritySettings (tenant : string) : M SettingsW Security.SecuritySettings :=
  get_or_create (SettingsRepo.getSecuritySettings tenant) (defaults tenant)
    saveSecuritySettings.

Definition updateSecuritySettings (tenant : string) (dto : UpdateSecuritySettingsDto)
    : M SettingsW Security.SecuritySettings :=
  s ← getSecuritySettings tenant;
  now ← new_Date;
  store saveSecuritySettings tenant "security_settings.updated" (update now (patch dto s) s).
End service.
End SecuritySettingsService.

(** ** [WidgetSettingsService] *)
Module WidgetSettingsService.
Record UpdateWidgetSettingsDto := {
  widgetName : option string;
  widgetColor : option string;
  widgetPosition : option string;
  welcomeMessage : option string;
  offlineMessage : option string;
  avatarUrl : option string;
  customCss : option string;
  customJs : option string;
}.

Definition defaults (tenant id : string) (created updated : Z) : Widget.WidgetSettings :=
  {| Widget.id := id; Widget.tenantId := tenant; Widget.widgetName := "Live Support";
     Widget.widgetColor := "#1A73E8"; Widget.widgetPosition := "BOTTOM_RIGHT";
     Widget.welcomeMessage := Some "Hello! How can we help you today?";
     Widget.offlineMessage := Some "We are currently offline. Please leave a message.";
     Widget.avatarUrl := None; Widget.customCss := None; Widget.customJs := None;
     Widget.createdAt := created; Widget.updatedAt := updated |}.

Definition patch (dto : UpdateWidgetSettingsDto) (s this : Widget.WidgetSettings)
    : Widget.WidgetSettings :=
  this <| Widget.widgetName := js_or (widgetName dto) (Widget.widgetName s) |>
    <| Widget.widgetColor := js_or (widgetColor dto) (Widget.widgetColor s) |>
    <| Widget.widgetPosition := js_or (widgetPosition dto) (Widget.widgetPosition s) |>
    <| Widget.welcomeMessage := kept (welcomeMessage dto) (Widget.welcomeMessage s) |>
    <| Widget.offlineMessage := kept (offlineMessage dto) (Widget.offlineMessage s) |>
    <| Widget.avatarUrl := kept (avatarUrl dto) (Widget.avatarUrl s) |>
    <| Widget.customCss := kept (customCss dto) (Widget.customCss s) |>
    <| Widget.customJs := kept (customJs dto) (Widget.customJs s) |>.

Section service.
Context {HE : Env} {HS : SettingsSql}.

Definition getWidgetSettings (tenant : string) : M SettingsW Widget.WidgetSettings :=
  get_or_create (SettingsRepo.getWidgetSettings tenant) (defaults tenant) saveWidgetSettings.

Definition updateWidgetSettings (tenant : string) (dto : UpdateWidgetSettingsDto)
    : M SettingsW Widget.WidgetSettings :=
  s ← getWidgetSettings tenant;
  now ← new_Date;
  store saveWidgetSettings tenant "settings.updated" (update now (patch dto s) s).
End service.
End WidgetSettingsService.

(** ** [UsageLimitService] *)
Module UsageLimitService.
Record UpdateUsageLimitsDto := {
  maxAgents : option Z;
  maxConversations : option Z;
  maxMessages : option Z;
  maxWorkflows : option Z;
  maxConnectors : option Z;
  maxDocuments : option Z;
  maxStorage : option Z;
  maxAiRequests : option Z;
}.

Definition defaults (tenant id : string) (created updated : Z) : Limits.UsageLimits :=
  {| Limits.id := id; Limits.tenantId := tenant; Limits.maxAgents := 10;
     Limits.maxConversations := 1000; Limits.maxMessages := 10000; Limits.maxWorkflows := 5;
     Limits.maxConnectors := 3; Limits.maxDocuments := 50; Limits.maxStorage := 1073741824;
     Limits.maxAiRequests := 5000; Limits.createdAt := created; Limits.updatedAt := updated |}.

Definition patch (dto : UpdateUsageLimitsDto) (l this : Limits.UsageLimits)
    : Limits.UsageLimits :=
  this <| Limits.maxAgents := default (Limits.maxAgents l) (maxAgents dto) |>
    <| Limits.maxConversations := default (Limits.maxConversations l) (maxConversations dto) |>
    <| Limits.maxMessages := default (Limits.maxMessages l) (maxMessages dto) |>
    <| Limits.maxWorkflows := default (Limits.maxWorkflows l) (maxWorkflows dto) |>
    <| Limits.maxConnectors := default (Limits.maxConnectors l) (maxConnectors dto) |>
    <| Limits.maxDocuments := default (Limits.maxDocuments l) (maxDocuments dto) |>
    <| Limits.maxStorage := default (Limits.maxStorage l) (maxStorage dto) |>
    <| Limits.maxAiRequests := default (Limits.maxAiRequests l) (maxAiRequests dto) |>.

(** [sanitizeQuotas]: a number of a JSON document is finite. *)
Definition quota (fields : list (string * json)) (key : string) : option Z :=
  match field key fields with
  | Some (JNum z) => if 0 <=? z then Some z else None
  | _ => None
  end.
Definition quotas_of (fields : list (string * json)) : UpdateUsageLimitsDto :=
  let q := quota fields in
  {| maxAgents := q "maxAgents"; maxConversations := q "maxConversations";
     maxMessages := q "maxMessages"; maxWorkflows := q "maxWorkflows";
     maxConnectors := q "maxConnectors"; maxDocuments := q "maxDocuments";
     maxStorage := q "maxStorage"; maxAiRequests := q "maxAiRequests" |}.
Definition quota_keys : list string :=
  ["maxAgents"; "maxConversations"; "maxMessages"; "maxWorkflows"; "maxConnectors";
   "maxDocuments"; "maxStorage"; "maxAiRequests"].
Definition sanitizeQuotas (quotas : option json) : option UpdateUsageLimitsDto :=
  match quotas with
  | Some (JObj fields) =>
      if some (λ k, bool_decide (is_Some (quota fields k))) quota_keys
      then Some (quotas_of fields) else None
  | _ => None
  end.

(** The resources a plan limits, and the ceiling of each. *)
Inductive Resource := conversations | connectors | aiRequests | agents | workflows | documents.
Definition resource_name (r : Resource) : string :=
  match r with
  | conversations => "conversations" | connectors => "connectors" | aiRequests => "aiRequests"
  | agents => "agents" | workflows => "workflows" | documents => "documents"
  end.
Definition limitByResource (r : Resource) (l : Limits.UsageLimits) : Z :=
  match r with
  | conversations => Limits.maxConversations l
  | connectors => Limits.maxConnectors l
  | aiRequests => Limits.maxAiRequests l
  | agents => Limits.maxAgents l
  | workflows => Limits.maxWorkflows l
  | documents => Limits.maxDocuments l
  end.
Definition limit_reached (r : Resource) (limit : Z) : exn :=
  Exn ForbiddenException ("You've reached your plan's " +:+ resource_name r +:+ " limit ("
    +:+ pretty limit +:+ "). Upgrade your plan or contact billing about overage charges to continue.").

Section service.
Context {HE : Env} {HS : SettingsSql} {HJ : JsonNumber} {HD : SettingsDeps}.

Definition throttle_key (tenant : string) : string := "billing-sync:" +:+ tenant.

Definition getOrCreateRawLimits (tenant : string) : M SettingsW Limits.UsageLimits :=
  get_or_create (SettingsRepo.getUsageLimits tenant) (defaults tenant) saveUsageLimits.

Definition updateUsageLimits (tenant : string) (dto : UpdateUsageLimitsDto)
    : M SettingsW Limits.UsageLimits :=
  l ← getOrCreateRawLimits tenant;
  now ← new_Date;
  store saveUsageLimits tenant "usage_limit.updated" (update now (patch dto l) l).

Definition maybeSyncFromBilling (tenant : string) : M SettingsW unit :=
  alreadySynced ← logged (redis_get (throttle_key tenant)) None;
  if truthy alreadySynced then mret tt
  else
    try_catch
      (quotas ← of_result (plan_quotas tenant);
       match sanitizeQuotas quotas with
       | Some sanitized => updateUsageLimits tenant sanitized ;; mret tt
       | None => mret tt
       end) (λ _, mret tt) ;;
    logged (redis_set (throttle_key tenant) "1") tt.

Definition getUsageLimits (tenant : string) : M SettingsW Limits.UsageLimits :=
  l ← getOrCreateRawLimits tenant;
  maybeSyncFromBilling tenant ;;
  fresh ← gets (λ w, SettingsRepo.getUsageLimits tenant (db w));
  mret (default l fresh).

(** The mail to the administrators that have an address, each on its own. *)
Definition notify_admins (tenant : string) (r : Resource) (currentUsage limit : Z)
    : M SettingsW unit :=
  admins ← of_result (tenant_admins tenant);
  settings ← TenantSettingsService.getSettings tenant;
  for_each (omap js_or_undef admins) (λ email,
    try_catch (sendEmail tenant email (resource_name r) currentUsage limit
                 (Tenants.tenantName settings)) (λ _, mret tt)).

Definition incident (tenant : string) (r : Resource) (currentUsage limit : Z)
    : M SettingsW unit :=
  addJob ADMIN "admin-incident-job"
    [("tenantId", JStr tenant); ("affectedService", JStr ("quota." +:+ resource_name r));
     ("title", JStr ("Tenant exceeded " +:+ resource_name r +:+ " plan limit"));
     ("severity", JStr "MEDIUM");
     ("description", JStr ("Tenant has reached " +:+ pretty currentUsage +:+ "/"
        +:+ pretty limit +:+ " " +:+ resource_name r +:+ ". The triggering action was blocked. "
        +:+ "Overage billing or a plan upgrade may be needed to raise this limit."))] (λ o, o).

Definition enforceLimit (tenant : string) (r : Resource) (currentUsage : Z) : M SettingsW unit :=
  limits ← getUsageLimits tenant;
  let limit := limitByResource r limits in
  if currentUsage <? limit then mret tt
  else
    try_catch (incident tenant r currentUsage limit) (λ _, mret tt) ;;
    try_catch (notify_admins tenant r currentUsage limit) (λ _, mret tt) ;;
    throw (limit_reached r limit).
End service.
End UsageLimitService.

(** ** [SettingsQueueProcessor] *)
Module SettingsQueueProcessor.
Section worker.
Context {HE : Env} {HS : SettingsSql} {HJ : JsonNumber} {HD : SettingsDeps}.

(** [job.data._tenantContext?.tenantId || job.data.tenantId]; as a filter, a
    missing tenant matches no row. *)
Definition tenant_of_job (job : Job) : string :=
  default "undefined" (match js_or_undef (job_tenant job) with
                       | Some t => Some t
                       | None => str_field "tenantId" (job_data job)
                       end).

Definition snapshot {A} `{Entity A} (key : string) (x : option A) : M SettingsW unit :=
  match x with
  | Some x => redis_set key (JSON_stringify (entity_json x))
  | None => mret tt
  end.

Definition handleJob (job : Job) : M SettingsW unit :=
  let tenant := tenant_of_job job in
  let name := job_name job in
  if String.eqb name "settings-sync-job" then
    s ← gets (λ w, getSettingsByTenant tenant (db w));
    snapshot ("settings:snapshot:" +:+ tenant) s
  else if String.eqb name "feature-flag-refresh-job" then
    redis_del (flag_key tenant (default "undefined" (str_field "flagKey" (job_data job))))
  else if String.eqb name "usage-limit-job" then
    l ← gets (λ w, getUsageLimits tenant (db w));
    snapshot ("settings:usage:" +:+ tenant) l
  else if String.eqb name "settings-audit-job" then
    audit_log tenant None (js_or (str_field "eventName" (job_data job)) "settings.updated")
      ("Settings updated (system-queue): "
       +:+ JSON_stringify (default (JObj []) (js_or_undef (field "payload" (job_data job)))))
  else throw (Exn JsError ("Unknown job name: " +:+ name)).
End worker.
End SettingsQueueProcessor.
