(* ===== verification/SettingsProofs.v ===== *)
(** * Properties of tenant settings *)

From Stdlib Require Import QArith.
From S2P Require Import Prelude Platform JsDate JsValue.
From S2P Require Import Settings SettingsRepo SettingsEngine SettingsService.
Open Scope Z_scope.

(** ** Tables

    What the tables have in common: a save keeps the identity of what it writes,
    and writing one table is reading it back. *)
Class TableLaws (A : Type) `{Table A} := {
  rows_with_rows (l : list A) d : rows (with_rows l d) = l;
  columns_id (x r : A) : columns x = Ok r → entity_id r = entity_id x;
  columns_tenant (x r : A) : columns x = Ok r → entity_tenantId r = entity_tenantId x;
  columns_createdAt (x r : A) : columns x = Ok r → entity_createdAt r = entity_createdAt x;
  columns_domain (x r : A) t : columns x = Ok r → toDomain (with_createdAt t r) = with_createdAt t r;
  domain_tenant (x : A) : entity_tenantId (toDomain x) = entity_tenantId x;
}.

Ltac solve_columns :=
  intros; simplify_eq/=;
  repeat match goal with
  | H : (if ?b then _ else _) = Ok _ |- _ => destruct b; [|done]
  | H : Ok _ = Ok _ |- _ => injection H as <-
  | H : match ?x with _ => _ end = Ok _ |- _ => destruct x
  end; try done; cbn; rewrite ?js_or_undef_idem; try done.

Section laws.
Context {HS : SettingsSql} {HJ : JsonNumber}.

Lemma version_or_1_idem v : version_or_1 (version_or_1 v) = version_or_1 v.
Proof. unfold version_or_1. destruct (truthy v) eqn:E; [by rewrite E|done]. Qed.

#[global] Instance settings_laws : TableLaws Tenants.TenantSettings.
Proof.
  split; unfold columns, settings_table, settings_columns, settings_domain; solve_columns.
  by rewrite version_or_1_idem.
Qed.
#[global] Instance branding_laws : TableLaws Branding.BrandingSettings.
Proof. split; unfold columns, branding_table, branding_columns, branding_domain; solve_columns. Qed.
#[global] Instance preferences_laws : TableLaws Preferences.TenantPreferences.
Proof. split; unfold columns, preferences_table, preferences_columns; solve_columns. Qed.
#[global] Instance hours_laws : TableLaws Hours.BusinessHours.
Proof. split; unfold columns, hours_table, hours_columns; solve_columns. Qed.
#[global] Instance holidays_laws : TableLaws Holidays.Holiday.
Proof. split; unfold columns, holidays_table, holiday_columns, holiday_domain; solve_columns. Qed.
#[global] Instance flags_laws : TableLaws Flags.FeatureFlag.
Proof. split; unfold columns, flags_table, flag_columns; solve_columns. Qed.
#[global] Instance ai_laws : TableLaws Ai.AiSettings.
Proof. split; unfold columns, ai_table, ai_columns, ai_domain; solve_columns. Qed.
#[global] Instance channels_laws : TableLaws Channels.ChannelSettings.
Proof. split; unfold columns, channels_table, channel_columns; solve_columns. Qed.
#[global] Instance notifications_laws : TableLaws Notifications.NotificationSettings.
Proof. split; unfold columns, notifications_table; solve_columns. Qed.
#[global] Instance sla_laws : TableLaws Sla.SlaSettings.
Proof. split; unfold columns, sla_table, sla_columns; solve_columns. Qed.
#[global] Instance security_laws : TableLaws Security.SecuritySettings.
Proof. split; unfold columns, security_table, security_columns; solve_columns. Qed.
#[global] Instance widget_laws : TableLaws Widget.WidgetSettings.
Proof. split; unfold columns, widget_table, widget_columns, widget_domain; solve_columns. Qed.
#[global] Instance limits_laws : TableLaws Limits.UsageLimits.
Proof. split; unfold columns, limits_table, limits_columns; solve_columns. Qed.
End laws.

(** What distinguishes the rows of a table: the tenant, and within a tenant the day,
    the channel type, the key of the flag or the id of the holiday. *)
Class TableKey (A : Type) `{TableLaws A} := {
  table_key : A → string * string;
  key_tenant x : (table_key x).1 = entity_tenantId x;
  key_columns x r : columns x = Ok r → table_key r = table_key x;
  key_createdAt t x : table_key (with_createdAt t x) = table_key x;
  key_updatedAt t x : table_key (with_updatedAt t x) = table_key x;
}.

(** Ids are distinct, and so are keys. *)
Definition wf_rows {A} `{TableKey A} (l : list A) : Prop :=
  NoDup (entity_id <$> l) ∧ NoDup (table_key <$> l).

Lemma nodup_fmap_inj {A B} (f : A → B) l x y :
  NoDup (f <$> l) → x ∈ l → y ∈ l → f x = f y → x = y.
Proof.
  intros Hn Hx Hy E. apply list_elem_of_lookup in Hx as [i Hi], Hy as [j Hj].
  assert (i = j) as ->; [|congruence].
  eapply (NoDup_lookup (f <$> l) i j (f x)); [done|by rewrite list_lookup_fmap, Hi|].
  by rewrite list_lookup_fmap, Hj, E.
Qed.

Section tables.
Context {HE : Env} {HS : SettingsSql}.
Context {A : Type} `{HK : TableKey A}.
Implicit Types (x y r e raw : A) (l : list A) (w : SettingsW).

Lemma distinct_rows_ids l : distinct_rows l = true → NoDup (entity_id <$> l).
Proof.
  induction l as [|x l IH]; cbn [distinct_rows]; [constructor|].
  intros [Hx Hl]%andb_true_iff. apply negb_true_iff in Hx.
  rewrite fmap_cons. constructor; [|by apply IH].
  intros (y & E & Hy)%list_elem_of_fmap.
  apply (proj1 (some_false _ _) Hx) in Hy. unfold clash, by_id in Hy.
  by rewrite E, String.eqb_refl in Hy.
Qed.

Lemma checked_inv l l' : checked l = Ok l' → l' = l ∧ NoDup (entity_id <$> l).
Proof.
  unfold checked. destruct (distinct_rows l) eqn:E; [|done].
  intros [= <-]. split; [done|by apply distinct_rows_ids].
Qed.

(** A search that matches one row finds it, in whatever order the table is scanned. *)
Lemma find_scan_some (p : A → bool) l e :
  js_find p (scan l) = Some e → e ∈ l ∧ p e = true.
Proof.
  unfold js_find. intros [Hin Hp]%find_some. split; [|done].
  by rewrite <- (scan_perm l), list_elem_of_In.
Qed.

Lemma find_scan_none (p : A → bool) l r :
  js_find p (scan l) = None → r ∈ l → p r = false.
Proof.
  intros Hn Hr. eapply find_none; [exact Hn|]. apply list_elem_of_In. by rewrite scan_perm.
Qed.

Lemma find_scan_unique (p : A → bool) l e :
  e ∈ l → p e = true → (∀ r, r ∈ l → p r = true → r = e) → js_find p (scan l) = Some e.
Proof.
  intros He Hp Hu. destruct (js_find p (scan l)) as [r|] eqn:E.
  - apply find_scan_some in E as [Hr Hpr]. f_equal. by apply Hu.
  - by rewrite (find_scan_none _ _ _ E He) in Hp.
Qed.

(** A save by key: what is searched is the key of what is written, and what is
    updated is the row that was found. *)
Definition by_key (x : A) (found : A → bool) (target : A → A → bool) : Prop :=
  (∀ r, found r = bool_decide (table_key r = table_key x))
  ∧ ∀ l e r, wf_rows l → e ∈ l → r ∈ l → found e = true →
      target e r = bool_decide (entity_id r = entity_id e).

(** The rows of the other tenants, in their order. *)
Definition foreign (T : string) l : list A := js_filter (λ r, negb (by_tenant T r)) l.

Lemma foreign_map T (f : A → A) l :
  (∀ r, r ∈ l → f r = r ∨ entity_tenantId r = T ∧ entity_tenantId (f r) = T) →
  foreign T (f <$> l) = foreign T l.
Proof.
  unfold foreign, js_filter. induction l as [|x l IH]; intros Hf; [done|]. cbn.
  rewrite IH by (intros r Hr; apply Hf; by constructor).
  destruct (Hf x ltac:(constructor)) as [->|[E1 E2]]; [done|].
  unfold by_tenant. by rewrite E1, E2, String.eqb_refl.
Qed.

Lemma foreign_snoc T x l : entity_tenantId x = T → foreign T (l ++ [x]) = foreign T l.
Proof.
  intros <-. unfold foreign, js_filter. rewrite List.filter_app. cbn. unfold by_tenant.
  rewrite String.eqb_refl. cbn. apply app_nil_r.
Qed.

(** The creation date of what is written. *)
Definition created_at (found : A → bool) raw l : Z :=
  match js_find found (scan l) with
  | Some e => entity_createdAt e
  | None => entity_createdAt raw
  end.

(** What a save that succeeds leaves: one row under the key, with the date of the
    row it replaces, if any, and the other rows as they were. *)
Lemma write_rows_spec x found target raw l l' :
  wf_rows l → by_key x found target → table_key raw = table_key x →
  write_rows found target raw l = Ok l' →
  wf_rows l' ∧ foreign (entity_tenantId raw) l' = foreign (entity_tenantId raw) l
  ∧ with_createdAt (created_at found raw l) raw ∈ l'
  ∧ ∀ r, table_key r ≠ table_key x → (r ∈ l' ↔ r ∈ l).
Proof.
  intros [Hids Hkeys] [Hf Ht] Hraw. unfold write_rows, write_found, created_at.
  destruct (js_find found (scan l)) as [e|] eqn:E.
  - apply find_scan_some in E as [He Hfe]. pose proof Hfe as Hke.
    rewrite Hf in Hke. apply bool_decide_eq_true in Hke.
    assert (∀ r, r ∈ l → target e r = true → r = e) as Hone.
    { intros r Hr Hte. rewrite (Ht l e r) in Hte by done. apply bool_decide_eq_true in Hte.
      by eapply (nodup_fmap_inj entity_id). }
    intros Hc%checked_inv. destruct Hc as [-> Hn]. split; [split; [exact Hn|]|split].
    + rewrite <- list_fmap_compose. erewrite list_fmap_ext; [exact Hkeys|].
      intros i r Hr%list_elem_of_lookup_2. cbn. destruct (target e r) eqn:Hte; [|done].
      rewrite key_createdAt, (Hone r Hr Hte). congruence.
    + apply foreign_map. intros r Hr. destruct (target e r) eqn:Hte; [right|by left].
      rewrite (Hone r Hr Hte), with_createdAt_tenant, <- !key_tenant. split; congruence.
    + split.
      * apply list_elem_of_fmap. exists e. split; [|done].
        rewrite (Ht l e e), bool_decide_eq_true_2; done.
      * intros r Hr. rewrite list_elem_of_fmap. split.
        -- intros (r0 & -> & Hr0). destruct (target e r0) eqn:Hte; [|done].
           by rewrite key_createdAt in Hr.
        -- intros Hin. exists r. split; [|done]. destruct (target e r) eqn:Hte; [|done].
           by rewrite (Hone r Hin Hte) in Hr.
  - intros Hc%checked_inv. destruct Hc as [-> Hn]. split; [split; [exact Hn|]|split].
    + apply nodup_fmap_snoc; [done|]. rewrite Hraw. intros (r & Er & Hr)%list_elem_of_fmap.
      apply (find_scan_none _ _ r) in E; [|done]. rewrite Hf in E.
      by apply bool_decide_eq_false in E.
    + by apply foreign_snoc.
    + split.
      * apply elem_of_app. right. apply list_elem_of_singleton, with_createdAt_same.
      * intros r Hr. rewrite elem_of_app, list_elem_of_singleton. split; [|by left].
        intros [?| ->]; done.
Qed.
End tables.

Ltac solve_key := split; solve [done | intros; unfold columns in *; solve_columns].

Section database.
Context {HE : Env} {HS : SettingsSql} {HJ : JsonNumber}.

#[global, program] Instance settings_key : TableKey Tenants.TenantSettings :=
  {| table_key x := (entity_tenantId x, "") |}.
Solve All Obligations with (unfold columns, settings_table, settings_columns; solve_columns).
#[global, program] Instance branding_key : TableKey Branding.BrandingSettings :=
  {| table_key x := (entity_tenantId x, "") |}.
Solve All Obligations with (unfold columns, branding_table, branding_columns; solve_columns).
#[global, program] Instance preferences_key : TableKey Preferences.TenantPreferences :=
  {| table_key x := (entity_tenantId x, "") |}.
Solve All Obligations with (unfold columns, preferences_table, preferences_columns; solve_columns).
#[global, program] Instance hours_key : TableKey Hours.BusinessHours :=
  {| table_key x := (entity_tenantId x, pretty (Hours.dayOfWeek x)) |}.
Solve All Obligations with (unfold columns, hours_table, hours_columns; solve_columns).
#[global, program] Instance holidays_key : TableKey Holidays.Holiday :=
  {| table_key x := (entity_tenantId x, Holidays.id x) |}.
Solve All Obligations with (unfold columns, holidays_table, holiday_columns; solve_columns).
#[global, program] Instance flags_key : TableKey Flags.FeatureFlag :=
  {| table_key x := (entity_tenantId x, Flags.featureKey x) |}.
Solve All Obligations with (unfold columns, flags_table, flag_columns; solve_columns).
#[global, program] Instance ai_key : TableKey Ai.AiSettings :=
  {| table_key x := (entity_tenantId x, "") |}.
Solve All Obligations with (unfold columns, ai_table, ai_columns; solve_columns).
#[global, program] Instance channels_key : TableKey Channels.ChannelSettings :=
  {| table_key x := (entity_tenantId x, Channels.channelType x) |}.
Solve All Obligations with (unfold columns, channels_table, channel_columns; solve_columns).
#[global, program] Instance notifications_key : TableKey Notifications.NotificationSettings :=
  {| table_key x := (entity_tenantId x, "") |}.
Solve All Obligations with (unfold columns, notifications_table; solve_columns).
#[global, program] Instance sla_key : TableKey Sla.SlaSettings :=
  {| table_key x := (entity_tenantId x, "") |}.
Solve All Obligations with (unfold columns, sla_table, sla_columns; solve_columns).
#[global, program] Instance security_key : TableKey Security.SecuritySettings :=
  {| table_key x := (entity_tenantId x, "") |}.
Solve All Obligations with (unfold columns, security_table, security_columns; solve_columns).
#[global, program] Instance widget_key : TableKey Widget.WidgetSettings :=
  {| table_key x := (entity_tenantId x, "") |}.
Solve All Obligations with (unfold columns, widget_table, widget_columns; solve_columns).
#[global, program] Instance limits_key : TableKey Limits.UsageLimits :=
  {| table_key x := (entity_tenantId x, "") |}.
Solve All Obligations with (unfold columns, limits_table, limits_columns; solve_columns).

(** Every table of a database is well formed. *)
Definition wf (d : SettingsDb) : Prop :=
  wf_rows (tenantSettings d) ∧ wf_rows (tenantBranding d) ∧
  wf_rows (tenantPreferences d) ∧ wf_rows (tenantBusinessHours d) ∧
  wf_rows (tenantHolidays d) ∧ wf_rows (tenantFeatureFlags d) ∧
  wf_rows (tenantAiSettings d) ∧ wf_rows (tenantChannelSettings d) ∧
  wf_rows (tenantNotificationSettings d) ∧ wf_rows (tenantSlaSettings d) ∧
  wf_rows (tenantSecuritySettings d) ∧ wf_rows (tenantWidgetSettings d) ∧
  wf_rows (tenantUsageLimits d).

(** What a database holds of the tenants other than [T]. *)
Definition others (T : string) (d : SettingsDb) :=
  (foreign T (tenantSettings d), foreign T (tenantBranding d),
   foreign T (tenantPreferences d), foreign T (tenantBusinessHours d),
   foreign T (tenantHolidays d), foreign T (tenantFeatureFlags d),
   foreign T (tenantAiSettings d), foreign T (tenantChannelSettings d),
   foreign T (tenantNotificationSettings d), foreign T (tenantSlaSettings d),
   foreign T (tenantSecuritySettings d), foreign T (tenantWidgetSettings d),
   foreign T (tenantUsageLimits d)).

(** A table as a part of the database. *)
Class InDb (A : Type) `{TableKey A} := {
  wf_in d : wf d → wf_rows (rows d);
  wf_with l d : wf d → wf_rows l → wf (with_rows l d);
  others_with T l d : foreign T l = foreign T (rows d) → others T (with_rows l d) = others T d;
  redis_with l d : redis (with_rows l d) = redis d;
}.
Ltac solve_in_db :=
  split; [by intros d (?&?&?&?&?&?&?&?&?&?&?&?&?)
         |intros l d Hd Hl; unfold wf in *; cbn; tauto
         |intros T l d E; unfold others; cbn -[foreign] in *; by rewrite E
         |done].
#[global] Instance settings_in_db : InDb Tenants.TenantSettings.
Proof. solve_in_db. Qed.
#[global] Instance branding_in_db : InDb Branding.BrandingSettings.
Proof. solve_in_db. Qed.
#[global] Instance preferences_in_db : InDb Preferences.TenantPreferences.
Proof. solve_in_db. Qed.
#[global] Instance hours_in_db : InDb Hours.BusinessHours.
Proof. solve_in_db. Qed.
#[global] Instance holidays_in_db : InDb Holidays.Holiday.
Proof. solve_in_db. Qed.
#[global] Instance flags_in_db : InDb Flags.FeatureFlag.
Proof. solve_in_db. Qed.
#[global] Instance ai_in_db : InDb Ai.AiSettings.
Proof. solve_in_db. Qed.
#[global] Instance channels_in_db : InDb Channels.ChannelSettings.
Proof. solve_in_db. Qed.
#[global] Instance notifications_in_db : InDb Notifications.NotificationSettings.
Proof. solve_in_db. Qed.
#[global] Instance sla_in_db : InDb Sla.SlaSettings.
Proof. solve_in_db. Qed.
#[global] Instance security_in_db : InDb Security.SecuritySettings.
Proof. solve_in_db. Qed.
#[global] Instance widget_in_db : InDb Widget.WidgetSettings.
Proof. solve_in_db. Qed.
#[global] Instance limits_in_db : InDb Limits.UsageLimits.
Proof. solve_in_db. Qed.
End database.

(** ** What a call for one tenant leaves alone *)

(** Well-formed tables stay well formed, the rows of other tenants stay. *)
Definition kept `{HS : SettingsSql} `{HJ : JsonNumber} (T : string) (d d' : SettingsDb) : Prop :=
  wf d → wf d' ∧ others T d' = others T d.

#[export] Instance kept_preorder `{HS : SettingsSql} `{HJ : JsonNumber} T : PreOrder (kept T).
Proof.
  split; [by intros d Hd|]. intros a b c H1 H2 Ha.
  destruct (H1 Ha) as [Hb E1]. destruct (H2 Hb) as [Hc E2]. split; [done|congruence].
Qed.

(** Tables of one row per tenant. *)
Class Singleton (A : Type) `{TableKey A} := {
  singleton (x : A) : (table_key x).2 = "";
  no_index (x y : A) : unique_index x y = false;
  domain_id (x : A) : entity_id (toDomain x) = entity_id x;
  domain_createdAt (x : A) : entity_createdAt (toDomain x) = entity_createdAt x;
}.

Section saves.
Context {HE : Env} {HS : SettingsSql} {HJ : JsonNumber}.

Section table.
Context {A : Type} {HT : Table A} {HL : TableLaws A} {HK : TableKey A} {HA : InDb A}.
Implicit Types (x r e : A) (l : list A) (w : SettingsW).

Lemma by_key_updated x found target t :
  by_key x found target → by_key (with_updatedAt t x) found target.
Proof. intros [Hf Ht]. split; [|done]. intros r. by rewrite Hf, key_updatedAt. Qed.

Lemma save_rows_run found target x w :
  save_rows found target x w =
    let w1 := w <| ticks ::= S |> in
    match columns (with_updatedAt (env_clock (ticks w)) x) with
    | Throw e => (Throw e, w1)
    | Ok raw => match write_rows found target raw (rows (db w)) with
                | Throw e => (Throw e, w1)
                | Ok l => (Ok tt, w1 <| db ::= with_rows l |>)
                end
    end.
Proof.
  unfold save_rows, mbind, M_bind, new_Date, gets, of_result, modify. cbn.
  destruct (columns _) as [raw|]; [|done]. by destruct (write_rows _ _ _ _).
Qed.

Lemma save_rows_kept found target x :
  by_key x found target → keeps (db_rel (kept (entity_tenantId x))) (save_rows found target x).
Proof.
  intros Hk w. unfold db_rel, final. rewrite save_rows_run. cbv zeta.
  destruct (columns _) as [raw|] eqn:Ec; [|done].
  destruct (write_rows _ _ _ _) as [l|] eqn:Ew; [|done]. cbn. intros Hd.
  apply (by_key_updated x _ _ (env_clock (ticks w))) in Hk.
  destruct (write_rows_spec _ _ _ _ _ _ (wf_in _ Hd) Hk (key_columns _ _ Ec) Ew)
    as (Hwf & Hfor & _).
  split; [by apply wf_with|]. apply others_with.
  by rewrite (columns_tenant _ _ Ec), with_updatedAt_tenant in Hfor.
Qed.

Lemma by_key_one x found :
  (∀ r, found r = bool_decide (table_key r = table_key x)) →
  by_key x found (λ existing, by_id (entity_id existing)).
Proof.
  intros Hf. split; [done|]. intros l e r _ _ _ _. unfold by_id.
  destruct (String.eqb_spec (entity_id r) (entity_id e)) as [E|E];
    [by rewrite bool_decide_eq_true_2|by rewrite bool_decide_eq_false_2].
Qed.

Lemma delete_row_kept (id T : string) : keeps (db_rel (kept T)) (delete_row _ id T).
Proof.
  intros w Hd. cbn. pose proof (wf_in _ Hd) as [Hi Hk].
  split; [apply wf_with; [done|]; split; by apply nodup_fmap_filter|].
  apply others_with. unfold foreign, js_filter.
  induction (rows (db w)) as [|r l IH]; [done|]. cbn.
  apply NoDup_cons in Hi as [_ Hi]. apply NoDup_cons in Hk as [_ Hk].
  destruct (by_tenant T r) eqn:ET; cbn.
  - destruct (by_id id r); cbn; rewrite ?ET; by apply IH.
  - rewrite andb_false_r. cbn. rewrite ET. cbn. f_equal. by apply IH.
Qed.

(** A table of one row per tenant *)
Context {HS1 : Singleton A}.

Lemma singleton_key r x : table_key r = table_key x ↔ entity_tenantId r = entity_tenantId x.
Proof.
  rewrite <- !key_tenant. pose proof (singleton r) as E1. pose proof (singleton x) as E2.
  destruct (table_key r), (table_key x). cbn in *. split; [by intros [= -> ->]|congruence].
Qed.

Lemma by_tenant_key x r : by_tenant (entity_tenantId x) r = bool_decide (table_key r = table_key x).
Proof.
  unfold by_tenant.
  destruct (String.eqb_spec (entity_tenantId r) (entity_tenantId x)) as [E|E];
    [rewrite bool_decide_eq_true_2|rewrite bool_decide_eq_false_2]; rewrite ?singleton_key; done.
Qed.

Lemma by_key_tenant x :
  by_key x (by_tenant (entity_tenantId x)) (λ _, by_tenant (entity_tenantId x)).
Proof.
  split; [apply by_tenant_key|]. intros l e r [Hids Hkeys] He Hr Hf.
  rewrite by_tenant_key in Hf |- *. apply bool_decide_eq_true in Hf.
  apply bool_decide_ext. split.
  - intros Er. f_equal. by eapply (nodup_fmap_inj table_key); [|..|congruence].
  - intros Er. rewrite <- Hf. f_equal. by eapply (nodup_fmap_inj entity_id).
Qed.

Lemma save_of_tenant_kept x : keeps (db_rel (kept (entity_tenantId x))) (save_of_tenant x).
Proof. apply save_rows_kept, by_key_tenant. Qed.
End table.
End saves.

Section service_frames.
Context {HE : Env} {HS : SettingsSql} {HJ : JsonNumber} {HD : SettingsDeps} {HP : ProcessEnv}.
Implicit Types (T : string) (w : SettingsW).

#[global] Instance TenantSettings_singleton : Singleton Tenants.TenantSettings.
Proof. done. Qed.
#[global] Instance BrandingSettings_singleton : Singleton Branding.BrandingSettings.
Proof. done. Qed.
#[global] Instance TenantPreferences_singleton : Singleton Preferences.TenantPreferences.
Proof. done. Qed.
#[global] Instance AiSettings_singleton : Singleton Ai.AiSettings.
Proof. done. Qed.
#[global] Instance NotificationSettings_singleton : Singleton Notifications.NotificationSettings.
Proof. done. Qed.
#[global] Instance SlaSettings_singleton : Singleton Sla.SlaSettings.
Proof. done. Qed.
#[global] Instance SecuritySettings_singleton : Singleton Security.SecuritySettings.
Proof. done. Qed.
#[global] Instance WidgetSettings_singleton : Singleton Widget.WidgetSettings.
Proof. done. Qed.
#[global] Instance UsageLimits_singleton : Singleton Limits.UsageLimits.
Proof. done. Qed.

Lemma pair_key (a b c d : string) : String.eqb a b && String.eqb c d = bool_decide ((a, c) = (b, d)).
Proof.
  destruct (String.eqb_spec a b), (String.eqb_spec c d); cbn;
    [rewrite bool_decide_eq_true_2|rewrite bool_decide_eq_false_2..]; congruence.
Qed.

Lemma pretty_eqb (a b : Z) : String.eqb (pretty a) (pretty b) = (a =? b).
Proof.
  destruct (Z.eqb_spec a b) as [->|E]; [apply String.eqb_refl|].
  apply String.eqb_neq. intros E'. by apply (inj pretty) in E'.
Qed.

Ltac solve_save_one :=
  unfold saveBusinessHours, saveHoliday, saveFeatureFlag, saveChannelSettings, save_one;
  match goal with |- keeps _ (@save_rows _ _ ?A ?H ?f ?t ?x) =>
    let L := constr:(save_rows_kept (A := A) (HT := H) f t x) in apply L end;
  apply by_key_one; intros r; unfold by_tenant, by_id; cbn;
  rewrite <- pair_key.

Lemma saveBusinessHours_kept x : keeps (db_rel (kept (entity_tenantId x))) (saveBusinessHours x).
Proof. solve_save_one. by rewrite pretty_eqb. Qed.
Lemma saveHoliday_kept x : keeps (db_rel (kept (entity_tenantId x))) (saveHoliday x).
Proof. solve_save_one. apply andb_comm. Qed.
Lemma saveFeatureFlag_kept x : keeps (db_rel (kept (entity_tenantId x))) (saveFeatureFlag x).
Proof. by solve_save_one. Qed.
Lemma saveChannelSettings_kept x :
  keeps (db_rel (kept (entity_tenantId x))) (saveChannelSettings x).
Proof. by solve_save_one. Qed.

(** Construction, publication and Redis leave the tables alone. *)
Lemma construct_db {A} (new : string → Z → Z → A) : keeps (same db) (construct new).
Proof. unfold construct. solve_keeps. Qed.
Lemma publish_settings_db T e p : keeps (same db) (publish T e p).
Proof. unfold publish. solve_keeps. Qed.
Lemma redis_kept {A} T (f : gmap string string → A * gmap string string) :
  keeps (db_rel (kept T)) (redis_command f).
Proof.
  intros w Hd. unfold final, redis_command. destruct (redis (db w)); [|done].
  by destruct (f _).
Qed.
Lemma logged_kept {A} T (m : M SettingsW A) a :
  keeps (db_rel (kept T)) m → keeps (db_rel (kept T)) (logged m a).
Proof. intros Hm. unfold logged. apply keeps_try_catch; [apply _|done|]. intros. apply keeps_ret, _. Qed.

Lemma construct_returns {A} (new : string → Z → Z → A) (P : A → Prop) :
  (∀ i c u, P (new i c u)) → returns (construct new) P.
Proof. intros HP' w a w' [= <- _]. apply HP'. Qed.

Lemma db_kept_settings {A} T (m : M SettingsW A) : keeps (same db) m → keeps (db_rel (kept T)) m.
Proof. apply keeps_db_rel, _. Qed.

Lemma store_kept {A} {HEn : Entity A} T (save : A → M SettingsW unit) tenant e x :
  keeps (db_rel (kept T)) (save x) → keeps (db_rel (kept T)) (store save tenant e x).
Proof.
  intros Hs. unfold store. apply keeps_bind; [apply _|done|]. intros [].
  apply keeps_bind; [apply _|apply db_kept_settings, publish_settings_db|].
  intros. apply keeps_ret, _.
Qed.

Section generic.
Context {A : Type} {HT : Table A} {HL : TableLaws A} {HK : TableKey A} {HA : InDb A} (T : string).

Definition of_tenant (x : A) : Prop := entity_tenantId x = T.

Lemma get_or_create_kept get new (save : A → M SettingsW unit) :
  (∀ i c u, of_tenant (new i c u)) → (∀ x, of_tenant x → keeps (db_rel (kept T)) (save x)) →
  keeps (db_rel (kept T)) (get_or_create get new save).
Proof.
  intros Hnew Hsave. unfold get_or_create.
  apply keeps_bind; [apply _|apply keeps_gets, _|]. intros [x|]; [apply keeps_ret, _|].
  eapply (keeps_bind_returns _ of_tenant); [by apply construct_returns
    |apply db_kept_settings, construct_db|].
  intros x Hx. apply keeps_bind; [apply _|by apply Hsave|]. intros. apply keeps_ret, _.
Qed.

Lemma get_or_create_returns get new (save : A → M SettingsW unit) :
  (∀ d x, get d = Some x → of_tenant x) → (∀ i c u, of_tenant (new i c u)) →
  returns (get_or_create get new save) of_tenant.
Proof.
  intros Hget Hnew w a w' E. unfold get_or_create in E. rewrite gets_bind in E.
  destruct (get (db w)) as [x|] eqn:Eg; [injection E as <- _; by eapply Hget|].
  apply bind_inv in E as (x & w1 & E1 & E). apply bind_inv in E as (u & w2 & _ & E).
  injection E as <- _. by eapply (construct_returns new of_tenant).
Qed.

(** Read, change, store. *)
Lemma revise_kept (get : M SettingsW A) (save : A → M SettingsW unit) (revise : Z → A → A) tenant e :
  keeps (db_rel (kept T)) get → returns get of_tenant →
  (∀ now x, of_tenant x → of_tenant (revise now x)) →
  (∀ x, of_tenant x → keeps (db_rel (kept T)) (save x)) →
  keeps (db_rel (kept T)) (x ← get; now ← new_Date; store save tenant e (revise now x)).
Proof.
  intros Hg Hr Hrev Hs. eapply (keeps_bind_returns _ of_tenant); [exact Hr|exact Hg|].
  intros x Hx. apply keeps_bind; [apply _|apply db_kept_settings, new_Date_db|].
  intros now. apply (store_kept T), Hs, Hrev, Hx.
Qed.

Lemma find_row_tenant (found : A → bool) d x :
  (∀ r, found r = true → of_tenant r) → find_row found d = Some x → of_tenant x.
Proof.
  intros Hf. unfold find_row, js_find. destruct (List.find _ _) as [r|] eqn:E; [|done].
  intros [= <-]. apply find_some in E as [_ E]. unfold of_tenant.
  etransitivity; [apply (domain_tenant (A := A))|]. by apply Hf.
Qed.

Lemma tenant_rows_tenant d x : x ∈ tenant_rows T d → of_tenant x.
Proof.
  unfold tenant_rows. intros (r & -> & Hr)%list_elem_of_fmap.
  apply js_filter_elem in Hr as [_ Hr]. apply String.eqb_eq in Hr.
  unfold of_tenant. etransitivity; [apply (domain_tenant (A := A))|done].
Qed.
End generic.
End service_frames.
