(* ===== verification/SettingsIsolation.v ===== *)
(** * Tenant settings: what a call may touch

    Every operation of the services and of the worker, called for a tenant, keeps
    the tables well formed and leaves the rows of the other tenants as they are;
    and so does any sequence of calls, each for its own tenant. *)

From Stdlib Require Import QArith.
From S2P Require Import Prelude Platform JsDate JsValue.
From S2P Require Import Settings SettingsRepo SettingsEngine SettingsService SettingsProofs.
Open Scope Z_scope.

(** What the API and the queue ask of the module. *)
Inductive Call :=
  | GetSettings
  | CreateSettings (dto : TenantSettingsService.CreateTenantSettingsDto)
  | UpdateSettings (dto : TenantSettingsService.UpdateTenantSettingsDto)
  | GetBranding
  | UpdateBranding (dto : BrandingService.UpdateBrandingDto)
  | GetBusinessHours
  | SaveBusinessHours (dto : BusinessHoursService.SaveBusinessHoursDto)
  | DeleteBusinessHours (id : string)
  | SaveHoliday (dto : HolidayService.SaveHolidayDto)
  | DeleteHoliday (id : string)
  | ResolveFlag (key : string) (user : option string)
  | SaveFeatureFlag (dto : FeatureFlagService.SaveFeatureFlagDto)
  | DeleteFeatureFlag (id : string)
  | GetAiSettings
  | UpdateAiSettings (dto : AiSettingsService.UpdateAiSettingsDto)
  | GetChannelSettings
  | GetChannelSettingsByType (type : string)
  | UpdateChannelSettings (dto : ChannelSettingsService.UpdateChannelSettingsDto)
  | GetNotificationSettings
  | UpdateNotificationSettings (dto : NotificationSettingsService.UpdateNotificationSettingsDto)
  | GetSlaSettings
  | UpdateSlaSettings (dto : SlaSettingsService.UpdateSlaSettingsDto)
  | GetSecuritySettings
  | UpdateSecuritySettings (dto : SecuritySettingsService.UpdateSecuritySettingsDto)
  | GetWidgetSettings
  | UpdateWidgetSettings (dto : WidgetSettingsService.UpdateWidgetSettingsDto)
  | GetUsageLimits
  | UpdateUsageLimits (dto : UsageLimitService.UpdateUsageLimitsDto)
  | EnforceLimit (r : UsageLimitService.Resource) (usage : Z)
  | HandleJob (job : Job).

Section calls.
Context {HE : Env} {HS : SettingsSql} {HJ : JsonNumber} {HD : SettingsDeps} {HP : ProcessEnv}.
Implicit Types (T U : string) (d : SettingsDb).

Definition ignore {A} (m : M SettingsW A) : M SettingsW unit := m ;; mret tt.

Definition serve T (c : Call) : M SettingsW unit :=
  match c with
  | GetSettings => ignore (TenantSettingsService.getSettings T)
  | CreateSettings dto => ignore (TenantSettingsService.createSettings T dto)
  | UpdateSettings dto => ignore (TenantSettingsService.updateSettings T dto)
  | GetBranding => ignore (BrandingService.getBranding T)
  | UpdateBranding dto => ignore (BrandingService.updateBranding T dto)
  | GetBusinessHours => ignore (BusinessHoursService.getBusinessHours T)
  | SaveBusinessHours dto => ignore (BusinessHoursService.saveBusinessHours T dto)
  | DeleteBusinessHours id => BusinessHoursService.deleteBusinessHours T id
  | SaveHoliday dto => ignore (HolidayService.saveHoliday T dto)
  | DeleteHoliday id => HolidayService.deleteHoliday T id
  | ResolveFlag key user => ignore (resolveFlag T key user)
  | SaveFeatureFlag dto => ignore (FeatureFlagService.saveFeatureFlag T dto)
  | DeleteFeatureFlag id => FeatureFlagService.deleteFeatureFlag T id
  | GetAiSettings => ignore (AiSettingsService.getAiSettings T)
  | UpdateAiSettings dto => ignore (AiSettingsService.updateAiSettings T dto)
  | GetChannelSettings => ignore (ChannelSettingsService.getChannelSettings T)
  | GetChannelSettingsByType type =>
      ignore (ChannelSettingsService.getChannelSettingsByType T type)
  | UpdateChannelSettings dto => ignore (ChannelSettingsService.updateChannelSettings T dto)
  | GetNotificationSettings => ignore (NotificationSettingsService.getNotificationSettings T)
  | UpdateNotificationSettings dto =>
      ignore (NotificationSettingsService.updateNotificationSettings T dto)
  | GetSlaSettings => ignore (SlaSettingsService.getSlaSettings T)
  | UpdateSlaSettings dto => ignore (SlaSettingsService.updateSlaSettings T dto)
  | GetSecuritySettings => ignore (SecuritySettingsService.getSecuritySettings T)
  | UpdateSecuritySettings dto => ignore (SecuritySettingsService.updateSecuritySettings T dto)
  | GetWidgetSettings => ignore (WidgetSettingsService.getWidgetSettings T)
  | UpdateWidgetSettings dto => ignore (WidgetSettingsService.updateWidgetSettings T dto)
  | GetUsageLimits => ignore (UsageLimitService.getUsageLimits T)
  | UpdateUsageLimits dto => ignore (UsageLimitService.updateUsageLimits T dto)
  | EnforceLimit r usage => UsageLimitService.enforceLimit T r usage
  | HandleJob job => SettingsQueueProcessor.handleJob job
  end.

Lemma find_by_tenant {A} {HT : Table A} {HL : TableLaws A} T d (x : A) :
  find_row (by_tenant T) d = Some x → entity_tenantId x = T.
Proof. intros E. eapply find_row_tenant; [|exact E]. by intros r Hr%String.eqb_eq. Qed.

Lemma find_by_tenant_and {A} {HT : Table A} {HL : TableLaws A} T p d (x : A) :
  find_row (λ r, by_tenant T r && p r) d = Some x → entity_tenantId x = T.
Proof.
  intros E. eapply find_row_tenant; [|exact E]. by intros r [Hr%String.eqb_eq _]%andb_true_iff.
Qed.

Lemma ignore_kept {A} T (m : M SettingsW A) :
  keeps (db_rel (kept T)) m → keeps (db_rel (kept T)) (ignore m).
Proof. intros Hm. unfold ignore. apply keeps_bind; [apply _|done|]. intros. apply keeps_ret, _. Qed.

(** A table of one row per tenant, read and revised. *)
Lemma tenant_table_kept {A} {HT : Table A} {HL : TableLaws A} {HK : TableKey A} {HA : InDb A}
    {HS1 : Singleton A} T (new : string → Z → Z → A) :
  (∀ i c u, entity_tenantId (new i c u) = T) →
  let get := get_or_create (find_row (by_tenant T)) new save_of_tenant in
  keeps (db_rel (kept T)) get
  ∧ ∀ (revise : Z → A → A) e, (∀ now x, entity_tenantId x = T → entity_tenantId (revise now x) = T) →
      keeps (db_rel (kept T))
        (x ← get; now ← new_Date; store save_of_tenant T e (revise now x)).
Proof.
  intros Hnew get.
  assert (∀ x : A, of_tenant T x → keeps (db_rel (kept T)) (save_of_tenant x)) as Hsave
    by (intros x <-; apply save_of_tenant_kept).
  assert (keeps (db_rel (kept T)) get) as Hget
    by exact (get_or_create_kept (A := A) T _ _ _ Hnew Hsave).
  split; [exact Hget|]. intros revise e Hrev.
  refine (revise_kept (A := A) T get save_of_tenant revise T e Hget _ Hrev Hsave).
  refine (get_or_create_returns (A := A) T _ _ _ _ Hnew). intros d x. apply find_by_tenant.
Qed.
Ltac tenant_table A T new :=
  let L := constr:(tenant_table_kept (A := A) T new (λ _ _ _, eq_refl)) in
  first [ exact (proj1 L)
        | refine (proj2 L _ _ _); intros ?? <-; reflexivity ].

Lemma getBranding_kept T : keeps (db_rel (kept T)) (BrandingService.getBranding T).
Proof. tenant_table Branding.BrandingSettings T (BrandingService.defaults T). Qed.
Lemma updateBranding_kept T dto : keeps (db_rel (kept T)) (BrandingService.updateBranding T dto).
Proof. tenant_table Branding.BrandingSettings T (BrandingService.defaults T). Qed.
Lemma getAiSettings_kept T : keeps (db_rel (kept T)) (AiSettingsService.getAiSettings T).
Proof. tenant_table Ai.AiSettings T (AiSettingsService.defaults T). Qed.
Lemma updateAiSettings_kept T dto :
  keeps (db_rel (kept T)) (AiSettingsService.updateAiSettings T dto).
Proof. tenant_table Ai.AiSettings T (AiSettingsService.defaults T). Qed.
Lemma getNotificationSettings_kept T : keeps (db_rel (kept T)) (NotificationSettingsService.getNotificationSettings T).
Proof. tenant_table Notifications.NotificationSettings T (NotificationSettingsService.defaults T). Qed.
Lemma updateNotificationSettings_kept T dto : keeps (db_rel (kept T)) (NotificationSettingsService.updateNotificationSettings T dto).
Proof. tenant_table Notifications.NotificationSettings T (NotificationSettingsService.defaults T). Qed.
Lemma getSlaSettings_kept T : keeps (db_rel (kept T)) (SlaSettingsService.getSlaSettings T).
Proof. tenant_table Sla.SlaSettings T (SlaSettingsService.defaults T). Qed.
Lemma updateSlaSettings_kept T dto : keeps (db_rel (kept T)) (SlaSettingsService.updateSlaSettings T dto).
Proof. tenant_table Sla.SlaSettings T (SlaSettingsService.defaults T). Qed.
Lemma getSecuritySettings_kept T : keeps (db_rel (kept T)) (SecuritySettingsService.getSecuritySettings T).
Proof. tenant_table Security.SecuritySettings T (SecuritySettingsService.defaults T). Qed.
Lemma updateSecuritySettings_kept T dto : keeps (db_rel (kept T)) (SecuritySettingsService.updateSecuritySettings T dto).
Proof. tenant_table Security.SecuritySettings T (SecuritySettingsService.defaults T). Qed.
Lemma getWidgetSettings_kept T : keeps (db_rel (kept T)) (WidgetSettingsService.getWidgetSettings T).
Proof. tenant_table Widget.WidgetSettings T (WidgetSettingsService.defaults T). Qed.
Lemma updateWidgetSettings_kept T dto : keeps (db_rel (kept T)) (WidgetSettingsService.updateWidgetSettings T dto).
Proof. tenant_table Widget.WidgetSettings T (WidgetSettingsService.defaults T). Qed.
Lemma getOrCreateRawLimits_kept T :
  keeps (db_rel (kept T)) (UsageLimitService.getOrCreateRawLimits T).
Proof. tenant_table Limits.UsageLimits T (UsageLimitService.defaults T). Qed.
Lemma updateUsageLimits_kept T dto :
  keeps (db_rel (kept T)) (UsageLimitService.updateUsageLimits T dto).
Proof. tenant_table Limits.UsageLimits T (UsageLimitService.defaults T). Qed.

(** The other services *)
Lemma saved_as {A} {HT : Table A} (save : A → M SettingsW unit) T x :
  (∀ x, keeps (db_rel (kept (entity_tenantId x))) (save x)) → entity_tenantId x = T →
  keeps (db_rel (kept T)) (save x).
Proof. by intros Hs <-. Qed.

Lemma publish_kept T e p : keeps (db_rel (kept T)) (publish T e p).
Proof. apply db_kept_settings, publish_settings_db. Qed.
Lemma new_Date_kept T : keeps (db_rel (kept T)) (new_Date (Db := SettingsDb)).
Proof. by apply db_kept_settings. Qed.

(** The entity to save is an old one of the tenant or a new one. *)
Lemma old_or_new_kept {A B} T (old : option B) (renew : B → Z → A) (new : string → Z → Z → A) :
  keeps (db_rel (kept T))
    (match old with
     | Some o => updated ← new_Date; mret (renew o updated)
     | None => construct new
     end).
Proof.
  apply db_kept_settings. destruct old; [|apply construct_db]. solve_keeps.
Qed.
Lemma old_or_new_returns {A B} (P : A → Prop) (old : option B) (renew : B → Z → A) new :
  (∀ o t, P (renew o t)) → (∀ i c u, P (new i c u)) →
  returns (match old with
           | Some o => updated ← new_Date; mret (renew o updated)
           | None => construct new
           end) P.
Proof.
  intros Hr Hn. destruct old; [|by apply construct_returns].
  apply returns_bind. intros t w a w' [= <- _]. apply Hr.
Qed.

Lemma createSettings_kept T dto :
  keeps (db_rel (kept T)) (TenantSettingsService.createSettings T dto).
Proof.
  unfold TenantSettingsService.createSettings.
  eapply (keeps_bind_returns _ (of_tenant T)); [by apply construct_returns
    |apply db_kept_settings, construct_db|].
  intros x Hx. apply store_kept.
  refine (saved_as saveSettings T x _ Hx). intros y. apply save_of_tenant_kept.
Qed.
Lemma getSettings_kept T : keeps (db_rel (kept T)) (TenantSettingsService.getSettings T).
Proof.
  unfold TenantSettingsService.getSettings. apply keeps_bind; [apply _|apply keeps_gets, _|].
  intros []; [apply keeps_ret, _|apply createSettings_kept].
Qed.
Lemma getSettings_returns T : returns (TenantSettingsService.getSettings T) (of_tenant T).
Proof.
  intros w a w' E. unfold TenantSettingsService.getSettings in E. rewrite gets_bind in E.
  destruct (getSettingsByTenant T (db w)) as [x|] eqn:Eg.
  - injection E as <- _. exact (find_by_tenant _ _ _ Eg).
  - unfold TenantSettingsService.createSettings, store in E.
    apply bind_inv in E as (x & w1 & E1 & E). apply bind_inv in E as (? & w2 & _ & E).
    apply bind_inv in E as (? & w3 & _ & E). injection E as <- _.
    refine (construct_returns _ (of_tenant T) _ _ _ _ E1). done.
Qed.
Lemma updateSettings_kept T dto :
  keeps (db_rel (kept T)) (TenantSettingsService.updateSettings T dto).
Proof.
  refine (revise_kept (A := Tenants.TenantSettings) T _ saveSettings
            (λ now s, Tenants.update now (TenantSettingsService.patch dto s) s) T _
            (getSettings_kept T) (getSettings_returns T) _ _).
  - intros ? x <-. reflexivity.
  - intros x <-. apply save_of_tenant_kept.
Qed.

Lemma provision_kept T days : keeps (db_rel (kept T)) (BusinessHoursService.provision T days).
Proof.
  induction days as [|day days IH]; cbn [BusinessHoursService.provision]; [apply keeps_ret, _|].
  eapply (keeps_bind_returns _ (of_tenant T)); [by apply construct_returns
    |apply db_kept_settings, construct_db|].
  intros x Hx. apply keeps_bind; [apply _| |].
  - exact (saved_as SettingsRepo.saveBusinessHours T x saveBusinessHours_kept Hx).
  - intros _. apply keeps_bind; [apply _|done|]. intros. apply keeps_ret, _.
Qed.
Lemma getBusinessHours_kept T : keeps (db_rel (kept T)) (BusinessHoursService.getBusinessHours T).
Proof.
  unfold BusinessHoursService.getBusinessHours. apply keeps_bind; [apply _|apply keeps_gets, _|].
  intros []; [apply provision_kept|apply keeps_ret, _].
Qed.
Lemma saveBusinessHours_service_kept T dto :
  keeps (db_rel (kept T)) (BusinessHoursService.saveBusinessHours T dto).
Proof.
  unfold BusinessHoursService.saveBusinessHours.
  apply keeps_bind; [apply _|apply getBusinessHours_kept|]. intros l.
  eapply (keeps_bind_returns _ (of_tenant T)); [by apply old_or_new_returns
    |apply old_or_new_kept|].
  intros x Hx. apply store_kept.
  exact (saved_as SettingsRepo.saveBusinessHours T x saveBusinessHours_kept Hx).
Qed.
Lemma deleteBusinessHours_kept T id :
  keeps (db_rel (kept T)) (BusinessHoursService.deleteBusinessHours T id).
Proof.
  apply keeps_bind; [apply _|apply delete_row_kept|]. intros []. apply publish_kept.
Qed.

Lemma saveHoliday_service_kept T dto : keeps (db_rel (kept T)) (HolidayService.saveHoliday T dto).
Proof.
  unfold HolidayService.saveHoliday. apply keeps_bind; [apply _|apply keeps_gets, _|]. intros l.
  eapply (keeps_bind_returns _ (of_tenant T)); [by apply old_or_new_returns
    |apply old_or_new_kept|].
  intros x Hx. apply store_kept.
  exact (saved_as SettingsRepo.saveHoliday T x saveHoliday_kept Hx).
Qed.
Lemma deleteHoliday_kept T id : keeps (db_rel (kept T)) (HolidayService.deleteHoliday T id).
Proof.
  apply keeps_bind; [apply _|apply delete_row_kept|]. intros []. apply publish_kept.
Qed.

Lemma resolveFlag_kept T key user : keeps (db_rel (kept T)) (resolveFlag T key user).
Proof.
  unfold resolveFlag. destruct (process_env _); [apply keeps_ret, _|].
  apply keeps_bind; [apply _|apply logged_kept, redis_kept|]. intros [v|]; [apply keeps_ret, _|].
  apply keeps_bind; [apply _|apply keeps_gets, _|]. intros [f|]; [|apply keeps_ret, _].
  apply keeps_bind; [apply _|apply logged_kept, redis_kept|]. intros. apply keeps_ret, _.
Qed.
Lemma saveFeatureFlag_service_kept T dto :
  keeps (db_rel (kept T)) (FeatureFlagService.saveFeatureFlag T dto).
Proof.
  unfold FeatureFlagService.saveFeatureFlag. apply keeps_bind; [apply _|apply keeps_gets, _|].
  intros old. eapply (keeps_bind_returns _ (of_tenant T)); [by apply old_or_new_returns
    |apply old_or_new_kept|].
  intros x Hx. apply keeps_bind; [apply _| |].
  { exact (saved_as SettingsRepo.saveFeatureFlag T x saveFeatureFlag_kept Hx). }
  intros _. apply keeps_bind; [apply _|apply logged_kept, redis_kept|]. intros _.
  apply keeps_bind; [apply _|apply publish_kept|]. intros. apply keeps_ret, _.
Qed.
Lemma deleteFeatureFlag_kept T id :
  keeps (db_rel (kept T)) (FeatureFlagService.deleteFeatureFlag T id).
Proof.
  unfold FeatureFlagService.deleteFeatureFlag. apply keeps_bind; [apply _|apply keeps_gets, _|].
  intros l. destruct (js_find _ l); [|apply keeps_ret, _].
  apply keeps_bind; [apply _|apply delete_row_kept|]. intros _.
  apply keeps_bind; [apply _|apply logged_kept, redis_kept|]. intros _. apply publish_kept.
Qed.

Lemma getChannelSettings_kept T :
  keeps (db_rel (kept T)) (ChannelSettingsService.getChannelSettings T).
Proof.
  unfold ChannelSettingsService.getChannelSettings.
  apply keeps_bind; [apply _|apply keeps_gets, _|]. intros [|]; [|apply keeps_ret, _].
  eapply (keeps_bind_returns _ (of_tenant T)); [by apply construct_returns
    |apply db_kept_settings, construct_db|]. intros x Hx.
  eapply (keeps_bind_returns _ (of_tenant T)); [by apply construct_returns
    |apply db_kept_settings, construct_db|]. intros y Hy.
  apply keeps_bind; [apply _|exact (saved_as _ T x saveChannelSettings_kept Hx)|]. intros _.
  apply keeps_bind; [apply _|exact (saved_as _ T y saveChannelSettings_kept Hy)|].
  intros. apply keeps_ret, _.
Qed.
Lemma saveChannel_kept T x : of_tenant T x → keeps (db_rel (kept T)) (saveChannelSettings x).
Proof. exact (saved_as _ T x saveChannelSettings_kept). Qed.
Lemma getChannelSettingsByType_kept T type :
  keeps (db_rel (kept T)) (ChannelSettingsService.getChannelSettingsByType T type).
Proof. by refine (get_or_create_kept T _ _ _ _ (saveChannel_kept T)). Qed.
Lemma updateChannelSettings_kept T dto :
  keeps (db_rel (kept T)) (ChannelSettingsService.updateChannelSettings T dto).
Proof.
  refine (revise_kept (A := Channels.ChannelSettings) T _ saveChannelSettings
            (λ now s, update now (ChannelSettingsService.patch dto s) s) T _
            (getChannelSettingsByType_kept T _) _ _ (saveChannel_kept T)).
  - refine (get_or_create_returns (A := Channels.ChannelSettings) T _ _ _ _ _); [|done].
    intros d x E. exact (find_by_tenant_and _ (λ r, String.eqb (Channels.channelType r) _) _ _ E).
  - intros ? x <-. reflexivity.
Qed.

Lemma maybeSyncFromBilling_kept T :
  keeps (db_rel (kept T)) (UsageLimitService.maybeSyncFromBilling T).
Proof.
  unfold UsageLimitService.maybeSyncFromBilling.
  apply keeps_bind; [apply _|apply logged_kept, redis_kept|]. intros v.
  destruct (truthy v); [apply keeps_ret, _|].
  apply keeps_bind; [apply _| |intros; apply logged_kept, redis_kept].
  apply keeps_try_catch; [apply _| |intros; apply keeps_ret, _].
  apply keeps_bind; [apply _|apply keeps_of_result, _|]. intros q.
  destruct (UsageLimitService.sanitizeQuotas q); [|apply keeps_ret, _].
  apply keeps_bind; [apply _|apply updateUsageLimits_kept|]. intros. apply keeps_ret, _.
Qed.
Lemma getUsageLimits_kept T : keeps (db_rel (kept T)) (UsageLimitService.getUsageLimits T).
Proof.
  unfold UsageLimitService.getUsageLimits.
  apply keeps_bind; [apply _|apply getOrCreateRawLimits_kept|]. intros l.
  apply keeps_bind; [apply _|apply maybeSyncFromBilling_kept|]. intros _.
  apply keeps_bind; [apply _|apply keeps_gets, _|]. intros. apply keeps_ret, _.
Qed.
Lemma enforceLimit_kept T r usage :
  keeps (db_rel (kept T)) (UsageLimitService.enforceLimit T r usage).
Proof.
  unfold UsageLimitService.enforceLimit.
  apply keeps_bind; [apply _|apply getUsageLimits_kept|]. intros l.
  destruct (_ <? _); [apply keeps_ret, _|].
  apply keeps_bind; [apply _| |intros _; apply keeps_bind; [apply _| |intros _; apply keeps_throw, _]].
  - apply keeps_try_catch; [apply _| |intros; apply keeps_ret, _].
    apply db_kept_settings, addJob_db.
  - apply keeps_try_catch; [apply _| |intros; apply keeps_ret, _].
    unfold UsageLimitService.notify_admins.
    apply keeps_bind; [apply _|apply keeps_of_result, _|]. intros admins.
    apply keeps_bind; [apply _|apply getSettings_kept|]. intros s.
    apply keeps_for_each; [apply _|]. intros email.
    apply keeps_try_catch; [apply _|apply db_kept_settings, sendEmail_db|].
    intros. apply keeps_ret, _.
Qed.

(** The worker reads the tables and writes Redis only. *)
Lemma handleJob_kept T job : keeps (db_rel (kept T)) (SettingsQueueProcessor.handleJob job).
Proof.
  unfold SettingsQueueProcessor.handleJob, SettingsQueueProcessor.snapshot.
  repeat (keeps_step; try apply _; try apply redis_kept).
  - apply db_kept_settings, audit_log_db.
Qed.

#[local] Hint Resolve getSettings_kept createSettings_kept updateSettings_kept getBranding_kept
  updateBranding_kept getBusinessHours_kept saveBusinessHours_service_kept
  deleteBusinessHours_kept saveHoliday_service_kept deleteHoliday_kept resolveFlag_kept
  saveFeatureFlag_service_kept deleteFeatureFlag_kept getAiSettings_kept updateAiSettings_kept
  getChannelSettings_kept getChannelSettingsByType_kept updateChannelSettings_kept
  getNotificationSettings_kept updateNotificationSettings_kept getSlaSettings_kept
  updateSlaSettings_kept getSecuritySettings_kept updateSecuritySettings_kept
  getWidgetSettings_kept updateWidgetSettings_kept getUsageLimits_kept updateUsageLimits_kept
  enforceLimit_kept handleJob_kept : keeps.

Lemma serve_kept T c : keeps (db_rel (kept T)) (serve T c).
Proof. destruct c; cbn [serve]; try apply ignore_kept; auto with keeps nocore. Qed.

(** Calls one after the other, each for its tenant; what a call throws goes to its
    caller and the next call runs. *)
Definition serve_all (l : list (string * Call)) (w : SettingsW) : SettingsW :=
  foldl (λ w tc, final (serve tc.1 tc.2) w) w l.

(** The rows of one tenant in each table. *)
Definition own {A} {HT : Table A} U (l : list A) : list A := js_filter (by_tenant U) l.
Definition owned U d :=
  (own U (tenantSettings d), own U (tenantBranding d),
   own U (tenantPreferences d), own U (tenantBusinessHours d),
   own U (tenantHolidays d), own U (tenantFeatureFlags d),
   own U (tenantAiSettings d), own U (tenantChannelSettings d),
   own U (tenantNotificationSettings d), own U (tenantSlaSettings d),
   own U (tenantSecuritySettings d), own U (tenantWidgetSettings d),
   own U (tenantUsageLimits d)).

Lemma own_foreign {A} {HT : Table A} T U (l : list A) : T ≠ U → own U (foreign T l) = own U l.
Proof.
  intros Hne. unfold own, foreign, js_filter. induction l as [|x l IH]; [done|]. cbn.
  destruct (by_tenant T x) eqn:ET; cbn; [|by rewrite IH].
  rewrite IH. unfold by_tenant in *. apply String.eqb_eq in ET as ->.
  by rewrite (proj2 (String.eqb_neq T U) Hne).
Qed.

Lemma others_owned T U d d' : T ≠ U → others T d' = others T d → owned U d' = owned U d.
Proof.
  intros Hne E. injection E. intros. unfold owned.
  repeat apply (f_equal2 pair); rewrite <- (own_foreign T U) by done; symmetry;
    rewrite <- (own_foreign T U) by done; congruence.
Qed.

(** C3: Starting from well-formed tables (no two rows of a table with the same
    id, none with the same key of their tenant: the tenant itself for the tables
    of one row per tenant, the day of the business hours, the type of the channel,
    the key of the flag), any sequence of calls of the settings services and of the
    settings worker, for any tenants, with any requests, whatever the queue, Redis,
    billing, IAM and the mail service do and whichever calls throw, leaves the
    tables well formed; and the rows of a tenant that none of the calls was for are
    what they were. *)
Theorem settings_calls_isolated l w :
  wf (db w) →
  wf (db (serve_all l w))
  ∧ ∀ U, U ∉ l.*1 → owned U (db (serve_all l w)) = owned U (db w).
Proof.
  revert w. induction l as [|[T c] l IH]; intros w Hwf; [done|].
  destruct (serve_kept T c w Hwf) as [Hwf' Hothers].
  destruct (IH (final (serve T c) w) Hwf') as [Hend Howned]. split; [exact Hend|].
  intros U HU. rewrite fmap_cons, not_elem_of_cons in HU. destruct HU as [Hne HU].
  cbn [serve_all foldl]. etransitivity; [by apply Howned|].
  by eapply others_owned; [|exact Hothers].
Qed.
End calls.
