(* ===== verification/SettingsSpec.v ===== *)
(** * Tenant settings: what the services promise

    A service over a table of one row per tenant is a register per tenant: an
    interface, [SettingsService], that seven services implement; what reads and
    updates return and store; and what is left of it when two first requests of a
    tenant run at once. *)

From Stdlib Require Import QArith.
From S2P Require Import Prelude Platform JsDate JsValue.
From S2P Require Import Settings SettingsRepo SettingsEngine SettingsService SettingsProofs.
Open Scope Z_scope.

Section table.
Context {HE : Env} {HS : SettingsSql} {HJ : JsonNumber}.
Context {A : Type} {HT : Table A} {HL : TableLaws A} {HK : TableKey A} {HA : InDb A}
        {HS1 : Singleton A}.
Implicit Types (x y z r e raw : A) (l : list A) (w : SettingsW) (T : string).

(** The entity of a tenant. *)
Definition view T (d : SettingsDb) : option A := find_row (by_tenant T) d.

(** The id of a new row is not an id of the table. *)
Definition fresh_id (d : SettingsDb) (id : string) : Prop := id ∉ (entity_id <$> rows (A := A) d).

Lemma distinct_rows_complete l : NoDup (entity_id <$> l) → distinct_rows l = true.
Proof.
  induction l as [|x l IH]; [done|]. rewrite fmap_cons. intros [Hx Hl]%NoDup_cons.
  cbn [distinct_rows]. rewrite (IH Hl), andb_true_r. apply negb_true_iff, some_false.
  intros y Hy. unfold clash, by_id. rewrite no_index, orb_false_r. apply String.eqb_neq.
  intros E. apply Hx, list_elem_of_fmap. eauto.
Qed.

Lemma checked_ok l : NoDup (entity_id <$> l) → checked l = Ok l.
Proof. intros Hl. unfold checked. by rewrite distinct_rows_complete. Qed.

Lemma find_tenant_row l r :
  wf_rows l → r ∈ l → js_find (by_tenant (entity_tenantId r)) (scan l) = Some r.
Proof.
  intros [_ Hk] Hr. apply find_scan_unique; [done|by unfold by_tenant; rewrite String.eqb_refl|].
  intros r' Hr' E%String.eqb_eq. eapply (nodup_fmap_inj table_key); [done..|].
  by apply singleton_key.
Qed.

(** A save is accepted when the row of the tenant has the id of what is saved, or
    there is no row and the id is new. *)
Definition matches (d : SettingsDb) x : Prop :=
  match view (entity_tenantId x) d with
  | Some e => entity_id e = entity_id x
  | None => fresh_id d (entity_id x)
  end.

Lemma write_rows_ok d x raw :
  wf d → matches d x → entity_id raw = entity_id x →
  ∃ l, write_rows (by_tenant (entity_tenantId x)) (λ _, by_tenant (entity_tenantId x)) raw
         (rows d) = Ok l.
Proof.
  intros Hwf Hm Hid. pose proof (wf_in _ Hwf) as Hr. pose proof Hr as [Hids _].
  unfold matches, view, find_row in Hm. unfold write_rows, write_found.
  destruct (js_find _ _) as [e|] eqn:E; cbn in Hm.
  - rewrite domain_id in Hm. apply find_scan_some in E as [He Ht].
    unfold update_rows. rewrite checked_ok; [eauto|].
    rewrite <- list_fmap_compose. erewrite list_fmap_ext; [exact Hids|].
    intros i r Hi%list_elem_of_lookup_2. cbn. destruct (by_tenant _ r) eqn:Er; [|done].
    rewrite with_createdAt_id, Hid, <- Hm. f_equal.
    pose proof (find_tenant_row _ r Hr Hi) as E1. pose proof (find_tenant_row _ e Hr He) as E2.
    apply String.eqb_eq in Ht, Er. congruence.
  - unfold insert_row. rewrite checked_ok; [eauto|]. apply nodup_fmap_snoc; [done|].
    by rewrite Hid.
Qed.

(** The row under which a save leaves the entity. *)
Definition stored (d : SettingsDb) raw : A :=
  match view (entity_tenantId raw) d with
  | Some e => with_createdAt (entity_createdAt e) raw
  | None => raw
  end.

Lemma save_of_tenant_spec x w :
  wf (db w) → matches (db w) x →
  match columns (with_updatedAt (env_clock (ticks w)) x) with
  | Throw e => save_of_tenant x w = (Throw e, w <| ticks ::= S |>)
  | Ok raw => ∃ w', save_of_tenant x w = (Ok tt, w') ∧ wf (db w') ∧ redis (db w') = redis (db w)
      ∧ view (entity_tenantId x) (db w') = Some (stored (db w) raw)
      ∧ stored (db w) raw ∈ rows (db w')
  end.
Proof.
  intros Hwf Hm. unfold save_of_tenant. rewrite save_rows_run. cbv zeta.
  destruct (columns _) as [raw|] eqn:Ec; [|done].
  assert (entity_id raw = entity_id x) as Hid
    by (rewrite (columns_id _ _ Ec); apply with_updatedAt_id).
  assert (entity_tenantId raw = entity_tenantId x) as Htn
    by (rewrite (columns_tenant _ _ Ec); apply with_updatedAt_tenant).
  destruct (write_rows_ok (db w) x raw Hwf Hm Hid) as [l Hl]. cbn. rewrite Hl.
  pose proof (by_key_updated _ _ _ (env_clock (ticks w)) (by_key_tenant x)) as Hk.
  destruct (write_rows_spec _ _ _ _ _ _ (wf_in _ Hwf) Hk (key_columns _ _ Ec) Hl)
    as (Hwf' & _ & Hin & _).
  assert (stored (db w) raw = with_createdAt (created_at (by_tenant (entity_tenantId x)) raw
            (rows (db w))) raw) as Hst.
  { unfold stored, view, find_row, created_at. rewrite Htn.
    destruct (js_find _ _); cbn; [by rewrite domain_createdAt|]. symmetry.
    apply with_createdAt_same. }
  rewrite <- Hst in Hin. eexists. split; [reflexivity|]. cbn.
  split; [by apply wf_with|]. split; [apply redis_with|]. unfold view, find_row. rewrite rows_with_rows. split; [|done].
  assert (entity_tenantId (stored (db w) raw) = entity_tenantId x) as Ht'
    by by rewrite Hst, with_createdAt_tenant.
  rewrite <- Ht', find_tenant_row by done. cbn. rewrite Hst.
  by rewrite (columns_domain _ _ _ Ec).
Qed.

(** *** Two first saves at once *)

(** If two requests both look for a tenant's row of one of the tables of one
    row per tenant and find none before either of them writes, then both inserts
    are accepted when their ids differ, the table holds two rows of the tenant, and
    from then on every save for that tenant throws and changes no table: an update
    would give both rows the same id. *)
Theorem concurrent_first_saves x y T l :
  entity_tenantId x = T → entity_tenantId y = T →
  js_find (by_tenant T) (scan l) = None →
  NoDup (entity_id <$> l ++ [x; y]) →
  ∃ l1 l2, write_found (λ _, by_tenant T) (js_find (by_tenant T) (scan l)) x l = Ok l1
    ∧ write_found (λ _, by_tenant T) (js_find (by_tenant T) (scan l)) y l1 = Ok l2
    ∧ js_filter (by_tenant T) l2 = [x; y]
    ∧ ∀ z w, entity_tenantId z = T → rows (db w) = l2 →
        ∃ ex, save_of_tenant z w = (Throw ex, w <| ticks ::= S |>).
Proof.
  intros Hx Hy Hs Hids. exists (l ++ [x]), (l ++ [x; y]).
  assert (js_filter (by_tenant T) l = []) as Hnone.
  { destruct (js_filter _ l) as [|r l'] eqn:E; [done|].
    assert (r ∈ js_filter (by_tenant T) l) as [Hr Ht]%js_filter_elem by (rewrite E; constructor).
    by rewrite (find_scan_none _ _ r Hs Hr) in Ht. }
  rewrite Hs. cbn [write_found]. unfold insert_row.
  assert (l ++ [x; y] = (l ++ [x]) ++ [y]) as Eapp by by rewrite <- app_assoc.
  split; [apply checked_ok; rewrite Eapp, fmap_app in Hids; by apply NoDup_app in Hids as [? _]|].
  rewrite Eapp in Hids |- *. split; [by apply checked_ok|].
  assert (by_tenant T x = true ∧ by_tenant T y = true) as [Tx Ty]
    by (unfold by_tenant; rewrite Hx, Hy; by rewrite String.eqb_refl).
  split.
  { unfold js_filter in *. rewrite !List.filter_app, Hnone. cbn. by rewrite Tx, Ty. }
  clear Hs Hids. intros z w Hz Hw. unfold save_of_tenant. rewrite save_rows_run, Hz. cbv zeta.
  destruct (columns _) as [raw|]; [|by eexists]. exists unique_violation. cbn. rewrite Hw.
  unfold write_rows. destruct (js_find _ (scan (_ ++ _))) as [e|] eqn:E.
  - cbn [write_found]. unfold update_rows. rewrite !fmap_app. cbn. rewrite Tx, Ty.
    unfold checked. destruct (distinct_rows _) eqn:Ed; [|done].
    apply distinct_rows_ids in Ed. rewrite !fmap_app in Ed. cbn in Ed.
    rewrite !with_createdAt_id in Ed. rewrite <- app_assoc in Ed.
    apply NoDup_app in Ed as (_ & _ & Ed). by apply NoDup_cons in Ed as [[]%not_elem_of_cons _].
  - exfalso. eapply (find_scan_none _ _ x) in E; [by rewrite Tx in E|].
    rewrite !elem_of_app, list_elem_of_singleton. auto.
Qed.
End table.

(** ** Services over a table of one row per tenant *)

Class SettingsService (A Dto : Type) {HE : Env} {HS : SettingsSql} {HT : Table A} := {
  svc_get : string → M SettingsW A;
  svc_update : string → Dto → M SettingsW A;
  svc_defaults : string → string → Z → Z → A;
  svc_patch : Dto → A → A → A;
  svc_event : string;
  svc_get_is T : svc_get T = get_or_create (view T) (svc_defaults T) save_of_tenant;
  svc_update_is T dto :
    svc_update T dto =
      (x ← svc_get T; now ← new_Date;
       store save_of_tenant T svc_event (update now (svc_patch dto x) x));
  svc_defaults_id T i c u : entity_id (svc_defaults T i c u) = i;
  svc_defaults_tenant T i c u : entity_tenantId (svc_defaults T i c u) = T;
  svc_defaults_stored T i c u t :
    columns (with_updatedAt t (svc_defaults T i c u)) = Ok (with_updatedAt t (svc_defaults T i c u));
  svc_patch_id dto (x : A) : entity_id (svc_patch dto x x) = entity_id x;
  svc_patch_tenant dto (x : A) : entity_tenantId (svc_patch dto x x) = entity_tenantId x;
  svc_patch_createdAt dto (x : A) : entity_createdAt (svc_patch dto x x) = entity_createdAt x;
}.

Section client.
Context {HE : Env} {HS : SettingsSql} {HJ : JsonNumber}.
Context {A Dto : Type} {HT : Table A} {HL : TableLaws A} {HK : TableKey A} {HA : InDb A}
        {HS1 : Singleton A} {HV : SettingsService A Dto}.
Implicit Types (x raw : A) (w : SettingsW) (T : string) (dto : Dto).

(** What a tenant has: its entity, or the one made for it. *)
Definition base T w : A :=
  match view T (db w) with
  | Some x => x
  | None => svc_defaults T (env_uuid (uuids w)) (env_clock (ticks w)) (env_clock (S (ticks w)))
  end.

(** The database is well formed, and [uuidv4()] gives a new id if the tenant needs
    one. *)
Definition ready T w : Prop :=
  wf (db w) ∧ (view T (db w) = None → fresh_id (A := A) (db w) (env_uuid (uuids w))).

(** The base as a save leaves it. *)
Definition redated x1 x : Prop := x1 = x ∨ ∃ t, x1 = with_updatedAt t x.

Lemma publish_ok T e p w :
  ∃ w', publish T e p w = (Ok tt, w') ∧ db w' = db w.
Proof.
  destruct (publish T e p w) as [r w'] eqn:E. exists w'. split.
  - assert (∀ m : M SettingsW unit, try_catch m (λ _, mret tt) w = (r, w') → r = Ok tt) as Hok.
    { intros m. unfold try_catch. destruct (m w) as [[[]|] ?]; by intros [= <- <-]. }
    by rewrite (Hok _ E).
  - pose proof (publish_settings_db T e p w) as Hk. unfold same, final in Hk. by rewrite E in Hk.
Qed.

Lemma view_tenant T d x : view T d = Some x → entity_tenantId x = T.
Proof.
  intros E. refine (find_row_tenant T _ d x _ E). by intros r Hr%String.eqb_eq.
Qed.

Lemma base_tenant T w : entity_tenantId (base T w) = T.
Proof.
  unfold base. destruct (view T (db w)) eqn:E; [by apply view_tenant in E|].
  apply svc_defaults_tenant.
Qed.

(** What [svc_get] leaves in the table. *)
Lemma svc_get_run T w :
  ready T w →
  ∃ w1 x1, svc_get (A := A) (Dto := Dto) T w = (Ok (base T w), w1) ∧ wf (db w1)
    ∧ redis (db w1) = redis (db w) ∧ view T (db w1) = Some x1 ∧ redated x1 (base T w).
Proof.
  intros [Hwf Hfresh]. rewrite svc_get_is. unfold get_or_create. rewrite gets_bind.
  unfold base. destruct (view T (db w)) as [x|] eqn:E; [by exists w, x; split_and!; [| | | |left]|].
  set (d := svc_defaults T _ _ _). set (w1 := w <| uuids ::= S |> <| ticks ::= S |> <| ticks ::= S |>).
  pose proof (svc_defaults_tenant (A := A) (Dto := Dto) T (env_uuid (uuids w))
    (env_clock (ticks w)) (env_clock (S (ticks w)))) as Ht. fold d in Ht.
  pose proof (save_of_tenant_spec d w1 Hwf) as Hs.
  assert (matches (db w1) d) as Hm.
  { unfold matches. rewrite Ht. cbn. rewrite E. unfold d. rewrite svc_defaults_id. auto. }
  specialize (Hs Hm). unfold d in Hs at 1. rewrite svc_defaults_stored in Hs. fold d in Hs.
  destruct Hs as (w2 & Er & Hwf2 & Hre & Hv & _).
  assert (construct (svc_defaults T) w = (Ok d, w1)) as Ec by done.
  rewrite (bind_ok _ _ _ _ _ Ec), (bind_ok _ _ _ _ _ Er). exists w2. eexists. split; [done|].
  split; [done|]. split; [by rewrite Hre|]. rewrite Ht in Hv. split; [exact Hv|]. right. eexists. unfold stored.
  rewrite with_updatedAt_tenant, Ht. cbn. by rewrite E.
Qed.

(** For every service over a table of one row per tenant (branding, AI,
    notification, SLA, security and widget settings, usage limits), on a well-formed
    database where [uuidv4] gives a new id: reading returns the tenant's entity or,
    when there is none, the defaults, and stores them; and the next read returns
    what is stored, and changes nothing. *)
Theorem settings_get T w :
  ready T w →
  ∃ w1 x1, svc_get (A := A) (Dto := Dto) T w = (Ok (base T w), w1)
    ∧ redated x1 (base T w)
    ∧ svc_get (A := A) (Dto := Dto) T w1 = (Ok x1, w1).
Proof.
  intros Hr. destruct (svc_get_run T w Hr) as (w1 & x1 & E & _ & _ & Hv & Hx).
  exists w1, x1. split; [done|]. split; [done|].
  rewrite svc_get_is. unfold get_or_create. rewrite gets_bind. by rewrite Hv.
Qed.

Lemma svc_update_run T dto w :
  ready T w →
  ∃ n w',
    let x := update (env_clock n) (svc_patch dto (base T w)) (base T w) in
    wf (db w') ∧
    match columns (with_updatedAt (env_clock (S n)) x) with
    | Ok raw => svc_update T dto w = (Ok x, w')
        ∧ entity_createdAt raw = entity_createdAt (base T w) ∧ view T (db w') = Some raw
    | Throw e => svc_update T dto w = (Throw e, w')
        ∧ ∃ x1, redated x1 (base T w) ∧ view T (db w') = Some x1
    end.
Proof.
  intros Hr. destruct (svc_get_run T w Hr) as (w1 & x1 & E & Hwf1 & _ & Hv & Hx). unfold redated in Hx.
  set (b := base T w) in *. set (now := env_clock (ticks w1)).
  set (x := update now (svc_patch dto b) b). set (w2 := w1 <| ticks ::= S |>).
  assert (entity_tenantId x = T) as Ht.
  { unfold x, update. rewrite with_updatedAt_tenant, svc_patch_tenant. apply base_tenant. }
  assert (entity_id x = entity_id x1) as Hid.
  { unfold x, update. rewrite with_updatedAt_id, svc_patch_id.
    destruct Hx as [->|[? ->]]; by rewrite ?with_updatedAt_id. }
  assert (entity_createdAt x = entity_createdAt x1 ∧ entity_createdAt x = entity_createdAt b)
    as [Hc Hcb].
  { unfold x, update. rewrite with_updatedAt_at, svc_patch_createdAt.
    destruct Hx as [->|[? ->]]; by rewrite ?with_updatedAt_at. }
  assert (matches (db w2) x) as Hm by (unfold matches; rewrite Ht; cbn; by rewrite Hv).
  pose proof (save_of_tenant_spec x w2 Hwf1 Hm) as Hs.
  assert (svc_update T dto w = store save_of_tenant T (svc_event (A := A) (Dto := Dto)) x w2) as Eu.
  { rewrite svc_update_is, (bind_ok _ _ _ _ _ E). reflexivity. }
  rewrite Eu. clear Eu. exists (ticks w1).
  cbv zeta. fold x. destruct (columns _) as [raw|e] eqn:Ec.
  - destruct Hs as (w3 & Es & Hwf3 & _ & Hv3 & _).
    destruct (publish_ok T (svc_event (A := A) (Dto := Dto)) (entity_json x) w3) as (w4 & Ep & Hdb).
    exists w4. split; [by rewrite Hdb|]. split.
    { unfold store. rewrite (bind_ok _ _ _ _ _ Es). by rewrite (bind_ok _ _ _ _ _ Ep). }
    assert (entity_createdAt raw = entity_createdAt x) as Hcr
      by (rewrite (columns_createdAt _ _ Ec); apply with_updatedAt_at).
    split; [congruence|]. rewrite Hdb. rewrite <- Ht, Hv3. f_equal. unfold stored.
    rewrite (columns_tenant _ _ Ec), with_updatedAt_tenant, Ht. cbn. rewrite Hv.
    rewrite <- Hc, <- Hcr, with_createdAt_same. done.
  - eexists. split; [|split; [unfold store; by rewrite (bind_throw _ _ _ _ _ Hs)|]]; [done|].
    by exists x1.
Qed.

Lemma svc_get_view T w x :
  view T (db w) = Some x → svc_get (A := A) (Dto := Dto) T w = (Ok x, w).
Proof. intros Hv. rewrite svc_get_is. unfold get_or_create. rewrite gets_bind. by rewrite Hv. Qed.

End client.

(** The seven services *)
Section services.
Context {HE : Env} {HS : SettingsSql} {HJ : JsonNumber}.

#[global, program] Instance branding_service :
    SettingsService Branding.BrandingSettings BrandingService.UpdateBrandingDto :=
  {| svc_get := BrandingService.getBranding; svc_update := BrandingService.updateBranding;
     svc_defaults := BrandingService.defaults; svc_patch := BrandingService.patch;
     svc_event := "branding.updated" |}.
Solve All Obligations with reflexivity.
#[global, program] Instance ai_service :
    SettingsService Ai.AiSettings AiSettingsService.UpdateAiSettingsDto :=
  {| svc_get := AiSettingsService.getAiSettings;
     svc_update := AiSettingsService.updateAiSettings;
     svc_defaults := AiSettingsService.defaults; svc_patch := AiSettingsService.patch;
     svc_event := "ai_settings.updated" |}.
Solve All Obligations with reflexivity.
#[global, program] Instance notification_service :
    SettingsService Notifications.NotificationSettings
      NotificationSettingsService.UpdateNotificationSettingsDto :=
  {| svc_get := NotificationSettingsService.getNotificationSettings;
     svc_update := NotificationSettingsService.updateNotificationSettings;
     svc_defaults := NotificationSettingsService.defaults;
     svc_patch := NotificationSettingsService.patch; svc_event := "settings.updated" |}.
Solve All Obligations with reflexivity.
#[global, program] Instance sla_service :
    SettingsService Sla.SlaSettings SlaSettingsService.UpdateSlaSettingsDto :=
  {| svc_get := SlaSettingsService.getSlaSettings;
     svc_update := SlaSettingsService.updateSlaSettings;
     svc_defaults := SlaSettingsService.defaults; svc_patch := SlaSettingsService.patch;
     svc_event := "sla_settings.updated" |}.
Solve All Obligations with reflexivity.
#[global, program] Instance security_service :
    SettingsService Security.SecuritySettings SecuritySettingsService.UpdateSecuritySettingsDto :=
  {| svc_get := SecuritySettingsService.getSecuritySettings;
     svc_update := SecuritySettingsService.updateSecuritySettings;
     svc_defaults := SecuritySettingsService.defaults;
     svc_patch := SecuritySettingsService.patch; svc_event := "security_settings.updated" |}.
Solve All Obligations with reflexivity.
#[global, program] Instance widget_service :
    SettingsService Widget.WidgetSettings WidgetSettingsService.UpdateWidgetSettingsDto :=
  {| svc_get := WidgetSettingsService.getWidgetSettings;
     svc_update := WidgetSettingsService.updateWidgetSettings;
     svc_defaults := WidgetSettingsService.defaults; svc_patch := WidgetSettingsService.patch;
     svc_event := "settings.updated" |}.
Solve All Obligations with reflexivity.
#[global, program] Instance limits_service :
    SettingsService Limits.UsageLimits UsageLimitService.UpdateUsageLimitsDto :=
  {| svc_get := UsageLimitService.getOrCreateRawLimits;
     svc_update := UsageLimitService.updateUsageLimits;
     svc_defaults := UsageLimitService.defaults; svc_patch := UsageLimitService.patch;
     svc_event := "usage_limit.updated" |}.
Solve All Obligations with reflexivity.
End services.
