(* ===== verification/SettingsEngineProofs.v ===== *)
(** * Feature flags, plan limits and business hours: properties *)

From Stdlib Require Import QArith.
From S2P Require Import Prelude Platform JsDate JsValue.
From S2P Require Import Settings SettingsRepo SettingsEngine SettingsService SettingsProofs.
From S2P Require Import SettingsSpec.
Open Scope Z_scope.

(** ** The roll-out of a flag *)
Section rollout.

Lemma to_int32_range z : - 2 ^ 31 ≤ to_int32 z < 2 ^ 31.
Proof. unfold to_int32. pose proof (Z.mod_pos_bound (z + 2 ^ 31) (2 ^ 32) ltac:(lia)). lia. Qed.

Lemma hash_step_bound h c : Z.abs (hash_step h c) ≤ Z.abs h + (2 ^ 31 + 255).
Proof.
  unfold hash_step, shl32. pose proof (to_int32_range (Z.shiftl (to_int32 h) 5)).
  assert (Z.of_N (Ascii.N_of_ascii c) ≤ 255)
    by (pose proof (Ascii.N_ascii_bounded c); lia).
  lia.
Qed.

Lemma hash_exact id :
  Z.abs (hash_of id) ≤ Z.of_nat (length (String.list_ascii_of_string id)) * (2 ^ 31 + 255).
Proof.
  unfold hash_of. set (l := String.list_ascii_of_string id).
  assert (∀ l h, Z.abs (foldl hash_step h l) ≤ Z.abs h + Z.of_nat (length l) * (2 ^ 31 + 255))
    as Hf; [|specialize (Hf l 0); lia].
  clear. intros l. induction l as [|c l IH]; intros h; cbn [foldl length]; [lia|].
  specialize (IH (hash_step h c)). pose proof (hash_step_bound h c). lia.
Qed.

Lemma bucket_range id : 0 ≤ getDeterministicPercentage id < 100.
Proof.
  unfold getDeterministicPercentage. pose proof (Z.rem_bound_abs (hash_of id) 100 ltac:(lia)). lia.
Qed.

Lemma rolled_out_spec flag user tenant :
  rolled_out flag user tenant =
    Flags.enabled flag
    && (getDeterministicPercentage (js_or user tenant) <? Flags.rolloutPercentage flag).
Proof.
  unfold rolled_out. destruct (Flags.enabled flag); [|done]. cbn.
  pose proof (bucket_range (js_or user tenant)).
  destruct (Z.ltb_spec (Flags.rolloutPercentage flag) 100); [done|].
  symmetry. apply Z.ltb_lt. lia.
Qed.

(** C28: The roll-out of a flag: the bucket of a user (of the tenant when there is
    no user) is in 0..99 and depends on nothing else; a user gets an enabled flag
    exactly when the bucket is below the percentage, so that raising the
    percentage takes the flag from nobody, 0 gives it to nobody and 100 to
    everybody; and for identifiers of up to a million characters the hash is an
    integer that a double holds exactly, so the arithmetic of the code is that of
    the integers. *)
Theorem rollout_buckets flag tenant :
  (∀ user, rolled_out flag user tenant = true ↔
     Flags.enabled flag = true
     ∧ getDeterministicPercentage (js_or user tenant) < Flags.rolloutPercentage flag)
  ∧ (∀ id, 0 ≤ getDeterministicPercentage id < 100)
  ∧ (∀ user p, Flags.rolloutPercentage flag ≤ p → rolled_out flag user tenant = true →
       rolled_out (flag <| Flags.rolloutPercentage := p |>) user tenant = true)
  ∧ (∀ user, rolled_out (flag <| Flags.rolloutPercentage := 0 |>) user tenant = false)
  ∧ (∀ user, rolled_out (flag <| Flags.rolloutPercentage := 100 |>) user tenant
             = Flags.enabled flag)
  ∧ ∀ id, Z.of_nat (length (String.list_ascii_of_string id)) ≤ 1000000 →
      Z.abs (hash_of id) < 2 ^ 53.
Proof.
  split_and!.
  - intros user. by rewrite rolled_out_spec, andb_true_iff, Z.ltb_lt.
  - apply bucket_range.
  - intros user p Hp. rewrite !rolled_out_spec, !andb_true_iff, !Z.ltb_lt. cbn.
    intros [Hen Hlt]. split; [done|]. by eapply Z.lt_le_trans.
  - intros user. rewrite rolled_out_spec. cbn. pose proof (bucket_range (js_or user tenant)).
    apply andb_false_intro2, Z.ltb_ge. lia.
  - intros user. rewrite rolled_out_spec. cbn. pose proof (bucket_range (js_or user tenant)).
    destruct (Z.ltb_spec (getDeterministicPercentage (js_or user tenant)) 100); [|lia].
    apply andb_true_r.
  - intros id Hid. pose proof (hash_exact id). nia.
Qed.
End rollout.

(** ** The cache of a flag *)
Section cache.
Context {HE : Env} {HS : SettingsSql} {HJ : JsonNumber} {HP : ProcessEnv}.
Implicit Types (w : SettingsW) (s : gmap string string).

Lemma bool_text_eq b : String.eqb (bool_text b) "true" = b.
Proof. by destruct b. Qed.

(** What a resolution answers and leaves, when Redis can be reached and no variable
    of the process overrides the flag. *)
Lemma resolveFlag_run tenant key user w s :
  redis (db w) = Some s → process_env ("FEATURE_FLAG_" +:+ js_upper key) = None →
  resolveFlag tenant key user w =
    match s !! flag_key tenant key with
    | Some v => (Ok (String.eqb v "true"), w)
    | None =>
        match getFeatureFlagByKey tenant key (db w) with
        | None => (Ok false, w)
        | Some flag =>
            let b := rolled_out flag user tenant in
            (Ok b, w <| db ::= λ d,
               d <| redis := Some (<[flag_key tenant key := bool_text b]> s) |> |>)
        end
    end.
Proof.
  intros Hs He. unfold resolveFlag, logged, redis_get, redis_set, redis_command. rewrite He.
  destruct w as [d ticks uuids jobs audits realtime ctx]. destruct d. cbn in Hs. subst.
  run. destruct (s !! _) as [v|] eqn:E; [done|].
  by destruct (getFeatureFlagByKey _ _ _).
Qed.

(** While Redis can be reached, keeps the cached answer and the process
    environment does not override the flag, the answer given to one user of a tenant
    is given to every other user of the tenant who asks next, whatever the roll-out
    percentage says of them: it is cached under the tenant and the key of the flag. *)
Theorem flag_answer_is_shared tenant key user other w b w' :
  redis (db w) ≠ None →
  process_env ("FEATURE_FLAG_" +:+ js_upper key) = None →
  resolveFlag tenant key user w = (Ok b, w') →
  resolveFlag tenant key other w' = (Ok b, w').
Proof.
  intros Hr He. destruct (redis (db w)) as [s|] eqn:Es; [|done].
  rewrite (resolveFlag_run _ _ _ _ _ Es He).
  destruct (s !! flag_key tenant key) as [v|] eqn:Ev.
  - intros [= <- <-]. rewrite (resolveFlag_run _ _ _ _ _ Es He). by rewrite Ev.
  - destruct (getFeatureFlagByKey tenant key (db w)) as [flag|] eqn:Ef.
    + intros [= <- <-]. erewrite resolveFlag_run; [|done|done].
      by rewrite lookup_insert_eq, bool_text_eq.
    + intros [= <- <-]. rewrite (resolveFlag_run _ _ _ _ _ Es He). by rewrite Ev, Ef.
Qed.

(** The flag that is stored under a key after it was saved. *)
Lemma saved_flag x w w' :
  wf (db w) → SettingsRepo.saveFeatureFlag x w = (Ok tt, w') →
  ∃ flag, getFeatureFlagByKey (Flags.tenantId x) (Flags.featureKey x) (db w') = Some flag
    ∧ Flags.enabled flag = Flags.enabled x
    ∧ Flags.rolloutPercentage flag = Flags.rolloutPercentage x
    ∧ redis (db w') = redis (db w).
Proof.
  intros Hwf. unfold SettingsRepo.saveFeatureFlag, save_one. rewrite save_rows_run. cbv zeta.
  set (t := env_clock (ticks w)). set (found := λ r, _). cbn [with_updatedAt].
  destruct (columns (with_updatedAt t x)) as [raw|] eqn:Ec; [|done].
  assert (by_key x found (λ existing, by_id (entity_id existing))) as Hk.
  { refine (by_key_one (A := Flags.FeatureFlag) _ _ _). intros r. unfold found, by_tenant. cbn. by rewrite <- pair_key. }
  destruct (write_rows _ _ _ _) as [l|] eqn:El; [|done]. intros [= <-].
  apply (by_key_updated x _ _ t) in Hk.
  destruct (write_rows_spec _ _ _ _ _ _ (wf_in _ Hwf) Hk (key_columns _ _ Ec) El)
    as ([_ Hkeys] & _ & Hin & _).
  assert (raw = with_updatedAt t x) as ->.
  { revert Ec. unfold columns, flags_table, flag_columns. destruct (_ && _); by intros [= <-]. }
  set (flag := with_createdAt _ _) in Hin.
  assert (js_find found (scan l) = Some flag) as Efind.
  { apply find_scan_unique; [exact Hin| |].
    - unfold found, by_tenant. cbn. by rewrite !String.eqb_refl.
    - intros r Hr [E1%String.eqb_eq E2%String.eqb_eq]%andb_true_iff.
      eapply (nodup_fmap_inj table_key); [exact Hkeys|exact Hr|exact Hin|].
      cbn in E1 |- *. by rewrite E1, E2. }
  exists flag. split; [|done]. unfold getFeatureFlagByKey, find_row.
  change (toDomain <$> js_find found (scan l) = Some flag). by rewrite Efind.
Qed.

End cache.

(** ** Plan limits *)
Section limits.
Context {HE : Env} {HS : SettingsSql} {HJ : JsonNumber} {HD : SettingsDeps}.
Import UsageLimitService.
Implicit Types (w : SettingsW) (T : string) (l : Limits.UsageLimits).

(** The quotas billing gives, unless they were asked for before. *)
Definition billed T w : option UpdateUsageLimitsDto :=
  let throttled := match redis (db w) with
                   | Some s => truthy (s !! throttle_key T)
                   | None => false
                   end in
  if throttled then None
  else match plan_quotas T with Ok q => sanitizeQuotas q | Throw _ => None end.

Abbreviation ready_limits := (ready (A := Limits.UsageLimits)).
Abbreviation base_limits := (base (A := Limits.UsageLimits) (Dto := UpdateUsageLimitsDto)).

(** What the tenant has after billing was asked: the limits with the quotas, if
    there are any and they fit the columns. *)
Definition after_billing (q : option UpdateUsageLimitsDto) (b l : Limits.UsageLimits) : Prop :=
  match q with
  | Some dto =>
      match limits_columns (patch dto b b) with
      | Ok _ => ∃ t, l = with_updatedAt t (patch dto b b)
      | Throw _ => redated l b
      end
  | None => redated l b
  end.

Lemma logged_ok {A} (m : M SettingsW A) a w : ∃ a' w', logged m a w = (Ok a', w').
Proof. unfold logged, try_catch. destruct (m w) as [[]]; eauto. Qed.

Lemma redis_get_run key w :
  logged (redis_get key) None w =
    (Ok (match redis (db w) with Some s => s !! key | None => None end), w).
Proof.
  unfold logged, redis_get, redis_command, try_catch.
  destruct w as [[] ? ? ? ? ? ?]. cbn. by destruct redis.
Qed.
Lemma redis_set_run key v w :
  ∃ w', logged (redis_set key v) tt w = (Ok tt, w')
    ∧ tenantUsageLimits (db w') = tenantUsageLimits (db w).
Proof.
  unfold logged, redis_set, redis_command, try_catch.
  destruct w as [[] ? ? ? ? ? ?]. cbn. destruct redis; cbn; eauto.
Qed.

Lemma limits_svc_get T : svc_get T = getOrCreateRawLimits T.
Proof. reflexivity. Qed.
Lemma limits_svc_update T dto : svc_update T dto = updateUsageLimits T dto.
Proof. reflexivity. Qed.
Lemma limits_svc_patch dto : svc_patch dto = patch dto.
Proof. reflexivity. Qed.
Lemma limits_columns_is l : columns l = limits_columns l.
Proof. reflexivity. Qed.
Lemma limits_redated t t' l : with_updatedAt t (with_updatedAt t' l) = with_updatedAt t l.
Proof. done. Qed.

Lemma limits_columns_dated t l :
  limits_columns (with_updatedAt t l) =
    match limits_columns l with Ok _ => Ok (with_updatedAt t l) | Throw e => Throw e end.
Proof. unfold limits_columns. cbn. by destruct (_ && _). Qed.

Lemma sync_run T w b :
  wf (db w) → view T (db w) = Some b →
  ∃ w', maybeSyncFromBilling T w = (Ok tt, w')
    ∧ ∃ l, view T (db w') = Some l ∧ after_billing (billed T w) b l.
Proof.
  intros Hwf Hv. unfold maybeSyncFromBilling, billed. rewrite (bind_ok _ _ _ _ _ (redis_get_run _ w)).
  destruct (truthy _) eqn:Et.
  { assert (truthy (match redis (db w) with Some s => s !! throttle_key T | None => None end)
            = match redis (db w) with Some s => truthy (s !! throttle_key T) | None => false end)
      as E by by destruct (redis (db w)).
    rewrite <- E, Et. exists w. split; [done|]. exists b. split; [done|]. by left. }
  assert (match redis (db w) with Some s => truthy (s !! throttle_key T) | None => false end = false)
    as -> by by destruct (redis (db w)).
  assert (∃ w1 l, try_catch (quotas ← of_result (plan_quotas T);
              match sanitizeQuotas quotas with
              | Some sanitized => updateUsageLimits T sanitized ;; mret tt
              | None => mret tt
              end) (λ _, mret tt) w = (Ok tt, w1)
            ∧ view T (db w1) = Some l
            ∧ after_billing (match plan_quotas T with Ok q => sanitizeQuotas q | Throw _ => None end)
                b l) as (w1 & l & E & Hl & Ha).
  { destruct (plan_quotas T) as [q|]; [|exists w, b; split_and!; [done..|by left]].
    cbn [of_result]. destruct (sanitizeQuotas q) as [dto|] eqn:Eq.
    2:{ exists w, b. unfold try_catch, mbind, M_bind. cbn. rewrite Eq. split_and!; [done..|by left]. }
    assert (base_limits T w = b) as Hb by (unfold base; by rewrite Hv).
    destruct (svc_update_run (A := Limits.UsageLimits) T dto w) as (n & w' & _ & H);
      [split; [done|congruence]|]. cbv zeta in H. rewrite Hb in H.
    rewrite limits_svc_update, limits_svc_patch in H.
    unfold update in H. rewrite limits_redated, limits_columns_is, limits_columns_dated in H.
    assert (∃ l r, view T (db w') = Some l ∧ after_billing (Some dto) b l
              ∧ updateUsageLimits T dto w = (r, w')) as (l & r & Hl & Ha & Eu).
    { unfold after_billing. destruct (limits_columns (patch dto b b)).
      - destruct H as (Eu & _ & Hv'). do 2 eexists. split_and!; [exact Hv'|by eexists|exact Eu].
      - destruct H as (Eu & x1 & Hx & Hv'). by do 2 eexists. }
    exists w', l. split; [|done].
    unfold try_catch, mbind, M_bind. cbn. rewrite Eq, Eu. by destruct r. }
  rewrite (bind_ok _ _ _ _ _ E). destruct (redis_set_run (throttle_key T) "1" w1) as (w2 & E2 & Hdb).
  exists w2. split; [done|]. exists l. split; [|done]. unfold view, find_row. cbn [rows limits_table].
  by rewrite Hdb.
Qed.

(** C26: On a well-formed database, a tenant's plan limits can always be read,
    whatever billing, Redis and the queue do: they are the stored limits (or the
    defaults) with the quotas billing gives, if it was not asked before, answers with
    quotas that are not negative, and they fit the columns; they are what is stored.
    Enforcing a limit then returns exactly when the usage is below the plan's limit
    of the resource, and otherwise throws the same [ForbiddenException], whatever
    the incident queue, the IAM service and the mail service do. *)
Theorem plan_limit_enforced T w :
  ready_limits T w →
  ∃ l w1, getUsageLimits T w = (Ok l, w1)
    ∧ view T (db w1) = Some l
    ∧ (∃ b, redated b (base_limits T w) ∧ after_billing (billed T w) b l)
    ∧ ∀ r usage, ∃ w2, enforceLimit T r usage w =
        (if usage <? limitByResource r l then Ok tt
         else Throw (limit_reached r (limitByResource r l)), w2).
Proof.
  intros Hr. destruct (svc_get_run T w Hr) as (w1 & b & Eg & Hwf & Hre & Hv & Hb).
  destruct (sync_run T w1 b Hwf Hv) as (w2 & Es & l & Hl & Ha).
  assert (getUsageLimits T w = (Ok l, w2)) as E.
  { unfold getUsageLimits.
    rewrite limits_svc_get in Eg.
    rewrite (bind_ok _ _ _ _ _ Eg), (bind_ok _ _ _ _ _ Es), gets_bind.
    assert (SettingsRepo.getUsageLimits T (db w2) = Some l) as -> by exact Hl. done. }
  exists l, w2. split; [done|]. split; [done|]. split.
  { exists b. split; [done|]. unfold billed in *. by rewrite Hre in Ha. }
  intros r usage. unfold enforceLimit. rewrite (bind_ok _ _ _ _ _ E). cbv zeta.
  destruct (usage <? _); [by eexists|].
  destruct (logged_ok (incident T r usage (limitByResource r l)) tt w2) as ([] & w3 & E3).
  destruct (logged_ok (notify_admins T r usage (limitByResource r l)) tt w3) as ([] & w4 & E4).
  unfold logged in E3, E4. rewrite (bind_ok _ _ _ _ _ E3), (bind_ok _ _ _ _ _ E4). by exists w4.
Qed.
End limits.
