(* ===== verification/SettingsHours.v ===== *)
(** * Business time

    [calculateBusinessTime] of the business hours engine against its meaning: the
    number of milliseconds of an interval at which the tenant is open.  The local
    time of the server is a constant offset from UTC. *)

From S2P Require Import Prelude Platform JsDate JsValue Settings SettingsRepo SettingsEngine.
Open Scope Z_scope.

(** ** Counting the instants of an interval *)
Section counting.
Implicit Types (p : Z → bool) (a b : Z).

Definition count p a b : Z := Z.of_nat (length (js_filter p (seqZ a (b - a)))).

Lemma count_nil p a : count p a a = 0.
Proof. unfold count. by rewrite Z.sub_diag. Qed.

Lemma count_app p a m b : a ≤ m → m ≤ b → count p a b = count p a m + count p m b.
Proof.
  intros Ha Hb. unfold count, js_filter.
  replace (b - a) with ((m - a) + (b - m)) by lia.
  rewrite seqZ_app by lia. rewrite List.filter_app, length_app.
  replace (a + (m - a)) with m by lia. lia.
Qed.

Lemma count_nonneg p a b : 0 ≤ count p a b.
Proof. unfold count. lia. Qed.

Lemma count_mono p a b b' : a ≤ b → b ≤ b' → count p a b ≤ count p a b'.
Proof. intros H1 H2. rewrite (count_app p a b b') by done. pose proof (count_nonneg p b b'). lia. Qed.

Lemma count_one p a : count p a (a + 1) = if p a then 1 else 0.
Proof.
  unfold count. replace (a + 1 - a) with 1 by lia. rewrite seqZ_cons by lia.
  cbn. by destruct (p a).
Qed.

(** The instants of an interval in a window *)
Lemma count_window p lo hi a b :
  a ≤ b → (∀ t, a ≤ t < b → p t = (lo <=? t) && (t <? hi)) →
  count p a b = Z.max 0 (Z.min b hi - Z.max a lo).
Proof.
  intros Hab. replace b with (a + Z.of_nat (Z.to_nat (b - a))) by lia.
  induction (Z.to_nat (b - a)) as [|n IH]; intros Hp.
  { rewrite Z.add_0_r, count_nil. lia. }
  rewrite (count_app _ _ (a + Z.of_nat n)) by lia.
  rewrite IH by (intros t Ht; apply Hp; lia).
  replace (a + Z.of_nat (S n)) with (a + Z.of_nat n + 1) by lia.
  rewrite count_one, Hp by lia.
  destruct (Z.leb_spec lo (a + Z.of_nat n)), (Z.ltb_spec (a + Z.of_nat n) hi); cbn; lia.
Qed.
End counting.

(** ** When a tenant is open *)
Section hours.
Context {HL : LocalTime} {HS : SettingsSql}.
Context (holidays : list Holidays.Holiday) (hours : list Hours.BusinessHours).

Definition open_at (t : Z) : bool :=
  negb (some (holiday_on t) holidays)
  && match open_day t hours with
     | Some h =>
         match getDateWithTime t (Hours.startTime h), getDateWithTime t (Hours.endTime h) with
         | Some o, Some c => (o <=? t) && (t <? c)
         | _, _ => false
         end
     | None => false
     end.

(** The milliseconds from [a] to [b] at which the tenant is open. *)
Definition open_ms (a b : Z) : Z := count open_at a b.

(** The milliseconds after midnight that a text of business hours stands for. *)
Definition time_of (timeStr : string) : option Z :=
  let parts := parseInt <$> split_char ":"%char timeStr in
  match mjoin (parts !! 0%nat), mjoin (parts !! 1%nat) with
  | Some hh, Some mm =>
      Some (hh * ms_per_hour + mm * ms_per_minute + default 0 (mjoin (parts !! 2%nat)) * 1000)
  | _, _ => None
  end.
Definition valid_hours (h : Hours.BusinessHours) : bool :=
  match time_of (Hours.startTime h), time_of (Hours.endTime h) with
  | Some o, Some c => (0 <=? o) && (o <? ms_per_day) && (0 <=? c) && (c <=? ms_per_day)
  | _, _ => false
  end.

Context (offset : Z).
Context (Hto : ∀ t, to_local t = t + offset) (Hof : ∀ l, of_local l = l - offset).
Context (Hvalid : every (λ h, negb (Hours.isOpen h) || valid_hours h) hours = true).
Implicit Types (t a b : Z).

Definition midnight (day : Z) : Z := day * ms_per_day - offset.

Lemma day_bounds t : midnight (local_day t) ≤ t < midnight (local_day t + 1).
Proof.
  unfold midnight, local_day. rewrite Hto.
  pose proof (Z.div_mod (t + offset) ms_per_day ltac:(done)).
  pose proof (Z.mod_pos_bound (t + offset) ms_per_day ltac:(done)). lia.
Qed.

Lemma day_unique t day : midnight day ≤ t < midnight (day + 1) → local_day t = day.
Proof.
  unfold midnight, local_day. rewrite Hto. intros H. symmetry.
  apply (Z.div_unique (t + offset) ms_per_day day (t + offset - day * ms_per_day)); lia.
Qed.

Lemma next_midnight_eq t : next_midnight t = midnight (local_day t + 1).
Proof.
  unfold next_midnight, next_date, setHours. rewrite Hof, Hto, Hof.
  replace (local_day (t + offset + ms_per_day - offset)) with (local_day t + 1).
  { unfold midnight. lia. }
  unfold local_day. rewrite !Hto.
  replace (t + offset + ms_per_day - offset + offset) with (t + offset + 1 * ms_per_day) by lia.
  by rewrite Z.div_add.
Qed.

Lemma getDateWithTime_eq t s :
  getDateWithTime t s = (λ m, midnight (local_day t) + m) <$> time_of s.
Proof.
  unfold getDateWithTime, time_of. destruct (mjoin _) as [hh|]; [|done].
  destruct (mjoin (_ !! 1%nat)) as [mm|]; [|done]. cbn. f_equal. unfold setHours.
  rewrite Hof. unfold midnight. lia.
Qed.

Lemma holiday_day t t' h : local_day t = local_day t' → holiday_on t h = holiday_on t' h.
Proof. intros E. unfold holiday_on, local_date. by rewrite E. Qed.

Lemma open_day_day t t' : local_day t = local_day t' → open_day t hours = open_day t' hours.
Proof. intros E. unfold open_day, hours_of_day, getDay. by rewrite E. Qed.

Lemma open_hours t h :
  open_day t hours = Some h →
  ∃ o c, getDateWithTime t (Hours.startTime h) = Some (midnight (local_day t) + o)
    ∧ getDateWithTime t (Hours.endTime h) = Some (midnight (local_day t) + c)
    ∧ 0 ≤ o < ms_per_day ∧ 0 ≤ c ≤ ms_per_day.
Proof.
  unfold open_day. destruct (hours_of_day t hours) as [h'|] eqn:Eh; [|done].
  destruct (Hours.isOpen h') eqn:Eo; [|done]. intros [= ->].
  apply find_some in Eh as [Hin _].
  unfold every in Hvalid. rewrite forallb_forall in Hvalid. specialize (Hvalid h Hin).
  rewrite Eo in Hvalid. cbn in Hvalid. unfold valid_hours in Hvalid.
  rewrite !getDateWithTime_eq.
  destruct (time_of (Hours.startTime h)) as [o|]; [|done].
  destruct (time_of (Hours.endTime h)) as [c|]; [|done].
  exists o, c. cbn. split_and!; try done; lia.
Qed.

(** The window of the day of an instant, in which it is open. *)
Definition closed_all_day t : Prop :=
  some (holiday_on t) holidays = true ∨ open_day t hours = None.

Lemma closed_count t b :
  closed_all_day t → t ≤ b → b ≤ midnight (local_day t + 1) → open_ms t b = 0.
Proof.
  intros Hc Hb Hm. unfold open_ms. rewrite (count_window _ 1 0); [lia|done|].
  intros t' Ht'. assert (local_day t' = local_day t) as E.
  { apply day_unique. pose proof (day_bounds t). lia. }
  unfold open_at. rewrite (open_day_day t' t E).
  replace (some (holiday_on t') holidays) with (some (holiday_on t) holidays).
  2:{ apply some_ext. intros h. by apply holiday_day. }
  replace ((1 <=? t') && (t' <? 0)) with false by (symmetry; lia).
  destruct Hc as [->| ->]; [done|]. apply andb_false_r.
Qed.

Lemma open_count t h o c b :
  some (holiday_on t) holidays = false → open_day t hours = Some h →
  getDateWithTime t (Hours.startTime h) = Some o → getDateWithTime t (Hours.endTime h) = Some c →
  t ≤ b → b ≤ midnight (local_day t + 1) →
  open_ms t b = Z.max 0 (Z.min b c - Z.max t o).
Proof.
  intros Hh Ho Es Ec Hb Hm. apply count_window; [done|]. intros t' Ht'.
  assert (local_day t' = local_day t) as E.
  { apply day_unique. pose proof (day_bounds t). lia. }
  unfold open_at. rewrite (open_day_day t' t E), Ho.
  replace (some (holiday_on t') holidays) with false.
  2:{ rewrite <- Hh. apply some_ext. intros h'. by apply holiday_day. }
  rewrite !getDateWithTime_eq, E, <- !getDateWithTime_eq, Es, Ec. done.
Qed.

(** ** The loop *)

(** What is left when [n] rounds are not enough. *)
Definition cut_off (n : nat) t : Z :=
  match n with O => t | _ => midnight (local_day t + Z.of_nat n) end.

(** [e] is the first instant by which the tenant was open for [rest]
    milliseconds since [t], or the instant at which [n] rounds give up. *)
Definition reached (n : nat) t rest (e : Z) : Prop :=
  t ≤ e ∧
  (open_ms t e = rest ∧ (∀ e', t ≤ e' < e → open_ms t e' < rest)
   ∨ e = cut_off n t ∧ open_ms t e < rest).

Lemma reached_start n t rest : rest = 0 → reached n t rest t.
Proof.
  intros ->. split; [lia|]. left. split; [apply count_nil|]. lia.
Qed.

Lemma reached_next n t rest v e :
  let m := midnight (local_day t + 1) in
  open_ms t m = v → v < rest → reached n m (rest - v) e → reached (S n) t rest e.
Proof.
  intros m Hv Hr [Hm He]. pose proof (day_bounds t) as Hd. fold m in Hd.
  assert (∀ e', m ≤ e' → open_ms t e' = v + open_ms m e') as Hsplit.
  { intros e' He'. unfold open_ms in *. rewrite (count_app _ t m e') by lia. lia. }
  split; [lia|]. destruct He as [[Heq Hmin]|[-> Hlt]].
  - left. split; [rewrite Hsplit by done; lia|]. intros e' He'.
    destruct (Z.le_gt_cases m e') as [Hle|Hgt].
    + rewrite Hsplit by done. specialize (Hmin e' ltac:(lia)). lia.
    + pose proof (count_mono open_at t e' m ltac:(lia) ltac:(lia)) as Hmono.
      unfold open_ms in *. lia.
  - right. rewrite Hsplit by done. split; [|lia]. unfold cut_off.
    assert (local_day m = local_day t + 1) as Em
      by (apply day_unique; unfold m, midnight, ms_per_day, ms_per_hour, ms_per_minute; lia).
    destruct n as [|n]; [done|]. rewrite Em. f_equal. lia.
Qed.

Lemma business_loop_reaches n t rest :
  0 ≤ rest → reached n t rest (business_loop n holidays hours t (Some rest)).
Proof.
  revert t rest. induction n as [|n IH]; intros t rest Hrest; cbn [business_loop].
  { split; [lia|]. destruct (Z.eq_dec rest 0) as [->|Hne].
    - left. split; [apply count_nil|lia].
    - right. split; [done|]. unfold open_ms. rewrite count_nil. lia. }
  destruct (Z.leb_spec rest 0); [apply reached_start; lia|].
  pose proof (day_bounds t) as Hd.
  assert (closed_all_day t →
    reached (S n) t rest (business_loop n holidays hours (next_midnight t) (Some rest))) as Hskip.
  { intros Hc. rewrite next_midnight_eq.
    apply (reached_next n t rest 0); [apply closed_count; [done|lia..]|lia|].
    rewrite Z.sub_0_r. by apply IH. }
  destruct (some (holiday_on t) holidays) eqn:Eh; [by apply Hskip; left|].
  destruct (open_day t hours) as [h|] eqn:Eo; [|by apply Hskip; right].
  destruct (open_hours t h Eo) as (o & c & Es & Ec & Hob & Hcb). rewrite Es, Ec.
  set (mid := midnight (local_day t)) in *. set (next := midnight (local_day t + 1)) in *.
  assert (next = mid + ms_per_day) as Enext by (unfold next, mid, midnight; lia).
  cbv [date_lt default from_option id].
  set (start := if t <? mid + o then mid + o else t).
  assert (start = Z.max t (mid + o)) as Estart
    by (unfold start; destruct (Z.ltb_spec t (mid + o)); lia).
  clearbody start.
  assert (∀ b, t ≤ b → b ≤ next → open_ms t b = Z.max 0 (Z.min b (mid + c) - start)) as Hcount.
  { intros b Hb Hn. rewrite Estart. by eapply open_count. }
  assert (next_midnight start = next) as Enm.
  { rewrite next_midnight_eq. unfold next. f_equal. f_equal. apply day_unique. fold mid next. lia. }
  destruct (Z.ltb_spec start (mid + c)).
  - destruct (Z.leb_spec rest (mid + c - start)).
    + split; [lia|]. left. split; [rewrite Hcount; lia|].
      intros e' He'. rewrite Hcount; lia.
    + rewrite Enm. apply (reached_next n t rest (mid + c - start)); [|lia|apply IH; lia].
      fold next. rewrite Hcount; lia.
  - rewrite Enm. apply (reached_next n t rest 0); [fold next; rewrite Hcount; lia|lia|].
    fold next. rewrite Z.sub_0_r. by apply IH.
Qed.
End hours.

(** C25: When the server's time is a constant offset from UTC and the hours of the
    tenant's open days are times of a day, [calculateBusinessTime] returns the
    first instant by which the tenant was open, outside its holidays, for the whole
    duration since the start; except that it looks at no more than 60 days and then
    returns the midnight after the sixtieth, by which the tenant was open for less
    than the duration.  A tenant without hours is always open. *)
Theorem business_time `{HL : LocalTime} `{HS : SettingsSql} tenant start seconds d offset :
  (∀ t, to_local t = t + offset) →
  (∀ l, of_local l = l - offset) →
  every (λ h, negb (Hours.isOpen h) || valid_hours h) (getBusinessHours tenant d) = true →
  0 ≤ seconds →
  let e := calculateBusinessTime tenant start seconds d in
  let open := open_ms (getHolidays tenant d) (getBusinessHours tenant d) in
  match getBusinessHours tenant d with
  | [] => e = start + seconds * 1000
  | _ =>
      start ≤ e ∧
      (open start e = seconds * 1000
         ∧ (∀ e', start ≤ e' < e → open start e' < seconds * 1000)
       ∨ e = midnight offset (local_day start + 60) ∧ open start e < seconds * 1000)
  end.
Proof.
  intros Hto Hof Hvalid Hs e open. unfold e, calculateBusinessTime.
  destruct (getBusinessHours tenant d) as [|h hours] eqn:Eh; [done|].
  rewrite <- Eh in Hvalid |- *. unfold open. rewrite <- Eh.
  exact (business_loop_reaches (getHolidays tenant d) (getBusinessHours tenant d) offset
           Hto Hof Hvalid daysSafety start (seconds * 1000) ltac:(lia)).
Qed.
