(* ===== verification/SettingsSamples.v ===== *)
(** * Tenant settings: the theorems at concrete inputs *)

From Stdlib Require Import QArith.
From S2P Require Import Prelude Platform JsDate JsValue.
From S2P Require Import Settings SettingsRepo SettingsEngine SettingsService SettingsProofs.
From S2P Require Import SettingsIsolation SettingsSpec SettingsEngineProofs SettingsHours.
Open Scope Z_scope.

(** A database that scans in insertion order, a server in UTC, billing that answers
    with a quota of two agents, no administrators. *)
#[local] Instance sample_env : Env := ticking_env.
#[local, program] Instance sample_sql : SettingsSql :=
  {| scan _ l := l; numeric_10_2 q := Some q |}.
Next Obligation. done. Qed.
#[local] Instance sample_json : JsonNumber := λ q, JNum (Qnum q / Zpos (Qden q)).
#[local] Instance sample_process : ProcessEnv := λ _, None.
#[local] Instance sample_utc : LocalTime := {| to_local t := t; of_local t := t |}.
#[local, program] Instance sample_deps : SettingsDeps :=
  {| plan_quotas _ := Ok (Some (JObj [("maxAgents", JNum 2); ("maxWorkflows", JNum (-1))]));
     tenant_admins _ := Ok [];
     sendEmail _ _ _ _ _ _ := mret tt;
     JSON_stringify _ := "{}";
     Date_parse _ := 0 |}.
Next Obligation. done. Qed.

Definition empty_settings : SettingsDb :=
  {| tenantSettings := []; tenantBranding := []; tenantPreferences := [];
     tenantBusinessHours := []; tenantHolidays := []; tenantFeatureFlags := [];
     tenantAiSettings := []; tenantChannelSettings := []; tenantNotificationSettings := [];
     tenantSlaSettings := []; tenantSecuritySettings := []; tenantWidgetSettings := [];
     tenantUsageLimits := []; redis := Some ∅ |}.
Definition new_world : SettingsW := fresh_world empty_settings.

Lemma empty_wf : wf empty_settings.
Proof. repeat split; apply NoDup_nil_2. Defined.

Definition dark_theme : BrandingService.UpdateBrandingDto :=
  {| BrandingService.logoUrl := Some ""; BrandingService.faviconUrl := None;
     BrandingService.primaryColor := Some "#000000"; BrandingService.secondaryColor := None;
     BrandingService.themeMode := Some "DARK"; BrandingService.emailHeader := None;
     BrandingService.emailFooter := None; BrandingService.customCss := None |}.
Definition half_on : FeatureFlagService.SaveFeatureFlagDto :=
  {| FeatureFlagService.featureKey := "beta"; FeatureFlagService.enabled := true;
     FeatureFlagService.rolloutPercentage := 50; FeatureFlagService.configuration := None |}.

(** *** Isolation *)
Definition calls : list (string * Call) :=
  [("acme", UpdateBranding dark_theme); ("acme", SaveFeatureFlag half_on);
   ("globex", GetBusinessHours); ("acme", EnforceLimit UsageLimitService.agents 5);
   ("acme", HandleJob {| job_queue := SETTINGS; job_name := "settings-sync-job";
      job_data := [("tenantId", JStr "acme")]; job_opts := DEFAULT_JOB_OPTIONS;
      attemptsMade := 0 |})].

Example calls_write :
  let d := db (serve_all calls new_world) in
  (length (tenantBranding d), length (tenantBusinessHours d), length (tenantUsageLimits d),
   Limits.maxAgents <$> tenantUsageLimits d) = (1%nat, 5%nat, 1%nat, [2]).
Proof. vm_compute. reflexivity. Qed.

Lemma settings_calls_isolated_witness :
  wf (db (serve_all calls new_world))
  ∧ owned "initech" (db (serve_all calls new_world)) = owned "initech" (db new_world).
Proof.
  destruct (settings_calls_isolated calls new_world empty_wf) as [Hwf Hothers].
  split; [exact Hwf|]. apply Hothers. apply (bool_decide_unpack _). vm_compute. exact I.
Defined.

(** *** Two first requests *)
Definition first_branding (id : string) : Branding.BrandingSettings :=
  BrandingService.defaults "acme" id 0 0.

Lemma concurrent_first_saves_witness :
  ∃ l1 l2,
    write_found (λ _, by_tenant "acme") (js_find (by_tenant "acme") (scan []))
      (first_branding "b1") [] = Ok l1
    ∧ write_found (λ _, by_tenant "acme") (js_find (by_tenant "acme") (scan []))
        (first_branding "b2") l1 = Ok l2
    ∧ js_filter (by_tenant "acme") l2 = [first_branding "b1"; first_branding "b2"]
    ∧ ∀ (z : Branding.BrandingSettings) w, entity_tenantId z = "acme" → rows (db w) = l2 →
        ∃ ex, save_of_tenant z w = (Throw ex, w <| ticks ::= S |>).
Proof.
  refine (concurrent_first_saves (HT := branding_table) (first_branding "b1")
            (first_branding "b2") "acme" [] eq_refl eq_refl eq_refl _).
  apply (bool_decide_unpack _). vm_compute. exact I.
Defined.

(** *** The services as registers *)
Lemma new_world_ready {A} (HT : Table A) T : rows (A := A) empty_settings = [] → ready (A := A) T new_world.
Proof.
  intros E. split; [exact empty_wf|]. intros _. unfold fresh_id. cbn. rewrite E. apply not_elem_of_nil.
Defined.

Lemma branding_svc_update T dto :
  svc_update (SettingsService := branding_service) T dto = BrandingService.updateBranding T dto.
Proof. reflexivity. Defined.
Lemma branding_svc_get T :
  svc_get (SettingsService := branding_service) T = BrandingService.getBranding T.
Proof. reflexivity. Defined.


(** *** Feature flags *)
Definition with_flag : SettingsW :=
  final (FeatureFlagService.saveFeatureFlag "acme" half_on) new_world.

Lemma rollout_buckets_witness :
  rolled_out (FeatureFlagService.flag_of "acme" half_on ∅ "f" 0 0) (Some "user-1") "acme" = true
  ∧ rolled_out (FeatureFlagService.flag_of "acme" half_on ∅ "f" 0 0) (Some "u8") "acme" = false
  ∧ Z.abs (hash_of "user-1") < 2 ^ 53.
Proof.
  split; [vm_compute; reflexivity|]. split; [vm_compute; reflexivity|].
  destruct (rollout_buckets (FeatureFlagService.flag_of "acme" half_on ∅ "f" 0 0) "acme")
    as (_ & _ & _ & _ & _ & H).
  apply H. vm_compute. discriminate.
Defined.

Definition flag_resolved : SettingsW :=
  final (resolveFlag "acme" "beta" (Some "user-1")) with_flag.

(** [u8] is not in the first half, and gets the answer of [user-1]. *)
Lemma flag_answer_is_shared_witness :
  outcome (resolveFlag "acme" "beta" (Some "u8")) with_flag = Ok false
  ∧ outcome (resolveFlag "acme" "beta" (Some "u8")) flag_resolved = Ok true.
Proof.
  split; [vm_compute; reflexivity|]. unfold outcome.
  rewrite (flag_answer_is_shared "acme" "beta" (Some "user-1") (Some "u8") with_flag true
             flag_resolved); [reflexivity| |reflexivity|].
  - vm_compute. discriminate.
  - unfold flag_resolved, final. apply injective_projections; [vm_compute; reflexivity|reflexivity].
Defined.


(** *** Plan limits *)
Lemma plan_limit_enforced_witness :
  ready (A := Limits.UsageLimits) "acme" new_world
  ∧ ∃ w', UsageLimitService.enforceLimit "acme" UsageLimitService.agents 2 new_world
      = (Throw (UsageLimitService.limit_reached UsageLimitService.agents 2), w').
Proof.
  split; [exact (new_world_ready limits_table "acme" eq_refl)|].
  destruct (plan_limit_enforced "acme" new_world (new_world_ready limits_table "acme" eq_refl))
    as (l & w1 & E & _ & _ & H).
  destruct (H UsageLimitService.agents 2) as [w2 H2]. exists w2. rewrite H2.
  apply (f_equal fst) in E. vm_compute in E. injection E as <-. reflexivity.
Defined.

(** *** Business time *)
Definition friday : Hours.BusinessHours :=
  BusinessHoursService.hours_of "acme" (BusinessHoursService.nine_to_five 5) "h5" 0 0.
Definition friday_db : SettingsDb := empty_settings <| tenantBusinessHours := [friday] |>.

(** Nine hours of a tenant that works on Fridays from nine to five, from Friday the
    2nd of January 1970 at ten: seven that day and two on the 9th. *)
Lemma business_time_witness :
  let start := 86400000 + 10 * ms_per_hour in
  let e := calculateBusinessTime "acme" start (9 * 3600) friday_db in
  e = 8 * 86400000 + 11 * ms_per_hour
  ∧ open_ms [] [friday] start e = 9 * ms_per_hour.
Proof.
  split; [vm_compute; reflexivity|].
  pose proof (business_time (HL := sample_utc) "acme" (86400000 + 10 * ms_per_hour) (9 * 3600)
    friday_db 0 (λ t, eq_sym (Z.add_0_r t)) (λ l, eq_sym (Z.sub_0_r l)) eq_refl
    ltac:(discriminate)) as H.
  cbv zeta in H. change (getBusinessHours "acme" friday_db) with [friday] in H.
  change (getHolidays "acme" friday_db) with (@nil Holidays.Holiday) in H. cbv iota in H.
  destruct H as [_ [[H _]|[H _]]]; [exact H|]. exfalso. revert H. vm_compute. discriminate.
Defined.
