(* ===== verification/Sql.v ===== *)
(** * Tables

    What the repositories share: a table as the list of its rows, the statements
    over it, unique indexes, and transactions.  A row lists its keys in the unique
    indexes of its table, the primary key among them; a column that is [NULL] gives
    no key.  The order in which the database scans a table is its own. *)

From S2P Require Import Prelude Platform.
Open Scope Z_scope.

Class SqlScan := {
  scan {A} : list A → list A;
  scan_perm {A} (l : list A) : scan l ≡ₚ l;
}.

Class Row (R : Type) := {
  row_id : R → string;
  row_tenant : R → string;
  row_keys : R → list (list string);
  row_id_key r : ["id"; row_id r] ∈ row_keys r;
}.

Definition unique_violation : exn :=
  Exn JsError "duplicate key value violates unique constraint".
Definition column_error : exn := Exn JsError "value out of range for its column".

(** The lengths of [varchar] columns and the range of [integer] columns. *)
Definition fits (l : list (Z * option string)) : bool :=
  every (λ c, match c.2 with Some s => js_length s <=? c.1 | None => true end) l.
Definition int4 (z : Z) : bool := (-2147483648 <=? z) && (z <=? 2147483647).

(** A row whose values the columns take. *)
Definition column {A} (ok : bool) (a : A) : result A :=
  if ok then Ok a else Throw column_error.

#[export] Instance result_ret : MRet result := @Ok.
#[export] Instance result_bind : MBind result := λ A B k r,
  match r with Ok a => k a | Throw e => Throw e end.

Section statements.
Context {R : Type} {HR : Row R}.
Implicit Types (r : R) (l : list R).

Definition distinct l : Prop := NoDup (l ≫= row_keys).
Definition unique l : result (list R) :=
  if bool_decide (distinct l) then Ok l else Throw unique_violation.

(** [insert], [update.set(f).where(p)], [delete.where(p)], and
    [const [row] = select.where(p)]. *)
Definition sql_insert r l : result (list R) := unique (l ++ [r]).
Definition sql_update (p : R → bool) (f : R → R) l : result (list R) :=
  unique ((λ r, if p r then f r else r) <$> l).
Definition sql_delete (p : R → bool) l : list R := js_filter (λ r, negb (p r)) l.
Definition sql_select `{SqlScan} (p : R → bool) l : option R := js_find p (scan l).

Definition by_id (id tenant : string) r : bool :=
  String.eqb (row_id r) id && String.eqb (row_tenant r) tenant.

(** [insert.onConflictDoUpdate({target, set})], where [conflict] is true of the row
    with the keys of the target, and [insert.onConflictDoNothing()]. *)
Definition sql_upsert (conflict : R → bool) (set : R → R) r l : result (list R) :=
  if some conflict l then sql_update conflict set l else sql_insert r l.
Definition sql_insert_ignore r l : list R :=
  match sql_insert r l with Ok l' => l' | Throw _ => l end.

Lemma by_id_true id tenant r : by_id id tenant r = true ↔ row_id r = id ∧ row_tenant r = tenant.
Proof. unfold by_id. by rewrite andb_true_iff, !String.eqb_eq. Qed.

Lemma unique_inv l l' : unique l = Ok l' → l' = l ∧ distinct l.
Proof. unfold unique. case_bool_decide; [by intros [= <-]|done]. Qed.

Lemma unique_ok l : distinct l → unique l = Ok l.
Proof. intros H. unfold unique. by rewrite bool_decide_eq_true_2. Qed.

Lemma distinct_key l x y k :
  distinct l → x ∈ l → y ∈ l → k ∈ row_keys x → k ∈ row_keys y → x = y.
Proof.
  unfold distinct. induction l as [|z l IH]; [set_solver|]. cbn.
  intros (Hz & Hsep & Hl)%NoDup_app Hx Hy Kx Ky.
  apply elem_of_cons in Hx as [->|Hx], Hy as [->|Hy]; [done| | |by apply IH];
    exfalso; eapply (Hsep k); try done; apply list_elem_of_bind; eauto.
Qed.

Lemma distinct_id l x y : distinct l → x ∈ l → y ∈ l → row_id x = row_id y → x = y.
Proof.
  intros Hl Hx Hy E. eapply (distinct_key l x y ["id"; row_id x]); try done.
  - apply row_id_key.
  - rewrite E. apply row_id_key.
Qed.

Lemma distinct_snoc l r :
  distinct l → NoDup (row_keys r) → (∀ x k, x ∈ l → k ∈ row_keys x → k ∉ row_keys r) →
  distinct (l ++ [r]).
Proof.
  intros Hl Hr Hd. unfold distinct. rewrite bind_app. cbn. rewrite app_nil_r.
  apply NoDup_app. split; [done|]. split; [|done].
  intros k (x & Hk & Hx)%list_elem_of_bind. by eapply Hd.
Qed.

Lemma distinct_filter p l : distinct l → distinct (js_filter p l).
Proof.
  unfold distinct, js_filter. induction l as [|x l IH]; [done|]. cbn.
  intros (Hx & Hsep & Hl)%NoDup_app. destruct (p x); [|by apply IH]. cbn.
  apply NoDup_app. split; [done|]. split; [|by apply IH].
  intros k Hk (y & Hky & Hy)%list_elem_of_bind. apply (Hsep k Hk).
  apply list_elem_of_bind. exists y. split; [done|].
  apply list_elem_of_In, filter_In in Hy as [Hy _]. by apply list_elem_of_In.
Qed.

Lemma distinct_update l p f :
  distinct l → (∀ x, x ∈ l → p x = true → row_keys (f x) = row_keys x) →
  distinct ((λ r, if p r then f r else r) <$> l).
Proof.
  unfold distinct. intros Hl Hf.
  replace (((λ r, if p r then f r else r) <$> l) ≫= row_keys) with (l ≫= row_keys); [done|].
  clear Hl. induction l as [|x l IH]; [done|]. cbn. rewrite <- IH.
  - destruct (p x) eqn:E; [|done]. rewrite (Hf x); [done|by left|done].
  - intros y Hy. apply Hf. by right.
Qed.

Lemma select_some `{SqlScan} p l r : sql_select p l = Some r → r ∈ l ∧ p r = true.
Proof.
  unfold sql_select, js_find. intros [Hin Hp]%find_some. split; [|done].
  by rewrite <- (scan_perm l), list_elem_of_In.
Qed.
Lemma select_none `{SqlScan} p l r : sql_select p l = None → r ∈ l → p r = false.
Proof.
  intros Hn Hr. eapply find_none; [exact Hn|]. apply list_elem_of_In. by rewrite scan_perm.
Qed.
Lemma select_unique `{SqlScan} p l r :
  r ∈ l → p r = true → (∀ x, x ∈ l → p x = true → x = r) → sql_select p l = Some r.
Proof.
  intros Hr Hp Hu. destruct (sql_select p l) as [x|] eqn:E.
  - apply select_some in E as [Hx Hpx]. f_equal. by apply Hu.
  - by rewrite (select_none _ _ _ E Hr) in Hp.
Qed.
Lemma select_id `{SqlScan} l r :
  distinct l → r ∈ l → sql_select (by_id (row_id r) (row_tenant r)) l = Some r.
Proof.
  intros Hl Hr. apply select_unique; [done|by apply by_id_true|].
  intros x Hx [Ei _]%by_id_true. by apply (distinct_id l).
Qed.

(** The rows of the other tenants. *)
Definition foreign (T : string) l : list R := js_filter (λ r, negb (String.eqb (row_tenant r) T)) l.

Lemma foreign_insert T l l' r :
  row_tenant r = T → sql_insert r l = Ok l' → foreign T l' = foreign T l.
Proof.
  intros E [-> _]%unique_inv. unfold foreign, js_filter. rewrite List.filter_app. cbn.
  rewrite E, String.eqb_refl. apply app_nil_r.
Qed.

Lemma foreign_fmap T f l :
  (∀ r, r ∈ l → f r = r ∨ row_tenant r = T ∧ row_tenant (f r) = T) →
  foreign T (f <$> l) = foreign T l.
Proof.
  unfold foreign, js_filter. induction l as [|x l IH]; intros Hf; [done|]. cbn.
  rewrite IH by (intros r Hr; apply Hf; by constructor).
  destruct (Hf x ltac:(constructor)) as [->|[E1 E2]]; [done|]. by rewrite E1, E2, String.eqb_refl.
Qed.

Lemma foreign_update T p f l l' :
  (∀ r, p r = true → row_tenant r = T ∧ row_tenant (f r) = T) →
  sql_update p f l = Ok l' → foreign T l' = foreign T l.
Proof.
  intros Hp [-> _]%unique_inv. apply foreign_fmap. intros r _.
  destruct (p r) eqn:E; [right; by apply Hp|by left].
Qed.

Lemma foreign_delete T p l :
  (∀ r, r ∈ l → p r = true → row_tenant r = T) → foreign T (sql_delete p l) = foreign T l.
Proof.
  unfold foreign, sql_delete, js_filter.
  induction l as [|x l IH]; intros Hp; [done|]. cbn.
  assert (∀ r, r ∈ l → p r = true → row_tenant r = T) as Hl
    by (intros r Hr; apply Hp; by constructor).
  destruct (p x) eqn:E; cbn; rewrite IH by done; [|done].
  by rewrite (Hp x ltac:(constructor) E), String.eqb_refl.
Qed.

(** A statement confined to the rows of a tenant, that keeps the keys distinct. *)
Definition confined (T : string) (f : list R → result (list R)) : Prop :=
  ∀ l l', distinct l → f l = Ok l' → distinct l' ∧ foreign T l' = foreign T l.

Lemma confined_insert T r : row_tenant r = T → confined T (sql_insert r).
Proof.
  intros Hr l l' Hl E. split; [|by eapply foreign_insert].
  by apply unique_inv in E as [-> ?].
Qed.
Lemma confined_update T p f :
  (∀ r, p r = true → row_tenant r = T ∧ row_tenant (f r) = T) → confined T (sql_update p f).
Proof.
  intros Hp l l' Hl E. split; [|by eapply foreign_update].
  by apply unique_inv in E as [-> ?].
Qed.
Lemma confined_upsert T p f r :
  row_tenant r = T → (∀ r, p r = true → row_tenant r = T ∧ row_tenant (f r) = T) →
  confined T (sql_upsert p f r).
Proof.
  intros Hr Hp l l' Hl. unfold sql_upsert.
  destruct (some p l); [by apply confined_update|by apply confined_insert].
Qed.
Lemma confined_delete T p :
  (∀ r, p r = true → row_tenant r = T) → confined T (λ l, Ok (sql_delete p l)).
Proof.
  intros Hp l l' Hl [= <-]. split; [by apply distinct_filter|].
  apply foreign_delete. auto.
Qed.
Lemma confined_ignore T r :
  row_tenant r = T → confined T (λ l, Ok (sql_insert_ignore r l)).
Proof.
  intros Hr l l' Hl [= <-]. unfold sql_insert_ignore.
  destruct (sql_insert r l) as [l'|] eqn:E; [by eapply confined_insert|done].
Qed.

Lemma tenant_foreign T U l l' :
  T ≠ U → foreign T l = foreign T l' →
  js_filter (λ r, String.eqb (row_tenant r) U) l = js_filter (λ r, String.eqb (row_tenant r) U) l'.
Proof.
  intros Hne E.
  assert (∀ l, js_filter (λ r, String.eqb (row_tenant r) U) (foreign T l)
               = js_filter (λ r, String.eqb (row_tenant r) U) l) as H; [|by rewrite <- H, E, H].
  clear E. intros k. unfold foreign, js_filter. induction k as [|x k IH]; [done|]. cbn.
  destruct (String.eqb_spec (row_tenant x) T) as [->|_]; cbn; rewrite IH; [|done].
  by rewrite (proj2 (String.eqb_neq T U) Hne).
Qed.
End statements.

(** ** Tables of a database *)
Class Table (Db R : Type) := {
  rows : Db → list R;
  with_rows : list R → Db → Db;
}.

(** A statement that writes a table, and one that reads a row of it. *)
Definition write {Db R} {HT : Table Db R} (f : list R → result (list R)) : M (World Db) unit :=
  l ← gets (λ w, rows (db w));
  l' ← of_result (f l);
  modify (λ w, w <| db ::= with_rows l' |>).
Definition read {Db R} {HT : Table Db R} {HS : SqlScan} (p : R → bool) : M (World Db) (option R) :=
  gets (λ w, sql_select p (rows (db w))).

(** [db.transaction(m)]: a throw leaves the tables as they were. *)
Definition transaction {Db A} (m : M (World Db) A) : M (World Db) A := λ w,
  match m w with
  | (Ok a, w') => (Ok a, w')
  | (Throw e, w') => (Throw e, w' <| db := db w |>)
  end.

Lemma keeps_transaction {Db A} (R : Db → Db → Prop) `{!PreOrder R} (m : M (World Db) A) :
  keeps (db_rel R) m → keeps (db_rel R) (transaction m).
Proof.
  intros Hm w. specialize (Hm w). unfold db_rel, final, transaction in *.
  destruct (m w) as [[]]; [done|]. cbn. reflexivity.
Qed.

(** ** Triples

    [triple R P m Q]: from a database where [P] holds, [m] leaves a database related
    to it, and [Q] of what it returns.  For a preorder [R] this composes; it is the
    [keeps] calculus with assertions about the database in between. *)
Definition triple {Db A} (R : Db → Db → Prop) (P : Db → Prop) (m : M (World Db) A)
    (Q : A → Db → Prop) : Prop :=
  ∀ w, P (db w) →
    R (db w) (db (final m w)) ∧ ∀ a, outcome m w = Ok a → Q a (db (final m w)).

Section triples.
Context {Db : Type} (R : Db → Db → Prop) `{HR : !PreOrder R}.
Implicit Types (P : Db → Prop).

Lemma triple_ret {A} P (a : A) (Q : A → Db → Prop) :
  (∀ d, P d → Q a d) → triple R P (mret a) Q.
Proof. intros HQ w HP. split; [cbn; reflexivity|]. intros ? [= <-]. by apply HQ. Qed.

Lemma triple_throw {A} P e (Q : A → Db → Prop) : triple R P (throw e) Q.
Proof. intros w HP. split; [cbn; reflexivity|done]. Qed.

Lemma triple_bind {A B} P (m : M (World Db) A) Q (k : A → M (World Db) B) Q' :
  triple R P m Q → (∀ a, triple R (Q a) (k a) Q') → triple R P (m ≫= k) Q'.
Proof.
  intros Hm Hk w HP. destruct (Hm w HP) as [HR1 HQ].
  unfold final, outcome, mbind, M_bind in *. destruct (m w) as [[a|e] w']; cbn in *; [|done].
  destruct (Hk a w' (HQ a eq_refl)) as [HR2 HQ']. unfold final, outcome in *.
  split; [by etransitivity|done].
Qed.

Lemma triple_weaken {A} P P' (m : M (World Db) A) (Q Q' : A → Db → Prop) :
  triple R P' m Q' → (∀ d, P d → P' d) → (∀ a d, Q' a d → Q a d) → triple R P m Q.
Proof.
  intros Hm HP HQ w Hw. destruct (Hm w (HP _ Hw)) as [? H]. split; [done|].
  intros a Ha. by apply HQ, H.
Qed.

(** A step that does not write the database. *)
Lemma triple_same {A} P (m : M (World Db) A) : keeps (same db) m → triple R P m (λ _, P).
Proof. intros Hm w HP. rewrite (Hm w). split; [reflexivity|done]. Qed.

Lemma triple_step {A B} P (m : M (World Db) A) (k : A → M (World Db) B) Q :
  keeps (same db) m → (∀ a, triple R P (k a) Q) → triple R P (m ≫= k) Q.
Proof. intros Hm Hk. eapply triple_bind; [by apply triple_same|exact Hk]. Qed.

Lemma triple_gets {A B} P (f : World Db → A) (g : Db → A) (k : A → M (World Db) B) Q :
  (∀ w, f w = g (db w)) → (∀ a, triple R (λ d, P d ∧ g d = a) (k a) Q) →
  triple R P (gets f ≫= k) Q.
Proof.
  intros E Hk w HP. rewrite final_gets_bind. unfold outcome. rewrite gets_bind.
  apply (Hk (f w)). by rewrite E.
Qed.

Lemma triple_of_result {A B} P (r : result A) (k : A → M (World Db) B) Q :
  (∀ a, r = Ok a → triple R P (k a) Q) → triple R P (of_result r ≫= k) Q.
Proof.
  intros Hk. destruct r as [a|e]; [exact (Hk a eq_refl)|]. intros w HP.
  split; [cbn; reflexivity|done].
Qed.

Lemma triple_pure {A} (φ : Prop) P (m : M (World Db) A) Q :
  (φ → triple R P m Q) → triple R (λ d, P d ∧ φ) m Q.
Proof. intros Hm w [HP Hφ]. by apply Hm. Qed.

Lemma triple_try {A} P (m : M (World Db) A) h Q :
  triple R P m Q → (∀ e, triple R (λ _, True) (h e) Q) → triple R P (try_catch m h) Q.
Proof.
  intros Hm Hh w HP. destruct (Hm w HP) as [HR1 HQ].
  unfold final, outcome, try_catch in *. destruct (m w) as [[a|e] w']; cbn in *; [done|].
  destruct (Hh e w' I) as [HR2 HQ']. unfold final, outcome in *. split; [by etransitivity|done].
Qed.

Lemma triple_write {T} {HT : Table Db T} P (f : list T → result (list T)) (Q : Db → Prop) :
  (∀ d l', P d → f (rows d) = Ok l' → R d (with_rows l' d) ∧ Q (with_rows l' d)) →
  triple R P (write f) (λ _, Q).
Proof.
  intros Hf w HP. unfold write, final, outcome, mbind, M_bind, gets, of_result, modify.
  destruct (f (rows (db w))) as [l'|e] eqn:E; cbn; [|split; [reflexivity|done]].
  destruct (Hf (db w) l' HP E) as [H1 H2]. split; [exact H1|]. intros _ _. exact H2.
Qed.

Lemma triple_keeps {A} (m : M (World Db) A) :
  keeps (db_rel R) m → triple R (λ _, True) m (λ _ _, True).
Proof. intros Hm w _. split; [exact (Hm w)|done]. Qed.
Lemma keeps_triple {A} (m : M (World Db) A) Q :
  triple R (λ _, True) m Q → keeps (db_rel R) m.
Proof. intros Hm w. exact (proj1 (Hm w I)). Qed.
End triples.
