(* ===== verification/SqlText.v ===== *)
(** * Texts in the database

    The order of texts and of identifiers, and [ILIKE] patterns. *)

From S2P Require Import Prelude.
Open Scope Z_scope.

(** How the database orders texts. *)
Class Collation := {
  collate : string → string → Z;
  collate_comparator :: Comparator collate;
}.

(** Identifiers are ordered by their characters. *)
Fixpoint id_lt (s t : string) : bool :=
  match s, t with
  | EmptyString, String _ _ => true
  | String a s, String b t =>
      let m := Ascii.N_of_ascii a in
      let n := Ascii.N_of_ascii b in
      (m <? n)%N || (m =? n)%N && id_lt s t
  | _, EmptyString => false
  end.

(** The order of a column: [NULL] after every value, and before them when it
    descends. *)
Definition compare_nulls {A} (cmp : A → A → Z) (a b : option A) : Z :=
  match a, b with
  | Some x, Some y => cmp x y
  | None, None => 0
  | None, Some _ => 1
  | Some _, None => -1
  end.

(** ** [ILIKE]: [%] is any text, [_] any character, a backslash takes what follows
    literally *)
Fixpoint like (p : list ascii) : list ascii → bool :=
  match p with
  | [] => λ s, match s with [] => true | _ => false end
  | c :: p' =>
      if Ascii.eqb c "%" then
        fix any (s : list ascii) := like p' s || match s with [] => false | _ :: s' => any s' end
      else if Ascii.eqb c "_" then
        λ s, match s with [] => false | _ :: s' => like p' s' end
      else if Ascii.eqb c "\" then
        match p' with
        | e :: p'' => λ s, match s with [] => false | d :: s' => Ascii.eqb e d && like p'' s' end
        | [] => λ _, false
        end
      else λ s, match s with [] => false | d :: s' => Ascii.eqb c d && like p' s' end
  end.
Definition ilike (column : option string) (pattern : string) : bool :=
  match column with
  | Some s => like (chars (js_lower pattern)) (chars (js_lower s))
  | None => false
  end.

Example ilike_examples :
  (ilike (Some "Ada Lovelace") "%love%", ilike (Some "ada") "%a_a%", ilike (Some "a%c") "%a\%c%",
   ilike (Some "abc") "%a\%c%", ilike None "%%", ilike (Some "") "%%")
  = (true, true, true, false, false, true).
Proof. reflexivity. Qed.

Definition negative_error : exn := Exn JsError "LIMIT and OFFSET must not be negative".
