(* ===== verification/Double.v ===== *)
(** * Numbers of JavaScript that are not integers

    A double is a [spec_float] of the Standard Library, rounded to binary64; the
    operations are those of IEEE 754.  Counters stay integers. *)

From Stdlib Require Export SpecFloat.
From S2P Require Import Prelude.
Open Scope Z_scope.

Definition double := spec_float.

Definition double_of_Z (z : Z) : double := binary_normalize 53 1024 z 0 false.
Definition dadd : double → double → double := SFadd 53 1024.
Definition ddiv : double → double → double := SFdiv 53 1024.
Definition dlt : double → double → bool := SFltb.
Definition dle : double → double → bool := SFleb.
Definition dzero : double := S754_zero false.
(** the literal [0.1] *)
Definition tenth : double := ddiv (double_of_Z 1) (double_of_Z 10).

(** [x || 0] *)
#[export] Instance double_truthy : Truthy double := λ x,
  match x with S754_zero _ | S754_nan => false | _ => true end.
Definition or_zero (x : double) : double := if truthy x then x else dzero.

(** [Math.max] and [Math.min] *)
Definition dmax (a b : double) : double :=
  match a, b with
  | S754_nan, _ | _, S754_nan => S754_nan
  | S754_zero s, S754_zero t => S754_zero (s && t)
  | _, _ => if dlt a b then b else a
  end.
Definition dmin (a b : double) : double :=
  match a, b with
  | S754_nan, _ | _, S754_nan => S754_nan
  | S754_zero s, S754_zero t => S754_zero (s || t)
  | _, _ => if dlt b a then b else a
  end.

(** [Math.round((a + b) / 2)] of integers *)
Definition round_half (a b : Z) : Z := (a + b + 1) / 2.

(** ** [numeric(12, 2)]

    A column holds an amount of hundredths, or [NaN].  [x.toFixed(2)] is the nearest
    amount, the larger one of two, away from zero; [None] does not fit. *)
Inductive numeric := NumericNaN | Cents (n : Z).

Definition toFixed2 (x : double) : option numeric :=
  match x with
  | S754_nan => Some NumericNaN
  | S754_infinity _ => None
  | S754_zero _ => Some (Cents 0)
  | S754_finite s m e =>
      let n := if 0 <=? e then Z.pos m * 2 ^ e * 100
               else (Z.pos m * 200 + 2 ^ (- e)) / (2 * 2 ^ (- e)) in
      if n <? 1000000000000 then Some (Cents (if s then - n else n)) else None
  end.

(** [Number(text)] of such a column. *)
Definition of_numeric (n : numeric) : double :=
  match n with
  | NumericNaN => S754_nan
  | Cents n => ddiv (double_of_Z n) (double_of_Z 100)
  end.

(** The hundred cents of [100] and the amounts that a decimal cannot hit. *)
Example double_examples :
  (toFixed2 (double_of_Z 100), toFixed2 (ddiv (double_of_Z 1005) (double_of_Z 1000)),
   toFixed2 (dadd (of_numeric (Cents 10)) (of_numeric (Cents 20))),
   dlt (double_of_Z 1000) (dadd (of_numeric (Cents 90000)) (double_of_Z 100)),
   toFixed2 (ddiv (double_of_Z (-1)) (double_of_Z 8)))
  = (Some (Cents 10000), Some (Cents 100), Some (Cents 30), false, Some (Cents (-13))).
Proof. vm_compute. reflexivity. Qed.
