(* ===== verification/Customer.v ===== *)
(** * Customers: the aggregate

    [src/modules/customers/domain]: the value objects (a value object is the value
    it holds, its constructor the function that checks it), the profile, the metrics
    and the segment, and the aggregate with its events.  Fields of the metrics are
    options because an update with a request object writes [undefined] over the
    fields that the request does not have. *)

From S2P Require Import Prelude Platform JsValue Double.
Open Scope Z_scope.

(** ** Value objects *)

Definition invalid {A} (what value : string) : result A :=
  Throw (Exn JsError (what +:+ ": " +:+ value)).

(** [/^[^\s@]+@[^\s@]+\.[^\s@]+$/]: one [@], no white space, and a dot in the
    domain that is neither its first nor its last character. *)
Fixpoint inner_dot (first : bool) (l : list ascii) : bool :=
  match l with
  | [] => false
  | c :: l' =>
      (negb first && Ascii.eqb c "." && negb (bool_decide (l' = []))) || inner_dot false l'
  end.
Fixpoint at_sign (l : list ascii) : option (list ascii * list ascii) :=
  match l with
  | [] => None
  | c :: l' => if Ascii.eqb c "@" then Some ([], l')
               else '(a, b) ← at_sign l'; Some (c :: a, b)
  end.
Definition email_pattern (s : string) : bool :=
  match at_sign (chars s) with
  | Some (user, domain) =>
      every (λ c, negb (js_is_space c)) (chars s)
      && negb (bool_decide (user = [])) && every (λ c, negb (Ascii.eqb c "@")) domain
      && inner_dot true domain
  | None => false
  end.

Definition CustomerEmail_create (value : string) : result string :=
  let cleaned := js_lower (js_trim value) in
  if email_pattern cleaned then Ok cleaned
  else invalid "Invalid email address format" value.

(** [/^\+?[0-9\s\-()]{7,20}$/] *)
Definition phone_char (c : ascii) : bool :=
  let n := Ascii.N_of_ascii c in
  ((48 <=? n) && (n <=? 57))%N || js_is_space c
  || Ascii.eqb c "-" || Ascii.eqb c "(" || Ascii.eqb c ")".
Definition phone_pattern (s : string) : bool :=
  let l := match chars s with "+"%char :: l => l | l => l end in
  every phone_char l && (7 <=? length l)%nat && (length l <=? 20)%nat.

Definition CustomerPhone_create (value : string) : result string :=
  let cleaned := js_trim value in
  if truthy cleaned && negb (phone_pattern cleaned)
  then invalid "Invalid phone number format" value else Ok cleaned.

Inductive CustomerStatusEnum := ACTIVE | INACTIVE | MERGED.
#[export] Instance CustomerStatusEnum_eq_dec : EqDecision CustomerStatusEnum.
Proof. solve_decision. Defined.
#[export, program] Instance CustomerStatusEnum_enum : JsEnum CustomerStatusEnum :=
  {| enum_values := [ACTIVE; INACTIVE; MERGED];
     enum_str s := match s with
       | ACTIVE => "ACTIVE" | INACTIVE => "INACTIVE" | MERGED => "MERGED" end |}.
Solve All Obligations with solve_enum.

Definition CustomerStatus_create (value : string) : result CustomerStatusEnum :=
  match parse_enum value with
  | Some s => Ok s
  | None => invalid "Invalid customer status" value
  end.

Definition CustomerLanguage_create (value : string) : result string :=
  let cleaned := js_lower (js_trim value) in
  if truthy cleaned && (js_length cleaned <=? 10) then Ok cleaned
  else invalid "Invalid language code" value.

Definition CustomerTimezone_create (value : string) : result string :=
  let cleaned := js_trim value in
  if truthy cleaned && (js_length cleaned <=? 50) then Ok cleaned
  else invalid "Invalid timezone string" value.

(** The JSON of a double. *)
Class JsonDouble := json_double : double → json.

(** ** [CustomerProfile] *)
Module Profiles.
Record CustomerProfile := {
  id : string;
  tenantId : string;
  customerId : string;
  firstName : option string;
  lastName : option string;
  displayName : option string;
  avatarUrl : option string;
  company : option string;
  jobTitle : option string;
  country : option string;
  city : option string;
  state : option string;
  postalCode : option string;
  tags : list string;
  customAttributes : gmap string json;
  createdAt : Z;
  updatedAt : Z;
}.
#[global] Instance CustomerProfile_Eta : Eta CustomerProfile := λ p,
  Build_CustomerProfile (id p) (tenantId p) (customerId p) (firstName p) (lastName p)
    (displayName p) (avatarUrl p) (company p) (jobTitle p) (country p) (city p) (state p)
    (postalCode p) (tags p) (customAttributes p) (createdAt p) (updatedAt p).

(** The keys of a profile update; an array or an object that is [undefined] reads
    as the empty one. *)
Record ProfilePatch := {
  p_firstName : patch string;
  p_lastName : patch string;
  p_displayName : patch string;
  p_avatarUrl : patch string;
  p_company : patch string;
  p_jobTitle : patch string;
  p_country : patch string;
  p_city : patch string;
  p_state : patch string;
  p_postalCode : patch string;
  p_tags : patch (list string);
  p_customAttributes : patch (gmap string json);
}.

(** [{...this.props, ...props}] *)
Definition spread_profile (d : ProfilePatch) (this : CustomerProfile) : CustomerProfile :=
  this <| firstName ::= spread (p_firstName d) |> <| lastName ::= spread (p_lastName d) |>
    <| displayName ::= spread (p_displayName d) |> <| avatarUrl ::= spread (p_avatarUrl d) |>
    <| company ::= spread (p_company d) |> <| jobTitle ::= spread (p_jobTitle d) |>
    <| country ::= spread (p_country d) |> <| city ::= spread (p_city d) |>
    <| state ::= spread (p_state d) |> <| postalCode ::= spread (p_postalCode d) |>
    <| tags ::= λ t, default [] (spread (p_tags d) (Some t)) |>
    <| customAttributes ::= λ c, default ∅ (spread (p_customAttributes d) (Some c)) |>.

Definition update (now : Z) (d : ProfilePatch) (this : CustomerProfile) : CustomerProfile :=
  (spread_profile d this) <| updatedAt := now |>.

Definition toJSON (p : CustomerProfile) : json :=
  JObj ([("id", JStr (id p)); ("tenantId", JStr (tenantId p));
         ("customerId", JStr (customerId p))] ++
    opt_field "firstName" (firstName p) ++ opt_field "lastName" (lastName p) ++
    opt_field "displayName" (displayName p) ++ opt_field "avatarUrl" (avatarUrl p) ++
    opt_field "company" (company p) ++ opt_field "jobTitle" (jobTitle p) ++
    opt_field "country" (country p) ++ opt_field "city" (city p) ++
    opt_field "state" (state p) ++ opt_field "postalCode" (postalCode p) ++
    [("tags", JArr (JStr <$> tags p));
     ("customAttributes", JObj (map_to_list (customAttributes p)));
     ("createdAt", JNum (createdAt p)); ("updatedAt", JNum (updatedAt p))]).
End Profiles.

(** ** [CustomerMetrics] *)
Module Metrics.
Record CustomerMetrics := {
  id : string;
  tenantId : string;
  customerId : string;
  totalConversations : option Z;
  totalTickets : option Z;
  totalOrders : option Z;
  totalSpend : option double;
  averageCsat : option double;
  averageResponseTime : option Z;
  averageResolutionTime : option Z;
  sentimentScore : option double;
  lifetimeValue : option double;
  riskScore : option double;
  vipStatus : option bool;
  createdAt : Z;
  updatedAt : Z;
}.
#[global] Instance CustomerMetrics_Eta : Eta CustomerMetrics := λ m,
  Build_CustomerMetrics (id m) (tenantId m) (customerId m) (totalConversations m)
    (totalTickets m) (totalOrders m) (totalSpend m) (averageCsat m) (averageResponseTime m)
    (averageResolutionTime m) (sentimentScore m) (lifetimeValue m) (riskScore m)
    (vipStatus m) (createdAt m) (updatedAt m).

(** [new CustomerMetrics] of zeros *)
Definition zero (tenant customer id : string) (created updated : Z) : CustomerMetrics :=
  {| Metrics.id := id; tenantId := tenant; customerId := customer;
     totalConversations := Some 0; totalTickets := Some 0; totalOrders := Some 0;
     totalSpend := Some dzero; averageCsat := Some dzero; averageResponseTime := Some 0;
     averageResolutionTime := Some 0; sentimentScore := Some dzero;
     lifetimeValue := Some dzero; riskScore := Some dzero; vipStatus := Some false;
     createdAt := created; updatedAt := updated |}.

(** The keys of an update. *)
Record CustomerMetricsDto := {
  d_totalConversations : patch Z;
  d_totalTickets : patch Z;
  d_totalOrders : patch Z;
  d_totalSpend : patch double;
  d_averageCsat : patch double;
  d_averageResponseTime : patch Z;
  d_averageResolutionTime : patch Z;
  d_sentimentScore : patch double;
  d_lifetimeValue : patch double;
  d_riskScore : patch double;
  d_vipStatus : patch bool;
}.

Definition update (now : Z) (d : CustomerMetricsDto) (this : CustomerMetrics) : CustomerMetrics :=
  this <| totalConversations ::= spread (d_totalConversations d) |>
    <| totalTickets ::= spread (d_totalTickets d) |>
    <| totalOrders ::= spread (d_totalOrders d) |> <| totalSpend ::= spread (d_totalSpend d) |>
    <| averageCsat ::= spread (d_averageCsat d) |>
    <| averageResponseTime ::= spread (d_averageResponseTime d) |>
    <| averageResolutionTime ::= spread (d_averageResolutionTime d) |>
    <| sentimentScore ::= spread (d_sentimentScore d) |>
    <| lifetimeValue ::= spread (d_lifetimeValue d) |>
    <| riskScore ::= spread (d_riskScore d) |> <| vipStatus ::= spread (d_vipStatus d) |>
    <| updatedAt := now |>.

Definition num_field {A} (to : A → json) (k : string) (v : option A) : list (string * json) :=
  match v with Some x => [(k, to x)] | None => [] end.

Definition toJSON `{JsonDouble} (m : CustomerMetrics) : json :=
  JObj ([("id", JStr (id m)); ("tenantId", JStr (tenantId m));
         ("customerId", JStr (customerId m))] ++
    num_field JNum "totalConversations" (totalConversations m) ++
    num_field JNum "totalTickets" (totalTickets m) ++
    num_field JNum "totalOrders" (totalOrders m) ++
    num_field json_double "totalSpend" (totalSpend m) ++
    num_field json_double "averageCsat" (averageCsat m) ++
    num_field JNum "averageResponseTime" (averageResponseTime m) ++
    num_field JNum "averageResolutionTime" (averageResolutionTime m) ++
    num_field json_double "sentimentScore" (sentimentScore m) ++
    num_field json_double "lifetimeValue" (lifetimeValue m) ++
    num_field json_double "riskScore" (riskScore m) ++
    num_field JBool "vipStatus" (vipStatus m) ++
    [("createdAt", JNum (createdAt m)); ("updatedAt", JNum (updatedAt m))]).
End Metrics.

(** ** [CustomerSegment] *)
Module Segments.
Record CustomerSegment := {
  id : string;
  tenantId : string;
  segmentName : string;
  segmentType : string;
  rules : option json;
  description : option string;
  isActive : option bool;
  createdAt : Z;
  updatedAt : Z;
}.
#[global] Instance CustomerSegment_Eta : Eta CustomerSegment := λ s,
  Build_CustomerSegment (id s) (tenantId s) (segmentName s) (segmentType s) (rules s)
    (description s) (isActive s) (createdAt s) (updatedAt s).

Record CustomerSegmentDto := {
  d_segmentName : string;
  d_segmentType : string;
  d_rules : option json;
  d_description : option string;
  d_isActive : option bool;
}.

(** [update] with every key of the request. *)
Definition update (now : Z) (d : CustomerSegmentDto) (this : CustomerSegment) : CustomerSegment :=
  this <| segmentName := d_segmentName d |> <| segmentType := d_segmentType d |>
    <| rules := d_rules d |> <| description := d_description d |>
    <| isActive := d_isActive d |> <| updatedAt := now |>.

Definition toJSON (s : CustomerSegment) : json :=
  JObj ([("id", JStr (id s)); ("tenantId", JStr (tenantId s));
         ("segmentName", JStr (segmentName s)); ("segmentType", JStr (segmentType s))] ++
    Metrics.num_field (λ v, v) "rules" (rules s) ++ opt_field "description" (description s) ++
    Metrics.num_field JBool "isActive" (isActive s) ++
    [("createdAt", JNum (createdAt s)); ("updatedAt", JNum (updatedAt s))]).
End Segments.

(** ** [Customer] *)
Inductive CustomerEvent :=
  | CustomerCreatedEvent (tenantId customerId name email : string)
  | CustomerUpdatedEvent (tenantId customerId name email : string)
  | CustomerDeletedEvent (tenantId customerId : string)
  | CustomerRestoredEvent (tenantId customerId : string)
  | CustomerSegmentAssignedEvent (tenantId customerId segmentId : string)
  | CustomerMetricsUpdatedEvent (tenantId customerId : string) (metrics : json).

Record Customer := {
  id : string;
  tenantId : string;
  externalCustomerId : option string;
  email : string;
  phone : option string;
  status : CustomerStatusEnum;
  preferredLanguage : string;
  timezone : string;
  lastSeenAt : option Z;
  source : string;
  metadata : option (gmap string json);
  createdAt : Z;
  updatedAt : Z;
  deletedAt : option Z;
  version : Z;
  profile : option Profiles.CustomerProfile;
  metrics : option Metrics.CustomerMetrics;
  domainEvents : list CustomerEvent;
}.
#[export] Instance Customer_Eta : Eta Customer := λ c,
  Build_Customer (id c) (tenantId c) (externalCustomerId c) (email c) (phone c) (status c)
    (preferredLanguage c) (timezone c) (lastSeenAt c) (source c) (metadata c) (createdAt c)
    (updatedAt c) (deletedAt c) (version c) (profile c) (metrics c) (domainEvents c).

(** The keys of an update. *)
Record CustomerPatch := {
  u_externalCustomerId : patch string;
  u_email : option string;
  u_phone : patch string;
  u_status : option CustomerStatusEnum;
  u_preferredLanguage : option string;
  u_timezone : option string;
  u_source : option string;
  u_metadata : patch (gmap string json);
}.
Definition empty_patch_status (s : CustomerStatusEnum) : CustomerPatch :=
  {| u_externalCustomerId := Absent; u_email := None; u_phone := Absent; u_status := Some s;
     u_preferredLanguage := None; u_timezone := None; u_source := None; u_metadata := Absent |}.

Section operations.
Context {HJ : JsonDouble} (now : Z).
Implicit Types (this : Customer).

Definition addDomainEvent (e : CustomerEvent) this : Customer :=
  this <| domainEvents ::= λ l, l ++ [e] |>.

Definition name_of this : string :=
  js_or (p ← profile this; Profiles.displayName p) (email this).

Definition setProfile (p : Profiles.CustomerProfile) this : Customer :=
  this <| profile := Some p |> <| updatedAt := now |>.
Definition setMetrics (m : Metrics.CustomerMetrics) this : Customer :=
  this <| metrics := Some m |> <| updatedAt := now |>.

(** [Customer.create] of a customer that was just built *)
Definition created this : Customer :=
  addDomainEvent (CustomerCreatedEvent (tenantId this) (id this) (name_of this) (email this)) this.

Definition spread_customer (p : CustomerPatch) this : Customer :=
  this <| externalCustomerId ::= spread (u_externalCustomerId p) |>
    <| email ::= λ e, default e (u_email p) |> <| phone ::= spread (u_phone p) |>
    <| status ::= λ s, default s (u_status p) |>
    <| preferredLanguage ::= λ l, default l (u_preferredLanguage p) |>
    <| timezone ::= λ t, default t (u_timezone p) |>
    <| source ::= λ s, default s (u_source p) |>
    <| metadata ::= spread (u_metadata p) |>.

Definition update (p : CustomerPatch) this : Customer :=
  let this := (spread_customer p this) <| updatedAt := now |> <| version ::= Z.succ |> in
  addDomainEvent (CustomerUpdatedEvent (tenantId this) (id this) (name_of this) (email this)) this.

Definition delete_customer this : Customer :=
  addDomainEvent (CustomerDeletedEvent (tenantId this) (id this))
    (this <| deletedAt := Some now |> <| status := INACTIVE |> <| updatedAt := now |>
       <| version ::= Z.succ |>).

Definition restore this : Customer :=
  addDomainEvent (CustomerRestoredEvent (tenantId this) (id this))
    (this <| deletedAt := None |> <| status := ACTIVE |> <| updatedAt := now |>
       <| version ::= Z.succ |>).

Definition assignSegment (segmentId : string) this : Customer :=
  addDomainEvent (CustomerSegmentAssignedEvent (tenantId this) (id this) segmentId) this.

Definition updateMetrics (m : Metrics.CustomerMetrics) this : Customer :=
  let this := setMetrics m this in
  addDomainEvent (CustomerMetricsUpdatedEvent (tenantId this) (id this) (Metrics.toJSON m)) this.

Definition clearEvents this : Customer := this <| domainEvents := [] |>.

Definition toJSON this : json :=
  JObj ([("id", JStr (id this)); ("tenantId", JStr (tenantId this))] ++
    opt_field "externalCustomerId" (externalCustomerId this) ++
    [("email", JStr (email this))] ++ opt_field "phone" (phone this) ++
    [("status", JStr (enum_str (status this)));
     ("preferredLanguage", JStr (preferredLanguage this));
     ("timezone", JStr (timezone this))] ++
    Metrics.num_field JNum "lastSeenAt" (lastSeenAt this) ++
    [("source", JStr (source this))] ++
    Metrics.num_field (λ m, JObj (map_to_list m)) "metadata" (metadata this) ++
    [("createdAt", JNum (createdAt this)); ("updatedAt", JNum (updatedAt this))] ++
    Metrics.num_field JNum "deletedAt" (deletedAt this) ++
    [("version", JNum (version this))] ++
    Metrics.num_field Profiles.toJSON "profile" (profile this) ++
    Metrics.num_field Metrics.toJSON "metrics" (metrics this)).
End operations.
