(* ===== verification/CustomerRepo.v ===== *)
(** * Customers: the tables and the repositories

    [src/modules/customers/repositories] over the five tables of
    [packages/database/src/schema.ts].  A row has the columns the code reads or
    writes; [raw_customer] and the like are the rows a save writes, [toDomain] reads
    a row of the three joined tables.  A customer is saved in one transaction. *)

From S2P Require Import Prelude Platform JsValue Double Sql Customer.
Open Scope Z_scope.

(** ** Rows *)
Record CustomerRow := {
  cr_id : string;
  cr_tenantId : string;
  cr_externalCustomerId : option string;
  cr_email : string;
  cr_phone : option string;
  cr_status : string;
  cr_preferredLanguage : string;
  cr_timezone : string;
  cr_lastSeenAt : option Z;
  cr_source : string;
  cr_metadata : option (gmap string json);
  cr_createdAt : Z;
  cr_updatedAt : Z;
  cr_deletedAt : option Z;
  cr_version : Z;
}.
#[export] Instance CustomerRow_Eta : Eta CustomerRow := λ r,
  Build_CustomerRow (cr_id r) (cr_tenantId r) (cr_externalCustomerId r) (cr_email r)
    (cr_phone r) (cr_status r) (cr_preferredLanguage r) (cr_timezone r) (cr_lastSeenAt r)
    (cr_source r) (cr_metadata r) (cr_createdAt r) (cr_updatedAt r) (cr_deletedAt r)
    (cr_version r).

Record ProfileRow := {
  pr_id : string;
  pr_tenantId : string;
  pr_customerId : string;
  pr_firstName : option string;
  pr_lastName : option string;
  pr_displayName : option string;
  pr_avatarUrl : option string;
  pr_company : option string;
  pr_jobTitle : option string;
  pr_country : option string;
  pr_city : option string;
  pr_state : option string;
  pr_postalCode : option string;
  pr_tags : option (list string);
  pr_customAttributes : option (gmap string json);
  pr_createdAt : Z;
  pr_updatedAt : Z;
}.
#[export] Instance ProfileRow_Eta : Eta ProfileRow := λ r,
  Build_ProfileRow (pr_id r) (pr_tenantId r) (pr_customerId r) (pr_firstName r)
    (pr_lastName r) (pr_displayName r) (pr_avatarUrl r) (pr_company r) (pr_jobTitle r)
    (pr_country r) (pr_city r) (pr_state r) (pr_postalCode r) (pr_tags r)
    (pr_customAttributes r) (pr_createdAt r) (pr_updatedAt r).

Record MetricsRow := {
  mr_id : string;
  mr_tenantId : string;
  mr_customerId : string;
  mr_totalConversations : Z;
  mr_totalTickets : Z;
  mr_totalOrders : Z;
  mr_totalSpend : numeric;
  mr_averageCsat : double;
  mr_averageResponseTime : Z;
  mr_averageResolutionTime : Z;
  mr_sentimentScore : double;
  mr_lifetimeValue : numeric;
  mr_riskScore : double;
  mr_vipStatus : bool;
  mr_createdAt : Z;
  mr_updatedAt : Z;
}.
#[export] Instance MetricsRow_Eta : Eta MetricsRow := λ r,
  Build_MetricsRow (mr_id r) (mr_tenantId r) (mr_customerId r) (mr_totalConversations r)
    (mr_totalTickets r) (mr_totalOrders r) (mr_totalSpend r) (mr_averageCsat r)
    (mr_averageResponseTime r) (mr_averageResolutionTime r) (mr_sentimentScore r)
    (mr_lifetimeValue r) (mr_riskScore r) (mr_vipStatus r) (mr_createdAt r)
    (mr_updatedAt r).

Record SegmentRow := {
  sr_id : string;
  sr_tenantId : string;
  sr_segmentName : string;
  sr_segmentType : string;
  sr_rules : option json;
  sr_description : option string;
  sr_isActive : bool;
  sr_createdAt : Z;
  sr_updatedAt : Z;
}.
#[export] Instance SegmentRow_Eta : Eta SegmentRow := λ r,
  Build_SegmentRow (sr_id r) (sr_tenantId r) (sr_segmentName r) (sr_segmentType r)
    (sr_rules r) (sr_description r) (sr_isActive r) (sr_createdAt r) (sr_updatedAt r).

Record MemberRow := {
  me_id : string;
  me_tenantId : string;
  me_customerId : string;
  me_segmentId : string;
  me_createdAt : Z;
  me_updatedAt : Z;
}.

(** *** Unique indexes *)
#[export, program] Instance customer_row : Row CustomerRow :=
  {| row_id := cr_id; row_tenant := cr_tenantId;
     row_keys r := ["id"; cr_id r] :: ["email"; cr_tenantId r; cr_email r] ::
       match cr_externalCustomerId r with
       | Some e => [["external"; cr_tenantId r; e]]
       | None => []
       end |}.
Next Obligation. intros. left. Qed.
#[export, program] Instance profile_row : Row ProfileRow :=
  {| row_id := pr_id; row_tenant := pr_tenantId; row_keys r := [["id"; pr_id r]] |}.
Next Obligation. intros. left. Qed.
#[export, program] Instance metrics_row : Row MetricsRow :=
  {| row_id := mr_id; row_tenant := mr_tenantId;
     row_keys r := [["id"; mr_id r]; ["customer"; mr_tenantId r; mr_customerId r]] |}.
Next Obligation. intros. left. Qed.
#[export, program] Instance segment_row : Row SegmentRow :=
  {| row_id := sr_id; row_tenant := sr_tenantId;
     row_keys r := [["id"; sr_id r]; ["name"; sr_tenantId r; sr_segmentName r]] |}.
Next Obligation. intros. left. Qed.
#[export, program] Instance member_row : Row MemberRow :=
  {| row_id := me_id; row_tenant := me_tenantId;
     row_keys r := [["id"; me_id r];
                    ["member"; me_tenantId r; me_customerId r; me_segmentId r]] |}.
Next Obligation. intros. left. Qed.

(** ** The database *)
Record CustDb := {
  customers : list CustomerRow;
  customerProfiles : list ProfileRow;
  customerMetrics : list MetricsRow;
  customerSegments : list SegmentRow;
  customerSegmentMembers : list MemberRow;
}.
#[export] Instance CustDb_Eta : Eta CustDb := λ d,
  Build_CustDb (customers d) (customerProfiles d) (customerMetrics d) (customerSegments d)
    (customerSegmentMembers d).
Abbreviation CustW := (World CustDb).

#[export] Instance customers_table : Table CustDb CustomerRow :=
  {| rows := customers; with_rows l d := d <| customers := l |> |}.
#[export] Instance profiles_table : Table CustDb ProfileRow :=
  {| rows := customerProfiles; with_rows l d := d <| customerProfiles := l |> |}.
#[export] Instance metrics_table : Table CustDb MetricsRow :=
  {| rows := customerMetrics; with_rows l d := d <| customerMetrics := l |> |}.
#[export] Instance segments_table : Table CustDb SegmentRow :=
  {| rows := customerSegments; with_rows l d := d <| customerSegments := l |> |}.
#[export] Instance members_table : Table CustDb MemberRow :=
  {| rows := customerSegmentMembers; with_rows l d := d <| customerSegmentMembers := l |> |}.

(** ** [DrizzleCustomerRepository.save] *)
Definition customer_fits (c : Customer) : bool :=
  fits [(255, externalCustomerId c); (255, Some (email c)); (50, phone c);
        (10, Some (preferredLanguage c)); (50, Some (timezone c)); (50, Some (source c))]
  && int4 (version c).
Definition customer_columns (updated : Z) (c : Customer) : CustomerRow :=
  {| cr_id := id c; cr_tenantId := tenantId c;
     cr_externalCustomerId := js_or_undef (externalCustomerId c); cr_email := email c;
     cr_phone := js_or_undef (phone c); cr_status := enum_str (status c);
     cr_preferredLanguage := preferredLanguage c; cr_timezone := timezone c;
     cr_lastSeenAt := lastSeenAt c; cr_source := source c; cr_metadata := metadata c;
     cr_createdAt := createdAt c; cr_updatedAt := updated; cr_deletedAt := deletedAt c;
     cr_version := version c |}.
Definition raw_customer (updated : Z) (c : Customer) : result CustomerRow :=
  column (customer_fits c) (customer_columns updated c).

Definition profile_fits (p : Profiles.CustomerProfile) : bool :=
  fits [(100, Profiles.firstName p); (100, Profiles.lastName p);
        (200, Profiles.displayName p); (500, Profiles.avatarUrl p);
        (255, Profiles.company p); (255, Profiles.jobTitle p); (100, Profiles.country p);
        (100, Profiles.city p); (100, Profiles.state p); (20, Profiles.postalCode p)].
Definition profile_columns (updated : Z) (p : Profiles.CustomerProfile) : ProfileRow :=
  {| pr_id := Profiles.id p; pr_tenantId := Profiles.tenantId p;
     pr_customerId := Profiles.customerId p;
     pr_firstName := js_or_undef (Profiles.firstName p);
     pr_lastName := js_or_undef (Profiles.lastName p);
     pr_displayName := js_or_undef (Profiles.displayName p);
     pr_avatarUrl := js_or_undef (Profiles.avatarUrl p);
     pr_company := js_or_undef (Profiles.company p);
     pr_jobTitle := js_or_undef (Profiles.jobTitle p);
     pr_country := js_or_undef (Profiles.country p);
     pr_city := js_or_undef (Profiles.city p); pr_state := js_or_undef (Profiles.state p);
     pr_postalCode := js_or_undef (Profiles.postalCode p);
     pr_tags := Some (Profiles.tags p);
     pr_customAttributes := Some (Profiles.customAttributes p);
     pr_createdAt := Profiles.createdAt p; pr_updatedAt := updated |}.
Definition raw_profile (updated : Z) (p : Profiles.CustomerProfile) : result ProfileRow :=
  column (profile_fits p) (profile_columns updated p).

(** [x.toFixed(2)] and the column it is written to *)
Definition fixed2 (x : option double) : result (option numeric) :=
  match x with
  | Some x => Ok (toFixed2 x)
  | None => Throw (Exn JsTypeError "Cannot read properties of undefined (reading 'toFixed')")
  end.
Definition amount (n : option numeric) : result numeric :=
  match n with Some n => Ok n | None => Throw column_error end.

(** A key that is [undefined] leaves the column as it is; in a new row it is the
    default of the column. *)
Definition set_metrics (spend value : numeric) (updated : Z) (m : Metrics.CustomerMetrics)
    (r : MetricsRow) : MetricsRow :=
  {| mr_id := Metrics.id m; mr_tenantId := Metrics.tenantId m;
     mr_customerId := Metrics.customerId m;
     mr_totalConversations := default (mr_totalConversations r) (Metrics.totalConversations m);
     mr_totalTickets := default (mr_totalTickets r) (Metrics.totalTickets m);
     mr_totalOrders := default (mr_totalOrders r) (Metrics.totalOrders m);
     mr_totalSpend := spend;
     mr_averageCsat := default (mr_averageCsat r) (Metrics.averageCsat m);
     mr_averageResponseTime := default (mr_averageResponseTime r) (Metrics.averageResponseTime m);
     mr_averageResolutionTime :=
       default (mr_averageResolutionTime r) (Metrics.averageResolutionTime m);
     mr_sentimentScore := default (mr_sentimentScore r) (Metrics.sentimentScore m);
     mr_lifetimeValue := value;
     mr_riskScore := default (mr_riskScore r) (Metrics.riskScore m);
     mr_vipStatus := default (mr_vipStatus r) (Metrics.vipStatus m);
     mr_createdAt := mr_createdAt r; mr_updatedAt := updated |}.
Definition blank_metrics (created : Z) : MetricsRow :=
  {| mr_id := ""; mr_tenantId := ""; mr_customerId := ""; mr_totalConversations := 0;
     mr_totalTickets := 0; mr_totalOrders := 0; mr_totalSpend := Cents 0;
     mr_averageCsat := dzero; mr_averageResponseTime := 0; mr_averageResolutionTime := 0;
     mr_sentimentScore := dzero; mr_lifetimeValue := Cents 0; mr_riskScore := dzero;
     mr_vipStatus := false; mr_createdAt := created; mr_updatedAt := created |}.
Definition metrics_fit (m : Metrics.CustomerMetrics) : bool :=
  every (λ c, match c with Some z => int4 z | None => true end)
    [Metrics.totalConversations m; Metrics.totalTickets m; Metrics.totalOrders m;
     Metrics.averageResponseTime m; Metrics.averageResolutionTime m].

Section repository.
Context {HE : Env} {HS : SqlScan}.

Definition of_customer_profile (customer tenant : string) (r : ProfileRow) : bool :=
  String.eqb (pr_customerId r) customer && String.eqb (pr_tenantId r) tenant.
Definition of_customer_metrics (customer tenant : string) (r : MetricsRow) : bool :=
  String.eqb (mr_customerId r) customer && String.eqb (mr_tenantId r) tenant.

(** 1. Save customer *)
Definition save_customer (c : Customer) (tenant : string) : M CustW unit :=
  existing ← read (R := CustomerRow) (by_id (id c) tenant);
  match existing with
  | Some _ =>
      updated ← new_Date;
      raw ← of_result (raw_customer updated c);
      write (sql_update (by_id (id c) tenant)
               (λ r, raw <| cr_createdAt := cr_createdAt r |>))
  | None =>
      raw ← of_result (raw_customer (createdAt c) c);
      write (sql_insert raw)
  end.

(** 2. Save profile *)
Definition save_profile (customer tenant : string) (p : Profiles.CustomerProfile)
    : M CustW unit :=
  updated ← new_Date;
  existing ← read (of_customer_profile customer tenant);
  match existing with
  | Some _ =>
      raw ← of_result (raw_profile updated p);
      write (sql_update (of_customer_profile customer tenant)
               (λ r, raw <| pr_createdAt := pr_createdAt r |>))
  | None =>
      raw ← of_result (raw_profile (Profiles.createdAt p) p);
      write (sql_insert raw)
  end.

(** 3. Save metrics *)
Definition save_metrics (customer tenant : string) (m : Metrics.CustomerMetrics)
    : M CustW unit :=
  spend ← of_result (fixed2 (Metrics.totalSpend m));
  value ← of_result (fixed2 (Metrics.lifetimeValue m));
  updated ← new_Date;
  existing ← read (of_customer_metrics customer tenant);
  spend ← of_result (amount spend);
  value ← of_result (amount value);
  _ ← of_result (column (metrics_fit m) ());
  match existing with
  | Some _ =>
      write (sql_update (of_customer_metrics customer tenant)
               (set_metrics spend value updated m))
  | None =>
      let created := Metrics.createdAt m in
      write (sql_insert (set_metrics spend value created m (blank_metrics created)))
  end.

(** [if (part) save(part)] *)
Definition optional {A} (part : option A) (f : A → M CustW unit) : M CustW unit :=
  match part with Some a => f a | None => mret tt end.

Definition save (c : Customer) (tenant : string) : M CustW Customer :=
  _ ← new_Date;
  transaction
    (save_customer c tenant ;;
     optional (profile c) (save_profile (id c) tenant) ;;
     optional (metrics c) (save_metrics (id c) tenant)) ;;
  mret c.

(** ** Reading: [CustomerMapper.toDomain] *)
Record Joined := {
  j_customer : CustomerRow;
  j_profile : option ProfileRow;
  j_metrics : option MetricsRow;
}.

Definition profile_toDomain (r : ProfileRow) : Profiles.CustomerProfile :=
  {| Profiles.id := pr_id r; Profiles.tenantId := pr_tenantId r;
     Profiles.customerId := pr_customerId r;
     Profiles.firstName := js_or_undef (pr_firstName r);
     Profiles.lastName := js_or_undef (pr_lastName r);
     Profiles.displayName := js_or_undef (pr_displayName r);
     Profiles.avatarUrl := js_or_undef (pr_avatarUrl r);
     Profiles.company := js_or_undef (pr_company r);
     Profiles.jobTitle := js_or_undef (pr_jobTitle r);
     Profiles.country := js_or_undef (pr_country r);
     Profiles.city := js_or_undef (pr_city r); Profiles.state := js_or_undef (pr_state r);
     Profiles.postalCode := js_or_undef (pr_postalCode r);
     Profiles.tags := default [] (pr_tags r);
     Profiles.customAttributes := default ∅ (pr_customAttributes r);
     Profiles.createdAt := pr_createdAt r; Profiles.updatedAt := pr_updatedAt r |}.

(** [Number(x || 0)]: the text of an amount is never empty. *)
Definition metrics_toDomain (r : MetricsRow) : Metrics.CustomerMetrics :=
  {| Metrics.id := mr_id r; Metrics.tenantId := mr_tenantId r;
     Metrics.customerId := mr_customerId r;
     Metrics.totalConversations := Some (mr_totalConversations r);
     Metrics.totalTickets := Some (mr_totalTickets r);
     Metrics.totalOrders := Some (mr_totalOrders r);
     Metrics.totalSpend := Some (of_numeric (mr_totalSpend r));
     Metrics.averageCsat := Some (or_zero (mr_averageCsat r));
     Metrics.averageResponseTime := Some (mr_averageResponseTime r);
     Metrics.averageResolutionTime := Some (mr_averageResolutionTime r);
     Metrics.sentimentScore := Some (or_zero (mr_sentimentScore r));
     Metrics.lifetimeValue := Some (of_numeric (mr_lifetimeValue r));
     Metrics.riskScore := Some (or_zero (mr_riskScore r));
     Metrics.vipStatus := Some (mr_vipStatus r);
     Metrics.createdAt := mr_createdAt r; Metrics.updatedAt := mr_updatedAt r |}.

Definition toDomain (r : Joined) : result Customer :=
  let c := j_customer r in
  email ← CustomerEmail_create (cr_email c);
  phone ← match js_or_undef (cr_phone c) with
          | Some p => p ← CustomerPhone_create p; Ok (Some p)
          | None => Ok None
          end;
  status ← CustomerStatus_create (cr_status c);
  preferredLanguage ← CustomerLanguage_create (js_or (Some (cr_preferredLanguage c)) "en");
  timezone ← CustomerTimezone_create (js_or (Some (cr_timezone c)) "UTC");
  Ok {| id := cr_id c; tenantId := cr_tenantId c;
        externalCustomerId := js_or_undef (cr_externalCustomerId c);
        email := email; phone := phone; status := status;
        preferredLanguage := preferredLanguage; timezone := timezone;
        lastSeenAt := cr_lastSeenAt c; source := js_or (Some (cr_source c)) "API";
        metadata := Some (default ∅ (cr_metadata c));
        createdAt := cr_createdAt c; updatedAt := cr_updatedAt c;
        deletedAt := cr_deletedAt c; version := js_or (Some (cr_version c)) 1;
        profile := profile_toDomain <$> j_profile r;
        metrics := metrics_toDomain <$> j_metrics r; domainEvents := [] |}.

(** The left joins: a customer without a profile appears once. *)
Definition left_join {R} (on : R → bool) (l : list R) : list (option R) :=
  match js_filter on l with [] => [None] | l' => Some <$> l' end.
Definition join_row (d : CustDb) (c : CustomerRow) : list Joined :=
  p ← left_join (λ p, String.eqb (cr_id c) (pr_customerId p)) (customerProfiles d);
  m ← left_join (λ m, String.eqb (cr_id c) (mr_customerId m)) (customerMetrics d);
  [{| j_customer := c; j_profile := p; j_metrics := m |}].
Definition joined (d : CustDb) : list Joined := customers d ≫= join_row d.

Definition find_one (p : Joined → bool) : M CustW (option Customer) :=
  found ← gets (λ w, sql_select p (joined (db w)));
  match found with
  | Some r => c ← of_result (toDomain r); mret (Some c)
  | None => mret None
  end.

(** *** The queries *)
Definition in_tenant (tenant : string) (r : Joined) : bool :=
  String.eqb (cr_tenantId (j_customer r)) tenant.
Definition not_deleted (r : Joined) : bool :=
  match cr_deletedAt (j_customer r) with None => true | Some _ => false end.

Definition findById (customer tenant : string) : M CustW (option Customer) :=
  find_one (λ r, String.eqb (cr_id (j_customer r)) customer && in_tenant tenant r).
Definition findByEmail (address tenant : string) : M CustW (option Customer) :=
  find_one (λ r, String.eqb (cr_email (j_customer r)) (js_lower (js_trim address))
                 && in_tenant tenant r).
Definition findByExternalId (external tenant : string) : M CustW (option Customer) :=
  find_one (λ r, bool_decide (cr_externalCustomerId (j_customer r) = Some external)
                 && in_tenant tenant r).

Definition findAll (tenant : string) : M CustW (list Customer) :=
  l ← gets (λ w, js_filter (λ r, in_tenant tenant r && not_deleted r) (scan (joined (db w))));
  of_result (mapM toDomain l).

Definition delete_row (customer tenant : string) : M CustW bool :=
  existing ← read (R := CustomerRow) (by_id customer tenant);
  match existing with
  | Some _ =>
      now ← new_Date;
      write (sql_update (by_id customer tenant)
               (λ r, r <| cr_deletedAt := Some now |> <| cr_status := "INACTIVE" |>)) ;;
      mret true
  | None => mret false
  end.
Definition restore_row (customer tenant : string) : M CustW bool :=
  existing ← read (R := CustomerRow) (by_id customer tenant);
  match existing with
  | Some _ =>
      write (sql_update (by_id customer tenant)
               (λ r, r <| cr_deletedAt := None |> <| cr_status := "ACTIVE" |>)) ;;
      mret true
  | None => mret false
  end.

(** ** Members of segments *)
Definition is_member (customer segment tenant : string) (r : MemberRow) : bool :=
  String.eqb (me_customerId r) customer && String.eqb (me_segmentId r) segment
  && String.eqb (me_tenantId r) tenant.

Definition foreign_key_violation : exn :=
  Exn JsError "insert or update violates foreign key constraint".
(** [references(() => customers.id)], [references(() => customerSegments.id)] *)
Definition references (customer segment : string) (d : CustDb) : result () :=
  if some (λ c, String.eqb (cr_id c) customer) (customers d)
     && some (λ s, String.eqb (sr_id s) segment) (customerSegments d)
  then Ok () else Throw foreign_key_violation.

Definition assignSegment (customer segment tenant : string) : M CustW unit :=
  existing ← read (is_member customer segment tenant);
  match existing with
  | Some _ => mret tt
  | None =>
      id ← randomUUID;
      created ← new_Date;
      updated ← new_Date;
      checked ← gets (λ w, references customer segment (db w));
      _ ← of_result checked;
      write (sql_insert {| me_id := id; me_tenantId := tenant; me_customerId := customer;
                           me_segmentId := segment; me_createdAt := created;
                           me_updatedAt := updated |})
  end.

Definition removeSegment (customer segment tenant : string) : M CustW unit :=
  write (λ l, Ok (sql_delete (is_member customer segment tenant) l)).

Definition findSegments (customer tenant : string) : M CustW (list string) :=
  gets (λ w, me_segmentId <$>
    js_filter (λ r, String.eqb (me_customerId r) customer && String.eqb (me_tenantId r) tenant)
      (scan (customerSegmentMembers (db w)))).

Definition with_members (segment : string) (d : CustDb) : list Joined :=
  r ← joined d;
  (λ _, r) <$> js_filter (λ m, String.eqb (cr_id (j_customer r)) (me_customerId m)
                              && String.eqb (me_segmentId m) segment)
                 (customerSegmentMembers d).
Definition findSegmentMembers (segment tenant : string) : M CustW (list Customer) :=
  l ← gets (λ w, js_filter (λ r, in_tenant tenant r && not_deleted r)
                   (scan (with_members segment (db w))));
  of_result (mapM toDomain l).

(** ** [DrizzleCustomerSegmentRepository] *)
Definition segment_toDomain (r : SegmentRow) : Segments.CustomerSegment :=
  {| Segments.id := sr_id r; Segments.tenantId := sr_tenantId r;
     Segments.segmentName := sr_segmentName r; Segments.segmentType := sr_segmentType r;
     Segments.rules := sr_rules r; Segments.description := js_or_undef (sr_description r);
     Segments.isActive := Some (sr_isActive r); Segments.createdAt := sr_createdAt r;
     Segments.updatedAt := sr_updatedAt r |}.

(** [isActive] of a new row is [true] by default. *)
Definition raw_segment (active : bool) (created updated : Z) (s : Segments.CustomerSegment)
    : result SegmentRow :=
  column (fits [(255, Some (Segments.segmentName s)); (50, Some (Segments.segmentType s))])
    {| sr_id := Segments.id s; sr_tenantId := Segments.tenantId s;
       sr_segmentName := Segments.segmentName s; sr_segmentType := Segments.segmentType s;
       sr_rules := js_or_undef (Segments.rules s);
       sr_description := js_or_undef (Segments.description s);
       sr_isActive := default active (Segments.isActive s);
       sr_createdAt := created; sr_updatedAt := updated |}.

Definition find_segment (p : SegmentRow → bool) : M CustW (option Segments.CustomerSegment) :=
  found ← read p; mret (segment_toDomain <$> found).
Definition findSegmentById (segment tenant : string) : M CustW (option Segments.CustomerSegment) :=
  find_segment (by_id segment tenant).
Definition findSegmentByName (name tenant : string) : M CustW (option Segments.CustomerSegment) :=
  find_segment (λ r, String.eqb (sr_segmentName r) name && String.eqb (sr_tenantId r) tenant).
Definition findAllSegments (tenant : string) : M CustW (list Segments.CustomerSegment) :=
  gets (λ w, segment_toDomain <$>
    js_filter (λ r, String.eqb (sr_tenantId r) tenant) (scan (customerSegments (db w)))).
Definition findActiveSegments (tenant : string) : M CustW (list Segments.CustomerSegment) :=
  gets (λ w, segment_toDomain <$>
    js_filter (λ r, String.eqb (sr_tenantId r) tenant && sr_isActive r)
      (scan (customerSegments (db w)))).

Definition saveSegment (s : Segments.CustomerSegment) (tenant : string)
    : M CustW Segments.CustomerSegment :=
  updated ← new_Date;
  existing ← read (R := SegmentRow) (by_id (Segments.id s) tenant);
  match existing with
  | Some row =>
      raw ← of_result (raw_segment (sr_isActive row) (sr_createdAt row) updated s);
      write (sql_update (by_id (Segments.id s) tenant) (λ _, raw))
  | None =>
      raw ← of_result (raw_segment true (Segments.createdAt s) (Segments.createdAt s) s);
      write (sql_insert raw)
  end ;;
  mret s.

(** The members of a segment go with it ([onDelete: 'cascade']). *)
Definition deleteSegment_row (segment tenant : string) : M CustW bool :=
  existing ← read (R := SegmentRow) (by_id segment tenant);
  match existing with
  | Some _ =>
      modify (λ w, w <| db ::= λ d,
        d <| customerSegments ::= sql_delete (by_id segment tenant) |>
          <| customerSegmentMembers ::=
               sql_delete (λ m, String.eqb (me_segmentId m) segment) |> |>) ;;
      mret true
  | None => mret false
  end.
End repository.
