(* ===== verification/CustomerService.v ===== *)
(** * Customers: the services and the worker

    [src/modules/customers/services] and [jobs/customer-queue.processor.ts], one
    module per service, over the repositories.  The workflow engine is a parameter;
    it does not write the tables of this module. *)

From Stdlib Require Import QArith.
From S2P Require Import Prelude Platform JsDate JsValue Double Sql Customer CustomerRepo.
Open Scope Z_scope.

(** ** Requests *)
Record CreateCustomerProfileDto := {
  f_firstName : option string;
  f_lastName : option string;
  f_displayName : option string;
  f_avatarUrl : option string;
  f_company : option string;
  f_jobTitle : option string;
  f_country : option string;
  f_city : option string;
  f_state : option string;
  f_postalCode : option string;
  f_tags : option (list string);
  f_customAttributes : option (gmap string json);
}.
Record CreateCustomerDto := {
  c_externalCustomerId : option string;
  c_email : string;
  c_phone : option string;
  c_preferredLanguage : option string;
  c_timezone : option string;
  c_source : option string;
  c_metadata : option (gmap string json);
  c_profile : option CreateCustomerProfileDto;
}.
Record UpdateCustomerDto := {
  d_externalCustomerId : option string;
  d_email : option string;
  d_phone : option string;
  d_status : option string;
  d_preferredLanguage : option string;
  d_timezone : option string;
  d_source : option string;
  d_metadata : option (gmap string json);
  d_profile : option CreateCustomerProfileDto;
}.

(** The request is an instance of its class, whose fields are all defined: a field
    that was not sent is there with the value [undefined]. *)
Definition dto_patch (d : CreateCustomerProfileDto) : Profiles.ProfilePatch :=
  {| Profiles.p_firstName := present (f_firstName d);
     Profiles.p_lastName := present (f_lastName d);
     Profiles.p_displayName := present (f_displayName d);
     Profiles.p_avatarUrl := present (f_avatarUrl d);
     Profiles.p_company := present (f_company d);
     Profiles.p_jobTitle := present (f_jobTitle d);
     Profiles.p_country := present (f_country d); Profiles.p_city := present (f_city d);
     Profiles.p_state := present (f_state d);
     Profiles.p_postalCode := present (f_postalCode d);
     Profiles.p_tags := present (f_tags d);
     Profiles.p_customAttributes := present (f_customAttributes d) |}.

(** A record of a bulk import. *)
Record ImportRecord := {
  i_email : option string;
  i_phone : option string;
  i_externalCustomerId : option string;
  i_preferredLanguage : option string;
  i_timezone : option string;
  i_source : option string;
  i_metadata : option (gmap string json);
  i_profile : option CreateCustomerProfileDto;
  i_firstName : option string;
  i_lastName : option string;
  i_displayName : option string;
}.

(** What the services call outside the module: the workflow engine, and the records
    that the payload of an import job holds. *)
Class CustDeps := {
  evaluateEventTriggers : string → string → list (string * json) → M CustW unit;
  import_records : option json → result (list ImportRecord);
  JSON_stringify : json → string;
  evaluateEventTriggers_db t k c : keeps (same db) (evaluateEventTriggers t k c);
}.
#[export] Hint Resolve evaluateEventTriggers_db : keeps.

Definition not_found (what id : string) : exn :=
  Exn NotFoundException (what +:+ " with ID " +:+ id +:+ " not found").

Section shared.
Context {HE : Env} {HS : SqlScan} {HJ : JsonDouble} {HD : CustDeps}.

(** ** [CustomerEventPublisher] *)
Definition event_name (e : CustomerEvent) : string :=
  match e with
  | CustomerCreatedEvent _ _ _ _ => "customer.created"
  | CustomerUpdatedEvent _ _ _ _ => "customer.updated"
  | CustomerDeletedEvent _ _ => "customer.deleted"
  | CustomerRestoredEvent _ _ => "customer.restored"
  | CustomerSegmentAssignedEvent _ _ _ => "customer.segment_assigned"
  | CustomerMetricsUpdatedEvent _ _ _ => "customer.metrics_updated"
  end.
Definition aggregate_id (e : CustomerEvent) : string :=
  match e with
  | CustomerCreatedEvent _ c _ _ | CustomerUpdatedEvent _ c _ _ | CustomerDeletedEvent _ c
  | CustomerRestoredEvent _ c | CustomerSegmentAssignedEvent _ c _
  | CustomerMetricsUpdatedEvent _ c _ => c
  end.

Definition publish (e : CustomerEvent) : M CustW unit :=
  let data := [("customerId", JStr (aggregate_id e))] in
  try_catch
    (when (String.eqb (event_name e) "customer.created"
           || String.eqb (event_name e) "customer.updated")
       (addJob CUSTOMER "customer-segmentation-job" data (λ o, o) ;;
        addJob CUSTOMER "customer-metrics-job" data (λ o, o)))
    (λ _, mret tt).
Definition publishAll (l : list CustomerEvent) : M CustW unit := for_each l publish.

(** [evaluateWorkflowTriggers] *)
Definition evaluateWorkflowTriggers (tenant trigger : string) (context : list (string * json))
    : M CustW unit :=
  try_catch (evaluateEventTriggers tenant trigger context) (λ _, mret tt).
Definition trigger_context (c : Customer) : list (string * json) :=
  [("id", JStr (id c)); ("customerId", JStr (id c)); ("email", JStr (email c));
   ("status", JStr (enum_str (status c)))].

(** [findById], with its exception *)
Definition load (customer tenant : string) : M CustW Customer :=
  found ← findById customer tenant;
  match found with
  | Some c => mret c
  | None => throw (not_found "Customer" customer)
  end.

(** [save(c); publishAll(c.domainEvents); c.clearEvents()] *)
Definition save_and_publish (c : Customer) (tenant : string) : M CustW Customer :=
  _ ← save c tenant;
  publishAll (domainEvents c) ;;
  mret (clearEvents c).

(** [new CustomerProfile(randomUUID(), {...})] *)
Definition new_profile (tenant customer : string) (displayName : option string)
    (d : CreateCustomerProfileDto) : M CustW Profiles.CustomerProfile :=
  id ← randomUUID;
  created ← new_Date;
  updated ← new_Date;
  mret {| Profiles.id := id; Profiles.tenantId := tenant; Profiles.customerId := customer;
          Profiles.firstName := f_firstName d; Profiles.lastName := f_lastName d;
          Profiles.displayName := displayName; Profiles.avatarUrl := f_avatarUrl d;
          Profiles.company := f_company d; Profiles.jobTitle := f_jobTitle d;
          Profiles.country := f_country d; Profiles.city := f_city d;
          Profiles.state := f_state d; Profiles.postalCode := f_postalCode d;
          Profiles.tags := default [] (f_tags d);
          Profiles.customAttributes := default ∅ (f_customAttributes d);
          Profiles.createdAt := created; Profiles.updatedAt := updated |}.

Definition zero_metrics (tenant customer : string) : M CustW Metrics.CustomerMetrics :=
  id ← randomUUID;
  created ← new_Date;
  updated ← new_Date;
  mret (Metrics.zero tenant customer id created updated).
End shared.

(** ** [CustomerService] *)
Module CustomerService.
Section service.
Context {HE : Env} {HS : SqlScan} {HJ : JsonDouble} {HD : CustDeps}.

(** From [Customer.create] on, [create] and [findOrCreateByExternalId] do the same. *)
Definition enroll (tenant : string) (user : option string) (details : Customer → string)
    (c : Customer) : M CustW Customer :=
  m ← zero_metrics tenant (id c);
  now ← new_Date;
  c ← save_and_publish (setMetrics now m c) tenant;
  audit_log tenant user "CUSTOMER_CREATE" (details c) ;;
  evaluateWorkflowTriggers tenant "CUSTOMER_CREATED"
    (trigger_context c ++ [("source", JStr (source c))]) ;;
  mret c.

(** [`${a || ''} ${b || ''}`.trim()] *)
Definition full_name (first last : option string) : string :=
  js_trim (js_or first "" +:+ " " +:+ js_or last "").

(** [a ? create(a) : undefined] *)
Definition optional_phone (phone : option string) : result (option string) :=
  match js_or_undef phone with
  | Some p => p ← CustomerPhone_create p; Ok (Some p)
  | None => Ok None
  end.

Definition create (tenant : string) (dto : CreateCustomerDto) (user : option string)
    : M CustW Customer :=
  existing ← findByEmail (c_email dto) tenant;
  match existing with
  | Some _ => throw (Exn (HttpException 409)
                ("Customer with email " +:+ c_email dto +:+ " already exists"))
  | None => mret tt
  end ;;
  customer ← randomUUID;
  profile ← match c_profile dto with
            | Some p =>
                p ← new_profile tenant customer
                      (Some (js_or (f_displayName p)
                               (js_or (Some (full_name (f_firstName p) (f_lastName p)))
                                  (c_email dto)))) p;
                mret (Some p)
            | None => mret None
            end;
  email ← of_result (CustomerEmail_create (c_email dto));
  phone ← of_result (optional_phone (c_phone dto));
  language ← of_result (CustomerLanguage_create (js_or (c_preferredLanguage dto) "en"));
  timezone ← of_result (CustomerTimezone_create (js_or (c_timezone dto) "UTC"));
  createdAt ← new_Date;
  updatedAt ← new_Date;
  enroll tenant user (λ c, "Created customer " +:+ id c +:+ " (" +:+ Customer.email c +:+ ")")
    (created
      {| id := customer; tenantId := tenant; externalCustomerId := c_externalCustomerId dto;
         Customer.email := email; Customer.phone := phone; status := ACTIVE;
         preferredLanguage := language; Customer.timezone := timezone; lastSeenAt := None;
         source := js_or (c_source dto) "API"; metadata := Some (default ∅ (c_metadata dto));
         Customer.createdAt := createdAt; Customer.updatedAt := updatedAt;
         deletedAt := None; version := 1; Customer.profile := profile; metrics := None;
         domainEvents := [] |}).

(** The keys of [updateProps]: those of the request that are not [undefined]. *)
Definition given {A} (o : option A) : patch A := match o with Some a => Put a | None => Absent end.
Definition optional_value {A} (o : option string) (make : string → result A)
    : result (option A) :=
  match o with Some s => a ← make s; Ok (Some a) | None => Ok None end.
Definition update_props (dto : UpdateCustomerDto) : result CustomerPatch :=
  email ← optional_value (d_email dto) CustomerEmail_create;
  phone ← match d_phone dto with
          | Some _ => p ← optional_phone (d_phone dto); Ok (present p)
          | None => Ok Absent
          end;
  status ← optional_value (d_status dto) CustomerStatus_create;
  language ← optional_value (d_preferredLanguage dto) CustomerLanguage_create;
  timezone ← optional_value (d_timezone dto) CustomerTimezone_create;
  Ok {| u_externalCustomerId := given (d_externalCustomerId dto); u_email := email;
        u_phone := phone; u_status := status; u_preferredLanguage := language;
        u_timezone := timezone; u_source := d_source dto;
        u_metadata := given (d_metadata dto) |}.

(** The profile of the request: an update of the one there is, or a new one. *)
Definition update_profile (tenant : string) (dto : option CreateCustomerProfileDto)
    (c : Customer) : M CustW Customer :=
  match dto, profile c with
  | None, _ => mret c
  | Some d, Some p =>
      now ← new_Date;
      mret (c <| profile := Some (Profiles.update now (dto_patch d) p) |>)
  | Some d, None =>
      p ← new_profile tenant (id c) (f_displayName d) d;
      now ← new_Date;
      mret (setProfile now p c)
  end.

Definition update (tenant customer : string) (dto : UpdateCustomerDto) (user : option string)
    : M CustW Customer :=
  c ← load customer tenant;
  props ← of_result (update_props dto);
  now ← new_Date;
  c ← update_profile tenant (d_profile dto) (Customer.update now props c);
  c ← save_and_publish c tenant;
  audit_log tenant user "CUSTOMER_UPDATE" ("Updated customer " +:+ id c) ;;
  evaluateWorkflowTriggers tenant "CUSTOMER_UPDATED" (trigger_context c) ;;
  mret c.

Definition delete (tenant customer : string) (user : option string) : M CustW bool :=
  c ← load customer tenant;
  now ← new_Date;
  _ ← save_and_publish (delete_customer now c) tenant;
  audit_log tenant user "CUSTOMER_DELETE" ("Soft deleted customer " +:+ customer) ;;
  mret true.

Definition restore (tenant customer : string) (user : option string) : M CustW bool :=
  c ← load customer tenant;
  now ← new_Date;
  _ ← save_and_publish (Customer.restore now c) tenant;
  audit_log tenant user "CUSTOMER_RESTORE" ("Restored customer " +:+ customer) ;;
  mret true.

Definition findById (tenant customer : string) : M CustW Customer := load customer tenant.
Definition findByEmail (tenant address : string) : M CustW (option Customer) :=
  CustomerRepo.findByEmail address tenant.

(** [externalId.replace(/[^a-zA-Z0-9._-]/g, '_')] *)
Definition local_char (c : ascii) : ascii :=
  let n := Ascii.N_of_ascii c in
  if ((48 <=? n) && (n <=? 57) || (65 <=? n) && (n <=? 90) || (97 <=? n) && (n <=? 122))%N
     || Ascii.eqb c "." || Ascii.eqb c "_" || Ascii.eqb c "-"
  then c else "_"%char.
Definition syntheticEmail (channel external : string) : string :=
  map_ascii local_char external +:+ "." +:+ channel +:+ "@channel.invalid".

Definition findOrCreateByExternalId (tenant channel external channelType : string)
    : M CustW Customer :=
  existing ← findByExternalId external tenant;
  match existing with
  | Some c => mret c
  | None =>
      customer ← randomUUID;
      email ← of_result (CustomerEmail_create (syntheticEmail channel external));
      createdAt ← new_Date;
      updatedAt ← new_Date;
      enroll tenant None
        (λ c, "Created customer " +:+ id c +:+ " from " +:+ channelType +:+ " channel identity")
        (created
          {| id := customer; tenantId := tenant; externalCustomerId := Some external;
             Customer.email := email; phone := None; status := ACTIVE;
             preferredLanguage := "en"; timezone := "UTC"; lastSeenAt := None;
             source := channelType;
             metadata := Some (<["syntheticEmail" := JBool true]>
                                 {["channelId" := JStr channel]});
             Customer.createdAt := createdAt; Customer.updatedAt := updatedAt;
             deletedAt := None; version := 1; profile := None; metrics := None;
             domainEvents := [] |})
  end.

(** *** [merge]: metrics that were read have all their fields *)
Definition half (a b : double) : double := ddiv (dadd a b) (double_of_Z 2).
Definition both {A} (zero : A) (op : A → A → A) (a b : option A) : option A :=
  Some (op (default zero a) (default zero b)).

Definition merged_metrics (tenant customer : string) (t s : Metrics.CustomerMetrics)
    (created updated : Z) : Metrics.CustomerMetrics :=
  {| Metrics.id := Metrics.id t; Metrics.tenantId := tenant; Metrics.customerId := customer;
     Metrics.totalConversations :=
       both 0 Z.add (Metrics.totalConversations t) (Metrics.totalConversations s);
     Metrics.totalTickets := both 0 Z.add (Metrics.totalTickets t) (Metrics.totalTickets s);
     Metrics.totalOrders := both 0 Z.add (Metrics.totalOrders t) (Metrics.totalOrders s);
     Metrics.totalSpend := both dzero dadd (Metrics.totalSpend t) (Metrics.totalSpend s);
     Metrics.averageCsat := both dzero half (Metrics.averageCsat t) (Metrics.averageCsat s);
     Metrics.averageResponseTime :=
       both 0 round_half (Metrics.averageResponseTime t) (Metrics.averageResponseTime s);
     Metrics.averageResolutionTime :=
       both 0 round_half (Metrics.averageResolutionTime t) (Metrics.averageResolutionTime s);
     Metrics.sentimentScore :=
       both dzero half (Metrics.sentimentScore t) (Metrics.sentimentScore s);
     Metrics.lifetimeValue :=
       both dzero dadd (Metrics.lifetimeValue t) (Metrics.lifetimeValue s);
     Metrics.riskScore := both dzero dmax (Metrics.riskScore t) (Metrics.riskScore s);
     Metrics.vipStatus := both false orb (Metrics.vipStatus t) (Metrics.vipStatus s);
     Metrics.createdAt := created; Metrics.updatedAt := updated |}.

Definition merge_metrics (tenant : string) (source target : Customer) : M CustW Customer :=
  match metrics source, metrics target with
  | Some s, Some t =>
      created ← new_Date;
      updated ← new_Date;
      now ← new_Date;
      mret (updateMetrics now (merged_metrics tenant (id target) t s created updated) target)
  | _, _ => mret target
  end.

Definition merge (tenant sourceId targetId : string) (user : option string)
    : M CustW Customer :=
  source ← CustomerRepo.findById sourceId tenant;
  target ← CustomerRepo.findById targetId tenant;
  match source, target with
  | Some source, Some target =>
      target ← merge_metrics tenant source target;
      deleted ← new_Date;
      updated ← new_Date;
      let source := Customer.update updated (empty_patch_status MERGED)
                      (delete_customer deleted source) in
      _ ← save target tenant;
      _ ← save source tenant;
      publishAll (domainEvents target) ;;
      publishAll (domainEvents source) ;;
      audit_log tenant user "CUSTOMER_MERGE"
        ("Merged customer " +:+ sourceId +:+ " into " +:+ targetId) ;;
      mret (clearEvents target)
  | _, _ => throw (Exn NotFoundException "Source or Target customer not found")
  end.

(** *** [export] *)
Definition quote : ascii := Ascii.ascii_of_nat 34.
Definition newline : string := String (Ascii.ascii_of_nat 10) "".
(** [val.replace(/Q/g, 'QQ')] for a double quote [Q] *)
Fixpoint double_quotes (s : string) : string :=
  match s with
  | EmptyString => ""
  | String c s' => if Ascii.eqb c quote then String quote (String quote (double_quotes s'))
                   else String c (double_quotes s')
  end.
Definition csv_value (s : string) : string :=
  String quote (double_quotes s +:+ String quote "").

Definition headers : list string :=
  ["id"; "email"; "phone"; "status"; "preferredLanguage"; "timezone"; "source"; "createdAt"].
Definition csv_values (c : Customer) : list string :=
  [id c; email c; js_or (phone c) ""; enum_str (status c); preferredLanguage c; timezone c;
   source c; toISOString (createdAt c)].
Definition csv (l : list Customer) : string :=
  js_join newline (js_join "," headers :: ((λ c, js_join "," (csv_value <$> csv_values c)) <$> l)).

Definition export (tenant format : string) : M CustW string :=
  l ← findAll tenant;
  mret (if String.eqb format "JSON" then JSON_stringify (JArr (toJSON <$> l)) else csv l).

(** *** [import] *)
Definition import_dto (r : ImportRecord) (email : string) : CreateCustomerDto :=
  {| c_email := email; c_phone := i_phone r; c_externalCustomerId := i_externalCustomerId r;
     c_preferredLanguage := i_preferredLanguage r; c_timezone := i_timezone r;
     c_source := Some (js_or (i_source r) "IMPORT"); c_metadata := i_metadata r;
     c_profile := Some (match i_profile r with
       | Some p => p
       | None =>
           {| f_firstName := i_firstName r; f_lastName := i_lastName r;
              f_displayName := match js_or_undef (i_displayName r) with
                               | Some n => Some n
                               | None => js_or_undef (Some (full_name (i_firstName r) (i_lastName r)))
                               end;
              f_avatarUrl := None; f_company := None; f_jobTitle := None; f_country := None;
              f_city := None; f_state := None; f_postalCode := None; f_tags := None;
              f_customAttributes := None |}
       end) |}.

Definition import_record (tenant : string) (user : option string) (acc : Z * list string)
    (r : ImportRecord) : M CustW (Z * list string) :=
  let '(importedCount, errors) := acc in
  match js_or_undef (i_email r) with
  | None => mret (importedCount, errors ++ ["Record missing email field"])
  | Some email =>
      try_catch
        (_ ← create tenant (import_dto r email) user;
         mret (importedCount + 1, errors))
        (λ err, mret (importedCount,
           errors ++ ["Failed to import record " +:+ email +:+ ": " +:+ exn_message err]))
  end.

Definition import (tenant : string) (records : list ImportRecord) (user : option string)
    : M CustW (Z * list string) :=
  fold_each records (0, []) (import_record tenant user).
End service.
End CustomerService.

(** ** [CustomerProfileService] *)
Module CustomerProfileService.
Section service.
Context {HE : Env} {HS : SqlScan}.

Definition updateProfile (tenant customer : string) (data : CreateCustomerProfileDto)
    : M CustW Profiles.CustomerProfile :=
  c ← load customer tenant;
  p ← match profile c with
      | Some p => now ← new_Date; mret (Profiles.update now (dto_patch data) p)
      | None => new_profile tenant customer (f_displayName data) data
      end;
  c ← match profile c with
      | Some _ => mret (c <| profile := Some p |>)
      | None => now ← new_Date; mret (setProfile now p c)
      end;
  _ ← save c tenant;
  mret p.
End service.
End CustomerProfileService.

(** ** [CustomerMetricsService] *)
Module CustomerMetricsService.
Section service.
Context {HE : Env} {HS : SqlScan} {HJ : JsonDouble}.

(** [dto.x ?? 0] *)
Definition or_default {A} (p : patch A) (zero : A) : option A := Some (nullish (spread p None) zero).
Definition dto_metrics (tenant customer : string) (d : Metrics.CustomerMetricsDto)
    (id : string) (created updated : Z) : Metrics.CustomerMetrics :=
  {| Metrics.id := id; Metrics.tenantId := tenant; Metrics.customerId := customer;
     Metrics.totalConversations := or_default (Metrics.d_totalConversations d) 0;
     Metrics.totalTickets := or_default (Metrics.d_totalTickets d) 0;
     Metrics.totalOrders := or_default (Metrics.d_totalOrders d) 0;
     Metrics.totalSpend := or_default (Metrics.d_totalSpend d) dzero;
     Metrics.averageCsat := or_default (Metrics.d_averageCsat d) dzero;
     Metrics.averageResponseTime := or_default (Metrics.d_averageResponseTime d) 0;
     Metrics.averageResolutionTime := or_default (Metrics.d_averageResolutionTime d) 0;
     Metrics.sentimentScore := or_default (Metrics.d_sentimentScore d) dzero;
     Metrics.lifetimeValue :=
       or_default (Metrics.d_lifetimeValue d) (nullish (spread (Metrics.d_totalSpend d) None) dzero);
     Metrics.riskScore := or_default (Metrics.d_riskScore d) dzero;
     Metrics.vipStatus := or_default (Metrics.d_vipStatus d) false;
     Metrics.createdAt := created; Metrics.updatedAt := updated |}.

Definition updateMetrics (tenant customer : string) (dto : Metrics.CustomerMetricsDto)
    : M CustW Metrics.CustomerMetrics :=
  c ← load customer tenant;
  m ← match metrics c with
      | Some m => now ← new_Date; mret (Metrics.update now dto m)
      | None =>
          id ← randomUUID;
          created ← new_Date;
          updated ← new_Date;
          _ ← new_Date;
          mret (dto_metrics tenant customer dto id created updated)
      end;
  now ← new_Date;
  _ ← save (Customer.updateMetrics now m c) tenant;
  mret m.

(** [Math.min(1, Math.max(-1, x + 0.1))] *)
Definition next_sentiment (x : double) : double :=
  dmin (double_of_Z 1) (dmax (double_of_Z (-1)) (dadd x tenth)).
Definition hundred : double := double_of_Z 100.

Definition recalculatedDto (m : option Metrics.CustomerMetrics) : Metrics.CustomerMetricsDto :=
  let value {A} `{Truthy A} (f : Metrics.CustomerMetrics → option A) (zero : A) :=
    js_or (m ≫= f) zero in
  {| Metrics.d_totalConversations := Put (value Metrics.totalConversations 0 + 1);
     Metrics.d_totalTickets := Absent; Metrics.d_totalOrders := Absent;
     Metrics.d_totalSpend := Put (dadd (value Metrics.totalSpend dzero) hundred);
     Metrics.d_averageCsat := Absent; Metrics.d_averageResponseTime := Absent;
     Metrics.d_averageResolutionTime := Absent;
     Metrics.d_sentimentScore := Put (next_sentiment (value Metrics.sentimentScore dzero));
     Metrics.d_lifetimeValue := Put (dadd (value Metrics.lifetimeValue dzero) hundred);
     Metrics.d_riskScore := Absent;
     Metrics.d_vipStatus :=
       Put (dlt (double_of_Z 1000) (dadd (value Metrics.lifetimeValue dzero) hundred)) |}.

Definition recalculateMetrics (tenant customer : string) : M CustW Metrics.CustomerMetrics :=
  c ← load customer tenant;
  updateMetrics tenant customer (recalculatedDto (metrics c)).
End service.
End CustomerMetricsService.

(** ** [CustomerSegmentService] *)
Module CustomerSegmentService.
(** [a <= b] of a double and a JSON value *)
Definition double_of_number (n : number) : double :=
  match n with
  | NaN => S754_nan
  | Infinite s => S754_infinity s
  | Finite q =>
      match Qnum q with
      | Z0 => dzero
      | Zpos p => SFdiv 53 1024 (S754_finite false p 0) (S754_finite false (Qden q) 0)
      | Zneg p => SFdiv 53 1024 (S754_finite true p 0) (S754_finite false (Qden q) 0)
      end
  end.
Definition threshold (v : json) : double := double_of_number (js_Number (Some v)).

(** [rules.spend?.gt] *)
Definition rule (group key : string) (rules : json) : option json :=
  g ← get_property rules group;
  get_property g key.

(** A rule that is there and true, for a customer with metrics, must hold. *)
Definition holds (limit : option json) (m : option Metrics.CustomerMetrics)
    (violated : Metrics.CustomerMetrics → double → bool) : bool :=
  match limit, m with
  | Some v, Some m => negb (truthy v && violated m (threshold v))
  | _, _ => true
  end.
Definition matches (rules : json) (m : option Metrics.CustomerMetrics) : bool :=
  holds (rule "spend" "gt" rules) m
    (λ m t, dle (default dzero (Metrics.totalSpend m)) t)
  && holds (rule "csat" "lt" rules) m
    (λ m t, dle t (default dzero (Metrics.averageCsat m))).

Section service.
Context {HE : Env} {HS : SqlScan}.

Definition createSegment (tenant : string) (dto : Segments.CustomerSegmentDto)
    : M CustW Segments.CustomerSegment :=
  id ← randomUUID;
  created ← new_Date;
  updated ← new_Date;
  saveSegment
    {| Segments.id := id; Segments.tenantId := tenant;
       Segments.segmentName := Segments.d_segmentName dto;
       Segments.segmentType := Segments.d_segmentType dto;
       Segments.rules := Segments.d_rules dto; Segments.description := Segments.d_description dto;
       Segments.isActive := Some (nullish (Segments.d_isActive dto) true);
       Segments.createdAt := created; Segments.updatedAt := updated |} tenant.

Definition load_segment (segment tenant : string) : M CustW Segments.CustomerSegment :=
  found ← findSegmentById segment tenant;
  match found with
  | Some s => mret s
  | None => throw (not_found "Segment" segment)
  end.

Definition updateSegment (tenant segment : string) (dto : Segments.CustomerSegmentDto)
    : M CustW Segments.CustomerSegment :=
  s ← load_segment segment tenant;
  now ← new_Date;
  saveSegment (Segments.update now dto s) tenant.

Definition deleteSegment (tenant segment : string) : M CustW bool :=
  deleteSegment_row segment tenant.

Definition assignCustomerToSegment (tenant customer segment : string) : M CustW unit :=
  c ← load customer tenant;
  s ← load_segment segment tenant;
  assignSegment customer segment tenant ;;
  _ ← save (Customer.assignSegment segment c) tenant;
  mret tt.

Definition removeCustomerFromSegment (tenant customer segment : string) : M CustW unit :=
  removeSegment customer segment tenant.
Definition findSegmentsForCustomer (tenant customer : string) : M CustW (list string) :=
  findSegments customer tenant.
Definition findSegmentMembers (tenant segment : string) : M CustW (list Customer) :=
  CustomerRepo.findSegmentMembers segment tenant.
Definition findAllSegments (tenant : string) : M CustW (list Segments.CustomerSegment) :=
  CustomerRepo.findAllSegments tenant.

Definition segment_customer (tenant : string) (s : Segments.CustomerSegment) (rules : json)
    (c : Customer) : M CustW unit :=
  if matches rules (metrics c)
  then assignSegment (id c) (Segments.id s) tenant
  else removeSegment (id c) (Segments.id s) tenant.

Definition runDynamicSegmentation (tenant segment : string) : M CustW unit :=
  found ← findSegmentById segment tenant;
  match found with
  | Some s =>
      if String.eqb (Segments.segmentType s) "DYNAMIC" then
        l ← findAll tenant;
        for_each l (segment_customer tenant s (js_or (Segments.rules s) (JObj [])))
      else mret tt
  | None => mret tt
  end.
End service.
End CustomerSegmentService.

(** ** [CustomerQueueProcessor] *)
Module CustomerQueueProcessor.
Section worker.
Context {HE : Env} {HS : SqlScan} {HJ : JsonDouble} {HD : CustDeps}.

(** As a filter, a missing tenant matches no row. *)
Definition tenant_of_job (job : Job) : string := default "undefined" (job_tenant job).
Definition customer_of_job (job : Job) : string :=
  default "undefined" (str_field "customerId" (job_data job)).

Definition run_segmentation (tenant : string) : M CustW unit :=
  l ← CustomerSegmentService.findAllSegments tenant;
  for_each l (λ s, when (String.eqb (Segments.segmentType s) "DYNAMIC")
                     (CustomerSegmentService.runDynamicSegmentation tenant (Segments.id s))).

Definition handleJob (job : Job) : M CustW json :=
  let tenant := tenant_of_job job in
  let name := job_name job in
  if String.eqb name "customer-import-job" then
    records ← of_result (import_records (field "records" (job_data job)));
    r ← CustomerService.import tenant records (str_field "userId" (job_data job));
    mret (JObj [("importedCount", JNum r.1); ("errors", JArr (JStr <$> r.2))])
  else if String.eqb name "customer-export-job" then
    csv ← CustomerService.export tenant (js_or (str_field "format" (job_data job)) "CSV");
    mret (JObj [("length", JNum (js_length csv))])
  else if String.eqb name "customer-metrics-job" then
    m ← CustomerMetricsService.recalculateMetrics tenant (customer_of_job job);
    mret (Metrics.toJSON m)
  else if String.eqb name "customer-segmentation-job" then
    run_segmentation tenant ;;
    mret (JObj [("status", JStr "success")])
  else throw (Exn JsError ("Unknown job name: " +:+ name)).
End worker.
End CustomerQueueProcessor.
