(* ===== verification/CustomerIsolation.v ===== *)
(** * Customers: what a call may touch

    Every operation of the services and of the worker, called for a tenant, keeps
    the tables well formed and the rows of the other tenants as they are.  [safe T P
    m Q] states it for a step: from a well-formed database where [P] holds, [m]
    leaves a well-formed one with the same foreign rows, and [Q] of what it returns. *)

From S2P Require Import Prelude Platform JsValue Double Sql Customer CustomerRepo CustomerService.
Open Scope Z_scope.

(** ** Well-formed tables *)

(** There is a customer of this id in the tenant. *)
Definition known (customer T : string) (d : CustDb) : Prop :=
  ∃ r, r ∈ customers d ∧ cr_id r = customer ∧ cr_tenantId r = T.
Definition known_segment (segment T : string) (d : CustDb) : Prop :=
  ∃ r, r ∈ customerSegments d ∧ sr_id r = segment ∧ sr_tenantId r = T.

Record wf (d : CustDb) : Prop := {
  wf_customers : distinct (customers d);
  wf_profiles : distinct (customerProfiles d);
  wf_metrics : distinct (customerMetrics d);
  wf_segments : distinct (customerSegments d);
  wf_members : distinct (customerSegmentMembers d);
  wf_one_profile : NoDup (pr_customerId <$> customerProfiles d);
  wf_profile_customer p : p ∈ customerProfiles d → known (pr_customerId p) (pr_tenantId p) d;
  wf_metrics_customer m : m ∈ customerMetrics d → known (mr_customerId m) (mr_tenantId m) d;
  wf_member_segment m :
    m ∈ customerSegmentMembers d → known_segment (me_segmentId m) (me_tenantId m) d;
}.

(** What the tables hold of the other tenants. *)
Definition others (T : string) (d : CustDb) :=
  (foreign T (customers d), foreign T (customerProfiles d), foreign T (customerMetrics d),
   foreign T (customerSegments d), foreign T (customerSegmentMembers d)).

(** ** Safe steps *)
Section safe.
Context (T : string).
Implicit Types (P : CustDb → Prop).

Definition safe {A} P (m : M CustW A) (Q : A → CustDb → Prop) : Prop :=
  ∀ w, wf (db w) → P (db w) →
    wf (db (final m w)) ∧ others T (db (final m w)) = others T (db w)
    ∧ ∀ a, outcome m w = Ok a → Q a (db (final m w)).

Lemma safe_ret {A} P (a : A) (Q : A → CustDb → Prop) : (∀ d, P d → Q a d) → safe P (mret a) Q.
Proof. intros HQ w Hwf HP. split_and!; [done..|]. intros ? [= <-]. by apply HQ. Qed.

Lemma safe_throw {A} P e (Q : A → CustDb → Prop) : safe P (throw e) Q.
Proof. intros w Hwf HP. by split_and!. Qed.

Lemma safe_bind {A B} P (m : M CustW A) R (k : A → M CustW B) Q :
  safe P m R → (∀ a, safe (R a) (k a) Q) → safe P (m ≫= k) Q.
Proof.
  intros Hm Hk w Hwf HP. destruct (Hm w Hwf HP) as (Hwf' & Ho & HR).
  unfold final, outcome, mbind, M_bind in *. destruct (m w) as [[a|e] w']; cbn in *; [|done].
  destruct (Hk a w' Hwf' (HR a eq_refl)) as (H2 & H3 & H4).
  unfold final, outcome in *. split_and!; [done| |done]. congruence.
Qed.

Lemma safe_weaken {A} P P' (m : M CustW A) (Q Q' : A → CustDb → Prop) :
  safe P' m Q' → (∀ d, P d → P' d) → (∀ a d, Q' a d → Q a d) → safe P m Q.
Proof.
  intros Hm HP HQ w Hwf Hw. destruct (Hm w Hwf (HP _ Hw)) as (? & ? & H).
  split_and!; [done..|]. intros a Ha. by apply HQ, H.
Qed.

(** A step that does not write the tables keeps every fact about them. *)
Lemma safe_keep {A} P (m : M CustW A) (R : A → Prop) :
  keeps (same db) m → returns m R → safe P m (λ a d, R a ∧ P d).
Proof.
  intros Hm HR w Hwf HP. rewrite (Hm w). split_and!; [done..|]. intros a E. split; [|done].
  unfold outcome in E. destruct (m w) as [r w'] eqn:Em. cbn in E. subst r. by eapply HR.
Qed.
Lemma safe_same {A} P (m : M CustW A) : keeps (same db) m → safe P m (λ _, P).
Proof.
  intros Hm. eapply safe_weaken; [apply (safe_keep P m (λ _, True))|..]; try done.
  by intros ?? [_ ?].
Qed.

Lemma safe_gets {A} P (f : CustW → A) (g : CustDb → A) :
  (∀ w, f w = g (db w)) → safe P (gets f) (λ a d, a = g d ∧ P d).
Proof. intros E w Hwf HP. split_and!; [done..|]. intros a [= <-]. by rewrite <- E. Qed.

Lemma safe_of_result {A} P (r : result A) : safe P (of_result r) (λ a d, r = Ok a ∧ P d).
Proof. intros w Hwf HP. split_and!; [done..|]. intros a E. by split. Qed.

Lemma safe_pure {A} (φ : Prop) P (m : M CustW A) Q :
  (φ → safe P m Q) → safe (λ d, φ ∧ P d) m Q.
Proof. intros Hm w Hwf [Hφ HP]. by apply Hm. Qed.

Lemma safe_try {A} P (m : M CustW A) h Q :
  safe P m Q → (∀ e, safe (λ _, True) (h e) Q) → safe P (try_catch m h) Q.
Proof.
  intros Hm Hh w Hwf HP. destruct (Hm w Hwf HP) as (Hwf' & Ho & HQ).
  unfold final, outcome, try_catch in *. destruct (m w) as [[a|e] w']; cbn in *; [done|].
  destruct (Hh e w' Hwf' I) as (H2 & H3 & H4). unfold final, outcome in *.
  split_and!; [done| |done]. congruence.
Qed.

Lemma safe_for_each {A} P (l : list A) f :
  (∀ x, x ∈ l → safe P (f x) (λ _, P)) → safe P (for_each l f) (λ _, P).
Proof.
  induction l as [|x l IH]; intros Hf; cbn [for_each]; [by apply safe_ret|].
  eapply safe_bind; [apply Hf; constructor|]. intros []. apply IH. intros y Hy. apply Hf.
  by constructor.
Qed.

Lemma safe_fold_each {A B} (l : list A) (acc : B) f :
  (∀ acc x, safe (λ _, True) (f acc x) (λ _ _, True)) →
  safe (λ _, True) (fold_each l acc f) (λ _ _, True).
Proof.
  intros Hf. revert acc. induction l as [|x l IH]; intros acc; cbn [fold_each];
    [by apply safe_ret|]. eapply safe_bind; [apply Hf|]. intros acc'. apply IH.
Qed.

(** A throw inside a transaction leaves the tables as they were. *)
Lemma safe_transaction {A} P (m : M CustW A) Q : safe P m Q → safe P (transaction m) Q.
Proof.
  intros Hm w Hwf HP. destruct (Hm w Hwf HP) as (Hwf' & Ho & HQ).
  unfold final, outcome, transaction in *. by destruct (m w) as [[a|e] w'].
Qed.

Lemma safe_when P b (m : M CustW unit) : safe P m (λ _, P) → safe P (when b m) (λ _, P).
Proof. intros Hm. destruct b; [done|]. by apply safe_ret. Qed.

(** A statement that writes a table is safe if each of its results is. *)
Lemma safe_write {R} {HT : Table CustDb R} P (f : list R → result (list R)) (Q : CustDb → Prop) :
  (∀ d l', wf d → P d → f (rows d) = Ok l' →
     wf (with_rows l' d) ∧ others T (with_rows l' d) = others T d ∧ Q (with_rows l' d)) →
  safe P (write f) (λ _, Q).
Proof.
  intros Hf w Hwf HP. unfold write, final, outcome, mbind, M_bind, gets, of_result, modify.
  destruct (f (rows (db w))) as [l'|e] eqn:E; cbn; [|done].
  destruct (Hf (db w) l' Hwf HP E) as (H2 & H3 & H4). by split_and!.
Qed.
End safe.

(** ** The repository *)
Section repository.
Context {HE : Env} {HS : SqlScan} (T : string).
Implicit Types (P : CustDb → Prop) (c : Customer).

Definition own_profile c : Prop :=
  match profile c with
  | Some p => Profiles.tenantId p = T ∧ Profiles.customerId p = id c
  | None => True
  end.
Definition own_metrics c : Prop :=
  match metrics c with
  | Some m => Metrics.tenantId m = T ∧ Metrics.customerId m = id c
  | None => True
  end.
(** An aggregate of the tenant, with its parts. *)
Definition own c : Prop := tenantId c = T ∧ own_profile c ∧ own_metrics c.

Lemma known_update customer U d (q : CustomerRow → bool) f :
  (∀ r, q r = true → cr_id (f r) = cr_id r ∧ cr_tenantId (f r) = cr_tenantId r) →
  known customer U d ↔
  known customer U (d <| customers := (λ r, if q r then f r else r) <$> customers d |>).
Proof.
  intros Hf. unfold known. cbn. split.
  - intros (r & Hr & <- & <-). exists (if q r then f r else r).
    split; [apply list_elem_of_fmap; by exists r|].
    destruct (q r) eqn:E; [|done]. by apply Hf.
  - intros (r' & (r & -> & Hr)%list_elem_of_fmap & <- & <-). exists r.
    split; [done|]. destruct (q r) eqn:E; [|done]. destruct (Hf r E). done.
Qed.

Lemma known_insert customer U d r :
  known customer U d → known customer U (d <| customers := customers d ++ [r] |>).
Proof.
  intros (x & Hx & E). exists x. split; [|done]. apply elem_of_app. by left.
Qed.

(** The parts of [wf] that a write of the customers can break. *)
Lemma wf_customers_write d l :
  wf d → distinct l → (∀ i U, known i U d → known i U (d <| customers := l |>)) →
  wf (d <| customers := l |>).
Proof. intros [] Hl Hk. split; cbn; auto. Qed.

Definition written c (d : CustDb) : Prop := known (id c) T d.

Lemma raw_customer_ok updated c r :
  raw_customer updated c = Ok r → cr_id r = id c ∧ cr_tenantId r = tenantId c.
Proof. unfold raw_customer, column. destruct (customer_fits c); [|done]. by intros [= <-]. Qed.

(** Writing one table leaves the foreign rows if it leaves those of the table. *)
#[local] Ltac others_eq :=
  intros E; unfold others; repeat apply (f_equal2 pair); first [exact E | reflexivity].
Lemma others_customers d l :
  foreign T l = foreign T (customers d) → others T (d <| customers := l |>) = others T d.
Proof. others_eq. Qed.
Lemma others_profiles d l :
  foreign T l = foreign T (customerProfiles d) →
  others T (d <| customerProfiles := l |>) = others T d.
Proof. others_eq. Qed.
Lemma others_metrics d l :
  foreign T l = foreign T (customerMetrics d) →
  others T (d <| customerMetrics := l |>) = others T d.
Proof. others_eq. Qed.
Lemma others_segments d l :
  foreign T l = foreign T (customerSegments d) →
  others T (d <| customerSegments := l |>) = others T d.
Proof. others_eq. Qed.
Lemma others_members d l :
  foreign T l = foreign T (customerSegmentMembers d) →
  others T (d <| customerSegmentMembers := l |>) = others T d.
Proof. others_eq. Qed.

Lemma update_customers_safe P i (q : CustomerRow → bool) f :
  (∀ r, q r = true → cr_tenantId r = T ∧ cr_id (f r) = cr_id r ∧ cr_tenantId (f r) = T) →
  (∀ d, P d → known i T d) → safe T P (write (sql_update q f)) (λ _, known i T).
Proof.
  intros Hf HP. apply safe_write. intros d l' Hwf Hd Hl. pose proof Hl as [-> Hd']%unique_inv.
  assert (∀ r, q r = true → cr_id (f r) = cr_id r ∧ cr_tenantId (f r) = cr_tenantId r) as Hf'
    by (intros r Hr; destruct (Hf r Hr) as (-> & -> & ->); done).
  split_and!.
  - apply wf_customers_write; [done..|]. intros j U Hk. by apply known_update.
  - apply others_customers. eapply (foreign_update T q f); [|exact Hl].
    intros r Hr. by destruct (Hf r Hr) as (? & _ & ?).
  - apply known_update; [done|]. by apply HP.
Qed.

Lemma save_customer_safe P c :
  tenantId c = T → safe T P (save_customer c T) (λ _, written c).
Proof.
  intros Ht. unfold save_customer.
  eapply safe_bind; [by eapply (safe_gets T P _ (λ d, sql_select _ (customers d)))|].
  intros [row|].
  - eapply safe_bind; [apply safe_same, new_Date_db|]. intros now.
    eapply safe_bind; [apply safe_of_result|]. intros raw. apply safe_pure.
    intros [Hi Ht']%raw_customer_ok. apply update_customers_safe.
    + intros r [E1 E2]%by_id_true. cbn in *. split_and!; congruence.
    + intros d [Hrow%eq_sym _]. apply select_some in Hrow as [Hin [E1 E2]%by_id_true].
      by exists row.
  - eapply safe_bind; [apply safe_of_result|]. intros raw. apply safe_pure.
    intros [Hi Ht']%raw_customer_ok. apply safe_write. intros d l' Hwf _ Hl.
    pose proof Hl as [-> Hd]%unique_inv. split_and!.
    + apply wf_customers_write; [done..|]. intros i U. apply known_insert.
    + apply others_customers. eapply (foreign_insert T); [|exact Hl]. cbn. congruence.
    + exists raw. split; [|split; congruence]. apply elem_of_app. right. by left.
Qed.

(** A profile in a well-formed database is of one tenant. *)
Lemma known_tenant d i U V : wf d → known i U d → known i V d → U = V.
Proof.
  intros Hwf (r & Hr & <- & <-) (x & Hx & E & <-).
  by rewrite (distinct_id (customers d) r x (wf_customers d Hwf) Hr Hx (eq_sym E)).
Qed.

Lemma wf_profiles_write d l :
  wf d → distinct l → NoDup (pr_customerId <$> l) →
  (∀ p, p ∈ l → known (pr_customerId p) (pr_tenantId p) d) →
  wf (d <| customerProfiles := l |>).
Proof. by intros [] Hl Hn Hk. Qed.
Lemma wf_metrics_write d l :
  wf d → distinct l → (∀ m, m ∈ l → known (mr_customerId m) (mr_tenantId m) d) →
  wf (d <| customerMetrics := l |>).
Proof. by intros [] Hl Hk. Qed.
Lemma wf_segments_write d l :
  wf d → distinct l → (∀ i U, known_segment i U d → known_segment i U (d <| customerSegments := l |>)) →
  wf (d <| customerSegments := l |>).
Proof. intros [] Hl Hk. split; cbn; auto. Qed.
Lemma wf_members_write d l :
  wf d → distinct l → (∀ m, m ∈ l → known_segment (me_segmentId m) (me_tenantId m) d) →
  wf (d <| customerSegmentMembers := l |>).
Proof. by intros [] Hl Hk. Qed.

Lemma of_customer_profile_true customer U r :
  of_customer_profile customer U r = true ↔ pr_customerId r = customer ∧ pr_tenantId r = U.
Proof. unfold of_customer_profile. by rewrite andb_true_iff, !String.eqb_eq. Qed.
Lemma of_customer_metrics_true customer U r :
  of_customer_metrics customer U r = true ↔ mr_customerId r = customer ∧ mr_tenantId r = U.
Proof. unfold of_customer_metrics. by rewrite andb_true_iff, !String.eqb_eq. Qed.

Lemma raw_profile_ok updated p r :
  raw_profile updated p = Ok r →
  pr_tenantId r = Profiles.tenantId p ∧ pr_customerId r = Profiles.customerId p.
Proof. unfold raw_profile, column. destruct (profile_fits p); [|done]. by intros [= <-]. Qed.

(** A customer without a row in the tenant has none at all. *)
Lemma no_profile d customer :
  wf d → known customer T d →
  sql_select (of_customer_profile customer T) (customerProfiles d) = None →
  customer ∉ pr_customerId <$> customerProfiles d.
Proof.
  intros Hwf Hk Hn (p & -> & Hp)%list_elem_of_fmap.
  pose proof (select_none _ _ _ Hn Hp) as E. apply not_true_iff_false in E. apply E.
  apply of_customer_profile_true. split; [done|].
  exact (known_tenant d _ _ _ Hwf (wf_profile_customer d Hwf p Hp) Hk).
Qed.

Lemma save_profile_safe customer p :
  Profiles.tenantId p = T → Profiles.customerId p = customer →
  safe T (known customer T) (save_profile customer T p) (λ _, known customer T).
Proof.
  intros Ht Hc. unfold save_profile.
  eapply safe_bind; [apply safe_same, new_Date_db|]. intros now.
  eapply safe_bind; [by eapply (safe_gets T _ _ (λ d, sql_select _ (customerProfiles d)))|].
  intros [row|]; (eapply safe_bind; [apply safe_of_result|]); intros raw; apply safe_pure;
    intros [Ht' Hc']%raw_profile_ok; apply safe_write; intros d l' Hwf [Hrow%eq_sym Hk] Hl;
    pose proof Hl as [-> Hd]%unique_inv.
  - split_and!; [| |exact Hk].
    + apply wf_profiles_write; [done..| |].
      * rewrite <- list_fmap_compose. erewrite list_fmap_ext; [exact (wf_one_profile d Hwf)|].
        intros _ r _. cbn. destruct (of_customer_profile _ _ r) eqn:E; [|done].
        apply of_customer_profile_true in E as [E _]. cbn. congruence.
      * intros x (r & -> & Hr)%list_elem_of_fmap.
        destruct (of_customer_profile _ _ r) eqn:E; [|by apply wf_profile_customer].
        cbn. by rewrite Hc', Ht', Ht, Hc.
    + apply others_profiles. eapply (foreign_update T); [|exact Hl].
      intros r [_ E]%of_customer_profile_true. cbn in *. split; congruence.
  - split_and!; [| |exact Hk].
    + apply wf_profiles_write; [done..| |].
      * apply nodup_fmap_snoc; [exact (wf_one_profile d Hwf)|]. rewrite Hc', Hc.
        by apply no_profile.
      * intros x [Hx|Hx]%elem_of_app; [by apply wf_profile_customer|].
        apply list_elem_of_singleton in Hx as ->. by rewrite Hc', Ht', Ht, Hc.
    + apply others_profiles. eapply (foreign_insert T); [|exact Hl]. cbn. congruence.
Qed.

Lemma save_metrics_safe customer m :
  Metrics.tenantId m = T → Metrics.customerId m = customer →
  safe T (known customer T) (save_metrics customer T m) (λ _, known customer T).
Proof.
  intros Ht Hc. unfold save_metrics.
  eapply safe_bind; [apply safe_of_result|]. intros spend. apply safe_pure. intros _.
  eapply safe_bind; [apply safe_of_result|]. intros value. apply safe_pure. intros _.
  eapply safe_bind; [apply safe_same, new_Date_db|]. intros now.
  eapply safe_bind; [by eapply (safe_gets T _ _ (λ d, sql_select _ (customerMetrics d)))|].
  intros existing.
  eapply safe_bind; [apply safe_of_result|]. intros spend'. apply safe_pure. intros _.
  eapply safe_bind; [apply safe_of_result|]. intros value'. apply safe_pure. intros _.
  eapply safe_bind; [apply safe_of_result|]. intros []. apply safe_pure. intros _.
  destruct existing as [row|]; apply safe_write; intros d l' Hwf [_ Hk] Hl;
    pose proof Hl as [-> Hd]%unique_inv; (split_and!; [| |exact Hk]).
  - apply wf_metrics_write; [done..|]. intros x (r & -> & Hr)%list_elem_of_fmap.
    destruct (of_customer_metrics _ _ r) eqn:E; [|by apply wf_metrics_customer].
    cbn. by rewrite Ht, Hc.
  - apply others_metrics. eapply (foreign_update T); [|exact Hl].
    intros r [_ E]%of_customer_metrics_true. by cbn in *.
  - apply wf_metrics_write; [done..|].
    intros x [Hx|Hx]%elem_of_app; [by apply wf_metrics_customer|].
    apply list_elem_of_singleton in Hx as ->. cbn. by rewrite Ht, Hc.
  - apply others_metrics. eapply (foreign_insert T); [|exact Hl]. done.
Qed.

Lemma optional_safe {A} P (part : option A) f :
  (∀ a, part = Some a → safe T P (f a) (λ _, P)) → safe T P (optional part f) (λ _, P).
Proof. intros Hf. destruct part; [by apply Hf|by apply safe_ret]. Qed.

Lemma save_safe P c : own c → safe T P (save c T) (λ c' d, c' = c ∧ written c d).
Proof.
  intros (Ht & Hp & Hm). unfold save.
  eapply safe_bind; [apply safe_same, new_Date_db|]. intros now.
  eapply (safe_bind T _ _ (λ _, written c)); [|intros []; by apply safe_ret].
  apply safe_transaction. eapply safe_bind; [by apply save_customer_safe|]. intros [].
  eapply (safe_bind T _ _ (λ _, written c)).
  - apply optional_safe. intros p E. unfold own_profile in Hp. rewrite E in Hp.
    destruct Hp. by apply save_profile_safe.
  - intros []. apply optional_safe. intros m E. unfold own_metrics in Hm. rewrite E in Hm.
    destruct Hm. by apply save_metrics_safe.
Qed.

(** *** Reading *)
Lemma left_join_some {R} on (l : list R) r : Some r ∈ left_join on l → r ∈ l ∧ on r = true.
Proof.
  unfold left_join. intros H. apply js_filter_elem.
  destruct (js_filter on l) eqn:E.
  - by apply list_elem_of_singleton in H.
  - rewrite <- E in *. apply list_elem_of_fmap in H as (x & [= ->] & Hx). by rewrite E in *.
Qed.

Lemma joined_elem d r :
  r ∈ joined d →
  j_customer r ∈ customers d
  ∧ (∀ p, j_profile r = Some p → p ∈ customerProfiles d ∧ pr_customerId p = cr_id (j_customer r))
  ∧ (∀ m, j_metrics r = Some m → m ∈ customerMetrics d ∧ mr_customerId m = cr_id (j_customer r)).
Proof.
  unfold joined, join_row. intros (c & Hr & Hc)%list_elem_of_bind.
  apply list_elem_of_bind in Hr as (p & Hr & Hp). apply list_elem_of_bind in Hr as (m & Hr & Hm).
  apply list_elem_of_singleton in Hr as ->. cbn. split; [done|].
  split; [intros x ->|intros x ->]; revert select (Some x ∈ _);
    intros [? ?%String.eqb_eq]%left_join_some; done.
Qed.

Lemma toDomain_ok r c :
  toDomain r = Ok c →
  id c = cr_id (j_customer r) ∧ tenantId c = cr_tenantId (j_customer r)
  ∧ profile c = profile_toDomain <$> j_profile r ∧ metrics c = metrics_toDomain <$> j_metrics r
  ∧ domainEvents c = [].
Proof.
  unfold toDomain, mbind, result_bind. intros E.
  repeat match type of E with
  | match ?x with _ => _ end = _ => destruct x; try discriminate E
  | context [match ?x with _ => _ end] => destruct x; try discriminate E
  end; injection E as <-; done.
Qed.

(** What is read of the tenant's customers is the tenant's. *)
Lemma joined_own d r c :
  wf d → r ∈ joined d → in_tenant T r = true → toDomain r = Ok c → own c ∧ written c d.
Proof.
  intros Hwf (Hc & Hp & Hm)%joined_elem HT%String.eqb_eq (Ei & Et & Ep & Em & _)%toDomain_ok.
  assert (known (id c) T d) as Hk by (exists (j_customer r); by rewrite Ei).
  split; [|exact Hk]. split; [congruence|]. unfold own_profile, own_metrics. rewrite Ep, Em.
  split.
  - destruct (j_profile r) as [p|]; [|done]. destruct (Hp p eq_refl) as [Hin E]. cbn.
    rewrite Ei. split; [|done].
    pose proof (wf_profile_customer d Hwf p Hin) as Hkp. rewrite E, <- Ei in Hkp.
    exact (known_tenant d _ _ _ Hwf Hkp Hk).
  - destruct (j_metrics r) as [m|]; [|done]. destruct (Hm m eq_refl) as [Hin E]. cbn.
    rewrite Ei. split; [|done].
    pose proof (wf_metrics_customer d Hwf m Hin) as Hkm. rewrite E, <- Ei in Hkm.
    exact (known_tenant d _ _ _ Hwf Hkm Hk).
Qed.

(** Reads do not write; what they return is the tenant's. *)
Lemma find_one_safe P q :
  (∀ r, q r = true → in_tenant T r = true) →
  safe T P (find_one q)
    (λ o d, P d ∧ match o with
                  | Some c => own c ∧ written c d ∧ ∃ r, q r = true ∧ toDomain r = Ok c
                  | None => True
                  end).
Proof.
  intros Hq w Hwf HP. unfold find_one. rewrite final_gets_bind.
  unfold outcome. rewrite gets_bind.
  destruct (sql_select q (joined (db w))) as [r|] eqn:E.
  - unfold final, mbind, M_bind, of_result. destruct (toDomain r) as [c|e] eqn:Et; cbn.
    + split_and!; [done..|]. intros ? [= <-]. split; [done|].
      apply select_some in E as [Hin Hqr].
      destruct (joined_own _ _ _ Hwf Hin (Hq r Hqr) Et). split_and!; [done..|by exists r].
    + by split_and!.
  - unfold final. cbn. split_and!; [done..|]. by intros ? [= <-].
Qed.

Lemma findAll_safe P :
  safe T P (findAll T) (λ l d, P d ∧ ∀ c, c ∈ l → own c ∧ written c d).
Proof.
  intros w Hwf HP. unfold findAll. rewrite final_gets_bind. unfold outcome. rewrite gets_bind.
  unfold final, of_result. cbn [fst snd]. split_and!; [done..|]. intros l El. split; [done|].
  intros c Hc. revert l El c Hc.
  assert (∀ r, r ∈ js_filter (λ r, in_tenant T r && not_deleted r) (scan (joined (db w))) →
     r ∈ joined (db w) ∧ in_tenant T r = true) as Hrows.
  { intros r [Hr [E _]%andb_true_iff]%js_filter_elem. by rewrite scan_perm in Hr. }
  induction (js_filter _ (scan (joined (db w)))) as [|r rows IH]; intros l El c Hc.
  - cbn in El. injection El as <-. by apply not_elem_of_nil in Hc.
  - cbn in El. unfold mbind, result_bind in El.
    destruct (toDomain r) as [c'|] eqn:Er; [|done].
    destruct (mapM toDomain rows) as [l'|] eqn:El'; [|done]. injection El as <-.
    apply elem_of_cons in Hc as [->|Hc].
    + destruct (Hrows r) as [Hin Ht]; [by left|]. by eapply joined_own.
    + eapply IH; [|reflexivity|done]. intros x Hx. apply Hrows. by right.
Qed.
End repository.

(** ** The services *)
Section services.
Context {HE : Env} {HS : SqlScan} {HJ : JsonDouble} {HD : CustDeps} (T : string).
Implicit Types (P : CustDb → Prop) (c : Customer).

(** A call for the tenant, whatever it returns. *)
Definition okay {A} (m : M CustW A) : Prop := safe T (λ _, True) m (λ _ _, True).

Lemma safe_okay {A} P (m : M CustW A) Q : safe T P m Q → safe T P m (λ _ _, True).
Proof. intros H. by eapply safe_weaken. Qed.
Lemma okay_safe {A} P (m : M CustW A) : okay m → safe T P m (λ _ _, True).
Proof. intros H. by eapply safe_weaken. Qed.
Lemma okay_db {A} (m : M CustW A) : keeps (same db) m → okay m.
Proof. intros H. eapply safe_okay. by apply safe_same. Qed.
Lemma okay_bind {A B} (m : M CustW A) (k : A → M CustW B) :
  okay m → (∀ a, okay (k a)) → okay (m ≫= k).
Proof. intros Hm Hk. eapply safe_bind; [exact Hm|exact Hk]. Qed.
Lemma okay_ret {A} (a : A) : okay (mret a).
Proof. by apply safe_ret. Qed.
Lemma step_db {A B} (m : M CustW A) P (k : A → M CustW B) Q :
  keeps (same db) m → (∀ a, safe T P (k a) Q) → safe T P (m ≫= k) Q.
Proof. intros Hm Hk. eapply safe_bind; [by apply safe_same|exact Hk]. Qed.
Lemma step_result {A B} (r : result A) P (k : A → M CustW B) Q :
  (∀ a, safe T P (k a) Q) → safe T P (of_result r ≫= k) Q.
Proof. intros Hk. eapply safe_bind; [apply safe_of_result|]. intros a. by apply safe_pure. Qed.

Lemma customer_event_db e : keeps (same db) (publish e).
Proof. unfold publish. solve_keeps. Qed.
Lemma customer_events_db l : keeps (same db) (publishAll l).
Proof. unfold publishAll, publish. solve_keeps. Qed.
Lemma triggers_db t k x : keeps (same db) (evaluateWorkflowTriggers t k x).
Proof. unfold evaluateWorkflowTriggers. solve_keeps. Qed.

Lemma load_safe P i :
  safe T P (load i T) (λ c d, (own T c ∧ id c = i) ∧ written T c d).
Proof.
  unfold load, CustomerRepo.findById. eapply safe_bind.
  - apply find_one_safe. by intros r [_ ?]%andb_true_iff.
  - intros [c|]; [|apply safe_throw]. apply safe_ret.
    intros d (_ & Ho & Hw & r & [Hi%String.eqb_eq _]%andb_true_iff & (Ei & _)%toDomain_ok).
    split; [|done]. split; [done|congruence].
Qed.

Lemma save_and_publish_okay P c : own T c → safe T P (save_and_publish c T) (λ _ _, True).
Proof.
  intros Ho. unfold save_and_publish. eapply safe_bind; [by apply save_safe|].
  intros c'. apply step_db; [apply customer_events_db|]. intros. by apply safe_ret.
Qed.

(** The parts that are built are of the tenant and of the customer. *)
Lemma new_profile_own customer n d :
  returns (new_profile T customer n d)
    (λ p, Profiles.tenantId p = T ∧ Profiles.customerId p = customer).
Proof.
  intros w p w' E. unfold new_profile in E. run_inv E. injection E as <- _. done.
Qed.
Lemma zero_metrics_own customer :
  returns (zero_metrics T customer)
    (λ m, Metrics.tenantId m = T ∧ Metrics.customerId m = customer).
Proof.
  intros w m w' E. unfold zero_metrics in E. run_inv E. injection E as <- _. done.
Qed.
Lemma new_profile_db t customer n d : keeps (same db) (new_profile t customer n d).
Proof. unfold new_profile. solve_keeps. Qed.
Lemma zero_metrics_db t customer : keeps (same db) (zero_metrics t customer).
Proof. unfold zero_metrics. solve_keeps. Qed.

Lemma enroll_okay u f c : own T c → okay (CustomerService.enroll T u f c).
Proof.
  intros (Ht & Hp & _). unfold CustomerService.enroll.
  eapply safe_bind; [apply safe_keep; [apply zero_metrics_db|apply zero_metrics_own]|].
  intros m. apply safe_pure. intros Hm. apply step_db; [apply new_Date_db|]. intros now.
  eapply safe_bind; [by apply save_and_publish_okay|]. intros c'.
  apply step_db; [apply audit_log_db|]. intros [].
  apply step_db; [apply triggers_db|]. intros []. apply okay_ret.
Qed.

Lemma create_okay dto u : okay (CustomerService.create T dto u).
Proof.
  unfold CustomerService.create, CustomerRepo.findByEmail. apply okay_bind.
  { eapply safe_okay, find_one_safe. by intros r [_ ?]%andb_true_iff. }
  intros existing. apply okay_bind; [by destruct existing; apply okay_db|]. intros [].
  apply okay_bind; [apply okay_db, randomUUID_db|]. intros customer.
  eapply (safe_bind T _ _ (λ o d, match o with
            | Some p => Profiles.tenantId p = T ∧ Profiles.customerId p = customer
            | None => True
            end ∧ True)).
  { destruct (c_profile dto) as [p|]; [|by apply safe_ret].
    eapply safe_bind; [apply safe_keep; [apply new_profile_db|apply new_profile_own]|].
    intros q. by apply safe_ret. }
  intros p. apply safe_pure. intros Hp.
  do 4 (apply step_result; intros ?). do 2 (apply step_db; [apply new_Date_db|]; intros ?).
  by apply enroll_okay.
Qed.

Lemma update_profile_own dto c P :
  own T c → safe T P (CustomerService.update_profile T dto c) (λ c' d, own T c' ∧ P d).
Proof.
  intros Ho. unfold CustomerService.update_profile.
  destruct dto as [d|]; [|by apply safe_ret]. destruct Ho as (Ht & Hp & Hm).
  destruct (profile c) as [p|] eqn:Ep.
  - apply step_db; [apply new_Date_db|]. intros now. apply safe_ret. intros d' Hd. split; [|done].
    split; [exact Ht|]. split; [|exact Hm]. unfold own_profile in *. by rewrite Ep in Hp.
  - eapply safe_bind; [apply safe_keep; [apply new_profile_db|apply new_profile_own]|].
    intros p. apply safe_pure. intros Hq. apply step_db; [apply new_Date_db|]. intros now.
    by apply safe_ret.
Qed.

Lemma update_okay i dto u : okay (CustomerService.update T i dto u).
Proof.
  unfold CustomerService.update. eapply safe_bind; [apply load_safe|]. intros c.
  apply safe_pure. intros [Ho _]. apply step_result. intros props.
  apply step_db; [apply new_Date_db|]. intros now.
  eapply safe_bind; [apply update_profile_own; exact Ho|]. intros c'. apply safe_pure. intros Ho'.
  eapply safe_bind; [by apply save_and_publish_okay|]. intros c2.
  apply step_db; [apply audit_log_db|]. intros [].
  apply step_db; [apply triggers_db|]. intros []. apply okay_ret.
Qed.

Lemma revise_okay i (revise : Z → Customer → Customer) u action details :
  (∀ now c, own T c → own T (revise now c)) →
  okay (c ← load i T; now ← new_Date; _ ← save_and_publish (revise now c) T;
        audit_log T u action details ;; mret true).
Proof.
  intros Hr. eapply safe_bind; [apply load_safe|]. intros c. apply safe_pure. intros [Ho _].
  apply step_db; [apply new_Date_db|]. intros now.
  eapply safe_bind; [by apply save_and_publish_okay, Hr|]. intros c2.
  apply step_db; [apply audit_log_db|]. intros []. apply okay_ret.
Qed.
Lemma delete_okay i u : okay (CustomerService.delete T i u).
Proof. by apply (revise_okay i delete_customer). Qed.
Lemma restore_okay i u : okay (CustomerService.restore T i u).
Proof. by apply (revise_okay i Customer.restore). Qed.

Lemma findOrCreate_okay ch e ty : okay (CustomerService.findOrCreateByExternalId T ch e ty).
Proof.
  unfold CustomerService.findOrCreateByExternalId, findByExternalId. apply okay_bind.
  { eapply safe_okay, find_one_safe. by intros r [_ ?]%andb_true_iff. }
  intros [c|]; [apply okay_ret|]. apply step_db; [apply randomUUID_db|]. intros customer.
  apply step_result. intros email. do 2 (apply step_db; [apply new_Date_db|]; intros ?).
  by apply enroll_okay.
Qed.

Lemma merge_metrics_own s t P :
  own T t → safe T P (CustomerService.merge_metrics T s t) (λ c d, own T c ∧ P d).
Proof.
  intros Ho. unfold CustomerService.merge_metrics.
  destruct (metrics s), (metrics t); try by apply safe_ret.
  do 3 (apply step_db; [apply new_Date_db|]; intros ?). apply safe_ret. intros d Hd.
  split; [|done]. by destruct Ho as (Ht & Hp & _).
Qed.

Lemma merge_okay s t u : okay (CustomerService.merge T s t u).
Proof.
  unfold CustomerService.merge, CustomerRepo.findById.
  assert (∀ P i, safe T P (find_one (λ r, String.eqb (cr_id (j_customer r)) i && in_tenant T r))
            (λ o d, match o with Some c => own T c | None => True end ∧ P d)) as Hfind.
  { intros P i. eapply safe_weaken; [apply (find_one_safe T P)|done|].
    - by intros r [_ ?]%andb_true_iff.
    - by intros [c|] d [? H]; cbn in *; [destruct H|]. }
  eapply safe_bind; [apply Hfind|]. intros source. apply safe_pure. intros Hs.
  eapply safe_bind; [apply Hfind|]. intros target. apply safe_pure. intros Ht.
  destruct source as [source|]; [|apply safe_throw]. destruct target as [target|]; [|apply safe_throw].
  eapply safe_bind; [by apply merge_metrics_own|]. intros t'. apply safe_pure. intros Ht'.
  do 2 (apply step_db; [apply new_Date_db|]; intros ?).
  eapply safe_bind; [by eapply safe_okay, save_safe|]. intros c1.
  eapply safe_bind; [by eapply safe_okay, save_safe|]. intros c2.
  do 2 (apply step_db; [apply customer_events_db|]; intros []).
  apply step_db; [apply audit_log_db|]. intros []. apply okay_ret.
Qed.

Lemma import_okay l u : okay (CustomerService.import T l u).
Proof.
  apply safe_fold_each. intros [n errors] r. unfold CustomerService.import_record.
  destruct (js_or_undef (i_email r)) as [email|]; [|apply okay_ret].
  apply safe_try; [|intros; apply okay_ret]. apply okay_bind; [apply create_okay|].
  intros. apply okay_ret.
Qed.

Lemma export_okay f : okay (CustomerService.export T f).
Proof.
  unfold CustomerService.export. apply okay_bind; [eapply safe_okay, findAll_safe|].
  intros. apply okay_ret.
Qed.

Lemma updateProfile_okay i d : okay (CustomerProfileService.updateProfile T i d).
Proof.
  unfold CustomerProfileService.updateProfile. eapply safe_bind; [apply load_safe|]. intros c.
  apply safe_pure. intros [(Ht & Hp & Hm) Hi]. unfold own_profile in Hp.
  eapply (safe_bind T _ _ (λ p d, (Profiles.tenantId p = T ∧ Profiles.customerId p = id c) ∧ True)).
  { destruct (profile c) as [p|].
    - apply step_db; [apply new_Date_db|]. intros now. by apply safe_ret.
    - rewrite Hi. eapply safe_weaken;
        [apply safe_keep; [apply new_profile_db|apply new_profile_own]|done|by intros ?? []]. }
  intros p. apply safe_pure. intros Hq.
  eapply (safe_bind T _ _ (λ c' d, own T c' ∧ True)).
  { destruct (profile c); [|apply step_db; [apply new_Date_db|]; intros now]; by apply safe_ret. }
  intros c'. apply safe_pure. intros Ho. eapply safe_bind; [by eapply safe_okay, save_safe|].
  intros. apply okay_ret.
Qed.

Lemma updateMetrics_okay P i dto :
  safe T P (CustomerMetricsService.updateMetrics T i dto) (λ _ _, True).
Proof.
  unfold CustomerMetricsService.updateMetrics. eapply safe_bind; [apply load_safe|]. intros c.
  apply safe_pure. intros [(Ht & Hp & Hm) Hi]. unfold own_metrics in Hm.
  eapply (safe_bind T _ _ (λ m d, (Metrics.tenantId m = T ∧ Metrics.customerId m = id c) ∧ True)).
  { destruct (metrics c) as [m|].
    - apply step_db; [apply new_Date_db|]. intros now. by apply safe_ret.
    - apply step_db; [apply randomUUID_db|]. intros ?.
      do 3 (apply step_db; [apply new_Date_db|]; intros ?). by apply safe_ret. }
  intros m. apply safe_pure. intros Hq. apply step_db; [apply new_Date_db|]. intros now.
  eapply safe_bind; [by eapply safe_okay, save_safe|]. intros. apply okay_ret.
Qed.
Lemma recalculateMetrics_okay i : okay (CustomerMetricsService.recalculateMetrics T i).
Proof.
  unfold CustomerMetricsService.recalculateMetrics. eapply safe_bind; [apply load_safe|].
  intros c. apply updateMetrics_okay.
Qed.

(** *** Segments *)
Lemma raw_segment_ok active created updated s r :
  raw_segment active created updated s = Ok r →
  sr_id r = Segments.id s ∧ sr_tenantId r = Segments.tenantId s.
Proof. unfold raw_segment, column. destruct (fits _); [|done]. by intros [= <-]. Qed.

Lemma read_segment_safe P i U :
  safe T P (read (R := SegmentRow) (by_id i U))
    (λ o d, P d ∧ match o with
                  | Some r => sr_id r = i ∧ known_segment i U d
                  | None => True
                  end).
Proof.
  intros w Hwf HP. unfold read, final, outcome. cbn. split_and!; [done..|].
  intros a [= <-]. split; [done|].
  destruct (sql_select _ _) as [r|] eqn:E; [|done].
  apply select_some in E as [Hin [Ei Et]%by_id_true]. split; [done|]. by exists r.
Qed.

Lemma saveSegment_okay P s : Segments.tenantId s = T → safe T P (saveSegment s T) (λ _ _, True).
Proof.
  intros Ht. unfold saveSegment. apply step_db; [apply new_Date_db|]. intros now.
  eapply safe_bind; [apply read_segment_safe|]. intros row.
  eapply (safe_bind T _ _ (λ _ _, True)); [|intros []; by apply safe_ret].
  destruct row as [row|]; (eapply safe_bind; [apply safe_of_result|]); intros raw; apply safe_pure;
    intros [Hi Ht']%raw_segment_ok; apply safe_write; intros d l' Hwf _ Hl;
    pose proof Hl as [-> Hd]%unique_inv; (split_and!; [| |done]).
  - apply wf_segments_write; [done..|]. intros j U (r & Hr & Er & Eu).
    destruct (by_id (Segments.id s) T r) eqn:E.
    + pose proof E as [E1 E2]%by_id_true. exists raw. split; [|cbn in *; split; congruence].
      apply list_elem_of_fmap. exists r. by rewrite E.
    + exists r. split; [|done]. apply list_elem_of_fmap. exists r. by rewrite E.
  - apply others_segments. eapply (foreign_update T); [|exact Hl].
    intros r [_ E]%by_id_true. cbn in *. split; congruence.
  - apply wf_segments_write; [done..|]. intros j U (r & Hr & E). exists r. split; [|done].
    apply elem_of_app. by left.
  - apply others_segments. eapply (foreign_insert T); [|exact Hl]. cbn. congruence.
Qed.

Lemma createSegment_okay dto : okay (CustomerSegmentService.createSegment T dto).
Proof.
  unfold CustomerSegmentService.createSegment. apply step_db; [apply randomUUID_db|]. intros ?.
  do 2 (apply step_db; [apply new_Date_db|]; intros ?). by apply saveSegment_okay.
Qed.

Lemma find_segment_safe P i :
  safe T P (findSegmentById i T)
    (λ o d, P d ∧ match o with
                  | Some s => Segments.id s = i ∧ Segments.tenantId s = T ∧ known_segment i T d
                  | None => True
                  end).
Proof.
  intros w Hwf HP. unfold findSegmentById, find_segment, read, final, outcome. cbn.
  split_and!; [done..|]. intros a [= <-]. split; [done|].
  destruct (sql_select _ _) as [r|] eqn:E; [|done]. cbn.
  apply select_some in E as [Hin [Ei Et]%by_id_true]. split_and!; [done..|]. by exists r.
Qed.
Lemma load_segment_safe P i :
  safe T P (CustomerSegmentService.load_segment i T)
    (λ s d, (Segments.id s = i ∧ Segments.tenantId s = T) ∧ known_segment i T d ∧ P d).
Proof.
  unfold CustomerSegmentService.load_segment. eapply safe_bind; [apply find_segment_safe|].
  intros [s|]; [|apply safe_throw]. apply safe_ret. by intros d (? & ? & ? & ?).
Qed.

Lemma updateSegment_okay i dto : okay (CustomerSegmentService.updateSegment T i dto).
Proof.
  unfold CustomerSegmentService.updateSegment. eapply safe_bind; [apply load_segment_safe|].
  intros s. apply safe_pure. intros [_ Ht]. apply step_db; [apply new_Date_db|]. intros now.
  by apply saveSegment_okay.
Qed.

Lemma known_segment_tenant d i U V : wf d → known_segment i U d → known_segment i V d → U = V.
Proof.
  intros Hwf (r & Hr & <- & <-) (x & Hx & E & <-).
  by rewrite (distinct_id (customerSegments d) r x (wf_segments d Hwf) Hr Hx (eq_sym E)).
Qed.

Lemma deleteSegment_okay i : okay (CustomerSegmentService.deleteSegment T i).
Proof.
  unfold CustomerSegmentService.deleteSegment, deleteSegment_row.
  eapply safe_bind; [apply (read_segment_safe (λ _, True))|]. intros [r|]; [|by apply safe_ret].
  eapply (safe_bind T _ _ (λ _ _, True)); [|intros []; by apply safe_ret].
  intros w Hwf (_ & _ & Hk). unfold final, outcome, modify. cbn [fst snd].
  set (d := db w) in *. split_and!; [| |done].
  - destruct Hwf. split; try done; [by apply distinct_filter..|].
    intros m [Hm E]%js_filter_elem. destruct (wf_member_segment0 m Hm) as (s & Hs & Es & Et).
    exists s. split; [|done]. apply js_filter_elem. split; [exact Hs|].
    apply negb_true_iff, not_true_iff_false. intros [E1 _]%by_id_true. cbn in E1.
    apply negb_true_iff, String.eqb_neq in E. congruence.
  - unfold others. repeat apply (f_equal2 pair); try reflexivity; apply (foreign_delete T).
    + by intros s _ [_ ?]%by_id_true.
    + intros m Hm E%String.eqb_eq. pose proof (wf_member_segment d Hwf m Hm) as Hm'.
      rewrite E in Hm'. exact (known_segment_tenant d _ _ _ Hwf Hm' Hk).
Qed.

Lemma assignSegment_safe customer i :
  safe T (known_segment i T) (assignSegment customer i T) (λ _, known_segment i T).
Proof.
  unfold assignSegment.
  eapply safe_bind; [by eapply (safe_gets T _ _ (λ d, sql_select _ (customerSegmentMembers d)))|].
  intros [r|]; [apply safe_ret; by intros d []|]. apply step_db; [apply randomUUID_db|]. intros id.
  do 2 (apply step_db; [apply new_Date_db|]; intros ?).
  eapply safe_bind; [by eapply (safe_gets T _ _ (references customer i))|]. intros checked.
  apply step_result. intros []. apply safe_write. intros d l' Hwf (_ & _ & Hk) Hl.
  pose proof Hl as [-> Hd]%unique_inv. split_and!; [| |exact Hk].
  - apply wf_members_write; [done..|].
    intros m [Hm|Hm]%elem_of_app; [by apply wf_member_segment|].
    by apply list_elem_of_singleton in Hm as ->.
  - apply others_members. eapply (foreign_insert T); [|exact Hl]. done.
Qed.

Lemma removeSegment_safe P customer i :
  (∀ d l, P d → P (d <| customerSegmentMembers := l |>)) →
  safe T P (removeSegment customer i T) (λ _, P).
Proof.
  intros HP. apply safe_write. intros d l' Hwf Hd [= <-]. split_and!; [| |by apply HP].
  - apply wf_members_write; [done|apply distinct_filter, wf_members, Hwf|].
    intros m [Hm _]%js_filter_elem. by apply wf_member_segment.
  - apply others_members, (foreign_delete T).
    by intros r _ [_ E%String.eqb_eq]%andb_true_iff.
Qed.

Lemma assignCustomer_okay customer i :
  okay (CustomerSegmentService.assignCustomerToSegment T customer i).
Proof.
  unfold CustomerSegmentService.assignCustomerToSegment. eapply safe_bind; [apply load_safe|].
  intros x. apply safe_pure. intros [Ho _]. eapply safe_bind; [apply load_segment_safe|]. intros s.
  eapply (safe_bind T _ _ (λ _, known_segment i T)).
  - eapply safe_weaken; [apply assignSegment_safe|by intros d (_ & ? & _)|done].
  - intros []. eapply safe_bind; [by eapply safe_okay, save_safe|]. intros. apply okay_ret.
Qed.

Lemma runDynamic_okay i : okay (CustomerSegmentService.runDynamicSegmentation T i).
Proof.
  unfold CustomerSegmentService.runDynamicSegmentation.
  eapply safe_bind; [apply find_segment_safe|]. intros [s|]; [|by apply safe_ret].
  destruct (String.eqb _ _); [|by apply safe_ret].
  eapply safe_bind; [apply findAll_safe|]. intros l.
  eapply safe_weaken; [apply (safe_for_each T (λ d, Segments.id s = i ∧ known_segment i T d))
    |by intros d ((_ & ? & _ & ?) & _)|done].
  intros c _. apply safe_pure. intros Hi. unfold CustomerSegmentService.segment_customer.
  rewrite Hi. destruct (CustomerSegmentService.matches _ _).
  - eapply safe_weaken; [apply assignSegment_safe|done|]. by intros [] d ?.
  - eapply safe_weaken; [apply (removeSegment_safe (known_segment i T))|done|]; [done|].
    by intros [] d ?.
Qed.

Lemma run_segmentation_okay : okay (CustomerQueueProcessor.run_segmentation T).
Proof.
  unfold CustomerQueueProcessor.run_segmentation. apply okay_bind; [by apply okay_db|]. intros l.
  apply safe_for_each. intros s _. apply safe_when, runDynamic_okay.
Qed.
End services.

(** ** Requests *)

(** What the API and the other modules ask of the services. *)
Inductive Call :=
  | Create (dto : CreateCustomerDto) (user : option string)
  | Update (customer : string) (dto : UpdateCustomerDto) (user : option string)
  | Delete (customer : string) (user : option string)
  | Restore (customer : string) (user : option string)
  | FindById (customer : string)
  | FindByEmail (address : string)
  | FindOrCreate (channel external channelType : string)
  | Merge (source target : string) (user : option string)
  | Export (format : string)
  | Import (records : list ImportRecord) (user : option string)
  | UpdateProfile (customer : string) (data : CreateCustomerProfileDto)
  | UpdateMetrics (customer : string) (dto : Metrics.CustomerMetricsDto)
  | RecalculateMetrics (customer : string)
  | CreateSegment (dto : Segments.CustomerSegmentDto)
  | UpdateSegment (segment : string) (dto : Segments.CustomerSegmentDto)
  | DeleteSegment (segment : string)
  | AssignToSegment (customer segment : string)
  | RemoveFromSegment (customer segment : string)
  | RunSegmentation (segment : string).

(** A call for a tenant, or a job taken by the worker. *)
Inductive Request := Api (tenant : string) (c : Call) | Work (job : Job).
Definition tenant_of (r : Request) : string :=
  match r with Api T _ => T | Work job => CustomerQueueProcessor.tenant_of_job job end.

Section requests.
Context {HE : Env} {HS : SqlScan} {HJ : JsonDouble} {HD : CustDeps}.

Definition ignore {A} (m : M CustW A) : M CustW unit := m ;; mret tt.

Definition serve_call (T : string) (c : Call) : M CustW unit :=
  match c with
  | Create dto user => ignore (CustomerService.create T dto user)
  | Update i dto user => ignore (CustomerService.update T i dto user)
  | Delete i user => ignore (CustomerService.delete T i user)
  | Restore i user => ignore (CustomerService.restore T i user)
  | FindById i => ignore (CustomerService.findById T i)
  | FindByEmail a => ignore (CustomerService.findByEmail T a)
  | FindOrCreate ch e ty => ignore (CustomerService.findOrCreateByExternalId T ch e ty)
  | Merge s t user => ignore (CustomerService.merge T s t user)
  | Export f => ignore (CustomerService.export T f)
  | Import l user => ignore (CustomerService.import T l user)
  | UpdateProfile i d => ignore (CustomerProfileService.updateProfile T i d)
  | UpdateMetrics i d => ignore (CustomerMetricsService.updateMetrics T i d)
  | RecalculateMetrics i => ignore (CustomerMetricsService.recalculateMetrics T i)
  | CreateSegment dto => ignore (CustomerSegmentService.createSegment T dto)
  | UpdateSegment i dto => ignore (CustomerSegmentService.updateSegment T i dto)
  | DeleteSegment i => ignore (CustomerSegmentService.deleteSegment T i)
  | AssignToSegment c i => CustomerSegmentService.assignCustomerToSegment T c i
  | RemoveFromSegment c i => CustomerSegmentService.removeCustomerFromSegment T c i
  | RunSegmentation i => CustomerSegmentService.runDynamicSegmentation T i
  end.
Definition serve (r : Request) : M CustW unit :=
  match r with
  | Api T c => serve_call T c
  | Work job => ignore (process (Some CUSTOMER) CustomerQueueProcessor.handleJob job)
  end.

Lemma ignore_okay {A} T (m : M CustW A) : okay T m → okay T (ignore m).
Proof. intros Hm. apply okay_bind; [done|]. intros. apply okay_ret. Qed.

Lemma serve_call_okay T c : okay T (serve_call T c).
Proof.
  destruct c; cbn [serve_call]; try apply ignore_okay.
  - apply create_okay.
  - apply update_okay.
  - apply delete_okay.
  - apply restore_okay.
  - eapply safe_okay, load_safe.
  - eapply safe_okay, find_one_safe. by intros r [_ ?]%andb_true_iff.
  - apply findOrCreate_okay.
  - apply merge_okay.
  - apply export_okay.
  - apply import_okay.
  - apply updateProfile_okay.
  - apply updateMetrics_okay.
  - apply recalculateMetrics_okay.
  - apply createSegment_okay.
  - apply updateSegment_okay.
  - apply deleteSegment_okay.
  - apply assignCustomer_okay.
  - by apply (removeSegment_safe T (λ _, True)).
  - apply runDynamic_okay.
Qed.

Lemma handleJob_okay job :
  okay (CustomerQueueProcessor.tenant_of_job job) (CustomerQueueProcessor.handleJob job).
Proof.
  unfold CustomerQueueProcessor.handleJob.
  repeat (destruct (String.eqb _ _)); [| | | |apply safe_throw].
  - apply step_result. intros l. apply okay_bind; [apply import_okay|]. intros. apply okay_ret.
  - apply okay_bind; [apply export_okay|]. intros. apply okay_ret.
  - apply okay_bind; [apply recalculateMetrics_okay|]. intros. apply okay_ret.
  - apply okay_bind; [apply run_segmentation_okay|]. intros. apply okay_ret.
Qed.

Lemma handleFailure_db q job e : keeps (same (db (Db := CustDb))) (handleFailure q job e).
Proof.
  unfold handleFailure, routeToDeadLetter, moveToDeadLetter, getTenantId. solve_keeps.
Qed.

Lemma context_okay {A} T t (m : M CustW A) : okay T m → okay T (TenantContext_run t m).
Proof.
  intros Hm w Hwf HP. specialize (Hm (w <| tenantContext := Some t |>) Hwf HP).
  unfold final, outcome, TenantContext_run in *.
  by destruct (m (w <| tenantContext := Some t |>)) as [r w'].
Qed.

Lemma serve_okay r : okay (tenant_of r) (serve r).
Proof.
  destruct r as [T c|job]; [apply serve_call_okay|]. cbn [serve tenant_of]. apply ignore_okay.
  unfold process.
  assert (okay (CustomerQueueProcessor.tenant_of_job job)
    (try_catch (CustomerQueueProcessor.handleJob job)
       (λ err, handleFailure (Some CUSTOMER) job err ;; throw err))) as Hrun.
  { apply safe_try; [apply handleJob_okay|]. intros e.
    apply step_db; [apply handleFailure_db|]. intros []. apply safe_throw. }
  destruct (job_tenant job) as [t|]; [|done].
  destruct (truthy t); [by apply context_okay|done].
Qed.

(** Requests one after the other; what one throws goes to its caller and the next
    one runs. *)
Definition serve_all (l : list Request) (w : CustW) : CustW :=
  foldl (λ w r, final (serve r) w) w l.

(** The rows of one tenant. *)
Definition of_tenant (U : string) (d : CustDb) : CustDb :=
  {| customers := js_filter (λ r, String.eqb (cr_tenantId r) U) (customers d);
     customerProfiles := js_filter (λ r, String.eqb (pr_tenantId r) U) (customerProfiles d);
     customerMetrics := js_filter (λ r, String.eqb (mr_tenantId r) U) (customerMetrics d);
     customerSegments := js_filter (λ r, String.eqb (sr_tenantId r) U) (customerSegments d);
     customerSegmentMembers :=
       js_filter (λ r, String.eqb (me_tenantId r) U) (customerSegmentMembers d) |}.

Lemma others_of_tenant T U d d' :
  T ≠ U → others T d' = others T d → of_tenant U d' = of_tenant U d.
Proof.
  intros Hne E. injection E as E1 E2 E3 E4 E5. unfold of_tenant.
  f_equal; [exact (tenant_foreign T U _ _ Hne E1)|exact (tenant_foreign T U _ _ Hne E2)
    |exact (tenant_foreign T U _ _ Hne E3)|exact (tenant_foreign T U _ _ Hne E4)
    |exact (tenant_foreign T U _ _ Hne E5)].
Qed.

(** C4: Starting from well-formed tables (keys distinct, one profile per customer,
    profiles, metrics and memberships of the tenant of their customer or segment),
    any sequence of calls of the customer services and of jobs of the customer
    worker, for any tenants and whichever of them throw, leaves the tables well
    formed; and the customers, profiles, metrics, segments and memberships of a
    tenant that none of them was for are what they were. *)
Theorem customer_calls_isolated l w :
  wf (db w) →
  wf (db (serve_all l w))
  ∧ ∀ U, U ∉ tenant_of <$> l → of_tenant U (db (serve_all l w)) = of_tenant U (db w).
Proof.
  revert w. induction l as [|r l IH]; intros w Hwf; [done|].
  destruct (serve_okay r w Hwf I) as (Hwf' & Hothers & _).
  destruct (IH (final (serve r) w) Hwf') as [Hend Hown]. split; [exact Hend|].
  intros U HU. rewrite fmap_cons, not_elem_of_cons in HU. destruct HU as [Hne HU].
  cbn [serve_all foldl]. etransitivity; [by apply Hown|].
  by eapply others_of_tenant; [|exact Hothers].
Qed.
End requests.
