(* ===== verification/CustomerViews.v ===== *)
(** * Customers: what a save writes and a query reads

    The tables seen as a map: [view d i T] is the customer [i] of the tenant [T] with
    its profile and its metrics.  In well-formed tables the queries by id, e-mail and
    external id read this map ([findById_view] and the like), and a save writes one
    entry of it ([saved_view], [saved_other]). *)

From S2P Require Import Prelude Platform JsValue Double Sql Customer CustomerRepo.
From S2P Require Import CustomerService CustomerIsolation.
Open Scope Z_scope.

(** ** Lists as maps *)
Section upsert.
Context {R : Type}.
Implicit Types (q p : R → bool) (f : option R → R) (l : list R).

(** Write the rows of [q], or a new one. *)
Definition upsert q f l : list R :=
  match js_find q l with
  | Some _ => (λ r, if q r then f (Some r) else r) <$> l
  | None => l ++ [f None]
  end.

Lemma find_true q l r : js_find q l = Some r → r ∈ l ∧ q r = true.
Proof. intros [Hin Hq]%find_some. split; [|done]. by apply list_elem_of_In. Qed.
Lemma find_false q l r : js_find q l = None → r ∈ l → q r = false.
Proof. intros Hn Hr. eapply find_none; [exact Hn|]. by apply list_elem_of_In. Qed.
Lemma find_ext p q l : (∀ r, r ∈ l → p r = q r) → js_find p l = js_find q l.
Proof.
  induction l as [|x l IH]; intros H; [done|]. unfold js_find in *. cbn.
  rewrite (H x) by constructor. destruct (q x); [done|]. apply IH. intros r Hr. apply H.
  by constructor.
Qed.
Lemma find_unique q l r :
  r ∈ l → q r = true → (∀ x, x ∈ l → q x = true → x = r) → js_find q l = Some r.
Proof.
  intros Hr Hq Hu. destruct (js_find q l) as [x|] eqn:E.
  - apply find_true in E as [Hx Hqx]. f_equal. by apply Hu.
  - by rewrite (find_false _ _ _ E Hr) in Hq.
Qed.

Lemma upsert_some q f l x :
  js_find q l = Some x → (λ r, if q r then f (Some r) else r) <$> l = upsert q f l.
Proof. unfold upsert. by intros ->. Qed.
Lemma upsert_none q f l : js_find q l = None → l ++ [f None] = upsert q f l.
Proof. unfold upsert. by intros ->. Qed.

Lemma upsert_find q f l :
  (∀ o, q (f o) = true) → js_find q (upsert q f l) = Some (f (js_find q l)).
Proof.
  intros Hf. unfold upsert. destruct (js_find q l) as [r|] eqn:E.
  - induction l as [|x l IH]; [done|]. unfold js_find in *. cbn in *.
    destruct (q x) eqn:Ex; cbn; [rewrite Hf; congruence|]. rewrite Ex. by apply IH.
  - rewrite js_find_app, E. unfold js_find. cbn. by rewrite Hf.
Qed.

Lemma upsert_other p q f l :
  (∀ r, q r = true → p r = false) → (∀ o, p (f o) = false) →
  js_find p (upsert q f l) = js_find p l.
Proof.
  intros Hq Hf. unfold upsert. destruct (js_find q l) as [r|].
  - induction l as [|x l IH]; [done|]. unfold js_find in *. cbn.
    destruct (q x) eqn:Ex; [|by rewrite IH]. by rewrite Hf, (Hq x Ex).
  - rewrite js_find_app. destruct (js_find p l); [done|]. unfold js_find. cbn. by rewrite Hf.
Qed.

Lemma upsert_elem q f l x :
  x ∈ upsert q f l → x = f (js_find q l) ∨ x ∈ l ∨ ∃ r, r ∈ l ∧ q r = true ∧ x = f (Some r).
Proof.
  unfold upsert. destruct (js_find q l) as [r|].
  - intros (y & -> & Hy)%list_elem_of_fmap. destruct (q y) eqn:E; [|by right; left].
    right. right. by exists y.
  - intros [Hx|Hx]%elem_of_app; [by right; left|]. left. by apply list_elem_of_singleton in Hx.
Qed.

(** The database finds a row when there is one. *)
Lemma select_find {HS : SqlScan} q l :
  match sql_select q l with Some _ => is_Some (js_find q l) | None => js_find q l = None end.
Proof.
  destruct (sql_select q l) as [r|] eqn:E.
  - apply select_some in E as [Hin Hq]. destruct (js_find q l) as [x|] eqn:Ex; [by exists x|].
    by rewrite (find_false _ _ _ Ex Hin) in Hq.
  - destruct (js_find q l) as [x|] eqn:Ex; [|done]. apply find_true in Ex as [Hin Hq].
    by rewrite (select_none _ _ _ E Hin) in Hq.
Qed.

(** At most one row: the database reads that one. *)
Lemma select_is_find {HS : SqlScan} q l :
  (∀ x y, x ∈ l → y ∈ l → q x = true → q y = true → x = y) → sql_select q l = js_find q l.
Proof.
  intros Hu. destruct (js_find q l) as [r|] eqn:E.
  - apply find_true in E as [Hin Hq]. apply select_unique; [done..|]. intros x Hx Hqx.
    by apply Hu.
  - destruct (sql_select q l) as [x|] eqn:Ex; [|done]. apply select_some in Ex as [Hin Hq].
    by rewrite (find_false _ _ _ E Hin) in Hq.
Qed.

Lemma filter_find q l :
  NoDup l → (∀ x y, x ∈ l → y ∈ l → q x = true → q y = true → x = y) →
  js_filter q l = match js_find q l with Some x => [x] | None => [] end.
Proof.
  intros Hnd Hu. induction Hnd as [|x l Hx Hnd IH]; [done|].
  unfold js_filter, js_find in *. cbn. destruct (q x) eqn:Ex.
  - f_equal. destruct (List.filter q l) as [|y k] eqn:E; [done|]. exfalso. apply Hx.
    assert (y ∈ List.filter q l) as Hy by (rewrite E; constructor).
    apply list_elem_of_In, filter_In in Hy as [Hy Hqy]. apply list_elem_of_In in Hy.
    rewrite (Hu x y); [done|constructor|by constructor|done..].
  - apply IH. intros a b Ha Hb. apply Hu; by constructor.
Qed.

Lemma left_join_find q l :
  NoDup l → (∀ x y, x ∈ l → y ∈ l → q x = true → q y = true → x = y) →
  left_join q l = [js_find q l].
Proof.
  intros Hnd Hu. unfold left_join. rewrite filter_find by done. by destruct (js_find q l).
Qed.
End upsert.

Lemma distinct_nodup {R} {HR : Row R} (l : list R) : distinct l → NoDup l.
Proof.
  unfold distinct. induction l as [|x l IH]; [by constructor|]. cbn.
  intros (Hx & Hsep & Hl)%NoDup_app. constructor; [|by apply IH]. intros Hin.
  apply (Hsep ["id"; row_id x]); [apply row_id_key|]. apply list_elem_of_bind. exists x.
  split; [apply row_id_key|done].
Qed.

(** ** The view of a customer *)
Definition row_of (d : CustDb) (r : CustomerRow) : Joined :=
  {| j_customer := r;
     j_profile := js_find (λ p, String.eqb (cr_id r) (pr_customerId p)) (customerProfiles d);
     j_metrics := js_find (λ m, String.eqb (cr_id r) (mr_customerId m)) (customerMetrics d) |}.
Definition lookup_row (p : CustomerRow → bool) (d : CustDb) : option Joined :=
  row_of d <$> js_find p (customers d).
Definition view (d : CustDb) (i T : string) : option Joined := lookup_row (by_id i T) d.

Section queries.
Context {HE : Env} {HS : SqlScan}.

Lemma one_metrics d x y :
  wf d → x ∈ customerMetrics d → y ∈ customerMetrics d → mr_customerId x = mr_customerId y → x = y.
Proof.
  intros Hwf Hx Hy E. pose proof (wf_metrics_customer d Hwf x Hx) as Kx.
  pose proof (wf_metrics_customer d Hwf y Hy) as Ky. rewrite E in Kx.
  eapply (distinct_key (customerMetrics d) x y ["customer"; mr_tenantId x; mr_customerId x]);
    [by apply wf_metrics|done..|right; left|].
  rewrite (known_tenant d _ _ _ Hwf Kx Ky), E. right. left.
Qed.
Lemma one_profile d x y :
  wf d → x ∈ customerProfiles d → y ∈ customerProfiles d → pr_customerId x = pr_customerId y → x = y.
Proof.
  intros Hwf Hx Hy E. pose proof (wf_one_profile d Hwf) as Hn.
  apply list_elem_of_lookup in Hx as [i Hi]. apply list_elem_of_lookup in Hy as [j Hj].
  assert (i = j) as <-; [|congruence].
  eapply (NoDup_lookup _ i j (pr_customerId x) Hn); rewrite list_lookup_fmap.
  - by rewrite Hi.
  - by rewrite Hj, E.
Qed.

Lemma join_row_of d r : wf d → join_row d r = [row_of d r].
Proof.
  intros Hwf. unfold join_row. rewrite (left_join_find _ (customerProfiles d)).
  - cbn. rewrite (left_join_find _ (customerMetrics d)); [done|apply distinct_nodup, Hwf|].
    intros x y Hx Hy Ex%String.eqb_eq Ey%String.eqb_eq. apply (one_metrics d); congruence.
  - apply distinct_nodup, Hwf.
  - intros x y Hx Hy Ex%String.eqb_eq Ey%String.eqb_eq. apply (one_profile d); congruence.
Qed.

Lemma joined_rows d : wf d → joined d = row_of d <$> customers d.
Proof.
  intros Hwf. unfold joined. induction (customers d) as [|r l IH]; [done|]. cbn.
  rewrite join_row_of, IH by done. done.
Qed.

(** What a query that found the row [j] returns. *)
Definition reads (j : option Joined) : result (option Customer) :=
  match j with Some j => c ← toDomain j; Ok (Some c) | None => Ok None end.

Lemma find_one_lookup (p : CustomerRow → bool) (q : Joined → bool) w :
  wf (db w) → (∀ r, q r = p (j_customer r)) →
  (∀ x y, x ∈ customers (db w) → y ∈ customers (db w) → p x = true → p y = true → x = y) →
  find_one q w = (reads (lookup_row p (db w)), w).
Proof.
  intros Hwf Hq Hu. unfold find_one. rewrite gets_bind. rewrite joined_rows by done.
  rewrite select_is_find.
  - unfold lookup_row. replace (js_find q (row_of (db w) <$> customers (db w)))
      with (row_of (db w) <$> js_find p (customers (db w))).
    + destruct (js_find p _) as [r|]; [|done]. cbn. unfold mbind, M_bind, of_result, result_bind.
      by destruct (toDomain _).
    + induction (customers (db w)) as [|x l IH]; [done|]. unfold js_find in *. cbn.
      rewrite Hq. cbn. destruct (p x); [done|]. apply IH. intros a b Ha Hb.
      apply Hu; by constructor.
  - intros x y (a & -> & Ha)%list_elem_of_fmap (b & -> & Hb)%list_elem_of_fmap.
    rewrite !Hq. cbn. intros Ea Eb. by rewrite (Hu a b).
Qed.

Lemma findById_view i T w :
  wf (db w) → findById i T w = (reads (view (db w) i T), w).
Proof.
  intros Hwf. apply (find_one_lookup (by_id i T)); [done..|].
  intros x y Hx Hy [Ex _]%by_id_true [Ey _]%by_id_true.
  apply (distinct_id (customers (db w))); [apply Hwf|done..|congruence].
Qed.

Definition by_email (address T : string) (r : CustomerRow) : bool :=
  String.eqb (cr_email r) address && String.eqb (cr_tenantId r) T.
Definition by_external (external T : string) (r : CustomerRow) : bool :=
  bool_decide (cr_externalCustomerId r = Some external) && String.eqb (cr_tenantId r) T.

Lemma email_unique d address T x y :
  wf d → x ∈ customers d → y ∈ customers d → by_email address T x = true →
  by_email address T y = true → x = y.
Proof.
  intros Hwf Hx Hy [Ex%String.eqb_eq Tx%String.eqb_eq]%andb_true_iff
    [Ey%String.eqb_eq Ty%String.eqb_eq]%andb_true_iff.
  eapply (distinct_key (customers d) x y ["email"; T; address]); [apply Hwf|done..| |];
    [rewrite <- Ex, <- Tx|rewrite <- Ey, <- Ty]; right; left.
Qed.
Lemma external_unique d external T x y :
  wf d → x ∈ customers d → y ∈ customers d → by_external external T x = true →
  by_external external T y = true → x = y.
Proof.
  intros Hwf Hx Hy [Ex%bool_decide_eq_true Tx%String.eqb_eq]%andb_true_iff
    [Ey%bool_decide_eq_true Ty%String.eqb_eq]%andb_true_iff.
  eapply (distinct_key (customers d) x y ["external"; T; external]); [apply Hwf|done..| |];
    cbn; [rewrite Ex, Tx|rewrite Ey, Ty]; right; right; left.
Qed.

Lemma findByEmail_view address T w :
  wf (db w) →
  findByEmail address T w = (reads (lookup_row (by_email (js_lower (js_trim address)) T) (db w)), w).
Proof. intros Hwf. apply find_one_lookup; [done..|]. intros x y. by apply email_unique. Qed.
Lemma findByExternalId_view external T w :
  wf (db w) →
  findByExternalId external T w = (reads (lookup_row (by_external external T) (db w)), w).
Proof. intros Hwf. apply find_one_lookup; [done..|]. intros x y. by apply external_unique. Qed.
End queries.

(** ** A save as a function on the tables *)
Definition row_for (updated : Z) (c : Customer) (o : option CustomerRow) : CustomerRow :=
  match o with
  | Some r => (customer_columns updated c) <| cr_createdAt := cr_createdAt r |>
  | None => customer_columns (createdAt c) c
  end.
Definition profile_for (updated : Z) (p : Profiles.CustomerProfile) (o : option ProfileRow)
    : ProfileRow :=
  match o with
  | Some r => (profile_columns updated p) <| pr_createdAt := pr_createdAt r |>
  | None => profile_columns (Profiles.createdAt p) p
  end.
(** An amount in the column. *)
Definition cents (x : option double) : option numeric := x ≫= toFixed2.
Definition metrics_at (spend value : numeric) (updated : Z) (m : Metrics.CustomerMetrics)
    (o : option MetricsRow) : MetricsRow :=
  match o with
  | Some r => set_metrics spend value updated m r
  | None => set_metrics spend value (Metrics.createdAt m) m (blank_metrics (Metrics.createdAt m))
  end.
Definition metrics_for (updated : Z) (m : Metrics.CustomerMetrics) : option MetricsRow → MetricsRow :=
  metrics_at (default (Cents 0) (cents (Metrics.totalSpend m)))
    (default (Cents 0) (cents (Metrics.lifetimeValue m))) updated m.
Definition metrics_acceptable (m : Metrics.CustomerMetrics) : bool :=
  bool_decide (is_Some (cents (Metrics.totalSpend m)))
  && bool_decide (is_Some (cents (Metrics.lifetimeValue m))) && metrics_fit m.

Definition if_some {A B} (o : option A) (f : A → B → B) : B → B :=
  match o with Some a => f a | None => λ b, b end.

(** The tables after a save, for the times at which its parts were written. *)
Definition saved (t : Z * Z * Z) (c : Customer) (T : string) (d : CustDb) : CustDb :=
  d <| customers ::= upsert (by_id (id c) T) (row_for t.1.1 c) |>
    <| customerProfiles ::= if_some (profile c)
         (λ p, upsert (of_customer_profile (id c) T) (profile_for t.1.2 p)) |>
    <| customerMetrics ::= if_some (metrics c)
         (λ m, upsert (of_customer_metrics (id c) T) (metrics_for t.2 m)) |>.
Definition parts_fit (c : Customer) : bool :=
  customer_fits c && match profile c with Some p => profile_fits p | None => true end
  && match metrics c with Some m => metrics_acceptable m | None => true end.

(** The columns hold the values and no unique index is violated. *)
Definition accepted (t : Z * Z * Z) (c : Customer) (T : string) (d : CustDb) : Prop :=
  parts_fit c = true ∧ distinct (customers (saved t c T d))
  ∧ distinct (customerProfiles (saved t c T d)) ∧ distinct (customerMetrics (saved t c T d)).

Section save.
Context {HE : Env} {HS : SqlScan}.
Implicit Types (w : CustW) (c : Customer).

(** A step that writes [d'], if [ok], and throws otherwise; it may read the clock. *)
Definition step_to (m : M CustW unit) w (ok : Prop) (d' : CustDb) (k : nat) : Prop :=
  (ok ∧ m w = (Ok tt, w <| ticks := k |> <| db := d' |>))
  ∨ (¬ ok ∧ ∃ e d2, m w = (Throw e, w <| ticks := k |> <| db := d2 |>)).

Lemma date_bind {B} (k : Z → M CustW B) w :
  (new_Date ≫= k) w = k (env_clock (ticks w)) (w <| ticks ::= S |>).
Proof. done. Qed.
Lemma result_bind_run {A B} (r : result A) (k : A → M CustW B) w :
  (of_result r ≫= k) w = match r with Ok a => k a w | Throw e => (Throw e, w) end.
Proof. by destruct r. Qed.

(** A checked column, then a statement that fails on a duplicate key. *)
Lemma write_step {A R} {HT : Table CustDb R} {HR : Row R} (fits : bool) (r : A)
    (f : A → list R → result (list R)) (l : list R) w :
  f r (rows (db w)) = unique l →
  step_to (raw ← of_result (column fits r); write (f raw)) w
    (fits = true ∧ distinct l) (with_rows l (db w)) (ticks w).
Proof.
  intros E. unfold step_to. rewrite result_bind_run. unfold column. destruct fits.
  - unfold write. rewrite gets_bind, result_bind_run, E. unfold unique. case_bool_decide.
    + left. split; [done|]. by destruct w.
    + right. split; [by intros []|]. eexists _, (db w). by destruct w.
  - right. split; [by intros []|]. eexists _, (db w). by destruct w.
Qed.

(** A step that first reads the clock. *)
Lemma step_tick (m : Z → M CustW unit) w ok d' k :
  step_to (m (env_clock (ticks w))) (w <| ticks ::= S |>) ok d' k →
  step_to (t ← new_Date; m t) w ok d' k.
Proof. unfold step_to. rewrite date_bind. by destruct w. Qed.

Lemma save_customer_run c T w :
  ∃ k t, let d' := (db w) <| customers ::= upsert (by_id (id c) T) (row_for t c) |> in
    step_to (save_customer c T) w (customer_fits c = true ∧ distinct (customers d')) d' k.
Proof.
  pose proof (select_find (by_id (id c) T) (customers (db w))) as Hf.
  unfold save_customer, read, step_to. rewrite gets_bind.
  change (rows (db w)) with (customers (db w)). destruct (sql_select _ _) as [r|].
  - exists (S (ticks w)), (env_clock (ticks w)). destruct Hf as [x Hx].
    apply step_tick. unfold raw_customer.
    refine (write_step (customer_fits c) _ _ _ (w <| ticks ::= S |>) _).
    exact (f_equal unique (upsert_some _ (row_for _ c) _ x Hx)).
  - exists (ticks w), 0. unfold raw_customer.
    refine (write_step (customer_fits c) _ _ _ w _).
    exact (f_equal unique (upsert_none _ (row_for _ c) _ Hf)).
Qed.

Lemma save_profile_run i T p w :
  ∃ k t, let d' := (db w) <| customerProfiles ::=
                     upsert (of_customer_profile i T) (profile_for t p) |> in
    step_to (save_profile i T p) w (profile_fits p = true ∧ distinct (customerProfiles d')) d' k.
Proof.
  pose proof (select_find (of_customer_profile i T) (customerProfiles (db w))) as Hf.
  exists (S (ticks w)), (env_clock (ticks w)). unfold save_profile. apply step_tick.
  unfold read, step_to. rewrite gets_bind.
  change (rows (db (w <| ticks ::= S |>))) with (customerProfiles (db w)).
  destruct (sql_select _ _) as [r|]; unfold raw_profile.
  - destruct Hf as [x Hx]. refine (write_step (profile_fits p) _ _ _ (w <| ticks ::= S |>) _).
    exact (f_equal unique (upsert_some _ (profile_for _ p) _ x Hx)).
  - refine (write_step (profile_fits p) _ _ _ (w <| ticks ::= S |>) _).
    exact (f_equal unique (upsert_none _ (profile_for _ p) _ Hf)).
Qed.

(** A step that reads the tables or checks a value. *)
Lemma step_gets {A} (f : CustW → A) (m : A → M CustW unit) w ok d' k :
  step_to (m (f w)) w ok d' k → step_to (gets f ≫= m) w ok d' k.
Proof. done. Qed.
Lemma step_value {A} (a : A) (m : A → M CustW unit) w ok d' k :
  step_to (m a) w ok d' k → step_to (of_result (Ok a) ≫= m) w ok d' k.
Proof. done. Qed.
Lemma step_error {A} e (m : A → M CustW unit) w (ok : Prop) d' :
  ¬ ok → step_to (of_result (Throw e) ≫= m) w ok d' (ticks w).
Proof. intros Hn. right. split; [done|]. exists e, (db w). by destruct w. Qed.

Lemma save_metrics_run i T m w :
  ∃ k t, let d' := (db w) <| customerMetrics ::=
                     upsert (of_customer_metrics i T) (metrics_for t m) |> in
    step_to (save_metrics i T m) w
      (metrics_acceptable m = true ∧ distinct (customerMetrics d')) d' k.
Proof.
  pose proof (select_find (of_customer_metrics i T) (customerMetrics (db w))) as Hf.
  unfold save_metrics, metrics_acceptable, metrics_for, cents, read.
  destruct (Metrics.totalSpend m) as [spend|]; cbn [mbind option_bind fixed2].
  2:{ exists (ticks w), 0. apply step_error. by intros []. }
  destruct (Metrics.lifetimeValue m) as [value|]; cbn [mbind option_bind fixed2].
  2:{ exists (ticks w), 0. apply step_value, step_error. rewrite andb_false_r. by intros []. }
  exists (S (ticks w)), (env_clock (ticks w)). do 2 apply step_value. apply step_tick, step_gets.
  destruct (toFixed2 spend) as [s|]; [apply step_value|apply step_error; by intros []].
  destruct (toFixed2 value) as [v|];
    [apply step_value|apply step_error; rewrite andb_false_r; by intros []].
  set (w1 := w <| ticks ::= S |>) in *. cbn [default bool_decide].
  change (rows (db w1)) with (customerMetrics (db w)).
  destruct (sql_select _ _) as [r|].
  - destruct Hf as [x Hx].
    refine (write_step (metrics_fit m) tt _ _ w1 _).
    exact (f_equal unique (upsert_some _ (metrics_at s v _ m) _ x Hx)).
  - refine (write_step (metrics_fit m) tt _ _ w1 _).
    exact (f_equal unique (upsert_none _ (metrics_at s v _ m) _ Hf)).
Qed.

(** Sequencing steps, the second one perhaps skipped. *)
Lemma step_seq (m : M CustW unit) (n : M CustW unit) w ok d' k ok2 d2 k2 :
  step_to m w ok d' k →
  step_to n (w <| ticks := k |> <| db := d' |>) ok2 d2 k2 →
  ∃ k', step_to (m ;; n) w (ok ∧ ok2) d2 k'.
Proof.
  intros [[Hok E]|[Hn (e & d3 & E)]] Hs.
  - exists k2. destruct Hs as [[H2 E2]|[H2 (e & d3 & E2)]].
    + left. split; [done|]. by rewrite (bind_ok _ _ _ _ _ E), E2.
    + right. split; [by intros []|]. exists e, d3. by rewrite (bind_ok _ _ _ _ _ E), E2.
  - exists k. right. split; [by intros []|]. exists e, d3. by rewrite (bind_throw _ _ _ _ _ E).
Qed.

Lemma save_profile_part c T w :
  ∃ k t, let d' := (db w) <| customerProfiles ::= if_some (profile c)
                     (λ p, upsert (of_customer_profile (id c) T) (profile_for t p)) |> in
    step_to (optional (profile c) (save_profile (id c) T)) w
      (match profile c with
       | Some p => profile_fits p = true ∧ distinct (customerProfiles d')
       | None => True
       end) d' k.
Proof.
  destruct (profile c) as [p|]; [apply save_profile_run|]. exists (ticks w), 0. left.
  split; [done|]. by destruct w as [[]].
Qed.
Lemma save_metrics_part c T w :
  ∃ k t, let d' := (db w) <| customerMetrics ::= if_some (metrics c)
                     (λ m, upsert (of_customer_metrics (id c) T) (metrics_for t m)) |> in
    step_to (optional (metrics c) (save_metrics (id c) T)) w
      (match metrics c with
       | Some m => metrics_acceptable m = true ∧ distinct (customerMetrics d')
       | None => True
       end) d' k.
Proof.
  destruct (metrics c) as [m|]; [apply save_metrics_run|]. exists (ticks w), 0. left.
  split; [done|]. by destruct w as [[]].
Qed.

(** [save] writes [saved] if that is accepted, and throws otherwise, leaving the
    tables as they were. *)
Lemma save_run c T w :
  wf (db w) →
  ∃ k t,
    accepted t c T (db w) ∧ save c T w = (Ok c, w <| ticks := k |> <| db := saved t c T (db w) |>)
    ∨ ¬ accepted t c T (db w) ∧ ∃ e, save c T w = (Throw e, w <| ticks := k |>).
Proof.
  intros Hwf. set (w1 := w <| ticks ::= S |>).
  destruct (save_customer_run c T w1) as (k1 & t1 & H1). cbv zeta in H1.
  set (d1 := (db w1) <| customers ::= _ |>) in H1.
  destruct (save_profile_part c T (w1 <| ticks := k1 |> <| db := d1 |>)) as (k2 & t2 & H2).
  cbv zeta in H2. set (d2 := (db _) <| customerProfiles ::= _ |>) in H2.
  destruct (save_metrics_part c T (w1 <| ticks := k2 |> <| db := d2 |>)) as (k3 & t3 & H3).
  cbv zeta in H3. set (d3 := (db _) <| customerMetrics ::= _ |>) in H3.
  destruct (step_seq _ _ _ _ _ _ _ _ _ H2 H3) as (k4 & H4).
  destruct (step_seq _ _ _ _ _ _ _ _ _ H1 H4) as (k & H). clear H1 H2 H3 H4.
  exists k, (t1, t2, t3). unfold save. rewrite date_bind. fold w1.
  match type of H with step_to _ _ ?ok _ _ => assert (ok ↔ accepted (t1, t2, t3) c T (db w)) as Hok end.
  { unfold accepted, parts_fit. rewrite !andb_true_iff.
    change (customers (saved _ _ _ _)) with (customers d1).
    change (customerProfiles (saved _ _ _ _)) with (customerProfiles d2).
    change (customerMetrics (saved _ _ _ _)) with (customerMetrics d3).
    assert (profile c = None → distinct (customerProfiles d2)) as Hp.
    { unfold d2. intros ->. exact (wf_profiles _ Hwf). }
    assert (metrics c = None → distinct (customerMetrics d3)) as Hm.
    { unfold d3. intros ->. exact (wf_metrics _ Hwf). }
    destruct (profile c), (metrics c); naive_solver. }
  destruct H as [[H E]|[H (e & d' & E)]]; [left|right]; (split; [by rewrite <- Hok|]).
  - erewrite bind_ok; [reflexivity|]. unfold transaction. by rewrite E.
  - exists e. erewrite bind_throw; [reflexivity|]. unfold transaction. rewrite E. by destruct w.
Qed.
End save.

(** ** What is read after a save *)
Section after.
Context {HE : Env} {HS : SqlScan} (t : Z * Z * Z) (c : Customer) (T : string) (d : CustDb).
Context (Hown : own T c) (Hwf : wf d) (Hwf' : wf (saved t c T d)).
#[local] Abbreviation d' := (saved t c T d).

(** The entry that is written: the new rows, and the old ones of the parts that the
    customer does not have. *)
Definition saved_row : Joined :=
  {| j_customer := row_for t.1.1 c (js_find (by_id (id c) T) (customers d));
     j_profile := match profile c with
       | Some p => Some (profile_for t.1.2 p
                     (js_find (of_customer_profile (id c) T) (customerProfiles d)))
       | None => js_find (λ p, String.eqb (id c) (pr_customerId p)) (customerProfiles d)
       end;
     j_metrics := match metrics c with
       | Some m => Some (metrics_for t.2 m
                     (js_find (of_customer_metrics (id c) T) (customerMetrics d)))
       | None => js_find (λ m, String.eqb (id c) (mr_customerId m)) (customerMetrics d)
       end |}.

Lemma row_for_id u o : cr_id (row_for u c o) = id c.
Proof. by destruct o. Qed.
Lemma row_for_tenant u o : cr_tenantId (row_for u c o) = T.
Proof. destruct Hown as [E _]. by destruct o. Qed.
Lemma row_for_email a u o : by_email a T (row_for u c o) = String.eqb (email c) a.
Proof.
  unfold by_email. rewrite row_for_tenant, String.eqb_refl, andb_true_r. by destruct o.
Qed.
Lemma row_for_external e u o :
  by_external e T (row_for u c o) = bool_decide (js_or_undef (externalCustomerId c) = Some e).
Proof.
  unfold by_external. rewrite row_for_tenant, String.eqb_refl, andb_true_r. by destruct o.
Qed.
Lemma row_for_by_id u o : by_id (id c) T (row_for u c o) = true.
Proof. apply by_id_true. split; [apply row_for_id|apply row_for_tenant]. Qed.

Lemma saved_customer : js_find (by_id (id c) T) (customers d') = Some (j_customer saved_row).
Proof. apply upsert_find. apply row_for_by_id. Qed.

Lemma saved_known : known (id c) T d'.
Proof.
  destruct (find_true _ _ _ saved_customer) as [Hin [E1 E2]%by_id_true].
  by exists (j_customer saved_row).
Qed.

Lemma profile_for_of u p o :
  profile c = Some p → of_customer_profile (id c) T (profile_for u p o) = true.
Proof.
  intros E. destruct Hown as (_ & Hp & _). unfold own_profile in Hp. rewrite E in Hp.
  apply of_customer_profile_true. by destruct o, Hp.
Qed.
Lemma metrics_for_of u m o :
  metrics c = Some m → of_customer_metrics (id c) T (metrics_for u m o) = true.
Proof.
  intros E. destruct Hown as (_ & _ & Hm). unfold own_metrics in Hm. rewrite E in Hm.
  apply of_customer_metrics_true. by destruct o, Hm.
Qed.

Lemma saved_profile :
  js_find (λ p, String.eqb (id c) (pr_customerId p)) (customerProfiles d') = j_profile saved_row.
Proof.
  cbn [j_profile saved_row]. destruct (profile c) as [p|] eqn:E.
  - rewrite (find_ext _ (of_customer_profile (id c) T)).
    + replace (customerProfiles d') with (upsert (of_customer_profile (id c) T)
        (profile_for t.1.2 p) (customerProfiles d)) by (cbn; by rewrite E).
      apply upsert_find. intros o. by apply profile_for_of.
    + intros r Hr. unfold of_customer_profile. rewrite String.eqb_sym.
      destruct (String.eqb_spec (pr_customerId r) (id c)) as [Ei|]; [|done].
      pose proof (wf_profile_customer _ Hwf' r Hr) as Hk. rewrite Ei in Hk. cbn.
      by rewrite (known_tenant d' _ _ _ Hwf' Hk saved_known), String.eqb_refl.
  - f_equal. cbn. by rewrite E.
Qed.
Lemma saved_metrics :
  js_find (λ m, String.eqb (id c) (mr_customerId m)) (customerMetrics d') = j_metrics saved_row.
Proof.
  cbn [j_metrics saved_row]. destruct (metrics c) as [m|] eqn:E.
  - rewrite (find_ext _ (of_customer_metrics (id c) T)).
    + replace (customerMetrics d') with (upsert (of_customer_metrics (id c) T)
        (metrics_for t.2 m) (customerMetrics d)) by (cbn; by rewrite E).
      apply upsert_find. intros o. by apply metrics_for_of.
    + intros r Hr. unfold of_customer_metrics. rewrite String.eqb_sym.
      destruct (String.eqb_spec (mr_customerId r) (id c)) as [Ei|]; [|done].
      pose proof (wf_metrics_customer _ Hwf' r Hr) as Hk. rewrite Ei in Hk. cbn.
      by rewrite (known_tenant d' _ _ _ Hwf' Hk saved_known), String.eqb_refl.
  - f_equal. cbn. by rewrite E.
Qed.

Lemma saved_row_of : row_of d' (j_customer saved_row) = saved_row.
Proof.
  unfold row_of. change (cr_id (j_customer saved_row)) with (cr_id (row_for t.1.1 c
    (js_find (by_id (id c) T) (customers d)))).
  rewrite row_for_id, saved_profile, saved_metrics. done.
Qed.
Lemma saved_view : view d' (id c) T = Some saved_row.
Proof. unfold view, lookup_row. rewrite saved_customer.
  exact (f_equal Some saved_row_of). Qed.

(** Any key of the saved row finds it. *)
Lemma saved_lookup p :
  p (j_customer saved_row) = true →
  (∀ x y, x ∈ customers d' → y ∈ customers d' → p x = true → p y = true → x = y) →
  lookup_row p d' = Some saved_row.
Proof.
  intros Hp Hu. unfold lookup_row. rewrite (find_unique p _ (j_customer saved_row)).
  - exact (f_equal Some saved_row_of).
  - by destruct (find_true _ _ _ saved_customer).
  - done.
  - intros x Hx Hpx. apply Hu; [done| |done..]. by destruct (find_true _ _ _ saved_customer).
Qed.

(** A key of neither the saved row nor the one before finds what it found. *)
Lemma saved_other p :
  (∀ r, by_id (id c) T r = true → p r = false) → lookup_row p d' = lookup_row p d.
Proof.
  intros Hp. unfold lookup_row.
  assert (js_find p (customers d') = js_find p (customers d)) as E.
  { apply upsert_other; [done|]. intros o. by apply Hp, row_for_by_id. }
  rewrite E. destruct (js_find p (customers d)) as [r|] eqn:Er; [|done]. cbn. f_equal.
  assert (String.eqb (cr_id r) (id c) = false) as Hne.
  { apply String.eqb_neq. intros Ei.
    assert (js_find p (customers d') = Some r) as [Hin Hpr]%find_true by congruence.
    assert (known (cr_id r) (cr_tenantId r) d') as Hk by (by exists r). rewrite Ei in Hk.
    rewrite Hp in Hpr; [done|]. apply by_id_true. split; [done|].
    exact (known_tenant d' _ _ _ Hwf' Hk saved_known). }
  unfold row_of. f_equal; cbn.
  - destruct (profile c) as [p'|] eqn:Ep; [|done]. apply upsert_other.
    + intros x [Ex _]%of_customer_profile_true. by rewrite Ex.
    + intros o. pose proof (profile_for_of t.1.2 p' o Ep) as [Ex _]%of_customer_profile_true.
      by rewrite Ex.
  - destruct (metrics c) as [m|] eqn:Em; [|done]. apply upsert_other.
    + intros x [Ex _]%of_customer_metrics_true. by rewrite Ex.
    + intros o. pose proof (metrics_for_of t.2 m o Em) as [Ex _]%of_customer_metrics_true.
      by rewrite Ex.
Qed.

Lemma saved_other_view i : i ≠ id c → view d' i T = view d i T.
Proof.
  intros Hne. apply saved_other. intros r [E _]%by_id_true. apply not_true_iff_false.
  intros [E2 _]%by_id_true. congruence.
Qed.
End after.

(** A save that returns: the tables it leaves are well formed. *)
Lemma save_spec `{Env, SqlScan} c T w :
  wf (db w) → own T c →
  ∃ k t,
    accepted t c T (db w) ∧ wf (saved t c T (db w))
    ∧ save c T w = (Ok c, w <| ticks := k |> <| db := saved t c T (db w) |>)
    ∨ ¬ accepted t c T (db w) ∧ ∃ e, save c T w = (Throw e, w <| ticks := k |>).
Proof.
  intros Hwf Ho. destruct (save_run c T w Hwf) as (k & t & [[Ha E]|Hn]); exists k, t;
    [left|by right]. split; [done|]. split; [|done].
  destruct (save_safe T (λ _, True) c Ho w Hwf I) as (Hwf' & _).
  unfold final in Hwf'. by rewrite E in Hwf'.
Qed.
