(* ===== verification/CustomerProofs.v ===== *)
(** * Customers: what the services promise

    What is saved is read back; an e-mail belongs to one customer; channel identities
    resolve to one customer, unless two of them share a synthetic address; a merge
    adds up the metrics and leaves the source its addresses; and the amounts that the
    metrics job adds. *)

From S2P Require Import Prelude Platform JsValue Double Sql Customer CustomerRepo.
From S2P Require Import CustomerService CustomerIsolation CustomerViews.
Open Scope Z_scope.

(** ** Value objects are canonical *)
Lemma email_create_idem s v : CustomerEmail_create s = Ok v → CustomerEmail_create v = Ok v.
Proof.
  unfold CustomerEmail_create. destruct (email_pattern _) eqn:E; [|done]. intros [= <-].
  by rewrite js_lower_trim_idem, E.
Qed.
Lemma phone_create_idem s v : CustomerPhone_create s = Ok v → CustomerPhone_create v = Ok v.
Proof.
  unfold CustomerPhone_create. destruct (_ && _) eqn:E; [done|]. intros [= <-].
  by rewrite js_trim_idem, E.
Qed.
Lemma language_create_idem s v :
  CustomerLanguage_create s = Ok v → CustomerLanguage_create v = Ok v.
Proof.
  unfold CustomerLanguage_create. destruct (_ && _) eqn:E; [|done]. intros [= <-].
  by rewrite js_lower_trim_idem, E.
Qed.
Lemma timezone_create_idem s v :
  CustomerTimezone_create s = Ok v → CustomerTimezone_create v = Ok v.
Proof.
  unfold CustomerTimezone_create. destruct (_ && _) eqn:E; [|done]. intros [= <-].
  by rewrite js_trim_idem, E.
Qed.
Lemma email_create_value s v : CustomerEmail_create s = Ok v → v = js_lower (js_trim s).
Proof. unfold CustomerEmail_create. destruct (email_pattern _); [|done]. by intros [= <-]. Qed.
Lemma language_nonempty s v : CustomerLanguage_create s = Ok v → truthy v = true.
Proof.
  unfold CustomerLanguage_create. destruct (_ && _) eqn:E; [|done]. intros [= <-].
  by apply andb_true_iff in E as [E _].
Qed.
Lemma timezone_nonempty s v : CustomerTimezone_create s = Ok v → truthy v = true.
Proof.
  unfold CustomerTimezone_create. destruct (_ && _) eqn:E; [|done]. intros [= <-].
  by apply andb_true_iff in E as [E _].
Qed.

(** The values of an aggregate are those of its value objects, and its metrics have
    all their fields. *)
Record valid (c : Customer) : Prop := {
  valid_email : CustomerEmail_create (email c) = Ok (email c);
  valid_phone p : phone c = Some p → truthy p = true → CustomerPhone_create p = Ok p;
  valid_language : CustomerLanguage_create (preferredLanguage c) = Ok (preferredLanguage c);
  valid_timezone : CustomerTimezone_create (timezone c) = Ok (timezone c);
}.
Definition complete (m : Metrics.CustomerMetrics) : Prop :=
  is_Some (Metrics.totalConversations m) ∧ is_Some (Metrics.totalTickets m)
  ∧ is_Some (Metrics.totalOrders m) ∧ is_Some (Metrics.averageCsat m)
  ∧ is_Some (Metrics.averageResponseTime m) ∧ is_Some (Metrics.averageResolutionTime m)
  ∧ is_Some (Metrics.sentimentScore m) ∧ is_Some (Metrics.riskScore m)
  ∧ is_Some (Metrics.vipStatus m).

(** ** Reading back *)

(** What the columns keep: empty texts become [null], amounts have two decimals. *)
Definition stored_profile (p : Profiles.CustomerProfile) (created updated : Z)
    : Profiles.CustomerProfile :=
  p <| Profiles.firstName ::= js_or_undef |> <| Profiles.lastName ::= js_or_undef |>
    <| Profiles.displayName ::= js_or_undef |> <| Profiles.avatarUrl ::= js_or_undef |>
    <| Profiles.company ::= js_or_undef |> <| Profiles.jobTitle ::= js_or_undef |>
    <| Profiles.country ::= js_or_undef |> <| Profiles.city ::= js_or_undef |>
    <| Profiles.state ::= js_or_undef |> <| Profiles.postalCode ::= js_or_undef |>
    <| Profiles.createdAt := created |> <| Profiles.updatedAt := updated |>.
Definition two_decimals (x : option double) : option double := of_numeric <$> cents x.
Definition stored_metrics (m : Metrics.CustomerMetrics) (created updated : Z)
    : Metrics.CustomerMetrics :=
  m <| Metrics.totalSpend ::= two_decimals |> <| Metrics.lifetimeValue ::= two_decimals |>
    <| Metrics.averageCsat ::= fmap or_zero |> <| Metrics.sentimentScore ::= fmap or_zero |>
    <| Metrics.riskScore ::= fmap or_zero |>
    <| Metrics.createdAt := created |> <| Metrics.updatedAt := updated |>.

(** [c'] is what [c] is after a save and a read. *)
Record read_back (c c' : Customer) : Prop := {
  rb_id : id c' = id c;
  rb_tenant : tenantId c' = tenantId c;
  rb_external : externalCustomerId c' = js_or_undef (externalCustomerId c);
  rb_email : email c' = email c;
  rb_phone : phone c' = js_or_undef (phone c);
  rb_status : status c' = status c;
  rb_language : preferredLanguage c' = preferredLanguage c;
  rb_timezone : timezone c' = timezone c;
  rb_seen : lastSeenAt c' = lastSeenAt c;
  rb_source : source c' = js_or (Some (source c)) "API";
  rb_metadata : metadata c' = Some (default ∅ (metadata c));
  rb_deleted : deletedAt c' = deletedAt c;
  rb_version : version c' = js_or (Some (version c)) 1;
  rb_profile p : profile c = Some p → ∃ t u, profile c' = Some (stored_profile p t u);
  rb_metrics m : metrics c = Some m → complete m →
    ∃ t u, metrics c' = Some (stored_metrics m t u);
}.

#[local] Arguments js_or_undef : simpl never.
Lemma profile_read_back u p o :
  ∃ t v, profile_toDomain (profile_for u p o) = stored_profile p t v.
Proof.
  exists (pr_createdAt (profile_for u p o)), (pr_updatedAt (profile_for u p o)).
  unfold stored_profile, profile_toDomain. destruct o; cbn; by rewrite !js_or_undef_idem.
Qed.

Lemma metrics_read_back u m o :
  complete m → metrics_acceptable m = true →
  ∃ t v, metrics_toDomain (metrics_for u m o) = stored_metrics m t v.
Proof.
  intros Hc Ha. unfold metrics_acceptable in Ha.
  apply andb_true_iff in Ha as [[Hs Hl]%andb_true_iff _].
  apply bool_decide_eq_true in Hs as [s Hs]. apply bool_decide_eq_true in Hl as [l Hl].
  exists (mr_createdAt (metrics_for u m o)), (mr_updatedAt (metrics_for u m o)).
  unfold metrics_for. rewrite Hs, Hl. unfold stored_metrics, two_decimals. cbn [default].
  destruct Hc as ([? E1] & [? E2] & [? E3] & [? E4] & [? E5] & [? E6] & [? E7] & [? E8] & [? E9]).
  destruct m. cbn in *. subst. rewrite Hs, Hl. by destruct o.
Qed.

Lemma optional_phone_ok c :
  valid c →
  match js_or_undef (js_or_undef (phone c)) with
  | Some p => p ← CustomerPhone_create p; Ok (Some p)
  | None => Ok None
  end = Ok (js_or_undef (phone c)).
Proof.
  intros Hv. rewrite js_or_undef_idem. destruct (js_or_undef (phone c)) as [p|] eqn:E; [|done].
  unfold js_or_undef in E. destruct (phone c) as [p'|] eqn:Ep; [|done].
  destruct (truthy p') eqn:Et; [|done]. injection E as ->.
  unfold mbind, result_bind. by rewrite (valid_phone c Hv p Ep Et).
Qed.

Lemma toDomain_columns u c o p m :
  valid c →
  toDomain {| j_customer := row_for u c o; j_profile := p; j_metrics := m |}
  = Ok {| id := id c; tenantId := tenantId c;
          externalCustomerId := js_or_undef (js_or_undef (externalCustomerId c));
          email := email c; phone := js_or_undef (phone c); status := status c;
          preferredLanguage := preferredLanguage c; timezone := timezone c;
          lastSeenAt := lastSeenAt c; source := js_or (Some (source c)) "API";
          metadata := Some (default ∅ (metadata c));
          createdAt := cr_createdAt (row_for u c o); updatedAt := cr_updatedAt (row_for u c o);
          deletedAt := deletedAt c; version := js_or (Some (version c)) 1;
          profile := profile_toDomain <$> p; metrics := metrics_toDomain <$> m;
          domainEvents := [] |}.
Proof.
  intros Hv. unfold toDomain. cbn [j_customer j_profile j_metrics].
  assert (∀ A (k : _ → result A), (x ← CustomerEmail_create (email c); k x) = k (email c)) as He
    by (intros; by rewrite (valid_email c Hv)).
  assert (∀ A (k : _ → result A), (x ← CustomerLanguage_create
     (js_or (Some (preferredLanguage c)) "en"); k x) = k (preferredLanguage c)) as Hl.
  { intros. unfold js_or. rewrite (language_nonempty _ _ (valid_language c Hv)).
    by rewrite (valid_language c Hv). }
  assert (∀ A (k : _ → result A), (x ← CustomerTimezone_create
     (js_or (Some (timezone c)) "UTC"); k x) = k (timezone c)) as Ht.
  { intros. unfold js_or. rewrite (timezone_nonempty _ _ (valid_timezone c Hv)).
    by rewrite (valid_timezone c Hv). }
  assert (∀ A (k : _ → result A), (x ← CustomerStatus_create (enum_str (status c)); k x)
     = k (status c)) as Hs by (intros; unfold CustomerStatus_create; by rewrite parse_enum_str).
  assert (let r := row_for u c o in
     cr_email r = email c ∧ cr_phone r = js_or_undef (phone c)
     ∧ cr_status r = enum_str (status c) ∧ cr_preferredLanguage r = preferredLanguage c
     ∧ cr_timezone r = timezone c) as (-> & -> & -> & -> & ->) by (by destruct o).
  rewrite He, (optional_phone_ok c Hv). cbn [mbind result_bind]. rewrite Hs, Hl, Ht.
  by destruct o.
Qed.

Lemma toDomain_saved t c T d :
  own T c → valid c → parts_fit c = true →
  ∃ c', toDomain (saved_row t c T d) = Ok c' ∧ read_back c c'.
Proof.
  intros Ho Hv Hfit. unfold saved_row. rewrite toDomain_columns by done. eexists.
  split; [reflexivity|]. split; try reflexivity.
  - apply js_or_undef_idem.
  - intros p E. cbn. rewrite E. cbn.
    destruct (profile_read_back t.1.2 p (js_find (of_customer_profile (id c) T)
                (customerProfiles d))) as (x & y & Exy).
    exists x, y. by rewrite Exy.
  - intros m E Hm. cbn. rewrite E. cbn. unfold parts_fit in Hfit. rewrite E in Hfit.
    apply andb_true_iff in Hfit as [_ Ha].
    destruct (metrics_read_back t.2 m (js_find (of_customer_metrics (id c) T)
                (customerMetrics d)) Hm Ha) as (x & y & Exy).
    exists x, y. by rewrite Exy.
Qed.

(** ** Saving and finding *)
Section service.
Context {HE : Env} {HS : SqlScan} {HJ : JsonDouble} {HD : CustDeps}.
Implicit Types (w : CustW) (c : Customer).

(** The queries of one customer, by all its keys. *)
Definition found_by_keys T c c' w : Prop :=
  findById (id c) T w = (Ok (Some c'), w)
  ∧ (∀ address, js_lower (js_trim address) = email c →
       findByEmail address T w = (Ok (Some c'), w))
  ∧ (∀ e, externalCustomerId c = Some e → e ≠ "" →
       findByExternalId e T w = (Ok (Some c'), w)).

Lemma saved_found t c T d w :
  own T c → valid c → parts_fit c = true → wf d → db w = saved t c T d → wf (db w) →
  ∃ c', read_back c c' ∧ found_by_keys T c c' w.
Proof.
  intros Ho Hv Hfit Hd Ed Hwf. destruct (toDomain_saved t c T d Ho Hv Hfit) as (c' & Ec & Hrb).
  assert (∀ j, j = Some (saved_row t c T d) → reads j = Ok (Some c')) as Hr.
  { intros j ->. unfold reads, mbind, result_bind. by rewrite Ec. }
  assert (wf (saved t c T d)) as Hwfs by by rewrite <- Ed.
  exists c'. split; [done|]. split; [|split].
  - rewrite findById_view by done. f_equal. apply Hr. rewrite Ed. by apply saved_view.
  - intros address Ea. rewrite findByEmail_view by done. f_equal. apply Hr. rewrite Ed.
    apply saved_lookup; [done..| |intros x y; by apply email_unique].
    rewrite Ea. etransitivity; [by apply row_for_email|]. apply String.eqb_refl.
  - intros e Ee Hne. rewrite findByExternalId_view by done. f_equal. apply Hr. rewrite Ed.
    apply saved_lookup; [done..| |intros x y; by apply external_unique].
    etransitivity; [by apply row_for_external|]. apply bool_decide_eq_true.
    rewrite Ee. unfold js_or_undef, truthy, string_truthy.
    by rewrite (proj2 (String.eqb_neq e "") Hne).
Qed.


(** *** Enrolling a customer *)
Lemma frame {A} (m : M CustW A) w a w' : keeps (same db) m → m w = (Ok a, w') → db w' = db w.
Proof. intros Hm E. specialize (Hm w). unfold final, same in Hm. by rewrite E in Hm. Qed.

(** The customer with the metrics it starts with. *)
Definition with_zero_metrics T (now : Z) (m : string * Z * Z) c : Customer :=
  setMetrics now (Metrics.zero T (id c) m.1.1 m.1.2 m.2) c.

Lemma saved_inv T c w a w' :
  own T c → wf (db w) → save c T w = (Ok a, w') →
  ∃ t, accepted t c T (db w) ∧ db w' = saved t c T (db w) ∧ wf (db w').
Proof.
  intros Ho Hwf E. destruct (save_spec c T w Hwf Ho) as (k & t & [(Ha & Hwf' & Es)|(_ & ex & Es)]);
    rewrite Es in E; [|discriminate E].
  injection E as _ <-. by exists t.
Qed.

Lemma save_and_publish_inv T c w c' w' :
  own T c → wf (db w) → save_and_publish c T w = (Ok c', w') →
  ∃ t, c' = clearEvents c ∧ accepted t c T (db w) ∧ db w' = saved t c T (db w) ∧ wf (db w').
Proof.
  intros Ho Hwf E. unfold save_and_publish in E. run_inv E. injection E as <- <-.
  destruct (saved_inv _ _ _ _ _ Ho Hwf Hrun) as (t & Ha & Ed & Hwf').
  exists t. rewrite (frame _ _ _ _ (customer_events_db _) Hrun0). done.
Qed.

Lemma enroll_inv T u f c w c' w' :
  own T c → wf (db w) → CustomerService.enroll T u f c w = (Ok c', w') →
  ∃ now m t, let z := with_zero_metrics T now m c in
    c' = clearEvents z ∧ own T z ∧ accepted t z T (db w) ∧ db w' = saved t z T (db w)
    ∧ wf (db w').
Proof.
  intros Ho Hwf E. unfold CustomerService.enroll in E. run_inv E.
  rename a into m. injection E as <- <-.
  assert (∃ i x y, m = Metrics.zero T (id c) i x y) as (i & x & y & ->).
  { unfold zero_metrics in Hrun. run_inv Hrun. injection Hrun as <- _. by eexists _, _, _. }
  pose proof (frame _ _ _ _ (zero_metrics_db _ _) Hrun) as D1.
  pose proof (frame _ _ _ _ new_Date_db Hrun0) as D2. rewrite D1 in D2.
  assert (own T (with_zero_metrics T a0 (i, x, y) c)) as Hz
    by (destruct Ho as (? & ? & _); by split_and!).
  apply save_and_publish_inv in Hrun1 as (t & -> & Ha & Ed & Hwf'); [|done|by rewrite D2].
  pose proof (frame _ _ _ _ (audit_log_db _ _ _ _) Hrun2) as D3.
  pose proof (frame _ _ _ _ (triggers_db _ _ _) Hrun3) as D4.
  exists a0, (i, x, y), t. rewrite D2 in *. rewrite D4, D3. done.
Qed.

(** *** Creating a customer *)

(** The e-mail is free, and its holder afterwards is the customer created. *)
Lemma create_inv T dto u w c w' :
  wf (db w) → CustomerService.create T dto u w = (Ok c, w') →
  ∃ z t, lookup_row (by_email (js_lower (js_trim (c_email dto))) T) (db w) = None
    ∧ c = clearEvents z ∧ own T z ∧ valid z ∧ (∃ m, metrics z = Some m ∧ complete m)
    ∧ email z = js_lower (js_trim (c_email dto)) ∧ externalCustomerId z = c_externalCustomerId dto
    ∧ status z = ACTIVE ∧ deletedAt z = None
    ∧ accepted t z T (db w) ∧ db w' = saved t z T (db w) ∧ wf (db w').
Proof.
  intros Hwf E. unfold CustomerService.create in E. run_inv E.
  rewrite findByEmail_view in Hrun by done. injection Hrun as Hr <-.
  destruct (lookup_row _ (db w)) as [j|] eqn:Ej.
  { unfold reads, mbind, result_bind in Hr. destruct (toDomain j); [|done].
    injection Hr as <-. done. }
  injection Hr as <-. injection Hrun0 as _ <-.
  pose proof (frame _ _ _ _ randomUUID_db Hrun1) as D1.
  injection Hrun3 as He <-. injection Hrun4 as Hp <-. injection Hrun5 as Hl <-.
  injection Hrun6 as Ht <-.
  pose proof (frame _ _ _ _ new_Date_db Hrun7) as D7.
  pose proof (frame _ _ _ _ new_Date_db Hrun8) as D8.
  assert (db s2 = db s1 ∧ match a2 with
            | Some p => Profiles.tenantId p = T ∧ Profiles.customerId p = a1
            | None => True
            end) as [D2 Hown].
  { destruct (c_profile dto) as [p|]; [|by injection Hrun2 as <- <-].
    apply bind_inv in Hrun2 as (q & s' & Hq & Hrun2). injection Hrun2 as <- <-.
    split; [|exact (new_profile_own _ _ _ _ _ _ _ Hq)].
    exact (frame _ _ _ _ (new_profile_db _ _ _ _) Hq). }
  assert (db s8 = db w) as D by congruence.
  apply enroll_inv in E; [|by split_and!|by rewrite D]. cbv zeta in E.
  destruct E as (now & m & t & -> & Ho & Ha & Ed & Hwf'). rewrite D in *.
  set (z := with_zero_metrics _ _ _ _) in *. exists z, t.
  assert (valid z) as Hv.
  { split; cbn.
    - by eapply email_create_idem.
    - intros p -> _. unfold CustomerService.optional_phone, mbind, result_bind in Hp.
      destruct (js_or_undef (c_phone dto)) as [q|]; [|done].
      destruct (CustomerPhone_create q) as [p'|] eqn:Eq; [|done]. injection Hp as ->.
      by eapply phone_create_idem.
    - by eapply language_create_idem.
    - by eapply timezone_create_idem. }
  split_and!; try done.
  - eexists. split; [reflexivity|]. unfold complete. cbn. eauto 20.
  - cbn. by eapply email_create_value.
Qed.


(** *** Channel identities *)
Lemma findOrCreate_found T ch e ty w c :
  findByExternalId e T w = (Ok (Some c), w) →
  CustomerService.findOrCreateByExternalId T ch e ty w = (Ok c, w).
Proof.
  intros E. unfold CustomerService.findOrCreateByExternalId. by rewrite (bind_ok _ _ _ _ _ E).
Qed.

Lemma findOrCreate_inv T ch e ty w c w' :
  wf (db w) → CustomerService.findOrCreateByExternalId T ch e ty w = (Ok c, w') →
  findByExternalId e T w = (Ok (Some c), w) ∧ w' = w
  ∨ lookup_row (by_external e T) (db w) = None
    ∧ ∃ z t, c = clearEvents z ∧ own T z ∧ valid z
      ∧ email z = js_lower (js_trim (CustomerService.syntheticEmail ch e))
      ∧ externalCustomerId z = Some e ∧ parts_fit z = true
      ∧ db w' = saved t z T (db w) ∧ wf (db w').
Proof.
  intros Hwf E. unfold CustomerService.findOrCreateByExternalId in E.
  apply bind_inv in E as (o & w1 & Ef & E). rewrite findByExternalId_view in Ef by done.
  injection Ef as Er <-. destruct o as [c0|].
  - left. injection E as <- <-. by rewrite findByExternalId_view, Er.
  - right. destruct (lookup_row _ _) as [j|] eqn:Ej.
    { unfold reads, mbind, result_bind in Er. by destruct (toDomain j). }
    split; [done|]. run_inv E. injection Hrun0 as He <-.
    pose proof (frame _ _ _ _ randomUUID_db Hrun) as D1.
    pose proof (frame _ _ _ _ new_Date_db Hrun1) as D2.
    pose proof (frame _ _ _ _ new_Date_db Hrun2) as D3.
    assert (db s2 = db w) as D by congruence.
    apply enroll_inv in E; [|done|by rewrite D]. cbv zeta in E.
    destruct E as (now & m & t & -> & Ho & Ha & Ed & Hwf'). rewrite D in *.
    set (z := with_zero_metrics _ _ _ _) in *. exists z, t. split_and!; try done.
    + split; cbn; try done. by eapply email_create_idem.
    + cbn. by eapply email_create_value.
    + apply Ha.
Qed.


Lemma upsert_keep {R} (q : R → bool) f l x : x ∈ l → q x = false → x ∈ upsert q f l.
Proof.
  intros Hx Hq. unfold upsert. destruct (js_find q l); [|apply elem_of_app; by left].
  apply list_elem_of_fmap. exists x. by rewrite Hq.
Qed.

(** A customer with the e-mail of another one is not accepted. *)
Lemma taken_email t c T d r :
  own T c → r ∈ customers d → by_email (email c) T r = true → cr_id r ≠ id c →
  ¬ accepted t c T d.
Proof.
  intros Ho Hr [He%String.eqb_eq Ht%String.eqb_eq]%andb_true_iff Hne (_ & Hd & _).
  apply Hne. set (x := row_for t.1.1 c (js_find (by_id (id c) T) (customers d))).
  assert (x ∈ customers (saved t c T d)) as Hx
    by (by destruct (find_true _ _ _ (saved_customer t c T d Ho))).
  assert (r ∈ customers (saved t c T d)) as Hr'.
  { apply upsert_keep; [done|]. apply not_true_iff_false. by intros [? _]%by_id_true. }
  rewrite (distinct_key _ r x ["email"; T; email c] Hd Hr' Hx).
  - by apply row_for_id.
  - rewrite <- He, <- Ht. right. left.
  - right. rewrite <- (row_for_tenant c T Ho t.1.1 (js_find (by_id (id c) T) (customers d))).
    replace (email c) with (cr_email x); [left|]. unfold x. by destruct (js_find _ _).
Qed.

Lemma enroll_rejected T u f c w :
  own T c → wf (db w) →
  (∀ t z, id z = id c → email z = email c → own T z → ¬ accepted t z T (db w)) →
  ∃ ex w', CustomerService.enroll T u f c w = (Throw ex, w') ∧ db w' = db w.
Proof.
  intros Ho Hwf Hrej. unfold CustomerService.enroll.
  destruct (zero_metrics T (id c) w) as [[m|ex] w1] eqn:Em.
  2:{ unfold zero_metrics in Em. discriminate Em. }
  rewrite (bind_ok _ _ _ _ _ Em). pose proof (frame _ _ _ _ (zero_metrics_db _ _) Em) as D1.
  rewrite date_bind. set (z := setMetrics _ m c). set (w2 := w1 <| ticks ::= S |>).
  pose proof (zero_metrics_own T (id c) _ _ _ Em) as [Ht Hc].
  assert (own T z) as Hz by (destruct Ho as (? & ? & _); by split_and!).
  assert (db w2 = db w) as D2 by exact D1.
  destruct (save_spec z T w2) as (k & t & [(Ha & _)|(_ & ex & Es)]); [by rewrite D2|done| |].
  - rewrite D2 in Ha. by apply Hrej in Ha.
  - eexists ex, _. split.
    + apply bind_throw. unfold save_and_publish. by apply bind_throw.
    + exact D2.
Qed.

(** Two external ids can have one synthetic address: ids that differ in letter case
    or in characters that an address does not take.  Once a customer was created for
    the first, every message from the second one throws on the unique index of the
    e-mails, and nothing is written for it. *)
Theorem identities_collide T ch e1 ty1 e2 ty2 w c w' :
  wf (db w) → e1 ≠ e2 →
  js_lower (js_trim (CustomerService.syntheticEmail ch e1))
    = js_lower (js_trim (CustomerService.syntheticEmail ch e2)) →
  findByExternalId e1 T w = (Ok None, w) → findByExternalId e2 T w = (Ok None, w) →
  CustomerService.findOrCreateByExternalId T ch e1 ty1 w = (Ok c, w') →
  env_uuid (uuids w') ≠ id c →
  ∃ ex w'', CustomerService.findOrCreateByExternalId T ch e2 ty2 w' = (Throw ex, w'')
    ∧ db w'' = db w'.
Proof.
  intros Hwf Hne Hsyn H1 H2 E Huuid. apply findOrCreate_inv in E as
    [[E _]|(_ & z & t & -> & Ho & Hv & Ee & Ex & Hfit & Ed & Hwf')]; [by rewrite H1 in E|..|done].
  assert (lookup_row (by_external e2 T) (db w') = None) as Hnone.
  { rewrite findByExternalId_view in H2 by done. injection H2 as H2.
    unfold lookup_row in *. destruct (js_find _ (customers (db w'))) as [r|] eqn:Er; [|done].
    apply find_true in Er as [Hr Hx]. exfalso. rewrite Ed in Hr.
    assert (∀ u o, by_external e2 T (row_for u z o) = false) as Hrow.
    { intros u o. rewrite (row_for_external z T Ho), Ex. apply bool_decide_eq_false.
      unfold js_or_undef. destruct (truthy e1); congruence. }
    apply upsert_elem in Hr as [->|[Hr|(r' & _ & _ & ->)]]; [by rewrite Hrow in Hx| |
      by rewrite Hrow in Hx].
    destruct (js_find (by_external e2 T) (customers (db w))) as [r0|] eqn:E0.
    - cbn in H2. unfold reads, mbind, result_bind in H2. by destruct (toDomain _).
    - by rewrite (find_false _ _ _ E0 Hr) in Hx. }
  unfold CustomerService.findOrCreateByExternalId.
  erewrite bind_ok by by (rewrite findByExternalId_view, Hnone by done).
  cbn [reads]. rewrite (bind_ok randomUUID _ w' _ _ eq_refl).
  assert (CustomerEmail_create (CustomerService.syntheticEmail ch e2) = Ok (email z)) as ->.
  { pose proof (valid_email z Hv) as He. revert He. unfold CustomerEmail_create.
    rewrite Ee, js_lower_trim_idem, Hsyn. by destruct (email_pattern _). }
  rewrite result_bind_run, !date_bind.
  match goal with |- ∃ _ _, ?m ?w0 = _ ∧ _ =>
    change (∃ ex w'', m w0 = (Throw ex, w'') ∧ db w'' = db w0) end.
  apply enroll_rejected; [by split_and!|done|]. intros t' z' Hi He Hz'. cbn in Hi, He.
  destruct (find_true _ _ _ (saved_customer t z T (db w) Ho)) as [Hr _].
  refine (taken_email t' z' T _ _ Hz' _ _ _).
  - change (db _) with (db w'). rewrite Ed. exact Hr.
  - rewrite He. etransitivity; [by apply row_for_email|]. apply String.eqb_refl.
  - rewrite Hi. intros Hid. apply Huuid. rewrite <- Hid. exact (row_for_id z _ _).
Qed.
End service.
