(* ===== verification/CustomerMetrics.v ===== *)
(** * Customers: merges and metrics

    What a merge leaves of the two customers, and what the metrics job makes of a
    customer that is merely updated. *)

From S2P Require Import Prelude Platform JsValue Double Sql Customer CustomerRepo.
From S2P Require Import CustomerService CustomerIsolation CustomerViews CustomerProofs.
Open Scope Z_scope.

Section metrics.
Context {HE : Env} {HS : SqlScan} {HJ : JsonDouble} {HD : CustDeps}.
Implicit Types (w : CustW) (c : Customer).

(** ** What is loaded *)
Lemma result_bind_inv {A B} (r : result A) (k : A → result B) b :
  (r ≫= k) = Ok b → ∃ a, r = Ok a ∧ k a = Ok b.
Proof. destruct r; [|done]. by eexists. Qed.

Lemma toDomain_valid j c :
  toDomain j = Ok c → valid c ∧ ∀ m, metrics c = Some m → complete m.
Proof.
  unfold toDomain. intros E.
  apply result_bind_inv in E as (e & He & E). apply result_bind_inv in E as (p & Hp & E).
  apply result_bind_inv in E as (s & _ & E). apply result_bind_inv in E as (l & Hl & E).
  apply result_bind_inv in E as (z & Hz & E). injection E as <-. split; [split; cbn|].
  - by eapply email_create_idem.
  - intros q -> _. destruct (js_or_undef _) as [x|]; [|done].
    apply result_bind_inv in Hp as (y & Hy & [= <-]). by eapply phone_create_idem.
  - by eapply language_create_idem.
  - by eapply timezone_create_idem.
  - cbn. destruct (j_metrics j) as [m|]; [|done]. intros ? [= <-]. unfold complete. cbn.
    eauto 20.
Qed.

Lemma find_loaded i T w o w' :
  wf (db w) → findById i T w = (Ok o, w') →
  w' = w ∧ match o with
           | Some c => own T c ∧ valid c ∧ id c = i ∧ (∀ m, metrics c = Some m → complete m)
                       ∧ domainEvents c = [] ∧ ∃ j, view (db w) i T = Some j ∧ toDomain j = Ok c
           | None => view (db w) i T = None
           end.
Proof.
  intros Hwf E. rewrite findById_view in E by done. injection E as E <-. split; [done|].
  unfold view, lookup_row in *.
  destruct (js_find (by_id i T) (customers (db w))) as [r|] eqn:Er; cbn in E; [|by injection E as <-].
  apply result_bind_inv in E as (c & Ec & [= <-]).
  destruct (toDomain_valid _ _ Ec) as [Hv Hm].
  apply find_true in Er as [Hr Hid]. pose proof Hid as [Hi Ht]%by_id_true.
  pose proof Ec as (Ei & _ & _ & _ & Eev)%toDomain_ok.
  destruct (joined_own T (db w) (row_of (db w) r) c) as [Ho _]; [done| | |done|].
  - rewrite joined_rows by done. apply list_elem_of_fmap. by exists r.
  - by apply String.eqb_eq.
  - split_and!; [done..| |done|done|by eexists]. by rewrite Ei.
Qed.

(** ** Merging *)

(** The source as the merge saves it. *)
Definition merged_source (deleted updated : Z) c : Customer :=
  Customer.update updated (empty_patch_status MERGED) (delete_customer deleted c).

Lemma merge_metrics_inv T s t w t' w' :
  CustomerService.merge_metrics T s t w = (Ok t', w') →
  db w' = db w ∧ id t' = id t ∧ (valid t → valid t') ∧ (own T t → own T t')
  ∧ match metrics s, metrics t with
    | Some ms, Some mt => ∃ x y, metrics t' =
        Some (CustomerService.merged_metrics T (id t) mt ms x y)
    | _, _ => t' = t
    end.
Proof.
  intros E.
  assert (CustomerService.merge_metrics T s t w = (Ok t', w') → db w' = db w) as Hdb.
  { apply frame. unfold CustomerService.merge_metrics. solve_keeps. }
  split; [by apply Hdb|]. clear Hdb. unfold CustomerService.merge_metrics in E.
  destruct (metrics s) as [ms|]; [|by injection E as <- _].
  destruct (metrics t) as [mt|] eqn:Et; [|by injection E as <- _].
  rewrite !date_bind in E. injection E as <- _. split_and!; [done| | |by eexists _, _].
  - by intros [].
  - by intros (? & ? & _).
Qed.

Lemma merge_inv T s t u w x w' :
  wf (db w) → s ≠ t → CustomerService.merge T s t u w = (Ok x, w') →
  ∃ cs ct tgt a b t1 t2, let src := merged_source a b cs in
    findById s T w = (Ok (Some cs), w) ∧ findById t T w = (Ok (Some ct), w)
    ∧ x = clearEvents tgt ∧ id tgt = t ∧ own T tgt ∧ valid tgt ∧ parts_fit tgt = true
    ∧ own T src ∧ valid src ∧ parts_fit src = true
    ∧ match metrics cs, metrics ct with
      | Some ms, Some mt => ∃ x y, metrics tgt =
          Some (CustomerService.merged_metrics T t mt ms x y)
      | _, _ => tgt = ct
      end
    ∧ wf (saved t1 tgt T (db w))
    ∧ db w' = saved t2 src T (saved t1 tgt T (db w)) ∧ wf (db w').
Proof.
  intros Hwf Hne E. unfold CustomerService.merge in E. run_inv E.
  pose proof (find_loaded _ _ _ _ _ Hwf Hrun) as [-> Hs].
  pose proof (find_loaded _ _ _ _ _ Hwf Hrun0) as [-> Ht].
  destruct a as [cs|], a0 as [ct|]; try discriminate E.
  destruct Hs as (Hso & Hsv & Hsi & _). destruct Ht as (Hto & Htv & Hti & _).
  run_inv E. injection E as <- <-.
  apply merge_metrics_inv in Hrun1 as (D1 & Hi & Hv & Ho & Hm). rewrite Hti in *.
  pose proof (frame _ _ _ _ new_Date_db Hrun2) as D2.
  pose proof (frame _ _ _ _ new_Date_db Hrun3) as D3.
  assert (db s2 = db w) as D by congruence.
  apply saved_inv in Hrun4 as (t1 & Ha1 & E1 & Hwf1); [|by apply Ho|by rewrite D].
  rewrite D in *.
  assert (own T (merged_source a0 a1 cs)) as Hso' by exact Hso.
  apply saved_inv in Hrun5 as (t2 & Ha2 & E2 & Hwf2); [|done|done]. rewrite E1 in *.
  rewrite (frame _ _ _ _ (audit_log_db _ _ _ _) Hrun8) in *.
  rewrite (frame _ _ _ _ (customer_events_db _) Hrun7) in *.
  rewrite (frame _ _ _ _ (customer_events_db _) Hrun6) in *.
  exists cs, ct, a, a0, a1, t1, t2. split_and!; try done; [by apply Ho|by apply Hv|apply Ha1| |apply Ha2].
  destruct Hsv. by split.
Qed.

(** What a merge makes of the metrics [s] and [t] of two customers. *)
Record merged_into (s t m : Metrics.CustomerMetrics) : Prop := {
  mi_conversations : Metrics.totalConversations m
    = Some (default 0 (Metrics.totalConversations t) + default 0 (Metrics.totalConversations s));
  mi_tickets : Metrics.totalTickets m
    = Some (default 0 (Metrics.totalTickets t) + default 0 (Metrics.totalTickets s));
  mi_orders : Metrics.totalOrders m
    = Some (default 0 (Metrics.totalOrders t) + default 0 (Metrics.totalOrders s));
  mi_spend : Metrics.totalSpend m = two_decimals (Some
    (dadd (default dzero (Metrics.totalSpend t)) (default dzero (Metrics.totalSpend s))));
  mi_value : Metrics.lifetimeValue m = two_decimals (Some
    (dadd (default dzero (Metrics.lifetimeValue t)) (default dzero (Metrics.lifetimeValue s))));
  mi_csat : Metrics.averageCsat m = Some (or_zero (ddiv
    (dadd (default dzero (Metrics.averageCsat t)) (default dzero (Metrics.averageCsat s)))
    (double_of_Z 2)));
  mi_sentiment : Metrics.sentimentScore m = Some (or_zero (ddiv
    (dadd (default dzero (Metrics.sentimentScore t)) (default dzero (Metrics.sentimentScore s)))
    (double_of_Z 2)));
  mi_response : Metrics.averageResponseTime m = Some ((default 0 (Metrics.averageResponseTime t)
    + default 0 (Metrics.averageResponseTime s) + 1) / 2);
  mi_resolution : Metrics.averageResolutionTime m =
    Some ((default 0 (Metrics.averageResolutionTime t)
           + default 0 (Metrics.averageResolutionTime s) + 1) / 2);
  mi_risk : Metrics.riskScore m = Some (or_zero
    (dmax (default dzero (Metrics.riskScore t)) (default dzero (Metrics.riskScore s))));
  mi_vip : Metrics.vipStatus m
    = Some (default false (Metrics.vipStatus t) || default false (Metrics.vipStatus s));
}.
Lemma stored_merge T t ms mt a b created updated :
  merged_into ms mt
    (stored_metrics (CustomerService.merged_metrics T t mt ms a b) created updated).
Proof. by split. Qed.

Lemma merged_complete T t mt ms x y : complete (CustomerService.merged_metrics T t mt ms x y).
Proof. unfold complete. cbn. eauto 20. Qed.

(** C39: A merge adds up: the target's counters and amounts are the sums of the two
    customers', its satisfaction and sentiment their means, its risk the greater one.
    The source is left deleted with status MERGED, and it keeps its e-mail and its
    external id: messages from that address and from that channel identity still
    reach the merged source, not the target. *)
Theorem merge_leaves_the_addresses T s t u w x w' :
  wf (db w) → s ≠ t → CustomerService.merge T s t u w = (Ok x, w') →
  ∃ cs ct s' t',
    findById s T w = (Ok (Some cs), w) ∧ findById t T w = (Ok (Some ct), w)
    ∧ findById t T w' = (Ok (Some t'), w') ∧ id t' = t
    ∧ (∀ ms mt, metrics cs = Some ms → metrics ct = Some mt →
         ∃ m, metrics t' = Some m ∧ merged_into ms mt m)
    ∧ id s' = s ∧ status s' = MERGED ∧ is_Some (deletedAt s')
    ∧ (∀ address, js_lower (js_trim address) = email cs →
         findByEmail address T w' = (Ok (Some s'), w'))
    ∧ ∀ e, externalCustomerId cs = Some e → e ≠ "" → ∀ ch ty,
        CustomerService.findOrCreateByExternalId T ch e ty w' = (Ok s', w').
Proof.
  intros Hwf Hne E. apply merge_inv in E as
    (cs & ct & tgt & a & b & t1 & t2 & Es & Et & -> & Ei & Ho & Hv & Hf & Hso & Hsv & Hsf & Hm
     & Hwf1 & Ed & Hwf'); [|done..].
  destruct (find_loaded _ _ _ _ _ Hwf Es) as [_ (_ & _ & Hsi & _)].
  destruct (saved_found t2 (merged_source a b cs) T _ w' Hso Hsv Hsf Hwf1 Ed Hwf')
    as (s' & Hrb & Hfind & Hmail & Hext).
  destruct (toDomain_saved t1 tgt T (db w) Ho Hv Hf) as (t' & Et' & Htb).
  exists cs, ct, s', t'. split_and!; try done.
  - rewrite findById_view, Ed by done.
    rewrite (saved_other_view t2 (merged_source a b cs) T _ Hso) by (try done; by rewrite <- ?Ed; cbn; congruence).
    rewrite <- Ei. erewrite saved_view by done. unfold reads, mbind, result_bind. by rewrite Et'.
  - by rewrite (rb_id _ _ Htb).
  - intros ms mt E1 E2. rewrite E1, E2 in Hm. destruct Hm as (p & q & Hm).
    destruct (rb_metrics _ _ Htb _ Hm (merged_complete _ _ _ _ _ _)) as (u1 & u2 & E').
    eexists. split; [exact E'|apply stored_merge].
  - by rewrite (rb_id _ _ Hrb).
  - by rewrite (rb_status _ _ Hrb).
  - rewrite (rb_deleted _ _ Hrb). by eexists.
  - intros e Ee Hn ch ty. apply findOrCreate_found. by apply Hext.
Qed.

(** ** The metrics job *)

(** Rows that a read and a write leave as they are, but for the time. *)
Record settled (j : Joined) c : Prop := {
  settled_read : toDomain j = Ok c;
  settled_row u : row_for u c (Some (j_customer j)) = (j_customer j) <| cr_updatedAt := u |>;
  settled_fits : customer_fits c = true;
  settled_profile p u : j_profile j = Some p →
    profile_for u (profile_toDomain p) (Some p) = p <| pr_updatedAt := u |>
    ∧ profile_fits (profile_toDomain p) = true;
}.

(** Reading after such a write. *)
Lemma settled_again j c u v m :
  settled j c →
  let p' := (λ p, p <| pr_updatedAt := v |>) <$> j_profile j in
  let j' := {| j_customer := (j_customer j) <| cr_updatedAt := u |>;
               j_profile := p'; j_metrics := m |} in
  settled j' (c <| updatedAt := u |> <| profile := profile_toDomain <$> p' |>
                <| metrics := metrics_toDomain <$> m |>).
Proof.
  intros [Hr Hrow Hf Hp] p' j'. split.
  - unfold toDomain in *. cbn [j_customer j_profile j_metrics j'].
    apply result_bind_inv in Hr as (e & He & Hr). apply result_bind_inv in Hr as (ph & Hph & Hr).
    apply result_bind_inv in Hr as (s & Hs & Hr). apply result_bind_inv in Hr as (l & Hl & Hr).
    apply result_bind_inv in Hr as (z & Hz & Hr). injection Hr as <-.
    destruct (j_customer j). cbn in He, Hph, Hs, Hl, Hz |- *.
    unfold mbind, result_bind in *. by rewrite He, Hph, Hs, Hl, Hz.
  - exact Hrow.
  - exact Hf.
  - intros p v' Ep. cbn in Ep. unfold p' in Ep. destruct (j_profile j) as [p0|]; [|done].
    injection Ep as <-. destruct (Hp p0 v' eq_refl) as [E1 E2]. by split.
Qed.

Lemma upsert_distinct {R} {HR : Row R} q (f : option R → R) l x :
  distinct l → js_find q l = Some x → (∀ y, y ∈ l → q y = true → y = x) →
  row_keys (f (Some x)) = row_keys x → distinct (upsert q f l).
Proof.
  intros Hd Hx Hu Hk. rewrite <- (upsert_some q f l x Hx). apply distinct_update; [done|].
  intros y Hy Hq. by rewrite (Hu y Hy Hq).
Qed.

Lemma tenant_parts d i T j :
  wf d → view d i T = Some j →
  js_find (by_id i T) (customers d) = Some (j_customer j)
  ∧ js_find (of_customer_profile i T) (customerProfiles d) = j_profile j
  ∧ js_find (of_customer_metrics i T) (customerMetrics d) = j_metrics j.
Proof.
  intros Hwf Ej. unfold view, lookup_row in Ej.
  destruct (js_find (by_id i T) (customers d)) as [r|] eqn:Er; [|done]. injection Ej as <-.
  split; [done|]. apply find_true in Er as [Hr [Hi Ht]%by_id_true].
  assert (known i T d) as Hk by (exists r; done). cbn in Hi. split; cbn; rewrite Hi.
  - apply find_ext. intros p Hp. unfold of_customer_profile. rewrite String.eqb_sym.
    destruct (String.eqb_spec i (pr_customerId p)) as [E|]; [|done].
    pose proof (wf_profile_customer d Hwf p Hp) as Hkp. rewrite <- E in Hkp. cbn.
    by rewrite (known_tenant d _ _ _ Hwf Hkp Hk), String.eqb_refl.
  - apply find_ext. intros m Hm. unfold of_customer_metrics. rewrite String.eqb_sym.
    destruct (String.eqb_spec i (mr_customerId m)) as [E|]; [|done].
    pose proof (wf_metrics_customer d Hwf m Hm) as Hkm. rewrite <- E in Hkm. cbn.
    by rewrite (known_tenant d _ _ _ Hwf Hkm Hk), String.eqb_refl.
Qed.

(** New numbers for a settled customer are accepted, and what they leave is settled. *)
Lemma resave_accepted t now m d T j c r :
  wf d → view d (id c) T = Some j → settled j c → own T c → j_metrics j = Some r →
  Metrics.id m = mr_id r → Metrics.tenantId m = T → Metrics.customerId m = id c →
  metrics_acceptable m = true →
  accepted t (Customer.updateMetrics now m c) T d
  ∧ saved_row t (Customer.updateMetrics now m c) T d =
    {| j_customer := (j_customer j) <| cr_updatedAt := t.1.1 |>;
       j_profile := (λ p, p <| pr_updatedAt := t.1.2 |>) <$> j_profile j;
       j_metrics := Some (metrics_for t.2 m (Some r)) |}.
Proof.
  intros Hwf Hj Hs Ho Hm Ei Et Ec Ha.
  destruct (tenant_parts _ _ _ _ Hwf Hj) as (Fc & Fp & Fm). rewrite Hm in Fm.
  pose proof (toDomain_ok _ _ (settled_read _ _ Hs)) as (_ & _ & Epr & Eme & _).
  pose proof (λ p, settled_profile _ _ Hs p t.1.2) as Hp.
  assert (∀ o, row_for t.1.1 (Customer.updateMetrics now m c) o = row_for t.1.1 c o) as Hrow
    by (by intros []).
  split.
  - split_and!.
    + unfold parts_fit. rewrite !andb_true_iff. split_and!; [exact (settled_fits _ _ Hs)| |exact Ha].
      change (profile (Customer.updateMetrics now m c)) with (profile c). rewrite Epr.
      destruct (j_profile j) as [p|]; [|done]. by destruct (Hp p eq_refl).
    + eapply upsert_distinct; [apply Hwf|exact Fc| |].
      * intros y Hy Hq. apply find_true in Fc as [Hin [E1 _]%by_id_true].
        apply by_id_true in Hq as [E2 _]. apply (distinct_id (customers d));
          [apply Hwf|done..|]. by rewrite E1, E2.
      * rewrite Hrow, (settled_row _ _ Hs). done.
    + cbn. rewrite Epr. destruct (j_profile j) as [p|]; [|by apply Hwf].
      cbn. destruct (Hp p eq_refl) as [E _].
      eapply upsert_distinct; [apply Hwf|exact Fp| |by rewrite E].
      intros y Hy [E1 _]%of_customer_profile_true.
      apply find_true in Fp as [Hin [E2 _]%of_customer_profile_true].
      apply (one_profile d); [done..|congruence].
    + eapply upsert_distinct; [apply Hwf|exact Fm| |].
      * intros y Hy [E1 _]%of_customer_metrics_true.
        apply find_true in Fm as [Hin [E2 _]%of_customer_metrics_true].
        exact (one_metrics d y r Hwf Hy Hin (eq_trans E1 (eq_sym E2))).
      * apply find_true in Fm as [_ [E1 E2]%of_customer_metrics_true].
        change (row_keys (set_metrics (default (Cents 0) (cents (Metrics.totalSpend m)))
          (default (Cents 0) (cents (Metrics.lifetimeValue m))) t.2 m r) = row_keys r).
        cbn. congruence.
  - unfold saved_row. rewrite Hrow. change (id (Customer.updateMetrics now m c)) with (id c).
    change (profile (Customer.updateMetrics now m c)) with (profile c).
    change (metrics (Customer.updateMetrics now m c)) with (Some m).
    rewrite Fc, (settled_row _ _ Hs), Fp, Fm, Epr. f_equal.
    destruct (j_profile j) as [p|] eqn:Ep.
    + destruct (Hp p eq_refl) as [E _]. exact (f_equal Some E).
    + pose proof Hj as Hj'. unfold view, lookup_row in Hj'. rewrite Fc in Hj'.
      injection Hj' as Hj'. rewrite <- Hj' in Ep. cbn in Ep.
      apply find_true in Fc as [_ [E1 _]%by_id_true]. cbn in E1. rewrite E1 in Ep. exact Ep.
Qed.

(** A settled customer that the metrics job has given [k] times a hundred. *)
Definition accrued T i (k z : Z) (d : CustDb) : Prop :=
  ∃ j c r, view d i T = Some j ∧ settled j c ∧ j_metrics j = Some r
    ∧ mr_totalSpend r = Cents (10000 * k) ∧ mr_lifetimeValue r = Cents (10000 * k)
    ∧ mr_totalConversations r = z ∧ mr_vipStatus r = (10 <? k)
    ∧ every int4 [mr_totalTickets r; mr_totalOrders r; mr_averageResponseTime r;
                  mr_averageResolutionTime r] = true.

(** One more hundred, to the cent; more than a thousand at the eleventh. *)
Lemma one_more k :
  0 ≤ k ≤ 10 →
  let next := dadd (js_or (Some (of_numeric (Cents (10000 * k)))) dzero)
                CustomerMetricsService.hundred in
  toFixed2 next = Some (Cents (10000 * (k + 1)))
  ∧ dlt (double_of_Z 1000) next = (10 <? k + 1).
Proof.
  intros Hk. assert (k = 0 ∨ k = 1 ∨ k = 2 ∨ k = 3 ∨ k = 4 ∨ k = 5 ∨ k = 6 ∨ k = 7 ∨ k = 8
    ∨ k = 9 ∨ k = 10) as Hc by lia.
  clear Hk. destruct_or! Hc; subst; vm_compute; by split.
Qed.

Lemma recalculate_step T i k z w :
  wf (db w) → 0 ≤ k ≤ 10 → int4 (z + 1) = true → accrued T i k z (db w) →
  ∃ m w', CustomerMetricsService.recalculateMetrics T i w = (Ok m, w')
    ∧ wf (db w') ∧ accrued T i (k + 1) (z + 1) (db w').
Proof.
  intros Hwf Hk Hz (j & c & r & Hj & Hs & Hm & Hsp & Hlt & Hcv & Hvip & Hint).
  assert (∀ w1, db w1 = db w → findById i T w1 = (Ok (Some c), w1)) as Hfind.
  { intros w1 E. rewrite findById_view, E, Hj by (by rewrite E).
    unfold reads, mbind, result_bind. by rewrite (settled_read _ _ Hs). }
  assert (∀ w1, db w1 = db w → load i T w1 = (Ok c, w1)) as Hload.
  { intros w1 E. unfold load. by rewrite (bind_ok _ _ _ _ _ (Hfind w1 E)). }
  destruct (find_loaded _ _ _ _ _ Hwf (Hfind w eq_refl)) as (_ & Ho & _ & Hi & _).
  pose proof (toDomain_ok _ _ (settled_read _ _ Hs)) as (_ & _ & _ & Eme & _).
  rewrite Hm in Eme. cbn [fmap option_fmap option_map] in Eme.
  unfold CustomerMetricsService.recalculateMetrics. rewrite (bind_ok _ _ _ _ _ (Hload w eq_refl)).
  unfold CustomerMetricsService.updateMetrics. rewrite (bind_ok _ _ _ _ _ (Hload w eq_refl)).
  rewrite Eme. set (dto := CustomerMetricsService.recalculatedDto _).
  set (now := env_clock (ticks w)). set (m1 := Metrics.update now dto (metrics_toDomain r)).
  set (w1 := w <| ticks ::= S |>).
  rewrite (bind_ok (new_Date ≫= _) _ w m1 w1 eq_refl), date_bind.
  set (w2 := w1 <| ticks ::= S |>). set (now2 := env_clock (ticks w1)).
  destruct (one_more k Hk) as [Hnext Hover].
  assert (cents (Metrics.totalSpend m1) = Some (Cents (10000 * (k + 1)))) as Hc1
    by (cbn; rewrite Hsp; exact Hnext).
  assert (cents (Metrics.lifetimeValue m1) = Some (Cents (10000 * (k + 1)))) as Hc2
    by (cbn; rewrite Hlt; exact Hnext).
  assert (metrics_acceptable m1 = true) as Hacc.
  { unfold metrics_acceptable. rewrite Hc1, Hc2. cbn [bool_decide].
    cbn in Hint |- *. rewrite Hcv, Hint, andb_true_r.
    replace (if truthy z then z else 0) with z; [done|].
    unfold truthy, Z_truthy. by destruct (Z.eqb_spec z 0). }
  assert (own T (Customer.updateMetrics now2 m1 c)) as Ho'.
  { destruct Ho as (E1 & E2 & E3). split_and!; [done..|].
    unfold own_metrics in *. rewrite Eme in E3. exact E3. }
  assert (mr_tenantId r = T ∧ mr_customerId r = id c) as [Et Ec].
  { destruct Ho as (_ & _ & E3). unfold own_metrics in E3. by rewrite Eme in E3. }
  destruct (save_spec (Customer.updateMetrics now2 m1 c) T w2 Hwf Ho')
    as (n & t & Hsave). rewrite <- Hi in Hj.
  destruct (resave_accepted t now2 m1 (db w) T j c r Hwf Hj Hs Ho Hm eq_refl Et Ec Hacc)
    as [Ha Erow].
  destruct Hsave as [(_ & Hwf' & Es)|[Hn _]]; [|by destruct Hn].
  eexists m1, _. split; [by rewrite (bind_ok _ _ _ _ _ Es)|]. split; [exact Hwf'|].
  eexists _, _, _. split_and!.
  - change (db _) with (saved t (Customer.updateMetrics now2 m1 c) T (db w)). rewrite <- Hi.
    change (id c) with (id (Customer.updateMetrics now2 m1 c)).
    rewrite saved_view by done. by rewrite Erow.
  - by apply settled_again.
  - reflexivity.
  - unfold metrics_for. by rewrite Hc1.
  - unfold metrics_for. by rewrite Hc2.
  - cbn. rewrite Hcv. destruct (Z.eqb_spec z 0) as [->|Hz0]; [done|].
    unfold truthy, Z_truthy. by destruct (Z.eqb_spec z 0).
  - etransitivity; [|exact Hover]. cbn. by rewrite Hlt.
  - exact Hint.
Qed.

(** The jobs that an update of a customer queues. *)
Definition customer_job (T i name : string) : Job :=
  {| job_queue := CUSTOMER; job_name := name;
     job_data := [("customerId", JStr i); ("_tenantContext", JObj [("tenantId", JStr T)])];
     job_opts := DEFAULT_JOB_OPTIONS; attemptsMade := 0 |}.
Definition metrics_job (T i : string) : Job := customer_job T i "customer-metrics-job".

(** The worker takes the job of [n] updates, one after the other. *)
Fixpoint run_metrics_jobs (T i : string) (n : nat) w : CustW :=
  match n with
  | O => w
  | S n => run_metrics_jobs T i n (final (serve (Work (metrics_job T i))) w)
  end.

Lemma metrics_job_step T i k z w :
  wf (db w) → 0 ≤ k ≤ 10 → int4 (z + 1) = true → accrued T i k z (db w) →
  let w' := final (serve (Work (metrics_job T i))) w in
  wf (db w') ∧ accrued T i (k + 1) (z + 1) (db w').
Proof.
  intros Hwf Hk Hz Ha.
  assert (∀ w1, db w1 = db w → ∃ m w', CustomerQueueProcessor.handleJob (metrics_job T i) w1
    = (Ok (Metrics.toJSON m), w') ∧ wf (db w') ∧ accrued T i (k + 1) (z + 1) (db w')) as Hjob.
  { intros w1 E. destruct (recalculate_step T i k z w1) as (m & w' & Er & Hw');
      [by rewrite E|done|done|by rewrite E|].
    exists m, w'. split; [|done].
    change (CustomerQueueProcessor.handleJob (metrics_job T i)) with
      (m ← CustomerMetricsService.recalculateMetrics T i; mret (Metrics.toJSON m) : M CustW json).
    by rewrite (bind_ok _ _ _ _ _ Er). }
  unfold serve, ignore, process. change (job_tenant (metrics_job T i)) with (Some T).
  cbv beta iota zeta. destruct (truthy T).
  - destruct (Hjob (w <| tenantContext := Some T |>)) as (m & w' & E & Hwf' & Ha');
      [reflexivity|].
    erewrite (final_bind (TenantContext_run _ _)). unfold TenantContext_run, try_catch.
    rewrite E. by split.
  - destruct (Hjob w eq_refl) as (m & w' & E & Hwf' & Ha').
    erewrite (final_bind (try_catch _ _)). unfold try_catch. rewrite E. by split.
Qed.

Lemma queue_customer_job T i name w :
  tenantContext w = Some T → (∀ job, env_queue_add job = None) →
  addJob CUSTOMER name [("customerId", JStr i)] (λ o, o) w
  = (Ok tt, w <| jobs ::= λ js, js ++ [customer_job T i name] |>).
Proof.
  intros Ht Hq. unfold addJob, getTenantId. rewrite gets_bind, Ht. by rewrite Hq.
Qed.

(** Every update of a customer queues a metrics job for it, and that job invents
    activity: whatever the customer did, the worker adds one conversation and a hundred
    to the spend and to the lifetime value each time.  A customer that never spent
    anything has [100 * n] after [n] updates, and is a VIP at the eleventh. *)
Theorem updates_invent_revenue T i name mail z n w :
  wf (db w) → accrued T i 0 z (db w) → (n ≤ 11)%nat →
  0 ≤ z → int4 (z + Z.of_nat n) = true →
  accrued T i (Z.of_nat n) (z + Z.of_nat n) (db (run_metrics_jobs T i n w))
  ∧ ∀ w1, tenantContext w1 = Some T → (∀ job, env_queue_add job = None) →
      jobs (final (publish (CustomerUpdatedEvent T i name mail)) w1)
      = jobs w1 ++ [customer_job T i "customer-segmentation-job"; metrics_job T i].
Proof.
  intros Hwf Ha Hn Hz Hint. split.
  - assert (∀ k z w, wf (db w) → accrued T i k z (db w) → 0 ≤ k → 0 ≤ z →
      k + Z.of_nat n <= 11 → int4 (z + Z.of_nat n) = true →
      accrued T i (k + Z.of_nat n) (z + Z.of_nat n) (db (run_metrics_jobs T i n w))) as H.
    { clear. induction n as [|n IH]; intros k z w Hwf Ha Hk Hz Hle Hint.
      - by rewrite !Z.add_0_r.
      - rewrite !Nat2Z.inj_succ in *. destruct (metrics_job_step T i k z w) as [Hwf' Ha'];
          [done|lia| |done|].
        + unfold int4 in *. apply andb_true_iff in Hint as [? ?%Z.leb_le].
          apply andb_true_iff. split; apply Z.leb_le; lia.
        + cbn [run_metrics_jobs]. replace (k + Z.succ (Z.of_nat n)) with (k + 1 + Z.of_nat n) by lia.
          replace (z + Z.succ (Z.of_nat n)) with (z + 1 + Z.of_nat n) in * by lia.
          apply IH; [done|done|lia..|done]. }
    apply (H 0 z w); [done|done|lia|done|lia|done].
  - intros w1 Ht Hq. unfold publish, final, try_catch.
    change (String.eqb _ "customer.created" || _) with true. cbn [when].
    erewrite bind_ok by by apply queue_customer_job. erewrite queue_customer_job by done.
    cbn. by rewrite <- app_assoc.
Qed.
End metrics.
