(* ===== verification/CustomerLists.v ===== *)
(** * Customers: exports and segments

    The CSV export against a reader of CSV, and the members that a run of a dynamic
    segment leaves. *)

From S2P Require Import Prelude Platform JsValue Double Sql Customer CustomerRepo.
From S2P Require Import CustomerService CustomerIsolation CustomerViews CustomerProofs.
Open Scope Z_scope.

(** ** A reader of CSV

    Fields are separated by commas and records by line feeds; a field in double quotes
    may hold both, and a double quote in it is written twice. *)
Inductive csv_state := Start | Plain | Quoted | Closing.
Fixpoint csv_read (st : csv_state) (field : list ascii) (record : list string)
    (records : list (list string)) (l : list ascii) : option (list (list string)) :=
  let finished := rev (String.string_of_list_ascii (rev field) :: record) in
  let next (c : ascii) (l : list ascii) (other : option (list (list string))) :=
    if Ascii.eqb c "," then
      csv_read Start [] (String.string_of_list_ascii (rev field) :: record) records l
    else if Ascii.eqb c (Ascii.ascii_of_nat 10) then csv_read Start [] [] (finished :: records) l
    else other in
  match l with
  | [] => match st with Quoted => None | _ => Some (rev (finished :: records)) end
  | c :: l =>
      match st with
      | Quoted => if Ascii.eqb c CustomerService.quote
                  then csv_read Closing field record records l
                  else csv_read Quoted (c :: field) record records l
      | Closing => if Ascii.eqb c CustomerService.quote
                   then csv_read Quoted (c :: field) record records l
                   else next c l None
      | Start => if Ascii.eqb c CustomerService.quote
                 then csv_read Quoted [] record records l
                 else next c l (csv_read Plain (c :: field) record records l)
      | Plain => next c l (csv_read Plain (c :: field) record records l)
      end
  end.
Definition parse_csv (s : string) : option (list (list string)) :=
  csv_read Start [] [] [] (chars s).

Example parse_csv_example :
  parse_csv (js_join CustomerService.newline ["a,b";
    CustomerService.csv_value (String CustomerService.quote ",x") +:+ ",y"])
  = Some [["a"; "b"]; [String CustomerService.quote ",x"; "y"]].
Proof. vm_compute. reflexivity. Qed.

Lemma chars_append s t : chars (s +:+ t) = chars s ++ chars t.
Proof. induction s as [|c s IH]; [done|]. exact (f_equal (cons c) IH). Qed.
Lemma of_chars s : String.string_of_list_ascii (rev (rev (chars s))) = s.
Proof. rewrite rev_involutive. apply String.string_of_list_ascii_of_string. Qed.

Lemma read_quoted s field record records l :
  csv_read Quoted field record records (chars (CustomerService.double_quotes s) ++
    CustomerService.quote :: l)
  = csv_read Closing (rev (chars s) ++ field) record records l.
Proof.
  revert field. induction s as [|c s IH]; intros field; [done|].
  cbn [CustomerService.double_quotes]. destruct (Ascii.eqb_spec c CustomerService.quote) as [->|Hc].
  - cbn [chars app csv_read]. rewrite !Ascii.eqb_refl, IH. cbn [rev]. by rewrite <- app_assoc.
  - cbn [chars app csv_read]. rewrite (proj2 (Ascii.eqb_neq _ _) Hc), IH. cbn [rev].
    by rewrite <- app_assoc.
Qed.

Lemma read_value s record records l :
  csv_read Start [] record records (chars (CustomerService.csv_value s) ++ l)
  = csv_read Closing (rev (chars s)) record records l.
Proof.
  unfold CustomerService.csv_value. cbn [chars app csv_read]. rewrite Ascii.eqb_refl, chars_append,
    <- app_assoc. cbn [chars app]. rewrite read_quoted, app_nil_r. done.
Qed.

(** A record and what ends it. *)
Definition line_feed : ascii := Ascii.ascii_of_nat 10.
Lemma read_record v vs record records l :
  let full := rev record ++ v :: vs in
  let text := chars (js_join "," (CustomerService.csv_value <$> (v :: vs))) in
  csv_read Start [] record records text = Some (rev (full :: records))
  ∧ csv_read Start [] record records (text ++ line_feed :: l)
    = csv_read Start [] [] (full :: records) l.
Proof.
  revert v record. induction vs as [|v' vs IH]; intros v record; cbv zeta.
  - cbn [fmap list_fmap js_join]. split.
    + rewrite <- (app_nil_r (chars _)), read_value. cbn [csv_read rev]. by rewrite of_chars.
    + rewrite read_value. cbn [csv_read rev]. unfold line_feed. cbn. by rewrite of_chars.
  - destruct (IH v' (v :: record)) as [IH1 IH2]. cbv zeta in IH1, IH2.
    cbn [rev] in IH1, IH2. rewrite <- app_assoc in IH1, IH2. cbn [app] in IH1, IH2.
    assert (∀ k, csv_read Start [] record records
        (chars (js_join "," (CustomerService.csv_value <$> (v :: v' :: vs))) ++ k)
      = csv_read Start [] (v :: record) records
          (chars (js_join "," (CustomerService.csv_value <$> (v' :: vs))) ++ k)) as Hstep.
    { intros k. change (js_join "," (CustomerService.csv_value <$> (v :: v' :: vs))) with
        (CustomerService.csv_value v +:+
           ("," +:+ js_join "," (CustomerService.csv_value <$> (v' :: vs)))).
      rewrite !chars_append, <- !app_assoc, read_value. cbn [chars app csv_read]. cbn.
      by rewrite of_chars. }
    split; [|by rewrite Hstep].
    rewrite <- (app_nil_r (chars _)), Hstep, app_nil_r. exact IH1.
Qed.

Lemma csv_records (f : Customer → list string) (first : list string) (l : list Customer) records :
  (∀ c, f c ≠ []) →
  csv_read Start [] [] records
    (chars (js_join CustomerService.newline
       ((λ c, js_join "," (CustomerService.csv_value <$> f c)) <$> l)))
  = match l with [] => Some (rev ([""] :: records)) | _ => Some (rev records ++ (f <$> l)) end.
Proof.
  intros Hf. revert records. induction l as [|c l IH]; intros records; [done|].
  destruct (f c) as [|v vs] eqn:Ef; [by apply Hf in Ef|].
  destruct l as [|c' l].
  - cbn [fmap list_fmap js_join]. rewrite Ef.
    destruct (read_record v vs [] records []) as [E _]. cbv zeta in E. rewrite E. done.
  - change (js_join CustomerService.newline
       ((λ c, js_join "," (CustomerService.csv_value <$> f c)) <$> (c :: c' :: l))) with
      (js_join "," (CustomerService.csv_value <$> f c) +:+ (CustomerService.newline +:+
        js_join CustomerService.newline
          ((λ c, js_join "," (CustomerService.csv_value <$> f c)) <$> (c' :: l)))).
    rewrite Ef, !chars_append.
    destruct (read_record v vs [] records (chars (js_join CustomerService.newline
          ((λ c, js_join "," (CustomerService.csv_value <$> f c)) <$> (c' :: l))))) as [_ E].
    cbv zeta in E. etransitivity; [exact E|]. rewrite IH. cbn [rev app fmap list_fmap].
    rewrite <- app_assoc. cbn [app]. by rewrite Ef.
Qed.

Lemma csv_reads (l : list Customer) :
  parse_csv (CustomerService.csv l)
  = Some (CustomerService.headers :: (CustomerService.csv_values <$> l)).
Proof.
  unfold CustomerService.csv, parse_csv. destruct l as [|c l]; [vm_compute; reflexivity|].
  change (js_join CustomerService.newline (js_join "," CustomerService.headers ::
      ((λ c, js_join "," (CustomerService.csv_value <$> CustomerService.csv_values c)) <$> (c :: l))))
    with (js_join "," CustomerService.headers +:+ (CustomerService.newline +:+
      js_join CustomerService.newline
        ((λ c, js_join "," (CustomerService.csv_value <$> CustomerService.csv_values c)) <$> (c :: l)))).
  rewrite !chars_append.
  etransitivity; [|exact (csv_records CustomerService.csv_values [] (c :: l)
                            [CustomerService.headers] ltac:(done))].
  reflexivity.
Qed.

Section lists.
Context {HE : Env} {HS : SqlScan} {HJ : JsonDouble} {HD : CustDeps}.
Implicit Types (w : CustW) (c : Customer).

Lemma mapM_ok {A B} (f : A → result B) l k :
  mapM f l = Ok k → Forall2 (λ x y, f x = Ok y) l k.
Proof.
  revert k. induction l as [|x l IH]; intros k E; cbn in E; [by injection E as <-|].
  unfold mbind, result_bind in E. destruct (f x) as [y|] eqn:Ex; [|done].
  destruct (mapM f l) as [ys|] eqn:El; [|done]. injection E as <-. constructor; [done|].
  by apply IH.
Qed.

Definition live T (r : CustomerRow) : bool :=
  String.eqb (cr_tenantId r) T && match cr_deletedAt r with None => true | Some _ => false end.

(** [findAll] reads each customer of the tenant that is not deleted once. *)
Lemma findAll_inv T w l w' :
  wf (db w) → findAll T w = (Ok l, w') →
  w' = w ∧ ∃ rows, rows ≡ₚ js_filter (live T) (customers (db w))
    ∧ Forall2 (λ r c, toDomain (row_of (db w) r) = Ok c) rows l.
Proof.
  intros Hwf E. unfold findAll in E. rewrite gets_bind in E. injection E as E <-.
  split; [done|]. rewrite joined_rows in E by done. apply mapM_ok in E.
  set (f := row_of (db w)) in *.
  destruct (Permutation_map_inv f (customers (db w)) (scan_perm (f <$> customers (db w))))
    as (L & EL & HL).
  change (scan (f <$> customers (db w)) = f <$> L) in EL.
  exists (js_filter (live T) L). split.
  - symmetry. unfold js_filter. clear -HL. induction HL as [|x a b _ IH|x y a|a b c _ IH1 _ IH2]; cbn;
      [done| | |by etransitivity]; repeat destruct (live T _); by try constructor.
  - rewrite EL in E. clear -E. revert E. generalize l. clear l.
    induction L as [|x L IH]; intros l E; cbn in E; [by inversion E; constructor|].
    unfold js_filter in *. cbn. unfold in_tenant, not_deleted, live in *. cbn in *.
    destruct (String.eqb _ T && _); [|by apply IH]. inversion E; subst. constructor; [done|].
    by apply IH.
Qed.

(** C23: The CSV export holds every customer of the tenant that is not deleted, once, and
    nothing else, and a reader of CSV gets back each of their fields exactly, whatever
    commas, quotes and line feeds are in them. *)
Theorem export_is_read_back T format w text w' :
  wf (db w) → format ≠ "JSON" → CustomerService.export T format w = (Ok text, w') →
  ∃ l, findAll T w = (Ok l, w)
    ∧ id <$> l ≡ₚ cr_id <$> js_filter (live T) (customers (db w))
    ∧ parse_csv text = Some (CustomerService.headers :: (CustomerService.csv_values <$> l)).
Proof.
  intros Hwf Hf E. unfold CustomerService.export in E. run_inv E.
  pose proof (findAll_inv _ _ _ _ Hwf Hrun) as [-> (rows & Hp & Hall)].
  rewrite (proj2 (String.eqb_neq _ _) Hf) in E. injection E as <- <-.
  exists a. split; [done|]. split; [|apply csv_reads].
  rewrite <- Hp. clear -Hall. induction Hall as [|r c rows l Er _ IH]; [done|]. cbn.
  apply toDomain_ok in Er as (-> & _). cbn. by rewrite IH.
Qed.

(** ** Segments *)
Definition member (c s T : string) (d : CustDb) : bool :=
  some (is_member c s T) (customerSegmentMembers d).
Definition same_member (c s T c' s' T' : string) : bool :=
  String.eqb c c' && String.eqb s s' && String.eqb T T'.

Lemma is_member_same (i s T i' s' T' : string) r :
  is_member i s T r = true → is_member i' s' T' r = same_member i s T i' s' T'.
Proof.
  unfold is_member, same_member. intros [[<-%String.eqb_eq <-%String.eqb_eq]%andb_true_iff
    <-%String.eqb_eq]%andb_true_iff. done.
Qed.

(** Only memberships are written. *)
Definition with_memberships (l : list MemberRow) (d : CustDb) : CustDb :=
  d <| customerSegmentMembers := l |>.

Lemma assign_inv (i s T : string) w w' :
  assignSegment i s T w = (Ok tt, w') →
  ∃ l, db w' = with_memberships l (db w)
    ∧ ∀ i' s' T', some (is_member i' s' T') l
        = same_member i s T i' s' T' || member i' s' T' (db w).
Proof.
  unfold assignSegment, read. rewrite gets_bind. intros E.
  change (rows (db w)) with (customerSegmentMembers (db w)) in E.
  destruct (sql_select _ _) as [r|] eqn:Er.
  - injection E as <-. exists (customerSegmentMembers (db w)). split; [by destruct (db w)|].
    intros i' s' T'. apply select_some in Er as [Hin Hr].
    destruct (same_member i s T i' s' T') eqn:Es; [|done]. cbn. apply existsb_exists. exists r.
    split; [by apply list_elem_of_In|]. by rewrite (is_member_same _ _ _ _ _ _ _ Hr).
  - rewrite (bind_ok randomUUID _ w _ _ eq_refl), !date_bind, gets_bind, result_bind_run in E.
    destruct (references _ _ _) as [[]|]; [|done]. unfold write in E.
    rewrite gets_bind, result_bind_run in E. unfold sql_insert, unique in E.
    case_bool_decide; [|done]. injection E as <-. eexists. split; [reflexivity|].
    intros i' s' T'. unfold some. rewrite existsb_app. cbn.
    rewrite orb_false_r, orb_comm. f_equal.
Qed.

Lemma remove_inv (i s T : string) w w' :
  removeSegment i s T w = (Ok tt, w') →
  ∃ l, db w' = with_memberships l (db w)
    ∧ ∀ i' s' T', some (is_member i' s' T') l
        = negb (same_member i s T i' s' T') && member i' s' T' (db w).
Proof.
  unfold removeSegment, write. rewrite gets_bind. intros [= <-]. eexists. split; [reflexivity|].
  intros i' s' T'. unfold member. cbn [rows members_table].
  induction (customerSegmentMembers (db w)) as [|r l IH]; [by rewrite andb_false_r|].
  unfold sql_delete, js_filter, some in *. cbn. destruct (is_member i s T r) eqn:Er; cbn.
  - rewrite IH, (is_member_same _ _ _ i' s' T' _ Er). by destruct (same_member i s T i' s' T').
  - rewrite IH. destruct (is_member i' s' T' r) eqn:Er'; [|done]. cbn.
    destruct (same_member i s T i' s' T') eqn:Es; [|done].
    unfold same_member in Es. apply andb_true_iff in Es as [[<-%String.eqb_eq
      <-%String.eqb_eq]%andb_true_iff <-%String.eqb_eq]. congruence.
Qed.

(** The customers of a list, one after the other. *)
Lemma segment_loop T s rules (l : list Customer) w w' :
  for_each l (CustomerSegmentService.segment_customer T s rules) w = (Ok tt, w') →
  NoDup (id <$> l) →
  ∃ k, db w' = with_memberships k (db w)
    ∧ (∀ c, c ∈ l → some (is_member (id c) (Segments.id s) T) k
                    = CustomerSegmentService.matches rules (metrics c))
    ∧ ∀ i s' T', i ∉ id <$> l ∨ s' ≠ Segments.id s ∨ T' ≠ T →
        some (is_member i s' T') k = member i s' T' (db w).
Proof.
  revert w. induction l as [|c l IH]; intros w E Hnd.
  - injection E as <-. exists (customerSegmentMembers (db w)).
    split; [by destruct (db w)|]. split; [by intros c ?%elem_of_nil|done].
  - cbn [for_each] in E. apply bind_inv in E as ([] & w1 & E1 & E).
    apply NoDup_cons in Hnd as [Hc Hnd]. destruct (IH w1 E Hnd) as (k & Ek & Hin & Hout).
    assert (∃ k1, db w1 = with_memberships k1 (db w) ∧ ∀ i' s' T', some (is_member i' s' T') k1
      = if same_member (id c) (Segments.id s) T i' s' T'
        then CustomerSegmentService.matches rules (metrics c)
        else member i' s' T' (db w)) as (k1 & E1' & H1).
    { unfold CustomerSegmentService.segment_customer in E1.
      destruct (CustomerSegmentService.matches rules (metrics c)).
      - apply assign_inv in E1 as (k1 & ? & H1). exists k1. split; [done|]. intros.
        rewrite H1. by destruct (same_member _ _ _ _ _ _).
      - apply remove_inv in E1 as (k1 & ? & H1). exists k1. split; [done|]. intros.
        rewrite H1. by destruct (same_member _ _ _ _ _ _). }
    exists k. split; [by rewrite Ek, E1'|].
    assert (∀ i s' T', member i s' T' (db w1) = some (is_member i s' T') k1) as Hm1
      by (intros; by rewrite E1').
    split.
    + intros x [->|Hx]%elem_of_cons; [|by apply Hin].
      rewrite Hout by (by left). rewrite Hm1, H1. unfold same_member. by rewrite !String.eqb_refl.
    + intros i s' T' Hi. rewrite fmap_cons, not_elem_of_cons in Hi.
      rewrite Hout by tauto. rewrite Hm1, H1.
      destruct (same_member _ _ _ _ _ _) eqn:Es; [|done]. unfold same_member in Es.
      apply andb_true_iff in Es as [[<-%String.eqb_eq <-%String.eqb_eq]%andb_true_iff
        <-%String.eqb_eq]. tauto.
Qed.

Lemma toDomain_deleted j c : toDomain j = Ok c → deletedAt c = cr_deletedAt (j_customer j).
Proof.
  unfold toDomain, mbind, result_bind. intros E.
  repeat match type of E with
  | match ?x with _ => _ end = _ => destruct x; try discriminate E
  end; by injection E as <-.
Qed.

(** C22: A run of a dynamic segment that returns leaves as its members, among the
    customers of the tenant that are not deleted, exactly those that match its rules:
    the others are removed, whoever put them there.  Deleted customers, the other
    segments and the other tenants keep their memberships, and nothing else changes. *)
Theorem segmentation_is_exact T segment s w w' :
  wf (db w) → findSegmentById segment T w = (Ok (Some s), w) →
  Segments.segmentType s = "DYNAMIC" →
  CustomerSegmentService.runDynamicSegmentation T segment w = (Ok tt, w') →
  (∃ l, db w' = with_memberships l (db w))
  ∧ (∀ i c, findById i T w = (Ok (Some c), w) → deletedAt c = None →
       member i segment T (db w')
       = CustomerSegmentService.matches (js_or (Segments.rules s) (JObj [])) (metrics c))
  ∧ ∀ i s' T', (∀ r, r ∈ customers (db w) → cr_id r = i → live T r = false)
               ∨ s' ≠ segment ∨ T' ≠ T →
      member i s' T' (db w') = member i s' T' (db w).
Proof.
  intros Hwf Es Et E. unfold CustomerSegmentService.runDynamicSegmentation in E.
  rewrite (bind_ok _ _ _ _ _ Es), Et, String.eqb_refl in E.
  apply bind_inv in E as (l & w1 & El & E).
  apply findAll_inv in El as [-> (rows & Hp & Hall)]; [|done].
  assert (Segments.id s = segment) as Hid.
  { unfold findSegmentById, find_segment, read in Es. rewrite gets_bind in Es.
    destruct (sql_select _ _) as [r|] eqn:Er; [|done]. injection Es as <-.
    by apply select_some in Er as [_ [? _]%by_id_true]. }
  assert (id <$> l = cr_id <$> rows) as Eids.
  { clear -Hall. induction Hall as [|r c rows l Er _ IH]; [done|]. cbn.
    apply toDomain_ok in Er as (-> & _). cbn. by rewrite IH. }
  apply segment_loop in E as (k & Ek & Hin & Hout).
  2:{ rewrite Eids, Hp. apply nodup_fmap_filter. pose proof (wf_customers _ Hwf) as Hd.
      apply (NoDup_fmap_2_strong cr_id); [|by apply distinct_nodup].
      intros x y Hx Hy E'. exact (distinct_id (customers (db w)) x y Hd Hx Hy E'). }
  rewrite Hid in *. split; [by exists k|]. unfold member. rewrite Ek. split.
  - intros i c Hc Hdel. rewrite findById_view in Hc by done. injection Hc as Hc.
    unfold view, lookup_row in Hc.
    destruct (js_find (by_id i T) (customers (db w))) as [r|] eqn:Er; [|done]. cbn in Hc.
    unfold reads, mbind, result_bind in Hc. destruct (toDomain _) as [c'|] eqn:Ec; [|done].
    injection Hc as ->. apply find_true in Er as [Hr [Hi Ht]%by_id_true].
    pose proof (toDomain_ok _ _ Ec) as (Ei & _). cbn in Hi, Ht, Ei.
    assert (r ∈ rows) as Hrow.
    { rewrite Hp. apply js_filter_elem. split; [done|]. unfold live. rewrite Ht, String.eqb_refl.
      rewrite (toDomain_deleted _ _ Ec) in Hdel. cbn in Hdel. by rewrite Hdel. }
    apply list_elem_of_lookup in Hrow as [n Hn].
    destruct (Forall2_lookup_l _ _ _ _ _ Hall Hn) as (c' & Hc' & Ec').
    assert (c' = c) as -> by congruence.
    rewrite <- Hi, <- Ei. apply Hin. apply list_elem_of_lookup. by exists n.
  - intros i s' T' Hi. apply Hout. destruct Hi as [Hi|Hi]; [left|by right].
    rewrite Eids. intros (r & -> & Hr)%list_elem_of_fmap. rewrite Hp in Hr.
    apply js_filter_elem in Hr as [Hr Hl]. by rewrite (Hi r Hr eq_refl) in Hl.
Qed.
End lists.
