(* ===== verification/CustomerQueries.v ===== *)
(** * Customers: lists and searches

    [findPaginated] and [search] of the repository and [CustomerSearchService], over
    the joined tables: filters, [ILIKE] patterns, the order with its [NULL]s, pages and
    cursors. *)

From S2P Require Import Prelude Platform JsValue Double Sql SqlText Customer CustomerRepo.
Open Scope Z_scope.

Record CustomerQueryOptions := {
  page : option Z;
  limit : option Z;
  cursor : option string;
  sortBy : option string;
  sortOrder : option string;
  q_status : option string;
  q_email : option string;
  q_phone : option string;
  q_vipStatus : option bool;
  q_search : option string;
  q_segmentId : option string;
}.
#[export] Instance CustomerQueryOptions_Eta : Eta CustomerQueryOptions := λ o,
  Build_CustomerQueryOptions (page o) (limit o) (cursor o) (sortBy o) (sortOrder o)
    (q_status o) (q_email o) (q_phone o) (q_vipStatus o) (q_search o) (q_segmentId o).

(** *** The conditions *)

(** [if (option) conditions.push(...)] *)
Definition given {A} (o : option A) (p : A → Joined → bool) (r : Joined) : bool :=
  match o with Some a => p a r | None => true end.

Definition profile_column (f : ProfileRow → option string) (r : Joined) : option string :=
  j_profile r ≫= f.
Definition search_columns (r : Joined) : list (option string) :=
  [Some (cr_email (j_customer r)); cr_phone (j_customer r); profile_column pr_firstName r;
   profile_column pr_lastName r; profile_column pr_displayName r].
Definition pattern_of (text : string) : string := "%" +:+ text +:+ "%".

Definition where_clause (tenant : string) (o : CustomerQueryOptions) (r : Joined) : bool :=
  let c := j_customer r in
  in_tenant tenant r && not_deleted r
  && given (js_or_undef (q_status o)) (λ s _, String.eqb (cr_status c) s) r
  && given (js_or_undef (q_email o))
       (λ e _, String.eqb (cr_email c) (js_lower (js_trim e))) r
  && given (js_or_undef (q_phone o)) (λ p _, bool_decide (cr_phone c = Some (js_trim p))) r
  && given (q_vipStatus o) (λ v r, match j_metrics r with
                                   | Some m => Bool.eqb (mr_vipStatus m) v
                                   | None => false
                                   end) r
  && given (js_or_undef (q_search o)) (λ t r,
       some (λ column, ilike column (pattern_of t))
         (search_columns r ++ [profile_column pr_company r])) r
  && given (js_or_undef (cursor o)) (λ x _, id_lt x (cr_id c)) r.

(** *** The order *)
Inductive sort_value := SortNumber (z : Z) | SortText (s : string) | SortAmount (n : numeric).
Definition sort_column (o : CustomerQueryOptions) (r : Joined) : option sort_value :=
  match js_or_undef (sortBy o) with
  | Some "name" => SortText <$> profile_column pr_displayName r
  | Some "email" => Some (SortText (cr_email (j_customer r)))
  | Some "lastSeenAt" => SortNumber <$> cr_lastSeenAt (j_customer r)
  | Some "totalSpend" => SortAmount ∘ mr_totalSpend <$> j_metrics r
  | _ => Some (SortNumber (cr_createdAt (j_customer r)))
  end.

Definition compare_values `{Collation} (a b : sort_value) : Z :=
  match a, b with
  | SortNumber x, SortNumber y => x - y
  | SortText s, SortText t => collate s t
  | SortAmount (Cents x), SortAmount (Cents y) => x - y
  | SortAmount NumericNaN, SortAmount NumericNaN => 0
  | SortAmount NumericNaN, _ => 1
  | _, SortAmount NumericNaN => -1
  | _, _ => 0
  end.
Definition compare_columns `{Collation} : option sort_value → option sort_value → Z :=
  compare_nulls compare_values.
Definition order_by `{Collation} (o : CustomerQueryOptions) (a b : Joined) : Z :=
  if bool_decide (sortOrder o = Some "DESC")
  then compare_columns (sort_column o b) (sort_column o a)
  else compare_columns (sort_column o a) (sort_column o b).

Section queries.
Context {HS : SqlScan} {HC : Collation}.

Definition from_clause (o : CustomerQueryOptions) (d : CustDb) : list Joined :=
  match js_or_undef (q_segmentId o) with
  | Some s => with_members s d
  | None => joined d
  end.
Definition selected (tenant : string) (o : CustomerQueryOptions) (d : CustDb) : list Joined :=
  js_filter (where_clause tenant o) (scan (from_clause o d)).

Definition limit_of (o : CustomerQueryOptions) : Z := js_or (limit o) 20.
Definition offset_of (o : CustomerQueryOptions) : Z := (js_or (page o) 1 - 1) * limit_of o.

Definition page_rows (tenant : string) (o : CustomerQueryOptions) (d : CustDb) : list Joined :=
  take (Z.to_nat (limit_of o))
    (drop (Z.to_nat (offset_of o)) (js_sort (order_by o) (selected tenant o d))).

Definition findPaginated (tenant : string) (o : CustomerQueryOptions)
    : M CustW (list Customer * Z * option string) :=
  if (limit_of o <? 0) || (offset_of o <? 0) then throw negative_error else
  l ← gets (λ w, page_rows tenant o (db w));
  total ← gets (λ w, Z.of_nat (length (selected tenant o (db w))));
  data ← of_result (mapM toDomain l);
  mret (data, total,
        if (0 <? Z.of_nat (length data)) && (Z.of_nat (length data) =? limit_of o)
        then id <$> last data else None).

Definition search (tenant text : string) (limit : Z) : M CustW (list Customer) :=
  if limit <? 0 then throw negative_error else
  l ← gets (λ w, take (Z.to_nat limit) (js_filter (λ r, in_tenant tenant r && not_deleted r
        && some (λ column, ilike column (pattern_of text)) (search_columns r))
        (scan (joined (db w)))));
  of_result (mapM toDomain l).

(** [CustomerSearchService.search] *)
Definition CustomerSearchService_search (tenant query : string) (limit : option Z)
    : M CustW (list Customer) :=
  if negb (truthy query) || negb (truthy (js_trim query)) then mret []
  else search tenant (js_trim query) (nullish limit 20).

(** ** Pages and cursors *)

(** The pages a client reads that passes each [nextCursor] on. *)
Fixpoint follow (tenant : string) (o : CustomerQueryOptions) (n : nat) (w : CustW)
    : list (list Customer) :=
  match n with
  | O => []
  | S n =>
      match outcome (findPaginated tenant o) w with
      | Ok (data, _, Some next) => data :: follow tenant (o <| cursor := Some next |>) n w
      | Ok (data, _, None) => [data]
      | Throw _ => []
      end
  end.
End queries.
