(* ===== verification/CustomerPages.v ===== *)
(** * Customers: pages and cursors

    Pages by number enumerate the customers that match; pages by cursor do not. *)

From S2P Require Import Prelude Platform JsValue Double Sql SqlText Customer CustomerRepo.
From S2P Require Import CustomerIsolation CustomerLists CustomerQueries.
Open Scope Z_scope.

Lemma id_lt_trans s t u : id_lt s t = true → id_lt t u = true → id_lt s u = true.
Proof.
  revert t u. induction s as [|a s IH]; intros [|b t] [|c u]; cbn; try done.
  rewrite !orb_true_iff, !andb_true_iff, !N.ltb_lt, !N.eqb_eq.
  intros [?|[-> ?]] [?|[E ?]]; [left; lia|left; lia|left; lia|right]. split; [done|].
  by eapply IH.
Qed.
Lemma id_lt_nonempty s t : id_lt s t = true → truthy t = true.
Proof. by destruct s, t. Qed.

Section pages.
Context {HS : SqlScan} {HC : Collation}.
Implicit Types (w : CustW) (o : CustomerQueryOptions) (x : Customer).

(** A query whose page and limit are not negative reads the page. *)
Lemma findPaginated_run tenant o w :
  (limit_of o <? 0) || (offset_of o <? 0) = false →
  outcome (findPaginated tenant o) w =
    match mapM toDomain (page_rows tenant o (db w)) with
    | Ok data => Ok (data, Z.of_nat (length (selected tenant o (db w))),
        if (0 <? Z.of_nat (length data)) && (Z.of_nat (length data) =? limit_of o)
        then id <$> last data else None)
    | Throw e => Throw e
    end.
Proof.
  intros Hn. unfold outcome, findPaginated. rewrite Hn, !gets_bind.
  unfold mbind, M_bind, of_result. by destruct (mapM toDomain _).
Qed.

(** What a page holds satisfies the conditions. *)
Lemma page_where tenant o w data total next x :
  outcome (findPaginated tenant o) w = Ok (data, total, next) → x ∈ data →
  ∃ r, toDomain r = Ok x ∧ where_clause tenant o r = true.
Proof.
  destruct ((limit_of o <? 0) || (offset_of o <? 0)) eqn:Hn.
  { unfold outcome, findPaginated. by rewrite Hn. }
  rewrite findPaginated_run by done.
  destruct (mapM toDomain _) as [l|] eqn:El; [|done]. intros [= <- _ _] Hx.
  apply mapM_ok in El. apply list_elem_of_lookup in Hx as [i Hi].
  destruct (Forall2_lookup_r _ _ _ _ _ El Hi) as (r & Hr & Er). exists r. split; [done|].
  apply list_elem_of_lookup_2 in Hr. unfold page_rows in Hr.
  assert (r ∈ js_sort (order_by o) (selected tenant o (db w))) as Hs.
  { rewrite <- (take_drop (Z.to_nat (offset_of o)) (js_sort _ _)). apply elem_of_app. right.
    rewrite <- (take_drop (Z.to_nat (limit_of o)) (drop _ _)). apply elem_of_app. by left. }
  rewrite js_sort_perm in Hs. by apply js_filter_elem in Hs as [_ ?].
Qed.

Definition after (o : CustomerQueryOptions) (start : string) : CustomerQueryOptions :=
  o <| cursor := Some start |>.

Lemma page_after tenant o w data total next start x :
  truthy start = true →
  outcome (findPaginated tenant (after o start)) w = Ok (data, total, next) →
  x ∈ data → id_lt start (id x) = true.
Proof.
  intros Hs E Hx. destruct (page_where _ _ _ _ _ _ _ E Hx) as (r & Er & Hw).
  unfold where_clause in Hw. apply andb_true_iff in Hw as [_ Hw].
  unfold given, js_or_undef, after in Hw. cbn in Hw. rewrite Hs in Hw.
  apply toDomain_ok in Er as (-> & _). exact Hw.
Qed.

(** The cursor of a page is the id of its last customer, whatever the order of the
    list (by default the time of creation).  No page that is reached by passing on the
    cursors, however many are read, holds a customer whose id is not greater than the
    first cursor: those that were not on the first page are never listed. *)
Theorem cursors_skip_customers tenant o w data total next n :
  next ≠ "" → outcome (findPaginated tenant o) w = Ok (data, total, Some next) →
  id <$> last data = Some next
  ∧ ∀ pg x, pg ∈ follow tenant (after o next) n w → x ∈ pg → id_lt next (id x) = true.
Proof.
  intros Hne E. split.
  - destruct ((limit_of o <? 0) || (offset_of o <? 0)) eqn:Hn.
    { unfold outcome, findPaginated in E. by rewrite Hn in E. }
    rewrite findPaginated_run in E by done. destruct (mapM toDomain _) as [l|]; [|done].
    injection E as <- _ E. destruct (_ && _); [exact E|done].
  - assert (truthy next = true) as Ht by (by destruct next). clear -Ht. revert next Ht.
    induction n as [|n IH]; intros next Ht pg x Hpg Hx; [by apply not_elem_of_nil in Hpg|].
    cbn [follow] in Hpg.
    destruct (outcome _ w) as [[[data total] [next'|]]|] eqn:E;
      [|apply list_elem_of_singleton in Hpg as ->; by eapply page_after
       |by apply not_elem_of_nil in Hpg].
    apply elem_of_cons in Hpg as [->|Hpg]; [by eapply page_after|].
    assert (id_lt next next' = true) as Hlt.
    { destruct ((limit_of (after o next) <? 0) || (offset_of (after o next) <? 0)) eqn:Hn.
      { unfold outcome, findPaginated in E. by rewrite Hn in E. }
      pose proof E as E'. rewrite findPaginated_run in E' by done.
      destruct (mapM toDomain _) as [l|]; [|done]. injection E' as <- _ E'.
      destruct (_ && _); [|done]. destruct (last l) as [y|] eqn:El; [|done].
      injection E' as <-. eapply page_after; [done|exact E|]. by apply last_Some_elem_of. }
    eapply id_lt_trans; [exact Hlt|].
    exact (IH next' (id_lt_nonempty _ _ Hlt) pg x Hpg Hx).
Qed.
End pages.
