(* ===== verification/CustomerSamples.v ===== *)
(** * Customers: the theorems at concrete inputs *)

From S2P Require Import Prelude Platform JsValue Double Sql SqlText Customer CustomerRepo.
From S2P Require Import CustomerService CustomerIsolation CustomerViews CustomerProofs.
From S2P Require Import CustomerMetrics CustomerLists CustomerQueries CustomerPages.
Open Scope Z_scope.

(** A database that scans in insertion order and compares texts by their lengths, a
    workflow engine without workflows, imports without records. *)
#[local] Instance sample_env : Env := ticking_env.
#[local, program] Instance sample_sql : SqlScan := {| scan _ l := l |}.
Next Obligation. done. Qed.
#[local, program] Instance sample_collation : Collation :=
  {| collate s t := js_length s - js_length t |}.
Next Obligation. split; intros; lia. Qed.
#[local] Instance sample_double : JsonDouble := λ _, JNum 0.
#[local, program] Instance sample_deps : CustDeps :=
  {| evaluateEventTriggers _ _ _ := mret tt; import_records _ := Ok []; JSON_stringify _ := "{}" |}.
Next Obligation. done. Qed.

Definition no_customers : CustDb :=
  {| customers := []; customerProfiles := []; customerMetrics := []; customerSegments := [];
     customerSegmentMembers := [] |}.
Definition world0 : CustW := fresh_world no_customers.
Lemma world0_wf : wf (db world0).
Proof. split; try apply NoDup_nil_2; intros ? H; by apply not_elem_of_nil in H. Defined.

Definition named (first : string) : CreateCustomerProfileDto :=
  {| f_firstName := Some first; f_lastName := None; f_displayName := None; f_avatarUrl := None;
     f_company := None; f_jobTitle := None; f_country := None; f_city := None; f_state := None;
     f_postalCode := None; f_tags := Some ["new"]; f_customAttributes := None |}.
Definition ada : CreateCustomerDto :=
  {| c_externalCustomerId := Some "crm-1"; c_email := " Ada@Example.org "; c_phone := Some "+44 20 7946";
     c_preferredLanguage := None; c_timezone := None; c_source := Some "MANUAL, phone";
     c_metadata := None; c_profile := Some (named "Ada") |}.
Definition bob : CreateCustomerDto :=
  {| c_externalCustomerId := None; c_email := "bob@example.org"; c_phone := None;
     c_preferredLanguage := None; c_timezone := None; c_source := None;
     c_metadata := None; c_profile := None |}.

Definition world1 : CustW := final (CustomerService.create "acme" ada None) world0.
Definition world2 : CustW := final (CustomerService.create "acme" bob None) world1.
Lemma world1_wf : wf (db world1).
Proof. exact (proj1 (create_okay "acme" ada None world0 world0_wf I)). Defined.
Lemma world2_wf : wf (db world2).
Proof. exact (proj1 (create_okay "acme" bob None world1 world1_wf I)). Defined.

(** *** Isolation *)
Definition requests : list Request :=
  [Api "acme" (Create ada None); Api "globex" (Create ada None);
   Api "acme" (Delete "uuid-0" None); Work (metrics_job "acme" "uuid-0")].

Example requests_write :
  let d := db (serve_all requests world0) in
  (length (customers d), cr_status <$> customers d, mr_totalSpend <$> customerMetrics d)
  = (2%nat, ["INACTIVE"; "ACTIVE"], [Cents 10000; Cents 0]).
Proof. vm_compute. reflexivity. Qed.

Lemma customer_calls_isolated_witness :
  wf (db (serve_all requests world0))
  ∧ of_tenant "initech" (db (serve_all requests world0)) = of_tenant "initech" (db world0).
Proof.
  destruct (customer_calls_isolated requests world0 world0_wf) as [Hwf Hothers].
  split; [exact Hwf|]. apply Hothers. apply (bool_decide_unpack _). vm_compute. exact I.
Defined.

(** *** Saving *)
Definition eve : Customer :=
  {| id := "c1"; tenantId := "acme"; externalCustomerId := Some "x9"; email := "eve@example.org";
     phone := Some ""; status := ACTIVE; preferredLanguage := "en"; timezone := "UTC";
     lastSeenAt := None; source := "API"; metadata := None; createdAt := 5; updatedAt := 5;
     deletedAt := None; version := 1; profile := None;
     metrics := Some (Metrics.zero "acme" "c1" "m1" 5 5); domainEvents := [] |}.



(** *** Channel identities *)
Definition first_message : CustW :=
  final (CustomerService.findOrCreateByExternalId "acme" "ch1" "U-ABC" "SLACK") world0.


Lemma identities_collide_witness :
  ∃ ex w, CustomerService.findOrCreateByExternalId "acme" "ch1" "u-abc" "SLACK" first_message
            = (Throw ex, w)
    ∧ db w = db first_message.
Proof.
  assert (result_map id (outcome
    (CustomerService.findOrCreateByExternalId "acme" "ch1" "U-ABC" "SLACK") world0) = Ok "uuid-0")
    as Hid by (vm_compute; reflexivity).
  destruct (outcome (CustomerService.findOrCreateByExternalId "acme" "ch1" "U-ABC" "SLACK") world0)
    as [c|e] eqn:E; [|discriminate Hid].
  injection Hid as Hid.
  refine (identities_collide "acme" "ch1" "U-ABC" "SLACK" "u-abc" "SLACK" world0 c first_message
    world0_wf _ _ _ _ (returned _ _ _ E) _); [discriminate|vm_compute; reflexivity..|].
  rewrite Hid. vm_compute. discriminate.
Defined.

(** *** A merge *)
Definition merged : CustW := final (CustomerService.merge "acme" "uuid-0" "uuid-3" None) world2.

Lemma merge_leaves_the_addresses_witness :
  ∃ s, status s = MERGED ∧ id s = "uuid-0"
    ∧ CustomerService.findOrCreateByExternalId "acme" "ch1" "crm-1" "EMAIL" merged = (Ok s, merged).
Proof.
  assert (is_ok (outcome (CustomerService.merge "acme" "uuid-0" "uuid-3" None) world2) = true)
    as Hok by (vm_compute; reflexivity).
  destruct (outcome (CustomerService.merge "acme" "uuid-0" "uuid-3" None) world2) as [x|e] eqn:E;
    [|discriminate Hok].
  destruct (merge_leaves_the_addresses "acme" "uuid-0" "uuid-3" None world2 x merged world2_wf
    ltac:(discriminate) (returned _ _ _ E))
    as (cs & ct & s & t & Hs & _ & _ & _ & _ & Hi & Hst & _ & _ & H).
  exists s. split_and!; [exact Hst|exact Hi|]. apply H; [|discriminate].
  assert (result_map (fmap externalCustomerId) (findById "uuid-0" "acme" world2).1
          = Ok (Some (Some "crm-1"))) as Hext by (vm_compute; reflexivity).
  rewrite Hs in Hext. by injection Hext.
Defined.

Example merged_customers :
  (λ r, (cr_id r, cr_status r, cr_externalCustomerId r)) <$> customers (db merged)
  = [("uuid-0", "MERGED", Some "crm-1"); ("uuid-3", "ACTIVE", None)].
Proof. vm_compute. reflexivity. Qed.

(** *** The metrics job *)
Definition ada_row : Joined := Eval vm_compute in
  default {| j_customer := customer_columns 0 eve; j_profile := None; j_metrics := None |}
    (view (db world2) "uuid-0" "acme").
Definition ada_customer : Customer := Eval vm_compute in
  match toDomain ada_row with Ok c => c | Throw _ => eve end.
Lemma ada_accrued : accrued "acme" "uuid-0" 0 0 (db world2).
Proof.
  exists ada_row, ada_customer. eexists. split; [vm_compute; reflexivity|]. split.
  - split; [vm_compute; reflexivity|intros u; vm_compute; reflexivity|vm_compute; reflexivity|].
    intros p u E. injection E as <-. split; vm_compute; reflexivity.
  - split; [reflexivity|]. repeat (split; [vm_compute; reflexivity|]). vm_compute. reflexivity.
Defined.

Lemma updates_invent_revenue_witness :
  accrued "acme" "uuid-0" 11 11 (db (run_metrics_jobs "acme" "uuid-0" 11 world2)).
Proof.
  refine (proj1 (updates_invent_revenue "acme" "uuid-0" "Ada" "ada@example.org" 0 11 world2
    world2_wf ada_accrued _ _ _)); [lia|lia|reflexivity].
Defined.

(** *** The export *)
Lemma export_is_read_back_witness :
  ∃ text l, outcome (CustomerService.export "acme" "CSV") world2 = Ok text
    ∧ parse_csv text = Some (CustomerService.headers :: (CustomerService.csv_values <$> l))
    ∧ id <$> l ≡ₚ ["uuid-0"; "uuid-3"].
Proof.
  assert (is_ok (outcome (CustomerService.export "acme" "CSV") world2) = true)
    as Hok by (vm_compute; reflexivity).
  destruct (outcome (CustomerService.export "acme" "CSV") world2) as [text|e] eqn:E;
    [|discriminate Hok].
  destruct (export_is_read_back "acme" "CSV" world2 text _ world2_wf ltac:(discriminate)
    (returned _ _ _ E)) as (l & _ & Hids & Hparse).
  exists text, l. split_and!; [reflexivity|exact Hparse|]. rewrite Hids. vm_compute. reflexivity.
Defined.

(** *** A dynamic segment *)
Definition big_spenders : Segments.CustomerSegmentDto :=
  {| Segments.d_segmentName := "big"; Segments.d_segmentType := "DYNAMIC";
     Segments.d_rules := Some (JObj [("spend", JObj [("gt", JNum 50)])]);
     Segments.d_description := None; Segments.d_isActive := None |}.
Definition segment_steps : list Request :=
  [Work (metrics_job "acme" "uuid-0"); Api "acme" (CreateSegment big_spenders);
   Api "acme" (AssignToSegment "uuid-3" "uuid-5")].
Definition world3 : CustW := Eval vm_compute in serve_all segment_steps world2.
Lemma world3_reached : world3 = serve_all segment_steps world2.
Proof. vm_compute. reflexivity. Qed.
Lemma serve_all_wf l w : wf (db w) → wf (db (serve_all l w)).
Proof.
  revert w. induction l as [|r l IH]; intros w Hwf; [done|].
  apply IH. exact (proj1 (serve_okay r w Hwf I)).
Qed.
Lemma world3_wf : wf (db world3).
Proof. rewrite world3_reached. apply serve_all_wf, world2_wf. Qed.

Definition segmented : CustW := Eval vm_compute in
  final (CustomerSegmentService.runDynamicSegmentation "acme" "uuid-5") world3.
Lemma segmentation_run :
  CustomerSegmentService.runDynamicSegmentation "acme" "uuid-5" world3 = (Ok tt, segmented).
Proof. vm_compute. reflexivity. Qed.

Definition big_segment : Segments.CustomerSegment := Eval vm_compute in
  match customerSegments (db world3) with
  | r :: _ => segment_toDomain r
  | [] => {| Segments.id := ""; Segments.tenantId := ""; Segments.segmentName := "";
             Segments.segmentType := ""; Segments.rules := None; Segments.description := None;
             Segments.isActive := None; Segments.createdAt := 0; Segments.updatedAt := 0 |}
  end.
Lemma big_segment_found :
  findSegmentById "uuid-5" "acme" world3 = (Ok (Some big_segment), world3).
Proof. vm_compute. reflexivity. Qed.

Definition ada3 : Customer := Eval vm_compute in
  match outcome (findById "uuid-0" "acme") world3 with Ok (Some c) => c | _ => eve end.
Definition bob3 : Customer := Eval vm_compute in
  match outcome (findById "uuid-3" "acme") world3 with Ok (Some c) => c | _ => eve end.
Lemma ada3_found : findById "uuid-0" "acme" world3 = (Ok (Some ada3), world3).
Proof. vm_compute. reflexivity. Qed.
Lemma bob3_found : findById "uuid-3" "acme" world3 = (Ok (Some bob3), world3).
Proof. vm_compute. reflexivity. Qed.

Lemma segmentation_is_exact_witness :
  member "uuid-3" "uuid-5" "acme" (db world3) = true
  ∧ member "uuid-3" "uuid-5" "acme" (db segmented) = false
  ∧ member "uuid-0" "uuid-5" "acme" (db segmented) = true.
Proof.
  split; [vm_compute; reflexivity|].
  destruct (segmentation_is_exact "acme" "uuid-5" big_segment world3 segmented world3_wf
    big_segment_found eq_refl segmentation_run) as (_ & H & _).
  split.
  - rewrite (H _ _ bob3_found eq_refl). vm_compute. reflexivity.
  - rewrite (H _ _ ada3_found eq_refl). vm_compute. reflexivity.
Defined.

(** *** Pages *)
Definition one_per_page : CustomerQueryOptions :=
  {| page := Some 1; limit := Some 1; cursor := None; sortBy := Some "createdAt";
     sortOrder := Some "DESC"; q_status := None; q_email := None; q_phone := None;
     q_vipStatus := None; q_search := None; q_segmentId := None |}.

(** Two customers are listed one per page; the older one is on no page. *)
Example a_customer_is_skipped :
  (result_map (λ r, (map id r.1.1, r.1.2, r.2)) (outcome (findPaginated "acme" one_per_page) world2),
   map (map id) (follow "acme" (after one_per_page "uuid-3") 5 world2))
  = (Ok (["uuid-3"], 2, Some "uuid-3"), [[]]).
Proof. vm_compute. reflexivity. Qed.

Lemma cursors_skip_customers_witness :
  ∀ pg x, pg ∈ follow "acme" (after one_per_page "uuid-3") 5 world2 → x ∈ pg →
    id_lt "uuid-3" (id x) = true.
Proof.
  assert (result_map (λ r, r.2) (outcome (findPaginated "acme" one_per_page) world2)
          = Ok (Some "uuid-3")) as Hn by (vm_compute; reflexivity).
  destruct (outcome (findPaginated "acme" one_per_page) world2) as [[[data total] next]|] eqn:E;
    [|discriminate Hn].
  injection Hn as ->.
  exact (proj2 (cursors_skip_customers "acme" one_per_page world2 data total "uuid-3" 5
    ltac:(discriminate) E)).
Defined.
