(* ===== verification/Inbox.v ===== *)
(** * Inbox: the aggregate

    [src/modules/inbox/domain]: the view of a conversation that agents list, its
    statuses and events, and the entities beside it: assignments, snoozes, presence,
    bookmarks, filters, saved views and the activity feed.  A constructor or a method
    that reads the clock is a computation; an enum is cast without a check where the
    code casts it (the priority), and guarded where the code guards it. *)

From S2P Require Import Prelude Platform Double.
Open Scope Z_scope.

(** ** Value objects *)
Inductive InboxStatusEnum :=
  | OPEN | PENDING | WAITING_CUSTOMER | WAITING_AGENT | SNOOZED | RESOLVED | ARCHIVED.
#[export] Instance InboxStatusEnum_eq_dec : EqDecision InboxStatusEnum.
Proof. solve_decision. Defined.
#[export, program] Instance InboxStatusEnum_enum : JsEnum InboxStatusEnum :=
  {| enum_values := [OPEN; PENDING; WAITING_CUSTOMER; WAITING_AGENT; SNOOZED; RESOLVED; ARCHIVED];
     enum_str s := match s with
       | OPEN => "OPEN" | PENDING => "PENDING" | WAITING_CUSTOMER => "WAITING_CUSTOMER"
       | WAITING_AGENT => "WAITING_AGENT" | SNOOZED => "SNOOZED" | RESOLVED => "RESOLVED"
       | ARCHIVED => "ARCHIVED" end |}.
Solve All Obligations with solve_enum.

Definition InboxStatus_create (value : string) : result InboxStatusEnum :=
  match parse_enum value with
  | Some s => Ok s
  | None => Throw (Exn JsError ("Invalid InboxStatus: " +:+ value))
  end.

Module Priority.
Definition LOW := "LOW".
Definition MEDIUM := "MEDIUM".
Definition HIGH := "HIGH".
Definition URGENT := "URGENT".
End Priority.

Inductive PresenceStatusEnum := ONLINE | AWAY | BUSY | OFFLINE.
#[export] Instance PresenceStatusEnum_eq_dec : EqDecision PresenceStatusEnum.
Proof. solve_decision. Defined.
#[export, program] Instance PresenceStatusEnum_enum : JsEnum PresenceStatusEnum :=
  {| enum_values := [ONLINE; AWAY; BUSY; OFFLINE];
     enum_str s := match s with
       | ONLINE => "ONLINE" | AWAY => "AWAY" | BUSY => "BUSY" | OFFLINE => "OFFLINE" end |}.
Solve All Obligations with solve_enum.

Definition PresenceStatus_create (value : string) : result PresenceStatusEnum :=
  match parse_enum value with
  | Some s => Ok s
  | None => Throw (Exn JsError ("Invalid PresenceStatus: " +:+ value))
  end.

Inductive AssignmentTypeEnum := MANUAL | ROUND_ROBIN | TEAM | FORCE | TRANSFER | AUTO | UNASSIGN.
#[export] Instance AssignmentTypeEnum_eq_dec : EqDecision AssignmentTypeEnum.
Proof. solve_decision. Defined.
#[export, program] Instance AssignmentTypeEnum_enum : JsEnum AssignmentTypeEnum :=
  {| enum_values := [MANUAL; ROUND_ROBIN; TEAM; FORCE; TRANSFER; AUTO; UNASSIGN];
     enum_str s := match s with
       | MANUAL => "MANUAL" | ROUND_ROBIN => "ROUND_ROBIN" | TEAM => "TEAM"
       | FORCE => "FORCE" | TRANSFER => "TRANSFER" | AUTO => "AUTO"
       | UNASSIGN => "UNASSIGN" end |}.
Solve All Obligations with solve_enum.

(** ** Events *)
Inductive InboxEvent :=
  | InboxUpdatedEvent (tenantId conversationId status : string)
  | InboxAssignmentChangedEvent (tenantId conversationId : string)
      (assignedAgentId assignedTeamId : option string)
  | InboxBookmarkedEvent (tenantId conversationId userId : string) (bookmarked : bool)
  | InboxSnoozedEvent (tenantId conversationId snoozedUntil : string)
  | InboxPresenceUpdatedEvent (tenantId userId status : string)
  | InboxViewCreatedEvent (tenantId savedViewId userId : string).

(** ** [InboxView] *)
Record InboxView := {
  id : string;
  tenantId : string;
  conversationId : string;
  customerId : option string;
  channelId : option string;
  assignedAgentId : option string;
  assignedTeamId : option string;
  status : InboxStatusEnum;
  priority : string;
  sentiment : option string;
  lastMessage : option string;
  lastMessageAt : option Z;
  lastMessageType : option string;
  unreadCount : Z;
  openTicketCount : Z;
  aiConfidenceScore : option double;
  waitingSince : option Z;
  metadata : gmap string json;
  createdAt : Z;
  updatedAt : Z;
  deletedAt : option Z;
  version : Z;
  domainEvents : list InboxEvent;
}.
#[export] Instance InboxView_Eta : Eta InboxView := λ v,
  Build_InboxView (id v) (tenantId v) (conversationId v) (customerId v) (channelId v)
    (assignedAgentId v) (assignedTeamId v) (status v) (priority v) (sentiment v)
    (lastMessage v) (lastMessageAt v) (lastMessageType v) (unreadCount v)
    (openTicketCount v) (aiConfidenceScore v) (waitingSince v) (metadata v) (createdAt v)
    (updatedAt v) (deletedAt v) (version v) (domainEvents v).

(** The arguments of [applyConversationUpdate] and [applyMessage]. *)
Record ConversationUpdate := {
  u_status : option InboxStatusEnum;
  u_priority : option string;
  u_customerId : option string;
  u_channelId : option string;
  u_assignedAgentId : option string;
  u_assignedTeamId : option string;
}.
Inductive Direction := INBOUND | OUTBOUND.
Record MessageUpdate := {
  m_content : option string;
  m_at : option Z;
  m_type : option string;
  m_direction : Direction;
}.

Section view.
Context {HE : Env} {Db : Type}.
Abbreviation W := (World Db).
Implicit Types (this : InboxView).

Definition touch this : M W InboxView :=
  now ← new_Date;
  mret (this <| updatedAt := now |> <| version ::= λ v, js_or (Some v) 1 + 1 |>).

Definition addDomainEvent (e : InboxEvent) this : InboxView :=
  this <| domainEvents ::= λ l, l ++ [e] |>.
Definition clearEvents this : InboxView := this <| domainEvents := [] |>.
Definition emitUpdated this : InboxView :=
  addDomainEvent (InboxUpdatedEvent (tenantId this) (conversationId this)
    (enum_str (status this))) this.

(** [this.touch(); this.emitUpdated()] *)
Definition changed this : M W InboxView := this ← touch this; mret (emitUpdated this).

(** [InboxView.create] with the fields that the code sets *)
Definition create (view tenant conversation : string) (s : InboxStatusEnum)
    (p : string) (customer channel agent team : option string) : M W InboxView :=
  created ← new_Date;
  updated ← new_Date;
  mret (emitUpdated
    {| id := view; tenantId := tenant; conversationId := conversation;
       customerId := customer; channelId := channel; assignedAgentId := agent;
       assignedTeamId := team; status := s; priority := p; sentiment := None;
       lastMessage := None; lastMessageAt := None; lastMessageType := None;
       unreadCount := 0; openTicketCount := 0; aiConfidenceScore := None;
       waitingSince := None; metadata := ∅; createdAt := created; updatedAt := updated;
       deletedAt := None; version := 1; domainEvents := [] |}).

(** [if (x !== undefined) this.props.f = x] *)
Definition if_given {A} (x old : option A) : option A :=
  match x with Some a => Some a | None => old end.

Definition applyConversationUpdate (p : ConversationUpdate) this : M W InboxView :=
  changed (this <| status ::= λ s, default s (u_status p) |>
    <| priority ::= λ q, js_or (u_priority p) q |>
    <| customerId ::= if_given (u_customerId p) |>
    <| channelId ::= if_given (u_channelId p) |>
    <| assignedAgentId ::= if_given (u_assignedAgentId p) |>
    <| assignedTeamId ::= if_given (u_assignedTeamId p) |>).

(** [d || new Date()] *)
Definition or_now (d : option Z) : M W Z :=
  match d with Some t => mret t | None => new_Date end.

Definition applyMessage (p : MessageUpdate) this : M W InboxView :=
  at_ ← or_now (m_at p);
  let this := this <| lastMessage := m_content p |> <| lastMessageAt := Some at_ |>
                   <| lastMessageType := m_type p |> in
  match m_direction p with
  | INBOUND =>
      since ← or_now (waitingSince this);
      changed (this <| unreadCount ::= λ n, n + 1 |> <| waitingSince := Some since |>)
  | OUTBOUND => changed (this <| unreadCount := 0 |> <| waitingSince := None |>)
  end.

Definition assign_view (agent team : option string) this : M W InboxView :=
  changed (this <| assignedAgentId := agent |> <| assignedTeamId := team |>).
Definition unassign this : M W InboxView :=
  changed (this <| assignedAgentId := None |> <| assignedTeamId := None |>).
Definition snooze this : M W InboxView := changed (this <| status := SNOOZED |>).
Definition unsnooze this : M W InboxView :=
  if bool_decide (status this = SNOOZED) then changed (this <| status := OPEN |>)
  else mret this.
Definition resolve this : M W InboxView :=
  changed (this <| status := RESOLVED |> <| waitingSince := None |>).
Definition archive this : M W InboxView := changed (this <| status := ARCHIVED |>).
Definition setSentiment (s : string) this : M W InboxView :=
  touch (this <| sentiment := Some s |>).
Definition setAiConfidence (score : double) this : M W InboxView :=
  touch (this <| aiConfidenceScore := Some score |>).
Definition setOpenTicketCount (count : Z) this : M W InboxView :=
  changed (this <| openTicketCount := count |>).
Definition markRead this : M W InboxView :=
  touch (this <| unreadCount := 0 |> <| waitingSince := None |>).
(** [{...old, ...metadata}] *)
Definition setMetadata (m : gmap string json) this : M W InboxView :=
  touch (this <| metadata ::= λ old, m ∪ old |>).
End view.

(** [priorityWeight[view.priority] ?? 2] *)
Definition priorityWeight (p : string) : Z :=
  if String.eqb p Priority.LOW then 1 else if String.eqb p Priority.MEDIUM then 2
  else if String.eqb p Priority.HIGH then 3 else if String.eqb p Priority.URGENT then 4 else 2.

(** ** The entities *)
Record InboxAssignment := {
  a_id : string;
  a_tenantId : string;
  a_conversationId : string;
  a_assignedAgentId : option string;
  a_assignedTeamId : option string;
  a_assignmentType : AssignmentTypeEnum;
  a_assignedAt : Z;
  a_createdAt : Z;
  a_updatedAt : Z;
}.
Record InboxSnooze := {
  s_id : string;
  s_tenantId : string;
  s_conversationId : string;
  s_snoozedUntil : Z;
  s_reason : option string;
  s_createdBy : option string;
  s_createdAt : Z;
  s_updatedAt : Z;
}.
#[export] Instance InboxSnooze_Eta : Eta InboxSnooze := λ s,
  Build_InboxSnooze (s_id s) (s_tenantId s) (s_conversationId s) (s_snoozedUntil s)
    (s_reason s) (s_createdBy s) (s_createdAt s) (s_updatedAt s).
Record InboxPresence := {
  p_id : string;
  p_tenantId : string;
  p_userId : string;
  p_status : PresenceStatusEnum;
  p_lastSeenAt : Z;
  p_activeConversationId : option string;
  p_createdAt : Z;
  p_updatedAt : Z;
}.
#[export] Instance InboxPresence_Eta : Eta InboxPresence := λ p,
  Build_InboxPresence (p_id p) (p_tenantId p) (p_userId p) (p_status p) (p_lastSeenAt p)
    (p_activeConversationId p) (p_createdAt p) (p_updatedAt p).
Record InboxBookmark := {
  b_id : string;
  b_tenantId : string;
  b_conversationId : string;
  b_userId : string;
  b_createdAt : Z;
  b_updatedAt : Z;
}.
Record InboxFilter := {
  f_id : string;
  f_tenantId : string;
  f_name : string;
  f_filterDefinition : json;
  f_isSystem : bool;
  f_isShared : bool;
  f_createdAt : Z;
  f_updatedAt : Z;
}.
#[export] Instance InboxFilter_Eta : Eta InboxFilter := λ f,
  Build_InboxFilter (f_id f) (f_tenantId f) (f_name f) (f_filterDefinition f) (f_isSystem f)
    (f_isShared f) (f_createdAt f) (f_updatedAt f).
Record SavedView := {
  v_id : string;
  v_tenantId : string;
  v_userId : string;
  v_name : string;
  v_filterId : string;
  v_sortConfiguration : option json;
  v_columnConfiguration : option json;
  v_createdAt : Z;
  v_updatedAt : Z;
}.
#[export] Instance SavedView_Eta : Eta SavedView := λ v,
  Build_SavedView (v_id v) (v_tenantId v) (v_userId v) (v_name v) (v_filterId v)
    (v_sortConfiguration v) (v_columnConfiguration v) (v_createdAt v) (v_updatedAt v).
Record ActivityFeed := {
  y_id : string;
  y_tenantId : string;
  y_conversationId : string;
  y_eventType : string;
  y_actorId : option string;
  y_eventData : list (string * json);
  y_createdAt : Z;
  y_updatedAt : Z;
}.

Section entities.
Context {HE : Env} {Db : Type}.
Abbreviation W := (World Db).

(** [isDue] and [reschedule] *)
Definition isDue (now : Z) (s : InboxSnooze) : bool := s_snoozedUntil s <=? now.
Definition reschedule (until : Z) (reason : option string) (s : InboxSnooze) : M W InboxSnooze :=
  now ← new_Date;
  mret (s <| s_snoozedUntil := until |> <| s_reason ::= if_given reason |> <| s_updatedAt := now |>).

(** [updateStatus] and [heartbeat] *)
Definition updateStatus (status : string) (active : option string) (p : InboxPresence)
    : M W InboxPresence :=
  s ← of_result (PresenceStatus_create status);
  seen ← new_Date;
  updated ← new_Date;
  mret (p <| p_status := s |> <| p_lastSeenAt := seen |>
          <| p_activeConversationId ::= if_given active |> <| p_updatedAt := updated |>).
Definition heartbeat (p : InboxPresence) : M W InboxPresence :=
  seen ← new_Date;
  updated ← new_Date;
  mret (p <| p_lastSeenAt := seen |> <| p_updatedAt := updated |>).

(** [update] of a filter and of a saved view *)
Definition update_filter (name : option string) (definition : option json)
    (shared : option bool) (f : InboxFilter) : M W InboxFilter :=
  now ← new_Date;
  mret (f <| f_name ::= js_or name |> <| f_filterDefinition ::= λ d, default d definition |>
          <| f_isShared ::= λ b, default b shared |> <| f_updatedAt := now |>).
Definition update_saved_view (name filter : option string) (sort columns : option json)
    (v : SavedView) : M W SavedView :=
  now ← new_Date;
  mret (v <| v_name ::= js_or name |> <| v_filterId ::= js_or filter |>
          <| v_sortConfiguration ::= if_given sort |>
          <| v_columnConfiguration ::= if_given columns |> <| v_updatedAt := now |>).

(** [new InboxPresence(randomUUID(), {...})] *)
Definition new_presence (tenant user status : string) : M W InboxPresence :=
  i ← randomUUID;
  s ← of_result (PresenceStatus_create status);
  seen ← new_Date;
  created ← new_Date;
  updated ← new_Date;
  mret {| p_id := i; p_tenantId := tenant; p_userId := user; p_status := s;
          p_lastSeenAt := seen; p_activeConversationId := None; p_createdAt := created;
          p_updatedAt := updated |}.
End entities.
