(* ===== verification/InboxRepo.v ===== *)
(** * Inbox: the tables and the repository

    [src/modules/inbox/repositories] over the eight inbox tables of
    [packages/database/src/schema.ts].  A table whose columns are the fields of its
    entity has the entity as its row; texts and objects that are empty are [NULL]. *)

From S2P Require Import Prelude Platform JsValue Double Sql SqlText Inbox.
Open Scope Z_scope.

(** ** Rows *)
Record ViewRow := {
  r_id : string;
  r_tenantId : string;
  r_conversationId : string;
  r_customerId : option string;
  r_channelId : option string;
  r_assignedAgentId : option string;
  r_assignedTeamId : option string;
  r_status : string;
  r_priority : string;
  r_sentiment : option string;
  r_lastMessage : option string;
  r_lastMessageAt : option Z;
  r_lastMessageType : option string;
  r_unreadCount : Z;
  r_openTicketCount : Z;
  r_aiConfidenceScore : option double;
  r_waitingSince : option Z;
  r_metadata : option (gmap string json);
  r_createdAt : Z;
  r_updatedAt : Z;
  r_deletedAt : option Z;
  r_version : Z;
}.
#[export] Instance ViewRow_Eta : Eta ViewRow := λ r,
  Build_ViewRow (r_id r) (r_tenantId r) (r_conversationId r) (r_customerId r) (r_channelId r)
    (r_assignedAgentId r) (r_assignedTeamId r) (r_status r) (r_priority r) (r_sentiment r)
    (r_lastMessage r) (r_lastMessageAt r) (r_lastMessageType r) (r_unreadCount r)
    (r_openTicketCount r) (r_aiConfidenceScore r) (r_waitingSince r) (r_metadata r)
    (r_createdAt r) (r_updatedAt r) (r_deletedAt r) (r_version r).

Record PresenceRow := {
  q_id : string;
  q_tenantId : string;
  q_userId : string;
  q_status : string;
  q_lastSeenAt : Z;
  q_activeConversationId : option string;
  q_createdAt : Z;
  q_updatedAt : Z;
}.
#[export] Instance PresenceRow_Eta : Eta PresenceRow := λ r,
  Build_PresenceRow (q_id r) (q_tenantId r) (q_userId r) (q_status r) (q_lastSeenAt r)
    (q_activeConversationId r) (q_createdAt r) (q_updatedAt r).

(** *** Unique indexes *)
#[export, program] Instance views_row : Row ViewRow :=
  {| row_id := r_id; row_tenant := r_tenantId;
     row_keys r := [["id"; r_id r]; ["conversation"; r_tenantId r; r_conversationId r]] |}.
Next Obligation. intros. left. Qed.
#[export, program] Instance presence_row : Row PresenceRow :=
  {| row_id := q_id; row_tenant := q_tenantId;
     row_keys r := [["id"; q_id r]; ["user"; q_tenantId r; q_userId r]] |}.
Next Obligation. intros. left. Qed.
#[export, program] Instance snoozes_row : Row InboxSnooze :=
  {| row_id := s_id; row_tenant := s_tenantId;
     row_keys r := [["id"; s_id r]; ["conversation"; s_tenantId r; s_conversationId r]] |}.
Next Obligation. intros. left. Qed.
#[export, program] Instance bookmarks_row : Row InboxBookmark :=
  {| row_id := b_id; row_tenant := b_tenantId;
     row_keys r := [["id"; b_id r]; ["user"; b_tenantId r; b_userId r; b_conversationId r]] |}.
Next Obligation. intros. left. Qed.
#[export, program] Instance filters_row : Row InboxFilter :=
  {| row_id := f_id; row_tenant := f_tenantId; row_keys r := [["id"; f_id r]] |}.
Next Obligation. intros. left. Qed.
#[export, program] Instance saved_views_row : Row SavedView :=
  {| row_id := v_id; row_tenant := v_tenantId; row_keys r := [["id"; v_id r]] |}.
Next Obligation. intros. left. Qed.
#[export, program] Instance assignments_row : Row InboxAssignment :=
  {| row_id := a_id; row_tenant := a_tenantId; row_keys r := [["id"; a_id r]] |}.
Next Obligation. intros. left. Qed.
#[export, program] Instance activity_row : Row ActivityFeed :=
  {| row_id := y_id; row_tenant := y_tenantId; row_keys r := [["id"; y_id r]] |}.
Next Obligation. intros. left. Qed.

(** ** The database, with the search cache in Redis, if there is one *)
Record CachedSearch := {
  c_data : list InboxView;
  c_total : Z;
  c_nextCursor : option string;
}.
Record InboxDb := {
  inboxViews : list ViewRow;
  inboxFilters : list InboxFilter;
  inboxSavedViews : list SavedView;
  inboxAssignments : list InboxAssignment;
  inboxPresence : list PresenceRow;
  inboxSnoozes : list InboxSnooze;
  inboxBookmarks : list InboxBookmark;
  inboxActivityFeed : list ActivityFeed;
  searchCache : option (gmap string CachedSearch);
}.
#[export] Instance InboxDb_Eta : Eta InboxDb := λ d,
  Build_InboxDb (inboxViews d) (inboxFilters d) (inboxSavedViews d) (inboxAssignments d)
    (inboxPresence d) (inboxSnoozes d) (inboxBookmarks d) (inboxActivityFeed d)
    (searchCache d).
Abbreviation InboxW := (World InboxDb).

#[export] Instance views_table : Table InboxDb ViewRow :=
  {| rows := inboxViews; with_rows l d := d <| inboxViews := l |> |}.
#[export] Instance filters_table : Table InboxDb InboxFilter :=
  {| rows := inboxFilters; with_rows l d := d <| inboxFilters := l |> |}.
#[export] Instance saved_views_table : Table InboxDb SavedView :=
  {| rows := inboxSavedViews; with_rows l d := d <| inboxSavedViews := l |> |}.
#[export] Instance assignments_table : Table InboxDb InboxAssignment :=
  {| rows := inboxAssignments; with_rows l d := d <| inboxAssignments := l |> |}.
#[export] Instance presence_table : Table InboxDb PresenceRow :=
  {| rows := inboxPresence; with_rows l d := d <| inboxPresence := l |> |}.
#[export] Instance snoozes_table : Table InboxDb InboxSnooze :=
  {| rows := inboxSnoozes; with_rows l d := d <| inboxSnoozes := l |> |}.
#[export] Instance bookmarks_table : Table InboxDb InboxBookmark :=
  {| rows := inboxBookmarks; with_rows l d := d <| inboxBookmarks := l |> |}.
#[export] Instance activity_table : Table InboxDb ActivityFeed :=
  {| rows := inboxActivityFeed; with_rows l d := d <| inboxActivityFeed := l |> |}.

(** ** Views *)

(** [InboxMapper.viewToDomain]: objects are true whatever they hold. *)
Definition viewToDomain (r : ViewRow) : result InboxView :=
  status ← InboxStatus_create (r_status r);
  Ok {| id := r_id r; tenantId := r_tenantId r; conversationId := r_conversationId r;
        customerId := js_or_undef (r_customerId r); channelId := js_or_undef (r_channelId r);
        assignedAgentId := js_or_undef (r_assignedAgentId r);
        assignedTeamId := js_or_undef (r_assignedTeamId r); Inbox.status := status;
        priority := js_or (Some (r_priority r)) Priority.MEDIUM;
        sentiment := js_or_undef (r_sentiment r); lastMessage := js_or_undef (r_lastMessage r);
        lastMessageAt := r_lastMessageAt r; lastMessageType := js_or_undef (r_lastMessageType r);
        unreadCount := r_unreadCount r; openTicketCount := r_openTicketCount r;
        aiConfidenceScore := r_aiConfidenceScore r; waitingSince := r_waitingSince r;
        metadata := default ∅ (r_metadata r); createdAt := r_createdAt r;
        updatedAt := r_updatedAt r; deletedAt := r_deletedAt r;
        version := js_or (Some (r_version r)) 1; domainEvents := [] |}.

Definition view_fits (v : InboxView) : bool :=
  fits [(50, Some (priority v)); (50, js_or_undef (sentiment v));
        (50, js_or_undef (lastMessageType v))]
  && int4 (unreadCount v) && int4 (openTicketCount v).
(** The columns of [raw]; a new row gets the creation date of the view and the
    defaults of the other columns. *)
Definition view_columns (tenant : string) (updated : Z) (v : InboxView) : ViewRow :=
  {| r_id := id v; r_tenantId := tenant; r_conversationId := conversationId v;
     r_customerId := js_or_undef (customerId v); r_channelId := js_or_undef (channelId v);
     r_assignedAgentId := js_or_undef (assignedAgentId v);
     r_assignedTeamId := js_or_undef (assignedTeamId v); r_status := enum_str (status v);
     r_priority := priority v; r_sentiment := js_or_undef (sentiment v);
     r_lastMessage := js_or_undef (lastMessage v); r_lastMessageAt := lastMessageAt v;
     r_lastMessageType := js_or_undef (lastMessageType v); r_unreadCount := unreadCount v;
     r_openTicketCount := openTicketCount v; r_aiConfidenceScore := aiConfidenceScore v;
     r_waitingSince := waitingSince v; r_metadata := Some (metadata v);
     r_createdAt := createdAt v; r_updatedAt := updated; r_deletedAt := None;
     r_version := 1 |}.
(** [set: raw] *)
Definition set_view (raw r : ViewRow) : ViewRow :=
  raw <| r_createdAt := r_createdAt r |> <| r_deletedAt := r_deletedAt r |>
      <| r_version := r_version r |>.

Definition of_conversation (tenant conversation : string) (r : ViewRow) : bool :=
  String.eqb (r_tenantId r) tenant && String.eqb (r_conversationId r) conversation.

Section repository.
Context {HE : Env} {HS : SqlScan}.

Definition findViewByConversation (tenant conversation : string) : M InboxW (option InboxView) :=
  row ← read (of_conversation tenant conversation);
  match row with
  | None => mret None
  | Some r => v ← of_result (viewToDomain r); mret (Some v)
  end.

Definition saveView (v : InboxView) (tenant : string) : M InboxW InboxView :=
  updated ← new_Date;
  raw ← of_result (column (view_fits v) (view_columns tenant updated v));
  write (sql_upsert (of_conversation tenant (conversationId v)) (set_view raw) raw) ;;
  mret v.

(** ** Filters and saved views *)
Definition saveFilter (f : InboxFilter) (tenant : string) : M InboxW unit :=
  updated ← new_Date;
  existing ← read (R := InboxFilter) (by_id (f_id f) tenant);
  raw ← of_result (column (fits [(255, Some (f_name f))]) (f <| f_tenantId := tenant |>));
  match existing with
  | Some _ => write (sql_update (by_id (f_id f) tenant)
                (λ r, raw <| f_createdAt := f_createdAt r |> <| f_updatedAt := updated |>))
  | None => write (sql_insert (raw <| f_updatedAt := updated |>))
  end.
Definition getFilter (tenant filter : string) : M InboxW (option InboxFilter) :=
  read (by_id filter tenant).
Definition listFilters `{Collation} (tenant : string) : M InboxW (list InboxFilter) :=
  gets (λ w, js_sort (λ a b, collate (f_name a) (f_name b))
               (js_filter (λ f, String.eqb (f_tenantId f) tenant) (scan (inboxFilters (db w))))).
(** [delete(...).returning(...)]: whether a row was there *)
Definition delete_where {R} {HT : Table InboxDb R} (p : R → bool) : M InboxW bool :=
  found ← gets (λ w, some p (rows (db w)));
  write (λ l, Ok (sql_delete p l)) ;;
  mret found.
Definition deleteFilter (tenant filter : string) : M InboxW bool :=
  delete_where (λ f, by_id filter tenant f && negb (f_isSystem f)).

Definition saveSavedView (v : SavedView) (tenant : string) : M InboxW unit :=
  updated ← new_Date;
  existing ← read (R := SavedView) (by_id (v_id v) tenant);
  raw ← of_result (column (fits [(255, Some (v_name v))]) (v <| v_tenantId := tenant |>));
  match existing with
  | Some _ => write (sql_update (by_id (v_id v) tenant)
                (λ r, raw <| v_createdAt := v_createdAt r |> <| v_updatedAt := updated |>))
  | None => write (sql_insert (raw <| v_updatedAt := updated |>))
  end.
Definition getSavedView (tenant view : string) : M InboxW (option SavedView) :=
  read (by_id view tenant).
Definition listSavedViews `{Collation} (tenant user : string) : M InboxW (list SavedView) :=
  gets (λ w, js_sort (λ a b, collate (v_name a) (v_name b))
               (js_filter (λ v, String.eqb (v_tenantId v) tenant && String.eqb (v_userId v) user)
                  (scan (inboxSavedViews (db w))))).
Definition deleteSavedView (tenant view : string) : M InboxW bool :=
  delete_where (R := SavedView) (by_id view tenant).

(** ** Assignments *)
Definition addAssignment (a : InboxAssignment) (tenant : string) : M InboxW unit :=
  write (sql_insert
    {| a_id := a_id a; a_tenantId := tenant; a_conversationId := a_conversationId a;
       a_assignedAgentId := js_or_undef (a_assignedAgentId a);
       a_assignedTeamId := js_or_undef (a_assignedTeamId a);
       a_assignmentType := a_assignmentType a; a_assignedAt := a_assignedAt a;
       a_createdAt := a_createdAt a; a_updatedAt := a_updatedAt a |}).
Definition findAssignments (tenant conversation : string) : M InboxW (list InboxAssignment) :=
  gets (λ w, js_sort (λ a b, a_assignedAt b - a_assignedAt a)
    (js_filter (λ a, String.eqb (a_tenantId a) tenant
                     && String.eqb (a_conversationId a) conversation)
       (scan (inboxAssignments (db w))))).

(** ** Presence *)
Definition of_user (tenant user : string) (r : PresenceRow) : bool :=
  String.eqb (q_tenantId r) tenant && String.eqb (q_userId r) user.
Definition presenceToDomain (r : PresenceRow) : result InboxPresence :=
  status ← PresenceStatus_create (q_status r);
  Ok {| p_id := q_id r; p_tenantId := q_tenantId r; p_userId := q_userId r;
        p_status := status; p_lastSeenAt := q_lastSeenAt r;
        p_activeConversationId := js_or_undef (q_activeConversationId r);
        p_createdAt := q_createdAt r; p_updatedAt := q_updatedAt r |}.
Definition upsertPresence (p : InboxPresence) (tenant : string) : M InboxW unit :=
  inserted ← new_Date;
  updated ← new_Date;
  let raw := {| q_id := p_id p; q_tenantId := tenant; q_userId := p_userId p;
                q_status := enum_str (p_status p); q_lastSeenAt := p_lastSeenAt p;
                q_activeConversationId := js_or_undef (p_activeConversationId p);
                q_createdAt := p_createdAt p; q_updatedAt := inserted |} in
  write (sql_upsert (of_user tenant (p_userId p))
    (λ r, r <| q_status := q_status raw |> <| q_lastSeenAt := q_lastSeenAt raw |>
            <| q_activeConversationId := q_activeConversationId raw |>
            <| q_updatedAt := updated |>) raw).
Definition getPresence (tenant user : string) : M InboxW (option InboxPresence) :=
  row ← read (of_user tenant user);
  match row with
  | None => mret None
  | Some r => p ← of_result (presenceToDomain r); mret (Some p)
  end.
Definition listOnlinePresence (tenant : string) : M InboxW (list InboxPresence) :=
  l ← gets (λ w, js_sort (λ a b, q_lastSeenAt b - q_lastSeenAt a)
    (js_filter (λ r, String.eqb (q_tenantId r) tenant
                     && bool_decide (q_status r ∈ ["ONLINE"; "AWAY"; "BUSY"]))
       (scan (inboxPresence (db w)))));
  of_result (mapM presenceToDomain l).

(** ** Snoozes *)
Definition snooze_of (tenant conversation : string) (s : InboxSnooze) : bool :=
  String.eqb (s_tenantId s) tenant && String.eqb (s_conversationId s) conversation.
Definition upsertSnooze (s : InboxSnooze) (tenant : string) : M InboxW unit :=
  inserted ← new_Date;
  updated ← new_Date;
  raw ← of_result (column (fits [(255, js_or_undef (s_reason s))])
    {| s_id := s_id s; s_tenantId := tenant; s_conversationId := s_conversationId s;
       s_snoozedUntil := s_snoozedUntil s; s_reason := js_or_undef (s_reason s);
       s_createdBy := js_or_undef (s_createdBy s); s_createdAt := s_createdAt s;
       s_updatedAt := inserted |});
  write (sql_upsert (snooze_of tenant (s_conversationId s))
    (λ r, r <| s_snoozedUntil := s_snoozedUntil raw |> <| s_reason := s_reason raw |>
            <| s_updatedAt := updated |>) raw).
Definition getSnooze (tenant conversation : string) : M InboxW (option InboxSnooze) :=
  read (snooze_of tenant conversation).
Definition deleteSnooze (tenant conversation : string) : M InboxW bool :=
  delete_where (snooze_of tenant conversation).
Definition due (tenant : option string) (now : Z) (s : InboxSnooze) : bool :=
  (s_snoozedUntil s <=? now)
  && match js_or_undef tenant with Some t => String.eqb (s_tenantId s) t | None => true end.
Definition findDueSnoozes (tenant : option string) (now : Z) (limit : nat)
    : M InboxW (list InboxSnooze) :=
  gets (λ w, take limit (js_sort (λ a b, s_snoozedUntil a - s_snoozedUntil b)
                           (js_filter (due tenant now) (scan (inboxSnoozes (db w)))))).

(** ** Bookmarks *)
Definition bookmark_of (tenant conversation user : string) (b : InboxBookmark) : bool :=
  String.eqb (b_tenantId b) tenant && String.eqb (b_conversationId b) conversation
  && String.eqb (b_userId b) user.
Definition addBookmark (b : InboxBookmark) (tenant : string) : M InboxW unit :=
  write (λ l, Ok (sql_insert_ignore
    {| b_id := b_id b; b_tenantId := tenant; b_conversationId := b_conversationId b;
       b_userId := b_userId b; b_createdAt := b_createdAt b; b_updatedAt := b_updatedAt b |} l)).
Definition removeBookmark (tenant conversation user : string) : M InboxW bool :=
  delete_where (bookmark_of tenant conversation user).
Definition isBookmarked (tenant conversation user : string) : M InboxW bool :=
  row ← read (bookmark_of tenant conversation user);
  mret (match row with Some _ => true | None => false end).
Definition listBookmarks (tenant user : string) : M InboxW (list InboxBookmark) :=
  gets (λ w, js_sort (λ a b, b_createdAt b - b_createdAt a)
    (js_filter (λ b, String.eqb (b_tenantId b) tenant && String.eqb (b_userId b) user)
       (scan (inboxBookmarks (db w))))).

(** ** The activity feed *)
Definition addActivity (y : ActivityFeed) (tenant : string) : M InboxW unit :=
  raw ← of_result (column (fits [(100, Some (y_eventType y))])
    {| y_id := y_id y; y_tenantId := tenant; y_conversationId := y_conversationId y;
       y_eventType := y_eventType y; y_actorId := js_or_undef (y_actorId y);
       y_eventData := y_eventData y; y_createdAt := y_createdAt y;
       y_updatedAt := y_updatedAt y |});
  write (sql_insert raw).
Definition listActivity (tenant conversation : string) (limit : Z) : M InboxW (list ActivityFeed) :=
  if limit <? 0 then throw negative_error else
  gets (λ w, take (Z.to_nat limit) (js_sort (λ a b, y_createdAt b - y_createdAt a)
    (js_filter (λ y, String.eqb (y_tenantId y) tenant
                     && String.eqb (y_conversationId y) conversation)
       (scan (inboxActivityFeed (db w)))))).
End repository.
