(* ===== verification/InboxQueries.v ===== *)
(** * Inbox: the list of views

    [buildListConditions], [listViews] and [countByStatus] of the repository. *)

From S2P Require Import Prelude Platform JsValue Double Sql SqlText Inbox InboxRepo.
Open Scope Z_scope.

Record InboxQueryOptions := {
  page : option Z;
  limit : option Z;
  cursor : option string;
  sortBy : option string;
  sortOrder : option string;
  o_status : option string;
  o_priority : option string;
  o_sentiment : option string;
  o_assignedAgentId : option string;
  o_assignedTeamId : option string;
  o_customerId : option string;
  o_channelId : option string;
  unassigned : bool;
  highPriority : bool;
  aiEscalated : bool;
  slaRisk : bool;
  bookmarkedByUserId : option string;
  search_text : option string;
}.
#[export] Instance InboxQueryOptions_Eta : Eta InboxQueryOptions := λ o,
  Build_InboxQueryOptions (page o) (limit o) (cursor o) (sortBy o) (sortOrder o) (o_status o)
    (o_priority o) (o_sentiment o) (o_assignedAgentId o) (o_assignedTeamId o)
    (o_customerId o) (o_channelId o) (unassigned o) (highPriority o) (aiEscalated o)
    (slaRisk o) (bookmarkedByUserId o) (search_text o).

(** The options of [{}]. *)
Definition no_options : InboxQueryOptions :=
  {| page := None; limit := None; cursor := None; sortBy := None; sortOrder := None;
     o_status := None; o_priority := None; o_sentiment := None; o_assignedAgentId := None;
     o_assignedTeamId := None; o_customerId := None; o_channelId := None;
     unassigned := false; highPriority := false; aiEscalated := false; slaRisk := false;
     bookmarkedByUserId := None; search_text := None |}.

(** [if (option) conditions.push(eq(column, option))] *)
Definition column_is (o c : option string) : bool :=
  match js_or_undef o with Some x => bool_decide (c = Some x) | None => true end.
(** [metadata->>key = 'true'] *)
Definition metadata_is_true (key : string) (r : ViewRow) : bool :=
  match m ← r_metadata r; m !! key with
  | Some (JBool true) => true
  | Some (JStr s) => String.eqb s "true"
  | _ => false
  end.
Definition HIGH_PRIORITIES : list string := ["HIGH"; "URGENT"].

Definition conditions (tenant : string) (o : InboxQueryOptions) (r : ViewRow) : bool :=
  String.eqb (r_tenantId r) tenant && negb (bool_decide (is_Some (r_deletedAt r)))
  && column_is (o_status o) (Some (r_status r)) && column_is (o_priority o) (Some (r_priority r))
  && column_is (o_sentiment o) (r_sentiment r)
  && column_is (o_assignedAgentId o) (r_assignedAgentId r)
  && column_is (o_assignedTeamId o) (r_assignedTeamId r)
  && column_is (o_customerId o) (r_customerId r) && column_is (o_channelId o) (r_channelId r)
  && (negb (unassigned o) || negb (bool_decide (is_Some (r_assignedAgentId r))))
  && (negb (highPriority o) || bool_decide (r_priority r ∈ HIGH_PRIORITIES))
  && (negb (aiEscalated o) || metadata_is_true "aiEscalated" r)
  && (negb (slaRisk o) || metadata_is_true "slaRisk" r)
  && match js_or_undef (search_text o) with
     | Some t => ilike (r_lastMessage r) ("%" +:+ t +:+ "%")
                 || ilike (r_sentiment r) ("%" +:+ t +:+ "%")
     | None => true
     end.

Section queries.
Context {HE : Env} {HS : SqlScan} {HC : Collation}.

(** [buildListConditions]: [None] if no view can match. *)
Definition buildListConditions (tenant : string) (o : InboxQueryOptions) (d : InboxDb)
    : option (ViewRow → bool) :=
  match js_or_undef (bookmarkedByUserId o) with
  | None => Some (conditions tenant o)
  | Some user =>
      let ids := b_conversationId <$>
        js_filter (λ b, String.eqb (b_tenantId b) tenant && String.eqb (b_userId b) user)
          (scan (inboxBookmarks d)) in
      match ids with
      | [] => None
      | _ => Some (λ r, conditions tenant o r && bool_decide (r_conversationId r ∈ ids))
      end
  end.

Inductive sort_value := SortNumber (z : Z) | SortText (s : string).
Definition sort_column (o : InboxQueryOptions) (r : ViewRow) : option sort_value :=
  match sortBy o with
  | Some "priority" => Some (SortText (r_priority r))
  | Some "waitingSince" => SortNumber <$> r_waitingSince r
  | Some "createdAt" => Some (SortNumber (r_createdAt r))
  | _ => SortNumber <$> r_lastMessageAt r
  end.
Definition compare_values (a b : sort_value) : Z :=
  match a, b with
  | SortNumber x, SortNumber y => x - y
  | SortText s, SortText t => collate s t
  | _, _ => 0
  end.
Definition order_by (o : InboxQueryOptions) (a b : ViewRow) : Z :=
  if bool_decide (sortOrder o = Some "ASC")
  then compare_nulls compare_values (sort_column o a) (sort_column o b)
  else compare_nulls compare_values (sort_column o b) (sort_column o a).

Definition limit_of (o : InboxQueryOptions) : Z := js_or (limit o) 25.
Definition offset_of (o : InboxQueryOptions) : Z :=
  match js_or_undef (cursor o) with
  | Some _ => 0
  | None => (js_or (page o) 1 - 1) * limit_of o
  end.
Definition after_cursor (o : InboxQueryOptions) (r : ViewRow) : bool :=
  match js_or_undef (cursor o) with Some c => id_lt c (r_id r) | None => true end.

Definition page_rows (o : InboxQueryOptions) (where_ : ViewRow → bool) (d : InboxDb)
    : list ViewRow :=
  take (Z.to_nat (limit_of o)) (drop (Z.to_nat (offset_of o))
    (js_sort (order_by o)
       (js_filter (λ r, where_ r && after_cursor o r) (scan (inboxViews d))))).

Definition listViews (tenant : string) (o : InboxQueryOptions) : M InboxW CachedSearch :=
  where_ ← gets (λ w, buildListConditions tenant o (db w));
  match where_ with
  | None => mret {| c_data := []; c_total := 0; c_nextCursor := None |}
  | Some where_ =>
      if (limit_of o <? 0) || (offset_of o <? 0) then throw negative_error else
      rows ← gets (λ w, page_rows o where_ (db w));
      count ← gets (λ w, length (js_filter where_ (inboxViews (db w))));
      data ← of_result (mapM viewToDomain rows);
      mret {| c_data := data; c_total := Z.of_nat count;
              c_nextCursor := if Z.of_nat (length data) =? limit_of o
                              then r_id <$> last rows else None |}
  end.

(** The groups of [groupBy(status)], as the record the loop fills. *)
Definition countByStatus (tenant : string) (o : InboxQueryOptions) : M InboxW (gmap string Z) :=
  where_ ← gets (λ w, buildListConditions tenant o (db w));
  match where_ with
  | None => mret ∅
  | Some where_ =>
      gets (λ w, foldr (λ r acc, <[r_status r := default 0 (acc !! r_status r) + 1]> acc) ∅
                   (js_filter where_ (inboxViews (db w))))
  end.
End queries.
