(* ===== verification/InboxProjection.v ===== *)
(** * Inbox: the projection and the event consumer

    [src/modules/inbox/services/inbox-projection.service.ts], the publisher and the
    activity feed, and [consumers/inbox-event.consumer.ts], one module per service.  The
    agent assignment engine and the drafts of the message module are parameters that
    write no inbox table.  A field of an event's payload has the type its producer
    writes; a value of another type reads as missing.  A broadcast is named by its event
    and its conversation or user. *)

From S2P Require Import Prelude Platform JsDate JsValue Double Sql SqlText Inbox InboxRepo InboxQueries.
Open Scope Z_scope.

Class InboxDeps := {
  (** [assignEntity(tenant, team, conversation, 'CONVERSATION', {priority})] *)
  assignEntity : string → string → string → Z → M InboxW string;
  (** [send(tenant, draft, 'AGENT', user)] and [discard(tenant, draft)] *)
  draft_send : string → string → string → M InboxW unit;
  draft_discard : string → string → M InboxW unit;
  (** [new Date(text)], and the hash of the options of a search *)
  Date_parse : string → option Z;
  options_hash : InboxQueryOptions → string;
  assignEntity_db t g c p : keeps (same db) (assignEntity t g c p);
  draft_send_db t d u : keeps (same db) (draft_send t d u);
  draft_discard_db t d : keeps (same db) (draft_discard t d);
}.
#[export] Hint Resolve assignEntity_db draft_send_db draft_discard_db : keeps.

Section shared.
Context {HE : Env} {HS : SqlScan}.

(** ** [InboxEventPublisher] *)
Definition event_name (e : InboxEvent) : string :=
  match e with
  | InboxUpdatedEvent _ _ _ => "inbox.updated"
  | InboxAssignmentChangedEvent _ _ _ _ => "inbox.assignment.changed"
  | InboxBookmarkedEvent _ _ _ _ => "inbox.bookmarked"
  | InboxSnoozedEvent _ _ _ => "inbox.snoozed"
  | InboxPresenceUpdatedEvent _ _ _ => "inbox.presence.updated"
  | InboxViewCreatedEvent _ _ _ => "inbox.view.created"
  end.
Definition aggregate_id (e : InboxEvent) : string :=
  match e with
  | InboxUpdatedEvent _ i _ | InboxAssignmentChangedEvent _ i _ _ | InboxBookmarkedEvent _ i _ _
  | InboxSnoozedEvent _ i _ | InboxPresenceUpdatedEvent _ i _ | InboxViewCreatedEvent _ i _ => i
  end.
Definition ANALYTICS_EVENTS : list string :=
  ["inbox.updated"; "inbox.assignment.changed"; "inbox.bookmarked"; "inbox.snoozed";
   "inbox.presence.updated"; "inbox.view.created"].

Definition publish (e : InboxEvent) : M InboxW unit :=
  try_catch
    (when (bool_decide (event_name e ∈ ANALYTICS_EVENTS))
       (addJob ANALYTICS "inbox-event"
          [("aggregateId", JStr (aggregate_id e)); ("eventName", JStr (event_name e))] (λ o, o)))
    (λ _, mret tt).
Definition publishAll (l : list InboxEvent) : M InboxW unit := for_each l publish.

(** [emitConversationUpdate] and the like *)
Definition emit (tenant event about : string) : M InboxW unit :=
  broadcast tenant (event +:+ ":" +:+ about).

(** ** [InboxActivityService.record] *)
Definition record (tenant conversation eventType : string) (actor : option string)
    (data : list (string * json)) : M InboxW ActivityFeed :=
  i ← randomUUID;
  created ← new_Date;
  updated ← new_Date;
  let activity := {| y_id := i; y_tenantId := tenant; y_conversationId := conversation;
                     y_eventType := eventType; y_actorId := actor; y_eventData := data;
                     y_createdAt := created; y_updatedAt := updated |} in
  addActivity activity tenant ;;
  mret activity.
Definition activity_list (tenant conversation : string) (limit : option Z)
    : M InboxW (list ActivityFeed) := listActivity tenant conversation (default 50 limit).

(** [getViewOrThrow], of three services *)
Definition getViewOrThrow (tenant conversation : string) : M InboxW InboxView :=
  found ← findViewByConversation tenant conversation;
  match found with
  | Some v => mret v
  | None => throw (Exn NotFoundException
              ("Inbox view for conversation " +:+ conversation +:+ " not found"))
  end.

(** Save, publish the events, clear them, broadcast. *)
Definition persist_as (event : string) (v : InboxView) (tenant : string) : M InboxW unit :=
  _ ← saveView v tenant;
  publishAll (domainEvents v) ;;
  emit tenant event (conversationId v).
End shared.

(** ** [InboxProjectionService] *)
Module InboxProjectionService.
Record ConversationProjection := {
  c_customerId : option string;
  c_channelId : option string;
  c_status : option string;
  c_priority : option string;
  c_assignedAgentId : option string;
  c_assignedTeamId : option string;
}.
Definition no_seed : ConversationProjection :=
  {| c_customerId := None; c_channelId := None; c_status := None; c_priority := None;
     c_assignedAgentId := None; c_assignedTeamId := None |}.

Definition STATUS_MAP : list (string * InboxStatusEnum) :=
  [("OPEN", OPEN); ("ACTIVE", OPEN); ("PENDING", PENDING);
   ("WAITING_CUSTOMER", WAITING_CUSTOMER); ("WAITING_AGENT", WAITING_AGENT);
   ("WAITING_INTERNAL", WAITING_AGENT); ("SNOOZED", SNOOZED); ("RESOLVED", RESOLVED);
   ("CLOSED", RESOLVED); ("ARCHIVED", ARCHIVED)].
Definition PRIORITY_MAP : list (string * string) :=
  [("LOW", Priority.LOW); ("MEDIUM", Priority.MEDIUM); ("NORMAL", Priority.MEDIUM);
   ("HIGH", Priority.HIGH); ("URGENT", Priority.URGENT); ("CRITICAL", Priority.URGENT)].
Definition lookup {A} (m : list (string * A)) (k : option string) : option A :=
  s ← js_or_undef k;
  snd <$> js_find (λ kv, String.eqb kv.1 (js_upper s)) m.
Definition mapStatus : option string → option InboxStatusEnum := lookup STATUS_MAP.
Definition mapPriority : option string → option string := lookup PRIORITY_MAP.

Section service.
Context {HE : Env} {HS : SqlScan}.

Definition getOrCreate (tenant conversation : string) (seed : ConversationProjection)
    : M InboxW InboxView :=
  existing ← findViewByConversation tenant conversation;
  match existing with
  | Some v => mret v
  | None =>
      i ← randomUUID;
      create i tenant conversation (default OPEN (mapStatus (c_status seed)))
        (js_or (mapPriority (c_priority seed)) Priority.MEDIUM) (c_customerId seed)
        (c_channelId seed) (c_assignedAgentId seed) (c_assignedTeamId seed)
  end.

Definition persist (v : InboxView) (tenant : string) : M InboxW unit :=
  persist_as "inbox.conversation.updated" v tenant.

Definition update_of (p : ConversationProjection) : ConversationUpdate :=
  {| u_status := mapStatus (c_status p); u_priority := mapPriority (c_priority p);
     u_customerId := c_customerId p; u_channelId := c_channelId p;
     u_assignedAgentId := c_assignedAgentId p; u_assignedTeamId := c_assignedTeamId p |}.

Definition projectConversation (tenant conversation : string) (p : ConversationProjection)
    : M InboxW unit :=
  v ← getOrCreate tenant conversation p;
  v ← applyConversationUpdate (update_of p) v;
  persist v tenant.

(** What [projectMessage] does with the view it has read. *)
Definition message_on (tenant : string) (p : MessageUpdate) (v : InboxView) : M InboxW unit :=
  v ← applyMessage p v;
  persist_as "inbox.message.updated" v tenant.
Definition projectMessage (tenant conversation : string) (p : MessageUpdate) : M InboxW unit :=
  v ← getOrCreate tenant conversation no_seed;
  message_on tenant p v.

Definition adjustOpenTicketCount (tenant conversation : string) (delta : Z) : M InboxW unit :=
  v ← getOrCreate tenant conversation no_seed;
  v ← setOpenTicketCount (Z.max 0 (openTicketCount v + delta)) v;
  persist v tenant.

Definition projectCustomer (tenant conversation customer : string) : M InboxW unit :=
  v ← getOrCreate tenant conversation no_seed;
  v ← applyConversationUpdate
        {| u_status := None; u_priority := None; u_customerId := Some customer;
           u_channelId := None; u_assignedAgentId := None; u_assignedTeamId := None |} v;
  persist v tenant.

(** The signals that are given, one after the other. *)
Definition apply_signals (sentiment : option string) (confidence : option double)
    (escalated : bool) (v : InboxView) : M InboxW InboxView :=
  v ← match js_or_undef sentiment with Some s => setSentiment s v | None => mret v end;
  v ← match confidence with Some x => setAiConfidence x v | None => mret v end;
  if escalated then setMetadata {["aiEscalated" := JBool true]} v else mret v.
Definition projectAiSignals (tenant conversation : string) (sentiment : option string)
    (confidence : option double) (escalated : bool) : M InboxW unit :=
  v ← getOrCreate tenant conversation no_seed;
  v ← apply_signals sentiment confidence escalated v;
  persist v tenant.

Definition markSlaRisk (tenant conversation : string) (atRisk : bool) : M InboxW unit :=
  v ← getOrCreate tenant conversation no_seed;
  v ← setMetadata {["slaRisk" := JBool atRisk]} v;
  persist v tenant.
End service.
End InboxProjectionService.

(** ** [InboxEventConsumer] *)
Module InboxEventConsumer.
Import InboxProjectionService.
Record InboxEventEnvelope := {
  e_tenantId : string;
  eventName : string;
  aggregateId : string;
  e_conversationId : option string;
  actorId : option string;
  payload : list (string * json);
}.

(** [envelope.conversationId || payload.conversationId], if it is true *)
Definition conversation_of (e : InboxEventEnvelope) : option string :=
  match js_or_undef (e_conversationId e) with
  | Some c => Some c
  | None => js_or_undef (str_field "conversationId" (payload e))
  end.
Definition number_field (k : string) (o : list (string * json)) : option double :=
  match field k o with Some (JNum z) => Some (double_of_Z z) | _ => None end.
(** [a || b] *)
Definition or_field (a b : string) (o : list (string * json)) : option string :=
  match js_or_undef (str_field a o) with Some s => Some s | None => str_field b o end.

(** [payload.at ? new Date(payload.at) : undefined]; an invalid date throws when it is
    written, before anything else is. *)
Definition message_date `{InboxDeps} (o : list (string * json)) : result (option Z) :=
  match field "at" o with
  | Some v =>
      if truthy v then
        match v with
        | JNum z => Ok (Some z)
        | JBool _ => Ok (Some 1)
        | _ => match Date_parse (js_String v) with
               | Some t => Ok (Some t)
               | None => Throw (Exn JsError "Invalid time value")
               end
        end
      else Ok None
  | None => Ok None
  end.

Definition conversation_projection (o : list (string * json)) : ConversationProjection :=
  {| c_customerId := str_field "customerId" o; c_channelId := str_field "channelId" o;
     c_status := str_field "status" o; c_priority := str_field "priority" o;
     c_assignedAgentId := str_field "assignedAgentId" o;
     c_assignedTeamId := str_field "assignedTeamId" o |}.
Definition assignment_projection (o : list (string * json)) : ConversationProjection :=
  {| c_customerId := None; c_channelId := None; c_status := None; c_priority := None;
     c_assignedAgentId := or_field "assigneeId" "assignedAgentId" o;
     c_assignedTeamId := str_field "assignedTeamId" o |}.
Definition direction_name (d : Direction) : string :=
  match d with INBOUND => "INBOUND" | OUTBOUND => "OUTBOUND" end.

Section consumer.
Context {HE : Env} {HS : SqlScan} {HD : InboxDeps}.

Definition on_conversation (tenant conversation : string) (e : InboxEventEnvelope)
    : M InboxW unit :=
  projectConversation tenant conversation (conversation_projection (payload e)) ;;
  _ ← record tenant conversation
        (if String.eqb (eventName e) "conversation.created" then "CONVERSATION_OPENED" else "STATUS")
        (actorId e) (payload e);
  mret tt.
Definition on_message (d : Direction) (tenant conversation : string) (e : InboxEventEnvelope)
    : M InboxW unit :=
  at_ ← of_result (message_date (payload e));
  projectMessage tenant conversation
    {| m_content := str_field "content" (payload e); m_at := at_;
       m_type := str_field "messageType" (payload e); m_direction := d |} ;;
  _ ← record tenant conversation "MESSAGE" (actorId e) [("direction", JStr (direction_name d))];
  mret tt.
Definition ticket_data (e : InboxEventEnvelope) : list (string * json) :=
  [("ticketId", JStr (aggregateId e))] ++ opt_field "status" (str_field "status" (payload e)).
Definition on_ticket_created (tenant conversation : string) (e : InboxEventEnvelope)
    : M InboxW unit :=
  adjustOpenTicketCount tenant conversation 1 ;;
  _ ← record tenant conversation "TICKET" (actorId e) (ticket_data e);
  mret tt.
Definition ticket_over (e : InboxEventEnvelope) : bool :=
  match str_field "status" (payload e) with
  | Some s => bool_decide (s ∈ ["RESOLVED"; "CLOSED"])
  | None => false
  end.
Definition on_ticket_updated (tenant conversation : string) (e : InboxEventEnvelope)
    : M InboxW unit :=
  when (ticket_over e) (adjustOpenTicketCount tenant conversation (-1)) ;;
  _ ← record tenant conversation "TICKET" (actorId e) (ticket_data e);
  mret tt.
Definition on_assignment (tenant conversation : string) (e : InboxEventEnvelope)
    : M InboxW unit :=
  projectConversation tenant conversation (assignment_projection (payload e)) ;;
  _ ← record tenant conversation "ASSIGNED" (actorId e) (payload e);
  mret tt.
Definition on_escalation (tenant conversation : string) (e : InboxEventEnvelope)
    : M InboxW unit :=
  projectAiSignals tenant conversation (str_field "sentiment" (payload e))
    (number_field "confidence" (payload e)) true ;;
  _ ← record tenant conversation "AI_ESCALATION" (actorId e) (payload e);
  mret tt.
Definition on_workflow (tenant conversation : string) (e : InboxEventEnvelope)
    : M InboxW unit :=
  _ ← record tenant conversation "WORKFLOW" (actorId e)
        (opt_field "executionId" (str_field "executionId" (payload e))
         ++ opt_field "status" (str_field "status" (payload e)));
  mret tt.

(** The cases of the [switch]. *)
Definition handlers : list (string * (string → string → InboxEventEnvelope → M InboxW unit)) :=
  [("conversation.created", on_conversation); ("conversation.updated", on_conversation);
   ("message.received", on_message INBOUND); ("message.sent", on_message OUTBOUND);
   ("ticket.created", on_ticket_created); ("ticket.updated", on_ticket_updated);
   ("assignment.completed", on_assignment); ("ai.escalation.created", on_escalation);
   ("workflow.execution.completed", on_workflow)].
Definition handler (name : string)
    : option (string → string → InboxEventEnvelope → M InboxW unit) :=
  snd <$> js_find (λ kv, String.eqb kv.1 name) handlers.
Definition handleEvent (e : InboxEventEnvelope) : M InboxW unit :=
  match handler (eventName e), conversation_of e with
  | Some h, Some conversation => h (e_tenantId e) conversation e
  | _, _ => mret tt
  end.
End consumer.
End InboxEventConsumer.
