(* ===== verification/InboxServices.v ===== *)
(** * Inbox: what agents do, and the worker

    The services behind the controllers, one module per service: assignment, snooze,
    presence, bookmarks, search, and [InboxService] with the read marks, the hand-over
    between the AI and an agent, filters and saved views; and the jobs of the inbox
    queue.  The search cache is the keys of Redis; when an entry expires is Redis' own
    affair, and its key is then absent. *)

From S2P Require Import Prelude Platform JsDate JsValue Double Sql SqlText Inbox InboxRepo InboxQueries InboxProjection.
Open Scope Z_scope.

(** ** [InboxAssignmentService] *)
Module InboxAssignmentService.
Section service.
Context {HE : Env} {HS : SqlScan} {HD : InboxDeps}.

Definition new_assignment (tenant conversation : string) (agent team : option string)
    (type : AssignmentTypeEnum) : M InboxW InboxAssignment :=
  i ← randomUUID;
  assigned ← new_Date;
  created ← new_Date;
  updated ← new_Date;
  mret {| a_id := i; a_tenantId := tenant; a_conversationId := conversation;
          a_assignedAgentId := agent; a_assignedTeamId := team; a_assignmentType := type;
          a_assignedAt := assigned; a_createdAt := created; a_updatedAt := updated |}.

Definition applyAssignment (tenant : string) (v : InboxView) (agent team : option string)
    (type : AssignmentTypeEnum) (by_ : option string) : M InboxW InboxView :=
  v ← (if bool_decide (type = UNASSIGN) then unassign v else assign_view agent team v);
  _ ← saveView v tenant;
  a ← new_assignment tenant (conversationId v) agent team type;
  addAssignment a tenant ;;
  publish (InboxAssignmentChangedEvent tenant (conversationId v) agent team) ;;
  let v := clearEvents v in
  emit tenant "inbox.assignment.updated" (conversationId v) ;;
  _ ← record tenant (conversationId v)
        (if bool_decide (type = UNASSIGN) then "UNASSIGNED" else "ASSIGNED") by_
        (opt_field "agentId" agent ++ opt_field "teamId" team
         ++ [("assignmentType", JStr (enum_str type))]);
  audit_log tenant by_ "INBOX_ASSIGN"
    ("Conversation " +:+ conversationId v +:+ " " +:+ enum_str type +:+ " -> agent "
     +:+ nullish agent "-" +:+ " team " +:+ nullish team "-") ;;
  mret v.

Definition assign_agent (tenant conversation agent : string) (team by_ : option string)
    : M InboxW InboxView :=
  v ← getViewOrThrow tenant conversation;
  applyAssignment tenant v (Some agent) team MANUAL by_.
Definition force (tenant conversation agent : string) (by_ : option string)
    : M InboxW InboxView :=
  v ← getViewOrThrow tenant conversation;
  applyAssignment tenant v (Some agent) (assignedTeamId v) FORCE by_.
Definition transfer (tenant conversation agent : string) (by_ : option string)
    : M InboxW InboxView :=
  v ← getViewOrThrow tenant conversation;
  applyAssignment tenant v (Some agent) (assignedTeamId v) TRANSFER by_.
Definition unassign_conversation (tenant conversation : string) (by_ : option string)
    : M InboxW InboxView :=
  v ← getViewOrThrow tenant conversation;
  applyAssignment tenant v None None UNASSIGN by_.
Definition assignToTeam (tenant conversation team : string) (by_ : option string)
    : M InboxW InboxView :=
  v ← getViewOrThrow tenant conversation;
  applyAssignment tenant v None (Some team) TEAM by_.
Definition roundRobin (tenant conversation team : string) (by_ : option string)
    : M InboxW InboxView :=
  v ← getViewOrThrow tenant conversation;
  agent ← assignEntity tenant team conversation (priorityWeight (priority v));
  applyAssignment tenant v (Some agent) (Some team) ROUND_ROBIN by_.

(** How many were assigned, and the conversations that were not. *)
Definition bulkAssign (tenant : string) (conversations : list string) (agent : string)
    (by_ : option string) : M InboxW (Z * list string) :=
  fold_each conversations (0, []) (λ acc conversation,
    try_catch
      (v ← getViewOrThrow tenant conversation;
       _ ← applyAssignment tenant v (Some agent) (assignedTeamId v) MANUAL by_;
       mret (acc.1 + 1, acc.2))
      (λ _, mret (acc.1, acc.2 ++ [conversation]))).
Definition listAssignments (tenant conversation : string) : M InboxW (list InboxAssignment) :=
  findAssignments tenant conversation.
End service.
End InboxAssignmentService.

(** ** [InboxSnoozeService] *)
Module InboxSnoozeService.
Definition SNOOZE_SWEEP_BATCH : nat := 500.

Section service.
Context {HE : Env} {HS : SqlScan}.

Definition snooze_conversation (tenant conversation : string) (until : Z)
    (reason user : option string) : M InboxW InboxSnooze :=
  v ← getViewOrThrow tenant conversation;
  i ← randomUUID;
  created ← new_Date;
  updated ← new_Date;
  let s := {| s_id := i; s_tenantId := tenant; s_conversationId := conversation;
              s_snoozedUntil := until; s_reason := reason; s_createdBy := user;
              s_createdAt := created; s_updatedAt := updated |} in
  upsertSnooze s tenant ;;
  v ← snooze v;
  _ ← saveView v tenant;
  publish (InboxSnoozedEvent tenant conversation (toISOString until)) ;;
  emit tenant "inbox.status.changed" conversation ;;
  _ ← record tenant conversation "SNOOZED" user
        ([("snoozedUntil", JStr (toISOString until))] ++ opt_field "reason" reason);
  mret s.

(** The view of a conversation whose snooze is gone, if it has one. *)
Definition wake (tenant conversation : string) : M InboxW bool :=
  found ← findViewByConversation tenant conversation;
  match found with
  | Some v =>
      v ← unsnooze v;
      _ ← saveView v tenant;
      emit tenant "inbox.status.changed" conversation ;;
      mret true
  | None => mret false
  end.

Definition unsnooze_conversation (tenant conversation : string) (user : option string)
    : M InboxW bool :=
  removed ← deleteSnooze tenant conversation;
  woken ← wake tenant conversation;
  when woken (_ ← record tenant conversation "UNSNOOZED" user []; mret tt) ;;
  mret removed.

(** One snooze of the sweep. *)
Definition wake_due (woken : Z) (s : InboxSnooze) : M InboxW Z :=
  _ ← deleteSnooze (s_tenantId s) (s_conversationId s);
  _ ← wake (s_tenantId s) (s_conversationId s);
  mret (woken + 1).
Definition processDueSnoozes (tenant : option string) : M InboxW Z :=
  now ← new_Date;
  due ← findDueSnoozes tenant now SNOOZE_SWEEP_BATCH;
  fold_each due 0 wake_due.
End service.
End InboxSnoozeService.

(** ** [InboxPresenceService] *)
Module InboxPresenceService.
Section service.
Context {HE : Env} {HS : SqlScan}.

Definition existing_or_new (tenant user status : string) : M InboxW InboxPresence :=
  existing ← getPresence tenant user;
  match existing with Some p => mret p | None => new_presence tenant user status end.

Definition setPresence (tenant user status : string) (active : option string)
    : M InboxW InboxPresence :=
  p ← existing_or_new tenant user status;
  p ← updateStatus status active p;
  upsertPresence p tenant ;;
  publish (InboxPresenceUpdatedEvent tenant user status) ;;
  emit tenant "inbox.presence.updated" (p_userId p) ;;
  mret p.
Definition heartbeat_user (tenant user : string) : M InboxW unit :=
  p ← existing_or_new tenant user (enum_str ONLINE);
  p ← heartbeat p;
  upsertPresence p tenant.
Definition listOnline (tenant : string) : M InboxW (list InboxPresence) :=
  listOnlinePresence tenant.
End service.
End InboxPresenceService.

(** ** [InboxBookmarkService] *)
Module InboxBookmarkService.
Section service.
Context {HE : Env} {HS : SqlScan}.

Definition bookmark (tenant conversation user : string) : M InboxW bool :=
  i ← randomUUID;
  created ← new_Date;
  updated ← new_Date;
  addBookmark {| b_id := i; b_tenantId := tenant; b_conversationId := conversation;
                 b_userId := user; b_createdAt := created; b_updatedAt := updated |} tenant ;;
  publish (InboxBookmarkedEvent tenant conversation user true) ;;
  _ ← record tenant conversation "BOOKMARKED" (Some user) [];
  mret true.
Definition remove_bookmark (tenant conversation user : string) : M InboxW bool :=
  _ ← removeBookmark tenant conversation user;
  publish (InboxBookmarkedEvent tenant conversation user false) ;;
  mret false.
End service.
End InboxBookmarkService.

(** ** [InboxSearchService] *)
Module InboxSearchService.
Section service.
Context {HE : Env} {HS : SqlScan} {HC : Collation} {HD : InboxDeps}.

Definition tenant_keys (tenant : string) : string := "inbox:search:" +:+ tenant +:+ ":".
Definition cacheKey (tenant : string) (o : InboxQueryOptions) : string :=
  tenant_keys tenant +:+ options_hash o.

(** [cached]; the options are those of [run], the one producer.  An error of the
    producer is caught as an error of the cache, and the producer runs again. *)
Definition cached (tenant : string) (o : InboxQueryOptions) (producer : M InboxW CachedSearch)
    : M InboxW CachedSearch :=
  cache ← gets (λ w, searchCache (db w));
  match cache with
  | None => producer
  | Some keys =>
      try_catch
        (match keys !! cacheKey tenant o with
         | Some hit => mret hit
         | None =>
             found ← producer;
             modify (λ w, w <| db ::= λ d, d <| searchCache ::=
               fmap (M := option) <[cacheKey tenant o := found]> |> |>) ;;
             mret found
         end)
        (λ _, producer)
  end.
Definition run (tenant : string) (o : InboxQueryOptions) : M InboxW CachedSearch :=
  listViews tenant o.

(** The options of the DTO are those that [search] copies. *)
Definition search (tenant : string) (dto : InboxQueryOptions) : M InboxW CachedSearch :=
  let o := no_options <| search_text := search_text dto |> <| o_status := o_status dto |>
             <| o_priority := o_priority dto |> <| o_assignedAgentId := o_assignedAgentId dto |>
             <| o_assignedTeamId := o_assignedTeamId dto |>
             <| o_customerId := o_customerId dto |> <| o_channelId := o_channelId dto |>
             <| limit := limit dto |> <| page := page dto |> in
  cached tenant o (run tenant o).
Definition byCustomer (tenant customer : string) (limit_ : option Z) : M InboxW CachedSearch :=
  let o := no_options <| o_customerId := Some customer |> <| limit := Some (nullish limit_ 25) |> in
  cached tenant o (run tenant o).
Definition global (tenant query : string) (limit_ : option Z) : M InboxW CachedSearch :=
  let o := no_options <| search_text := Some query |> <| limit := Some (nullish limit_ 25) |> in
  cached tenant o (run tenant o).

(** The keys [scan] matches; a tenant has none of the characters of a pattern. *)
Definition of_tenant (tenant : string) (kv : string * CachedSearch) : Prop :=
  String.prefix (tenant_keys tenant) kv.1 = true.
#[global] Instance of_tenant_dec tenant kv : Decision (of_tenant tenant kv).
Proof. unfold of_tenant. apply _. Defined.
Definition invalidateTenant (tenant : string) : M InboxW Z :=
  cache ← gets (λ w, searchCache (db w));
  match cache with
  | None => mret 0
  | Some keys =>
      modify (λ w, w <| db ::= λ d, d <| searchCache :=
        Some (filter (λ kv, ¬ of_tenant tenant kv) keys) |> |>) ;;
      mret (Z.of_nat (size (filter (of_tenant tenant) keys)))
  end.
End service.
End InboxSearchService.

(** ** [InboxService] *)
Module InboxService.
Section service.
Context {HE : Env} {HS : SqlScan} {HC : Collation} {HD : InboxDeps}.

(** The counts of [getCounters]: by status, unassigned, mine and bookmarked. *)
Definition getCounters (tenant user : string) : M InboxW (gmap string Z * Z * Z * Z) :=
  byStatus ← countByStatus tenant no_options;
  free ← listViews tenant (no_options <| unassigned := true |> <| limit := Some 1 |>);
  mine ← listViews tenant (no_options <| o_assignedAgentId := Some user |> <| limit := Some 1 |>);
  bookmarked ← listViews tenant
    (no_options <| bookmarkedByUserId := Some user |> <| limit := Some 1 |>);
  mret (byStatus, c_total free, c_total mine, c_total bookmarked).
Definition getConversationView (tenant conversation : string) : M InboxW InboxView :=
  getViewOrThrow tenant conversation.

Definition mark_read (tenant conversation : string) (user : option string) : M InboxW unit :=
  v ← getViewOrThrow tenant conversation;
  v ← markRead v;
  _ ← saveView v tenant;
  emit tenant "inbox.status.changed" conversation ;;
  _ ← record tenant conversation "READ" user [];
  mret tt.

Definition persistView (v : InboxView) (tenant : string) : M InboxW unit :=
  persist_as "inbox.status.changed" v tenant.

(** Read the view, change it, persist it, record the activity: five operations. *)
Definition change_view (tenant conversation : string) (f : InboxView → M InboxW InboxView)
    (activity : string) (user : option string) : M InboxW unit :=
  v ← getViewOrThrow tenant conversation;
  v ← f v;
  persistView v tenant ;;
  _ ← record tenant conversation activity user [];
  mret tt.
Definition resolve_conversation (tenant conversation : string) (user : option string)
    : M InboxW unit := change_view tenant conversation resolve "RESOLVED" user.
Definition archive_conversation (tenant conversation : string) (user : option string)
    : M InboxW unit := change_view tenant conversation archive "ARCHIVED" user.

(** *** The AI and the agent *)
Definition ai_may_answer (m : gmap string json) : bool :=
  match m !! "aiHandling" with Some (JBool false) => false | _ => true end
  && match m !! "aiPaused" with Some v => negb (truthy v) | None => true end.
Definition isAiActive (tenant conversation : string) : M InboxW bool :=
  found ← findViewByConversation tenant conversation;
  mret (match found with None => true | Some v => ai_may_answer (metadata v) end).

Definition takeOverFromAi (tenant conversation user : string) : M InboxW unit :=
  change_view tenant conversation (λ v,
    v ← assign_view (Some user) (assignedTeamId v) v;
    setMetadata {["aiHandling" := JBool false]} v) "AI_TAKEOVER" (Some user).
Definition returnToAi (tenant conversation user : string) : M InboxW unit :=
  change_view tenant conversation (setMetadata {["aiHandling" := JBool true]})
    "AI_RETURN" (Some user).
Definition setAiPaused (tenant conversation : string) (paused : bool) (user : string)
    : M InboxW unit :=
  change_view tenant conversation (setMetadata {["aiPaused" := JBool paused]})
    (if paused then "AI_PAUSE" else "AI_RESUME") (Some user).
Definition decideAiDraft (tenant conversation draft : string) (approved : bool) (user : string)
    : M InboxW unit :=
  _ ← getViewOrThrow tenant conversation;
  (if approved then draft_send tenant draft user else draft_discard tenant draft) ;;
  _ ← record tenant conversation (if approved then "AI_DRAFT_APPROVED" else "AI_DRAFT_REJECTED")
        (Some user) [("draftId", JStr draft)];
  mret tt.
Definition replayWorkflow (tenant conversation workflow user : string) : M InboxW unit :=
  _ ← getViewOrThrow tenant conversation;
  addJob WORKFLOW "workflow-execution-job"
    [("trigger", JStr "INBOX_REPLAY"); ("workflowId", JStr workflow);
     ("conversationId", JStr conversation); ("tenantId", JStr tenant)] (λ o, o) ;;
  _ ← record tenant conversation "WORKFLOW_REPLAY" (Some user) [("workflowId", JStr workflow)];
  mret tt.
Definition retryConnector (tenant conversation execution user : string) : M InboxW unit :=
  _ ← getViewOrThrow tenant conversation;
  addJob CONNECTOR "connector-retry-job"
    [("executionId", JStr execution); ("conversationId", JStr conversation);
     ("tenantId", JStr tenant)] (λ o, o) ;;
  _ ← record tenant conversation "CONNECTOR_RETRY" (Some user) [("executionId", JStr execution)];
  mret tt.

(** *** Filters and saved views *)
Definition createFilter (tenant name : string) (definition : json) (shared : option bool)
    (user : option string) : M InboxW InboxFilter :=
  i ← randomUUID;
  created ← new_Date;
  updated ← new_Date;
  let f := {| f_id := i; f_tenantId := tenant; f_name := name; f_filterDefinition := definition;
              f_isSystem := false; f_isShared := nullish shared false; f_createdAt := created;
              f_updatedAt := updated |} in
  saveFilter f tenant ;;
  audit_log tenant user "INBOX_FILTER_CREATE" ("Created inbox filter " +:+ name) ;;
  mret f.
Definition delete_filter (tenant filter : string) : M InboxW unit :=
  deleted ← deleteFilter tenant filter;
  if (deleted : bool) then mret tt else
  throw (Exn NotFoundException ("Filter " +:+ filter +:+ " not found or is a system filter")).
Definition createSavedView (tenant user name filter : string) (sort columns : option json)
    : M InboxW SavedView :=
  found ← getFilter tenant filter;
  match found with
  | None => throw (Exn NotFoundException ("Filter " +:+ filter +:+ " not found"))
  | Some _ =>
      i ← randomUUID;
      created ← new_Date;
      updated ← new_Date;
      let v := {| v_id := i; v_tenantId := tenant; v_userId := user; v_name := name;
                  v_filterId := filter; v_sortConfiguration := sort;
                  v_columnConfiguration := columns; v_createdAt := created;
                  v_updatedAt := updated |} in
      saveSavedView v tenant ;;
      publish (InboxViewCreatedEvent tenant i user) ;;
      mret v
  end.
Definition delete_saved_view (tenant view : string) : M InboxW unit :=
  deleted ← deleteSavedView tenant view;
  if (deleted : bool) then mret tt else
  throw (Exn NotFoundException ("Saved view " +:+ view +:+ " not found")).
End service.
End InboxService.

(** ** The worker *)
Module InboxQueueProcessor.
Import InboxEventConsumer.

(** [job.data._tenantContext?.tenantId || job.data.tenantId]; without one no row
    matches the text of [undefined]. *)
Definition tenant_of_job (job : Job) : string :=
  default "undefined" (match js_or_undef (job_tenant job) with
                       | Some t => Some t
                       | None => str_field "tenantId" (job_data job)
                       end).
Definition envelope_of_job (job : Job) : InboxEventEnvelope :=
  {| e_tenantId := tenant_of_job job;
     eventName := default "" (str_field "eventName" (job_data job));
     aggregateId := default "" (str_field "aggregateId" (job_data job));
     e_conversationId := str_field "conversationId" (job_data job);
     actorId := str_field "actorId" (job_data job);
     payload := match field "payload" (job_data job) with Some (JObj o) => o | _ => [] end |}.

Section worker.
Context {HE : Env} {HS : SqlScan} {HC : Collation} {HD : InboxDeps}.

Definition presence_job (tenant : string) (data : list (string * json)) : M InboxW json :=
  match js_or_undef (str_field "userId" data) with
  | None => mret (JObj [("skipped", JBool true)])
  | Some user =>
      match js_or_undef (str_field "status" data) with
      | Some status =>
          p ← InboxPresenceService.setPresence tenant user status
                (str_field "activeConversationId" data);
          mret (JObj [("userId", JStr (p_userId p)); ("status", JStr (enum_str (p_status p)))])
      | None =>
          InboxPresenceService.heartbeat_user tenant user ;;
          mret (JObj [("userId", JStr user); ("heartbeat", JBool true)])
      end
  end.
Definition handleJob (job : Job) : M InboxW json :=
  let tenant := tenant_of_job job in
  let name := job_name job in
  if String.eqb name "inbox-projection-job" then
    handleEvent (envelope_of_job job) ;;
    mret (JObj [("projected", JBool true)])
  else if String.eqb name "inbox-search-index-job" then
    cleared ← InboxSearchService.invalidateTenant tenant;
    mret (JObj [("cleared", JNum cleared)])
  else if String.eqb name "inbox-presence-job" then presence_job tenant (job_data job)
  else if String.eqb name "inbox-cleanup-job" then
    woken ← InboxSnoozeService.processDueSnoozes (str_field "tenantId" (job_data job));
    mret (JObj [("woken", JNum woken)])
  else throw (Exn JsError ("Unknown job name: " +:+ name)).

(** [InboxCleanupScheduler.enqueueCleanup], every minute *)
Definition enqueueCleanup : M InboxW unit :=
  try_catch
    (now ← new_Date;
     addJob INBOX "inbox-cleanup-job" [("scheduledAt", JStr (toISOString now))] (λ o, o))
    (λ _, mret tt).
End worker.
End InboxQueueProcessor.
