(* ===== verification/InboxIsolation.v ===== *)
(** * Inbox: what a call may touch

    Every operation of the services and of the worker, called for a tenant, keeps the
    tables well formed and the rows of the other tenants as they are; and while a
    conversation of the tenant is taken over from the AI, it stays so until it is handed
    back.  [kept m φ] states both for a step [m] that returns a value with [φ]. *)

From S2P Require Import Prelude Platform JsDate JsValue Double Sql SqlText Inbox InboxRepo InboxQueries InboxProjection InboxServices.
Open Scope Z_scope.

(** ** Well-formed tables *)

(** A view that can be read, and whose values its columns take. *)
Definition readable (r : ViewRow) : Prop :=
  match viewToDomain r with Ok v => view_fits v = true | Throw _ => False end.

Record wf (d : InboxDb) : Prop := {
  wf_views : distinct (inboxViews d);
  wf_filters : distinct (inboxFilters d);
  wf_savedViews : distinct (inboxSavedViews d);
  wf_assignments : distinct (inboxAssignments d);
  wf_presence : distinct (inboxPresence d);
  wf_snoozes : distinct (inboxSnoozes d);
  wf_bookmarks : distinct (inboxBookmarks d);
  wf_activity : distinct (inboxActivityFeed d);
  wf_readable r : r ∈ inboxViews d → readable r;
}.

(** What the tables hold of the other tenants. *)
Definition others (T : string) (d : InboxDb) :=
  (foreign T (inboxViews d), foreign T (inboxFilters d), foreign T (inboxSavedViews d),
   foreign T (inboxAssignments d), foreign T (inboxPresence d), foreign T (inboxSnoozes d),
   foreign T (inboxBookmarks d), foreign T (inboxActivityFeed d)).

(** The tables beside the views. *)
Class SideTable (R : Type) {HR : Row R} {HT : Table InboxDb R} : Prop := {
  side_distinct d : wf d → distinct (rows d);
  side_wf d l : wf d → distinct l → wf (with_rows l d);
  side_others T d l : foreign T l = foreign T (rows d) → others T (with_rows l d) = others T d;
  side_views d l : inboxViews (with_rows l d) = inboxViews d;
}.
Ltac solve_side :=
  split; [by intros d [] | by intros d l [] ? | | done];
  intros T d l E; unfold others; repeat apply (f_equal2 pair);
  first [exact E | reflexivity].
#[export] Instance filters_side : SideTable InboxFilter. Proof. solve_side. Qed.
#[export] Instance saved_views_side : SideTable SavedView. Proof. solve_side. Qed.
#[export] Instance assignments_side : SideTable InboxAssignment. Proof. solve_side. Qed.
#[export] Instance presence_side : SideTable PresenceRow. Proof. solve_side. Qed.
#[export] Instance snoozes_side : SideTable InboxSnooze. Proof. solve_side. Qed.
#[export] Instance bookmarks_side : SideTable InboxBookmark. Proof. solve_side. Qed.
#[export] Instance activity_side : SideTable ActivityFeed. Proof. solve_side. Qed.

(** ** Taken over from the AI *)
Definition is_off (m : gmap string json) : Prop := m !! "aiHandling" = Some (JBool false).
Definition off (T conversation : string) (d : InboxDb) : Prop :=
  ∃ r, r ∈ inboxViews d ∧ of_conversation T conversation r = true
       ∧ is_off (default ∅ (r_metadata r)).

Create HintDb kept.

(** ** Steps *)
Section kept.
Context {HE : Env} {HS : SqlScan} (T : string) (watched : option string).

Definition inv (d : InboxDb) : Prop := wf d ∧ ∀ c, watched = Some c → off T c d.
Definition steady (d d' : InboxDb) : Prop := inv d → inv d' ∧ others T d' = others T d.
#[local] Instance steady_preorder : PreOrder steady.
Proof.
  split; [by intros d|]. intros a b c H1 H2 Ha. destruct (H1 Ha) as [Hb E1].
  destruct (H2 Hb) as [Hc E2]. split; [done|]. congruence.
Qed.

Definition kept {A} (m : M InboxW A) (φ : A → Prop) : Prop :=
  triple steady inv m (λ a d, inv d ∧ φ a).

Lemma kept_ret {A} (a : A) (φ : A → Prop) : φ a → kept (mret a) φ.
Proof. intros. by apply (triple_ret steady). Qed.
Lemma kept_throw {A} e (φ : A → Prop) : kept (throw e) φ.
Proof. apply (triple_throw steady). Qed.
Lemma kept_bind {A B} (m : M InboxW A) φ (k : A → M InboxW B) ψ :
  kept m φ → (∀ a, φ a → kept (k a) ψ) → kept (m ≫= k) ψ.
Proof.
  intros Hm Hk. eapply (triple_bind steady); [exact Hm|]. intros a.
  apply triple_pure. apply Hk.
Qed.
Lemma kept_weaken {A} (m : M InboxW A) (φ ψ : A → Prop) :
  kept m φ → (∀ a, φ a → ψ a) → kept m ψ.
Proof. intros Hm H. eapply triple_weaken; [exact Hm|done|]. intros a d []. auto. Qed.
Lemma kept_returns {A} (m : M InboxW A) (φ : A → Prop) :
  keeps (same db) m → returns m φ → kept m φ.
Proof.
  intros Hm Hφ w Hw. rewrite (Hm w). split; [done|]. intros a Ha. split; [done|].
  unfold outcome in Ha. destruct (m w) as [r w'] eqn:E. cbn in Ha. subst r. by eapply Hφ.
Qed.
Lemma kept_same {A} (m : M InboxW A) : keeps (same db) m → kept m (λ _, True).
Proof. intros Hm. by apply kept_returns. Qed.
Lemma kept_of_result {A} (r : result A) : kept (of_result r) (λ a, r = Ok a).
Proof. by intros w Hw. Qed.
Lemma kept_gets {A} (f : InboxW → A) (φ : A → Prop) :
  (∀ w, inv (db w) → φ (f w)) → kept (gets f) φ.
Proof. intros H w Hw. split; [done|]. intros a [= <-]. split; [done|]. by apply H. Qed.
Lemma kept_try {A} (m : M InboxW A) h φ :
  kept m φ → (∀ e, kept (h e) φ) → kept (try_catch m h) φ.
Proof.
  intros Hm Hh w Hw. destruct (Hm w Hw) as [H1 HQ].
  unfold final, outcome, try_catch in *. destruct (m w) as [[a|e] w']; cbn in *; [done|].
  destruct (H1 Hw) as [Hi _]. destruct (Hh e w' Hi) as [H2 HQ']. split; [by etransitivity|done].
Qed.
Lemma kept_when b (m : M InboxW unit) : kept m (λ _, True) → kept (when b m) (λ _, True).
Proof. intros Hm. destruct b; [done|by apply kept_ret]. Qed.
Lemma kept_for_each {A} (l : list A) f :
  (∀ x, kept (f x) (λ _, True)) → kept (for_each l f) (λ _, True).
Proof.
  intros Hf. induction l as [|x l IH]; cbn [for_each]; [by apply kept_ret|].
  eapply kept_bind; [apply Hf|]. by intros [] _.
Qed.
Lemma kept_fold_each {A B} (l : list A) (acc : B) f :
  (∀ acc x, x ∈ l → kept (f acc x) (λ _, True)) → kept (fold_each l acc f) (λ _, True).
Proof.
  revert acc. induction l as [|x l IH]; intros acc Hf; cbn [fold_each]; [by apply kept_ret|].
  eapply kept_bind; [apply Hf; by left|]. intros b _. apply IH. intros c y Hy. apply Hf. by right.
Qed.
Lemma kept_context {A} t (m : M InboxW A) φ : kept m φ → kept (TenantContext_run t m) φ.
Proof.
  intros Hm w Hw. specialize (Hm (w <| tenantContext := Some t |>) Hw).
  unfold final, outcome, TenantContext_run in *.
  by destruct (m (w <| tenantContext := Some t |>)) as [r w'].
Qed.

Lemma kept_discard {A} (m : M InboxW A) :
  kept m (λ _, True) → kept (_ ← m; mret tt) (λ _, True).
Proof. intros Hm. eapply kept_bind; [exact Hm|]. intros. by apply kept_ret. Qed.

(** A statement on a table beside the views. *)
Lemma kept_write {R} `{SideTable R} (f : list R → result (list R)) :
  confined T f → kept (write f) (λ _, True).
Proof.
  intros Hf. eapply triple_weaken; [eapply (triple_write steady _ _ inv)|done|done].
  intros d l' Hd E. destruct (Hf _ _ (side_distinct d (proj1 Hd)) E) as [Hl Ho].
  assert (inv (with_rows l' d)) as Hi.
  { destruct Hd as [Hwf Hoff]. split; [by apply side_wf|]. intros c Hc.
    destruct (Hoff c Hc) as (r & Hr & ?). exists r. by rewrite side_views. }
  split; [|done]. intros _. split; [done|]. by apply side_others.
Qed.

(** ** The repository *)
Lemma kept_delete_where {R} `{SideTable R} (p : R → bool) :
  (∀ r, p r = true → row_tenant r = T) → kept (delete_where p) (λ _, True).
Proof.
  intros Hp. unfold delete_where. eapply kept_bind; [by apply (kept_gets _ (λ _, True))|]. intros found _.
  eapply kept_bind; [by apply kept_write, confined_delete|]. intros. by apply kept_ret.
Qed.

(** A view whose conversation, if it is the one watched, is taken over. *)
Definition fine (v : InboxView) : Prop :=
  ∀ c, watched = Some c → conversationId v = c → is_off (metadata v).

Lemma of_conversation_true U c r :
  of_conversation U c r = true ↔ r_tenantId r = U ∧ r_conversationId r = c.
Proof. unfold of_conversation. by rewrite andb_true_iff, !String.eqb_eq. Qed.

(** The view of a conversation is one row. *)
Lemma view_unique d U c r x :
  wf d → r ∈ inboxViews d → x ∈ inboxViews d →
  of_conversation U c r = true → of_conversation U c x = true → r = x.
Proof.
  intros Hwf Hr Hx [<- <-]%of_conversation_true [E1 E2]%of_conversation_true.
  apply (distinct_key (inboxViews d) r x ["conversation"; r_tenantId r; r_conversationId r]);
    [apply Hwf|done|done| |]; cbn; rewrite ?E1, ?E2; right; by left.
Qed.

Lemma viewToDomain_meta r v :
  viewToDomain r = Ok v →
  conversationId v = r_conversationId r ∧ metadata v = default ∅ (r_metadata r)
  ∧ tenantId v = r_tenantId r ∧ domainEvents v = [].
Proof.
  unfold viewToDomain, mbind, result_bind.
  destruct (InboxStatus_create (r_status r)); [by intros [= <-]|done].
Qed.

Lemma find_kept c :
  kept (findViewByConversation T c)
    (λ o, match o with
          | Some v => conversationId v = c ∧ tenantId v = T ∧ fine v
          | None => watched ≠ Some c
          end).
Proof.
  unfold findViewByConversation. eapply kept_bind.
  - apply (kept_gets _ (λ o, match o with
      | Some r => r_conversationId r = c ∧ r_tenantId r = T
                  ∧ (watched = Some c → is_off (default ∅ (r_metadata r)))
      | None => watched ≠ Some c end)).
    intros w [Hwf Hoff]. cbn.
    destruct (sql_select (of_conversation T c) (inboxViews (db w))) as [r|] eqn:E.
    + apply select_some in E as [Hin Hr]. pose proof Hr as [? ?]%of_conversation_true.
      split_and!; [done..|]. intros Hw. destruct (Hoff c Hw) as (x & Hx & Hxc & Ho).
      by rewrite (view_unique (db w) T c r x).
    + intros Hw. destruct (Hoff c Hw) as (x & Hx & Hxc & _).
      by rewrite (select_none _ _ _ E Hx) in Hxc.
  - intros [r|]; [|by intros; apply kept_ret]. intros (Hc & Ht & Ho).
    eapply kept_bind; [apply kept_of_result|]. intros v (E1 & E2 & E3 & _)%viewToDomain_meta.
    apply kept_ret. split; [congruence|]. split; [congruence|].
    intros c' Hw Hv. rewrite E2. apply Ho. congruence.
Qed.

Lemma domain_columns u v c d n :
  viewToDomain ((view_columns T u v) <| r_createdAt := c |> <| r_deletedAt := d |> <| r_version := n |>)
  = Ok {| id := id v; tenantId := T; conversationId := conversationId v;
          customerId := js_or_undef (js_or_undef (customerId v));
          channelId := js_or_undef (js_or_undef (channelId v));
          assignedAgentId := js_or_undef (js_or_undef (assignedAgentId v));
          assignedTeamId := js_or_undef (js_or_undef (assignedTeamId v)); Inbox.status := status v;
          priority := js_or (Some (priority v)) Priority.MEDIUM;
          sentiment := js_or_undef (js_or_undef (sentiment v));
          lastMessage := js_or_undef (js_or_undef (lastMessage v));
          lastMessageAt := lastMessageAt v;
          lastMessageType := js_or_undef (js_or_undef (lastMessageType v));
          unreadCount := unreadCount v; openTicketCount := openTicketCount v;
          aiConfidenceScore := aiConfidenceScore v; waitingSince := waitingSince v;
          metadata := metadata v; createdAt := c; updatedAt := u; deletedAt := d;
          version := js_or (Some n) 1; domainEvents := [] |}.
Proof.
  set (r := _ <| r_version := n |>).
  assert (InboxStatus_create (r_status r) = Ok (status v)) as E.
  { transitivity (InboxStatus_create (enum_str (status v))); [reflexivity|].
    unfold InboxStatus_create. by rewrite parse_enum_str. }
  unfold viewToDomain. rewrite E. reflexivity.
Qed.
Lemma columns_readable u v c d n :
  view_fits v = true →
  readable ((view_columns T u v) <| r_createdAt := c |> <| r_deletedAt := d |> <| r_version := n |>).
Proof.
  intros Hfit. unfold readable. rewrite domain_columns.
  assert (∀ o : option string, js_or_undef (js_or_undef o) = js_or_undef o) as Hjs
    by (intros [[]|]; done).
  revert Hfit. unfold view_fits, fits, every. cbn -[js_or_undef js_or]. rewrite !andb_true_iff, !Hjs.
  intros (((Hp & Hs & Ht & _) & Hu) & Ho). split_and!; try done. by destruct (priority v).
Qed.

Lemma others_views d l :
  foreign T l = foreign T (inboxViews d) → others T (d <| inboxViews := l |>) = others T d.
Proof. intros E. unfold others. repeat apply (f_equal2 pair); first [exact E | reflexivity]. Qed.

(** What [saveView] stores is the one row of the conversation. *)
Definition stored (v : InboxView) (r : ViewRow) : Prop :=
  of_conversation T (conversationId v) r = true ∧ r_metadata r = Some (metadata v).

Lemma save_view_rows u v l l' :
  sql_upsert (of_conversation T (conversationId v)) (set_view (view_columns T u v))
    (view_columns T u v) l = Ok l' →
  (∀ r, r ∈ l' → r ∈ l ∧ of_conversation T (conversationId v) r = false
                 ∨ stored v r ∧ ∃ c d n, r = (view_columns T u v) <| r_createdAt := c |>
                                             <| r_deletedAt := d |> <| r_version := n |>)
  ∧ (∃ r, r ∈ l' ∧ stored v r)
  ∧ (∀ r, r ∈ l → of_conversation T (conversationId v) r = false → r ∈ l').
Proof.
  set (raw := view_columns T u v). set (p := of_conversation T (conversationId v)).
  assert (stored v raw) as Hraw.
  { split; [|done]. by apply of_conversation_true. }
  unfold sql_upsert. destruct (some p l) eqn:Hs.
  - intros [-> _]%unique_inv. split_and!.
    + intros r (x & -> & Hx)%list_elem_of_fmap. destruct (p x) eqn:E; [right|by left].
      split; [exact Hraw|]. by eexists _, _, _.
    + apply existsb_exists in Hs as (x & Hx%list_elem_of_In & Hp).
      exists (set_view raw x). split; [|exact Hraw]. apply list_elem_of_fmap. exists x.
      by rewrite Hp.
    + intros r Hr E. apply list_elem_of_fmap. exists r. by rewrite E.
  - intros [-> _]%unique_inv. split_and!.
    + intros r [Hr|Hr]%elem_of_app.
      * left. split; [done|]. destruct (p r) eqn:E; [|done].
        apply not_true_iff_false in Hs. destruct Hs. apply existsb_exists. exists r.
        by rewrite <- list_elem_of_In.
      * apply list_elem_of_singleton in Hr as ->. right. split; [done|]. by eexists _, _, _.
    + exists raw. split; [|done]. apply elem_of_app. right. by left.
    + intros r Hr _. apply elem_of_app. by left.
Qed.

Lemma upsert_view_confined u v :
  confined T (sql_upsert (of_conversation T (conversationId v)) (set_view (view_columns T u v))
    (view_columns T u v)).
Proof. apply confined_upsert; [done|]. by intros r [? _]%of_conversation_true. Qed.

(** [Q] holds of the database a save of the view leaves, whichever rows it wrote. *)
Lemma save_triple v (P Q : InboxDb → Prop) :
  fine v →
  (∀ u d l', inv d → P d → view_fits v = true → inv (d <| inboxViews := l' |>) →
     sql_upsert (of_conversation T (conversationId v)) (set_view (view_columns T u v))
       (view_columns T u v) (inboxViews d) = Ok l' →
     Q (d <| inboxViews := l' |>)) →
  triple steady (λ d, inv d ∧ P d) (saveView v T) (λ _ d, inv d ∧ Q d).
Proof.
  intros Hv HQ. unfold saveView. apply (triple_step steady); [apply new_Date_db|]. intros u.
  apply (triple_of_result steady). intros raw Hraw. unfold column in Hraw.
  destruct (view_fits v) eqn:Hfit; [|done]. injection Hraw as <-.
  eapply (triple_bind steady _ _ (λ _ d, inv d ∧ Q d)); [|intros []; by apply (triple_ret steady)].
  eapply (triple_write steady). intros d l' [Hd HP] E. cbn [rows with_rows views_table] in *.
  pose proof Hd as [Hwf Hoff].
  destruct (upsert_view_confined u v _ _ (wf_views d Hwf) E) as [Hl Ho].
  destruct (save_view_rows u v _ _ E) as (Hrows & (y & Hy & Hys) & Hrest).
  assert (inv (d <| inboxViews := l' |>)) as Hi.
  { split.
    - destruct Hwf. split; try done. intros r Hr. destruct (Hrows r Hr) as [[Hr' _]|[_ H]]; [auto|].
      destruct H as (c & de & n & ->). exact (columns_readable u v c de n Hfit).
    - intros c Hc. destruct (Hoff c Hc) as (r & Hr & Hrc & Hro).
      destruct (of_conversation T (conversationId v) r) eqn:Eo.
      + exists y. split; [exact Hy|]. destruct Hys as [Hyc Hym]. rewrite Hym. cbn.
        apply of_conversation_true in Eo as [_ Eo], Hrc as [_ Hrc]. rewrite Eo in Hrc.
        split; [by rewrite <- Hrc|]. by apply (Hv c).
      + exists r. split; [|done]. by apply Hrest. }
  split; [|split; [exact Hi|by eapply HQ]]. intros _. split; [exact Hi|]. by apply others_views.
Qed.

Lemma saveView_kept v : fine v → kept (saveView v T) (λ _, True).
Proof.
  intros Hv. eapply triple_weaken; [by apply (save_triple v (λ _, True) (λ _, True))|done|done].
Qed.
End kept.

Lemma inv_wf T d : wf d → inv T None d.
Proof. intros H. by split. Qed.

(** Walks through a program with the [kept] hints. *)
#[export] Hint Resolve kept_throw kept_of_result kept_try kept_when kept_discard kept_for_each
  find_kept saveView_kept : kept.
#[export] Hint Extern 3 (kept _ _ _ _) =>
  apply kept_same; solve [eauto with keeps typeclass_instances] : kept.
Ltac kept_step :=
  match goal with
  | |- kept _ _ (mret _) _ => apply kept_ret; done
  | |- kept _ _ (throw _) _ => apply kept_throw
  | |- kept _ _ (match ?x with _ => _ end) _ => destruct x
  | |- kept _ _ (if ?x then _ else _) _ => destruct x
  | |- kept _ _ (_ ≫= _) _ => eapply kept_bind; [solve [eauto with kept]|intros ? ?]
  | |- kept _ _ (try_catch _ _) _ => apply kept_try; [|intros ?]
  | |- kept _ _ (when _ _) _ => apply kept_when
  | |- kept _ _ _ _ => solve [eauto with kept]
  end.
Ltac solve_kept := repeat (cbv zeta; kept_step).

Section operations.
Context {HE : Env} {HS : SqlScan} {HD : InboxDeps} (T : string) (watched : option string).
Abbreviation kept := (kept T watched).
Abbreviation fine := (fine watched).
Abbreviation ok m := (kept m (λ _, True)).
Implicit Types (v : InboxView).

(** *** The methods of a view keep its conversation and its metadata. *)
Definition same_meta v v' : Prop :=
  conversationId v' = conversationId v ∧ metadata v' = metadata v.
Lemma kept_method (m : M InboxW InboxView) v :
  keeps (same db) m → returns m (same_meta v) → fine v → kept m fine.
Proof.
  intros Hm Hr Hv. apply kept_returns; [done|]. intros w v' w' E.
  destruct (Hr _ _ _ E) as [Ec Em]. intros c Hw Hc. rewrite Em. apply (Hv c Hw). by rewrite <- Ec.
Qed.
Lemma touch_kept v : fine v → kept (touch v) fine.
Proof.
  intros Hv. apply (kept_method _ v); [unfold touch; solve_keeps| |done].
  by intros ? ? ? [= <- _].
Qed.
Lemma changed_kept v : fine v → kept (changed v) fine.
Proof. intros Hv. eapply kept_bind; [by apply touch_kept|]. intros v' Hv'. by apply kept_ret. Qed.
Lemma applyConversationUpdate_kept p v : fine v → kept (applyConversationUpdate p v) fine.
Proof. intros Hv. apply changed_kept, Hv. Qed.
Lemma or_now_db d : keeps (same (db (Db := InboxDb))) (or_now d).
Proof. unfold or_now. solve_keeps. Qed.
Lemma applyMessage_kept p v : fine v → kept (applyMessage p v) fine.
Proof.
  intros Hv. eapply kept_bind; [apply kept_same, or_now_db|]. intros t _. cbv zeta.
  destruct (m_direction p); [|apply changed_kept, Hv].
  eapply kept_bind; [apply kept_same, or_now_db|]. intros s _. apply changed_kept, Hv.
Qed.
Lemma assign_view_kept a t v : fine v → kept (assign_view a t v) fine.
Proof. intros Hv. apply changed_kept, Hv. Qed.
Lemma unassign_kept v : fine v → kept (unassign v) fine.
Proof. intros Hv. apply changed_kept, Hv. Qed.
Lemma snooze_kept v : fine v → kept (snooze v) fine.
Proof. intros Hv. apply changed_kept, Hv. Qed.
Lemma unsnooze_kept v : fine v → kept (unsnooze v) fine.
Proof. intros Hv. unfold unsnooze. case_match; [apply changed_kept, Hv|by apply kept_ret]. Qed.
Lemma resolve_kept v : fine v → kept (resolve v) fine.
Proof. intros Hv. apply changed_kept, Hv. Qed.
Lemma archive_kept v : fine v → kept (archive v) fine.
Proof. intros Hv. apply changed_kept, Hv. Qed.
Lemma setSentiment_kept s v : fine v → kept (setSentiment s v) fine.
Proof. intros Hv. apply touch_kept, Hv. Qed.
Lemma setAiConfidence_kept x v : fine v → kept (setAiConfidence x v) fine.
Proof. intros Hv. apply touch_kept, Hv. Qed.
Lemma setOpenTicketCount_kept n v : fine v → kept (setOpenTicketCount n v) fine.
Proof. intros Hv. apply changed_kept, Hv. Qed.
Lemma markRead_kept v : fine v → kept (markRead v) fine.
Proof. intros Hv. apply touch_kept, Hv. Qed.

(** The metadata may get any key but the one of the AI, or that one to be false. *)
Definition harmless (m : gmap string json) : Prop :=
  m !! "aiHandling" = None ∨ is_off m.
Lemma setMetadata_kept m v : harmless m → fine v → kept (setMetadata m v) fine.
Proof.
  intros Hm Hv. apply touch_kept. intros c Hw Hc. specialize (Hv c Hw Hc). unfold is_off in *.
  cbn. destruct Hm as [Hm|Hm]; [by rewrite lookup_union_r|by apply lookup_union_Some_l].
Qed.
End operations.
#[export] Hint Resolve changed_kept applyConversationUpdate_kept applyMessage_kept
  assign_view_kept unassign_kept snooze_kept unsnooze_kept resolve_kept archive_kept
  setSentiment_kept setAiConfidence_kept setOpenTicketCount_kept markRead_kept
  setMetadata_kept : kept.

Section services.
Context {HE : Env} {HS : SqlScan} {HC : Collation} {HD : InboxDeps}.
Context (T : string) (watched : option string).
Abbreviation kept := (kept T watched).
Abbreviation fine := (fine watched).
Abbreviation ok m := (kept m (λ _, True)).
Implicit Types (v : InboxView).

(** *** What writes a table beside the views *)
#[local] Ltac solve_write :=
  eapply kept_write; [apply _|]; first
    [ apply confined_insert; done
    | apply confined_ignore; done
    | apply confined_upsert; [done|]
    | apply confined_update ];
  intros ? Hr; repeat (apply andb_true_iff in Hr as [Hr _]);
  apply String.eqb_eq in Hr; done.
Lemma addAssignment_kept a : ok (addAssignment a T).
Proof. unfold addAssignment. solve_write. Qed.
Lemma addBookmark_kept b : ok (addBookmark b T).
Proof. unfold addBookmark. solve_write. Qed.
Lemma addActivity_kept y : ok (addActivity y T).
Proof.
  unfold addActivity. eapply kept_bind; [apply kept_of_result|]. intros r E.
  unfold column in E. case_match; [injection E as <-|done]. solve_write.
Qed.
Lemma upsertSnooze_kept s : ok (upsertSnooze s T).
Proof.
  unfold upsertSnooze. do 2 (eapply kept_bind; [eauto with kept|intros ? _]).
  eapply kept_bind; [apply kept_of_result|]. intros r E.
  unfold column in E. case_match; [injection E as <-|done]. solve_write.
Qed.
Lemma upsertPresence_kept p : ok (upsertPresence p T).
Proof.
  unfold upsertPresence. do 2 (eapply kept_bind; [eauto with kept|intros ? _]). solve_write.
Qed.
Lemma deleteSnooze_kept c : ok (deleteSnooze T c).
Proof. eapply kept_delete_where; [apply _|]. by intros r [Hr%String.eqb_eq _]%andb_true_iff. Qed.
Lemma removeBookmark_kept c u : ok (removeBookmark T c u).
Proof.
  eapply kept_delete_where; [apply _|]. by intros r [[Hr%String.eqb_eq _]%andb_true_iff _]%andb_true_iff.
Qed.
Lemma deleteFilter_kept f : ok (deleteFilter T f).
Proof. eapply kept_delete_where; [apply _|]. by intros r [[_ Hr]%by_id_true _]%andb_true_iff. Qed.
Lemma deleteSavedView_kept i : ok (deleteSavedView T i).
Proof. eapply kept_delete_where; [apply _|]. by intros r [_ Hr]%by_id_true. Qed.
Lemma saveFilter_kept f : ok (saveFilter f T).
Proof.
  unfold saveFilter. do 2 (eapply kept_bind; [eauto with kept|intros ? _]).
  eapply kept_bind; [apply kept_of_result|]. intros r E.
  unfold column in E. do 2 case_match; try done; injection E as <-; [|solve_write].
  eapply kept_write; [apply _|apply confined_update]. by intros r [_ Hr]%by_id_true.
Qed.
Lemma saveSavedView_kept i : ok (saveSavedView i T).
Proof.
  unfold saveSavedView. do 2 (eapply kept_bind; [eauto with kept|intros ? _]).
  eapply kept_bind; [apply kept_of_result|]. intros r E.
  unfold column in E. do 2 case_match; try done; injection E as <-; [|solve_write].
  eapply kept_write; [apply _|apply confined_update]. by intros r [_ Hr]%by_id_true.
Qed.
#[local] Hint Resolve addAssignment_kept addBookmark_kept addActivity_kept upsertSnooze_kept
  upsertPresence_kept deleteSnooze_kept removeBookmark_kept deleteFilter_kept
  deleteSavedView_kept saveFilter_kept saveSavedView_kept : kept.

(** *** Publishing and reading *)
Lemma inbox_publish_db e : keeps (same (db (Db := InboxDb))) (publish e).
Proof. unfold publish. solve_keeps. Qed.
Lemma inbox_publishAll_db l : keeps (same (db (Db := InboxDb))) (publishAll l).
Proof. unfold publishAll. apply keeps_for_each; [apply _|]. intros. apply inbox_publish_db. Qed.
Lemma emit_db t e a : keeps (same (db (Db := InboxDb))) (emit t e a).
Proof. done. Qed.
#[local] Hint Resolve inbox_publish_db inbox_publishAll_db emit_db : keeps.
Lemma record_kept c e a l : ok (record T c e a l).
Proof. unfold record. solve_kept. Qed.
Lemma getViewOrThrow_kept c : kept (getViewOrThrow T c) (λ v, fine v ∧ conversationId v = c).
Proof.
  unfold getViewOrThrow. eapply kept_bind; [apply find_kept|]. intros [v|].
  - intros (? & _ & ?). by apply kept_ret.
  - intros _. apply kept_throw.
Qed.
Lemma getOrCreate_kept c seed : kept (InboxProjectionService.getOrCreate T c seed) fine.
Proof.
  unfold InboxProjectionService.getOrCreate. eapply kept_bind; [apply find_kept|]. intros [v|].
  - intros (? & _ & ?). by apply kept_ret.
  - intros Hw. eapply kept_bind; [by eauto with kept|]. intros i _. unfold create.
    do 2 (eapply kept_bind; [eauto with kept|intros ? _]). apply kept_ret.
    by intros c' Hw' [= <-].
Qed.
Lemma persist_as_kept e v : fine v → ok (persist_as e v T).
Proof. intros Hv. unfold persist_as. solve_kept. Qed.
#[local] Hint Resolve record_kept getViewOrThrow_kept getOrCreate_kept persist_as_kept : kept.
#[local] Hint Extern 1 (harmless _) => (left; reflexivity) : kept.

(** *** The projection *)
Section projection.
Import InboxProjectionService InboxEventConsumer.
Lemma projectConversation_kept c p : ok (projectConversation T c p).
Proof. unfold projectConversation, persist. solve_kept. Qed.
Lemma projectMessage_kept c p : ok (projectMessage T c p).
Proof. unfold projectMessage, message_on. solve_kept. Qed.
Lemma adjustOpenTicketCount_kept c n : ok (adjustOpenTicketCount T c n).
Proof. unfold adjustOpenTicketCount, persist. solve_kept. Qed.
Lemma projectCustomer_kept c i : ok (projectCustomer T c i).
Proof. unfold projectCustomer, persist. solve_kept. Qed.
Lemma apply_signals_kept s x b v : fine v → kept (apply_signals s x b v) fine.
Proof.
  intros Hv. unfold apply_signals.
  eapply (kept_bind _ _ _ fine); [case_match; [by eauto with kept|by apply kept_ret]|].
  intros v1 Hv1.
  eapply (kept_bind _ _ _ fine); [case_match; [by eauto with kept|by apply kept_ret]|].
  intros v2 Hv2. case_match; [by eauto with kept|by apply kept_ret].
Qed.
#[local] Hint Resolve apply_signals_kept : kept.
Lemma projectAiSignals_kept c s x b : ok (projectAiSignals T c s x b).
Proof. unfold projectAiSignals, persist. solve_kept. Qed.
Lemma markSlaRisk_kept c b : ok (markSlaRisk T c b).
Proof. unfold markSlaRisk, persist. solve_kept. Qed.
#[local] Hint Resolve projectConversation_kept projectMessage_kept adjustOpenTicketCount_kept
  projectCustomer_kept projectAiSignals_kept markSlaRisk_kept : kept.

Lemma then_recorded_kept (m : M InboxW unit) c ty a l :
  ok m → ok (m ;; _ ← record T c ty a l; mret tt).
Proof. intros Hm. eapply kept_bind; [exact Hm|]. intros _ _. apply kept_discard, record_kept. Qed.
Lemma handler_kept name h c e : handler name = Some h → ok (h T c e).
Proof.
  unfold handler, js_find, handlers. cbn [find fst]. intros Eh.
  repeat match type of Eh with
  | context [String.eqb ?n name] => destruct (String.eqb n name)
  end; cbn in Eh; try discriminate Eh; injection Eh as <-.
  - apply then_recorded_kept, projectConversation_kept.
  - apply then_recorded_kept, projectConversation_kept.
  - eapply kept_bind; [apply kept_of_result|]. intros at_ _.
    apply then_recorded_kept, projectMessage_kept.
  - eapply kept_bind; [apply kept_of_result|]. intros at_ _.
    apply then_recorded_kept, projectMessage_kept.
  - apply then_recorded_kept, adjustOpenTicketCount_kept.
  - apply then_recorded_kept, kept_when, adjustOpenTicketCount_kept.
  - apply then_recorded_kept, projectConversation_kept.
  - apply then_recorded_kept, projectAiSignals_kept.
  - apply kept_discard, record_kept.
Qed.
Lemma handleEvent_kept e : e_tenantId e = T → ok (handleEvent e).
Proof.
  intros E. unfold handleEvent. rewrite E. destruct (handler (eventName e)) as [h|] eqn:Eh;
    [|by apply kept_ret]. destruct (conversation_of e); [|by apply kept_ret].
  by eapply handler_kept.
Qed.
End projection.
#[local] Hint Resolve handleEvent_kept : kept.

(** *** What agents do *)
Section agents.
Import InboxAssignmentService InboxSnoozeService InboxPresenceService InboxBookmarkService.
Import InboxSearchService InboxService.
Lemma new_assignment_db c a t ty : keeps (same (db (Db := InboxDb))) (new_assignment T c a t ty).
Proof. unfold new_assignment. solve_keeps. Qed.
Lemma existing_or_new_db u s : keeps (same db) (existing_or_new T u s).
Proof. unfold existing_or_new, new_presence, getPresence. solve_keeps. Qed.
Lemma updateStatus_db s a p : keeps (same (db (Db := InboxDb))) (updateStatus s a p).
Proof. unfold updateStatus. solve_keeps. Qed.
Lemma heartbeat_db p : keeps (same (db (Db := InboxDb))) (heartbeat p).
Proof. unfold heartbeat. solve_keeps. Qed.
#[local] Hint Resolve new_assignment_db existing_or_new_db updateStatus_db heartbeat_db : keeps.
Lemma applyAssignment_kept v a t ty u : fine v → ok (applyAssignment T v a t ty u).
Proof.
  intros Hv. unfold applyAssignment.
  eapply (kept_bind _ _ _ fine); [case_match; by eauto with kept|]. intros v' Hv'. solve_kept.
Qed.
#[local] Hint Resolve applyAssignment_kept : kept.
Lemma with_view_kept {A} c (k : InboxView → M InboxW A) :
  (∀ v, fine v → conversationId v = c → ok (k v)) → ok (v ← getViewOrThrow T c; k v).
Proof. intros Hk. eapply kept_bind; [apply getViewOrThrow_kept|]. intros v []. by apply Hk. Qed.
Lemma roundRobin_kept c t u : ok (roundRobin T c t u).
Proof. apply with_view_kept. intros v Hv _. solve_kept. Qed.
Lemma bulkAssign_kept l a u : ok (bulkAssign T l a u).
Proof.
  apply kept_fold_each. intros acc c _. apply kept_try; [|intros e; by apply kept_ret].
  apply with_view_kept. intros v Hv _. solve_kept.
Qed.

Lemma snooze_conversation_kept c t r u : ok (snooze_conversation T c t r u).
Proof. apply with_view_kept. intros v Hv _. solve_kept. Qed.
Lemma wake_kept c : ok (wake T c).
Proof.
  unfold wake. eapply kept_bind; [apply find_kept|]. intros [v|]; [|by intros; apply kept_ret].
  intros (_ & _ & Hv). solve_kept.
Qed.
#[local] Hint Resolve wake_kept deleteSnooze_kept : kept.
Lemma unsnooze_conversation_kept c u : ok (unsnooze_conversation T c u).
Proof. unfold unsnooze_conversation. solve_kept. Qed.
(** A sweep of the tenant. *)
Lemma processDueSnoozes_kept : truthy T = true → ok (processDueSnoozes (Some T)).
Proof.
  intros HT. unfold processDueSnoozes. eapply kept_bind; [eauto with kept|]. intros now _.
  eapply (kept_bind _ _ _ (λ l, ∀ s, s ∈ l → s_tenantId s = T)).
  - apply kept_gets. intros w _ s Hs. apply elem_of_take in Hs as (i & Hs & _).
    apply list_elem_of_lookup_2 in Hs. rewrite js_sort_perm in Hs.
    apply js_filter_elem in Hs as [_ Hs]. unfold due, js_or_undef in Hs. rewrite HT in Hs.
    by apply andb_true_iff in Hs as [_ ?%String.eqb_eq].
  - intros l Hl. apply kept_fold_each. unfold wake_due.
    intros acc s ->%Hl. solve_kept.
Qed.

Lemma setPresence_kept u s a : ok (setPresence T u s a).
Proof. unfold setPresence. solve_kept. Qed.
Lemma heartbeat_user_kept u : ok (heartbeat_user T u).
Proof. unfold heartbeat_user. solve_kept. Qed.
Lemma bookmark_kept c u : ok (bookmark T c u).
Proof. unfold bookmark. solve_kept. Qed.
Lemma remove_bookmark_kept c u : ok (remove_bookmark T c u).
Proof. unfold remove_bookmark. solve_kept. Qed.

(** The cache is beside the tables. *)
Lemma cache_kept f : ok (modify (λ w, w <| db ::= λ d, d <| searchCache ::= f |> |>)).
Proof.
  intros w Hw. set (w' := final _ w).
  assert (inv T watched (db w')) as Hi by (destruct Hw as [[] ?]; by split). by split.
Qed.
Lemma listViews_db t o : keeps (same db) (listViews t o).
Proof. unfold listViews. solve_keeps. Qed.
#[local] Hint Resolve listViews_db : keeps.
Lemma cached_kept o : ok (cached T o (run T o)).
Proof.
  unfold cached, run. eapply kept_bind; [by apply (kept_gets _ _ _ (λ _, True))|].
  intros [keys|] _; [|eauto with kept]. apply kept_try; [|intros; eauto with kept].
  case_match; [by apply kept_ret|]. eapply kept_bind; [eauto with kept|]. intros r _.
  eapply kept_bind; [apply cache_kept|]. intros; by apply kept_ret.
Qed.
Lemma invalidateTenant_kept t : ok (invalidateTenant t).
Proof.
  unfold invalidateTenant. eapply kept_bind; [by apply (kept_gets _ _ _ (λ _, True))|].
  intros [keys|] _; [|by apply kept_ret].
  eapply kept_bind; [apply cache_kept|]. intros; by apply kept_ret.
Qed.

Lemma change_view_kept c f a u :
  (∀ v, fine v → conversationId v = c → kept (f v) fine) → ok (change_view T c f a u).
Proof.
  intros Hf. apply with_view_kept. intros v Hv Hc.
  eapply kept_bind; [by apply Hf|]. intros v' Hv'. unfold persistView. solve_kept.
Qed.
Lemma takeOver_kept c u : ok (takeOverFromAi T c u).
Proof.
  apply change_view_kept. intros v Hv _. eapply kept_bind; [by apply assign_view_kept|].
  intros v' Hv'. apply setMetadata_kept; [by right|done].
Qed.
Lemma returnToAi_kept c u : watched ≠ Some c → ok (returnToAi T c u).
Proof.
  intros Hne. apply change_view_kept. intros v Hv Hc. apply touch_kept.
  intros c' Hw Hc'. destruct Hne. cbn in Hc'. congruence.
Qed.
Lemma mark_read_kept c u : ok (mark_read T c u).
Proof. apply with_view_kept. intros v Hv _. solve_kept. Qed.
Lemma decideAiDraft_kept c i b u : ok (decideAiDraft T c i b u).
Proof.
  apply with_view_kept. intros v Hv _.
  eapply (kept_bind _ _ _ (λ _, True)); [case_match; eauto with kept|]. intros _ _. solve_kept.
Qed.
Lemma createFilter_kept n d s u : ok (createFilter T n d s u).
Proof. unfold createFilter. solve_kept. Qed.
Lemma createSavedView_kept u n f s c : ok (createSavedView T u n f s c).
Proof. unfold createSavedView, getFilter. solve_kept. Qed.
End agents.
End services.

(** ** Requests *)
Inductive Call :=
  | Assign (conversation agent : string) (team by_ : option string)
  | Force (conversation agent : string) (by_ : option string)
  | Transfer (conversation agent : string) (by_ : option string)
  | Unassign (conversation : string) (by_ : option string)
  | AssignToTeam (conversation team : string) (by_ : option string)
  | RoundRobin (conversation team : string) (by_ : option string)
  | BulkAssign (conversations : list string) (agent : string) (by_ : option string)
  | Snooze (conversation : string) (until : Z) (reason user : option string)
  | Unsnooze (conversation : string) (user : option string)
  | SetPresence (user status : string) (active : option string)
  | Heartbeat (user : string)
  | Bookmark (conversation user : string)
  | RemoveBookmark (conversation user : string)
  | Search (dto : InboxQueryOptions)
  | ByCustomer (customer : string) (limit : option Z)
  | Global (query : string) (limit : option Z)
  | GetCounters (user : string)
  | MarkRead (conversation : string) (user : option string)
  | Resolve (conversation : string) (user : option string)
  | Archive (conversation : string) (user : option string)
  | TakeOverFromAi (conversation user : string)
  | ReturnToAi (conversation user : string)
  | SetAiPaused (conversation : string) (paused : bool) (user : string)
  | DecideAiDraft (conversation draft : string) (approved : bool) (user : string)
  | ReplayWorkflow (conversation workflow user : string)
  | RetryConnector (conversation execution user : string)
  | CreateFilter (name : string) (definition : json) (shared : option bool) (user : option string)
  | DeleteFilter (filter : string)
  | CreateSavedView (user name filter : string) (sort columns : option json)
  | DeleteSavedView (view : string)
  | ProjectCustomer (conversation customer : string)
  | MarkSlaRisk (conversation : string) (atRisk : bool).

(** A call for a tenant, or a job taken by the worker. *)
Inductive Request := Api (tenant : string) (c : Call) | Work (job : Job).
(** The tenant a request is for; a sweep may be for all of them. *)
Definition request_tenant (r : Request) : option string :=
  match r with
  | Api T _ => Some T
  | Work job =>
      if String.eqb (job_name job) "inbox-cleanup-job"
      then js_or_undef (str_field "tenantId" (job_data job))
      else Some (InboxQueueProcessor.tenant_of_job job)
  end.
Definition concerns (U : string) (r : Request) : Prop :=
  match request_tenant r with Some T => T = U | None => True end.
Definition hands_back (T conversation : string) (r : Request) : Prop :=
  match r with Api U (ReturnToAi c _) => U = T ∧ c = conversation | _ => False end.

Section requests.
Context {HE : Env} {HS : SqlScan} {HC : Collation} {HD : InboxDeps}.
Import InboxAssignmentService InboxSnoozeService InboxPresenceService InboxBookmarkService.
Import InboxSearchService InboxService InboxProjectionService.

Definition ignore {A} (m : M InboxW A) : M InboxW unit := _ ← m; mret tt.
Definition serve_call (T : string) (c : Call) : M InboxW unit :=
  match c with
  | Assign c a t u => ignore (assign_agent T c a t u)
  | Force c a u => ignore (force T c a u)
  | Transfer c a u => ignore (transfer T c a u)
  | Unassign c u => ignore (unassign_conversation T c u)
  | AssignToTeam c t u => ignore (assignToTeam T c t u)
  | RoundRobin c t u => ignore (roundRobin T c t u)
  | BulkAssign l a u => ignore (bulkAssign T l a u)
  | Snooze c t r u => ignore (snooze_conversation T c t r u)
  | Unsnooze c u => ignore (unsnooze_conversation T c u)
  | SetPresence u s a => ignore (setPresence T u s a)
  | Heartbeat u => heartbeat_user T u
  | Bookmark c u => ignore (bookmark T c u)
  | RemoveBookmark c u => ignore (remove_bookmark T c u)
  | Search dto => ignore (search T dto)
  | ByCustomer c n => ignore (byCustomer T c n)
  | Global q n => ignore (global T q n)
  | GetCounters u => ignore (getCounters T u)
  | MarkRead c u => mark_read T c u
  | Resolve c u => resolve_conversation T c u
  | Archive c u => archive_conversation T c u
  | TakeOverFromAi c u => takeOverFromAi T c u
  | ReturnToAi c u => returnToAi T c u
  | SetAiPaused c p u => setAiPaused T c p u
  | DecideAiDraft c i b u => decideAiDraft T c i b u
  | ReplayWorkflow c i u => replayWorkflow T c i u
  | RetryConnector c i u => retryConnector T c i u
  | CreateFilter n d s u => ignore (createFilter T n d s u)
  | DeleteFilter i => delete_filter T i
  | CreateSavedView u n f s c => ignore (createSavedView T u n f s c)
  | DeleteSavedView i => delete_saved_view T i
  | ProjectCustomer c i => projectCustomer T c i
  | MarkSlaRisk c b => markSlaRisk T c b
  end.
Definition serve (r : Request) : M InboxW unit :=
  match r with
  | Api T c => serve_call T c
  | Work job => ignore (process (Some INBOX) InboxQueueProcessor.handleJob job)
  end.
(** Requests one after the other; what one throws goes to its caller. *)
Definition serve_all (l : list Request) (w : InboxW) : InboxW :=
  foldl (λ w r, final (serve r) w) w l.

Lemma assigned_kept T watched c a ty u (t : InboxView → option string) :
  kept T watched (v ← getViewOrThrow T c; applyAssignment T v a (t v) ty u) (λ _, True).
Proof. apply with_view_kept. intros v Hv _. by apply applyAssignment_kept. Qed.
Lemma queued_kept T watched c q n d y u x :
  kept T watched (_ ← getViewOrThrow T c; addJob q n d (λ o, o) ;; _ ← record T c y u x; mret tt)
    (λ _, True).
Proof.
  apply with_view_kept. intros v _ _. eapply kept_bind; [eauto with kept|]. intros _ _.
  apply kept_discard, record_kept.
Qed.
Lemma delete_or_throw_kept T watched (m : M InboxW bool) e :
  kept T watched m (λ _, True) →
  kept T watched (deleted ← m; if (deleted : bool) then mret tt else throw e) (λ _, True).
Proof.
  intros Hm. eapply kept_bind; [exact Hm|]. intros [] _; [by apply kept_ret|apply kept_throw].
Qed.

Lemma serve_call_kept T watched c :
  (∀ i u, c = ReturnToAi i u → watched ≠ Some i) → kept T watched (serve_call T c) (λ _, True).
Proof.
  intros Hback. destruct c; cbn [serve_call]; try apply kept_discard.
  - apply (assigned_kept _ _ _ _ _ _ (λ _, team)).
  - apply assigned_kept.
  - apply assigned_kept.
  - apply (assigned_kept _ _ _ _ _ _ (λ _, None)).
  - apply (assigned_kept _ _ _ _ _ _ (λ _, Some team)).
  - apply roundRobin_kept.
  - apply bulkAssign_kept.
  - apply snooze_conversation_kept.
  - apply unsnooze_conversation_kept.
  - apply setPresence_kept.
  - apply heartbeat_user_kept.
  - apply bookmark_kept.
  - apply remove_bookmark_kept.
  - apply cached_kept.
  - apply cached_kept.
  - apply cached_kept.
  - apply kept_same. pose proof listViews_db. unfold getCounters, countByStatus. solve_keeps.
  - apply mark_read_kept.
  - apply change_view_kept. intros v Hv _. by apply resolve_kept.
  - apply change_view_kept. intros v Hv _. by apply archive_kept.
  - apply takeOver_kept.
  - by eapply returnToAi_kept, Hback.
  - apply change_view_kept. intros v Hv _. apply setMetadata_kept; [by left|done].
  - apply decideAiDraft_kept.
  - apply queued_kept.
  - apply queued_kept.
  - apply createFilter_kept.
  - apply delete_or_throw_kept, deleteFilter_kept.
  - apply createSavedView_kept.
  - apply delete_or_throw_kept, deleteSavedView_kept.
  - apply projectCustomer_kept.
  - apply markSlaRisk_kept.
Qed.

(** *** Steps for some tenant, seen from a tenant *)
Definition holds (T : string) (W : option string) (d d' : InboxDb) : Prop :=
  inv T W d → inv T W d'.
#[local] Instance holds_preorder T W : PreOrder (holds T W).
Proof. split; [intros d Hd; exact Hd|]. intros a b c H1 H2 H. exact (H2 (H1 H)). Qed.

Lemma foreign_elem U (l : list ViewRow) r :
  r ∈ foreign U l ↔ r ∈ l ∧ r_tenantId r ≠ U.
Proof.
  unfold foreign. rewrite js_filter_elem, negb_true_iff, String.eqb_neq. done.
Qed.
Lemma off_others T U c d d' : T ≠ U → others U d' = others U d → off T c d → off T c d'.
Proof.
  intros Hne Ho (r & Hr & Hc & Hm). exists r. split; [|done].
  assert (foreign U (inboxViews d') = foreign U (inboxViews d)) as E by (by injection Ho).
  apply of_conversation_true in Hc as [Ht _].
  assert (r ∈ foreign U (inboxViews d')) as [? _]%foreign_elem; [|done].
  rewrite E. apply foreign_elem. split; [done|]. congruence.
Qed.
Lemma kept_holds {A} U T W (m : M InboxW A) φ :
  kept U None m φ → (U = T → kept U W m φ) → keeps (db_rel (holds T W)) m.
Proof.
  intros Hn Hs w Hw. destruct (decide (U = T)) as [<-|Hne].
  - by destruct (Hs eq_refl w Hw) as [[? _] _].
  - destruct Hw as [Hwf Hoff].
    destruct (Hn w) as [H _]; [by split|]. destruct H as [[Hwf' _] Ho]; [by split|].
    split; [done|]. intros c Hc. eapply off_others; [by apply not_eq_sym|exact Ho|auto].
Qed.

(** *** The worker *)
Lemma inbox_handleFailure_db q job e : keeps (same (db (Db := InboxDb))) (handleFailure q job e).
Proof. unfold handleFailure, routeToDeadLetter, moveToDeadLetter, getTenantId. solve_keeps. Qed.

(** A sweep of all the tenants wakes each snooze for its own tenant. *)
Lemma sweep_holds T W tenant : keeps (db_rel (holds T W)) (processDueSnoozes tenant).
Proof.
  unfold processDueSnoozes. apply keeps_bind; [apply _|by apply keeps_db_rel; [apply _|]|].
  intros now. apply keeps_bind; [apply _|by apply keeps_db_rel; [apply _|]|].
  intros l. apply keeps_fold_each; [apply _|]. intros n s. unfold wake_due.
  assert (∀ V, kept (s_tenantId s) V (wake_due n s) (λ _, True)) as H.
  { intros V. unfold wake_due. eapply kept_bind; [apply deleteSnooze_kept|]. intros _ _.
    eapply kept_bind; [apply wake_kept|]. intros _ _. by apply kept_ret. }
  by apply (kept_holds (s_tenantId s) T W _ _ (H None)).
Qed.

Lemma inbox_handleJob_kept job T watched :
  request_tenant (Work job) = Some T →
  kept T watched (InboxQueueProcessor.handleJob job) (λ _, True).
Proof.
  unfold request_tenant, InboxQueueProcessor.handleJob.
  destruct (String.eqb_spec (job_name job) "inbox-projection-job") as [->|_].
  { intros [= HT]. eapply kept_bind; [by apply handleEvent_kept|]. intros. by apply kept_ret. }
  destruct (String.eqb_spec (job_name job) "inbox-search-index-job") as [->|_].
  { intros _. eapply kept_bind; [apply invalidateTenant_kept|]. intros. by apply kept_ret. }
  destruct (String.eqb_spec (job_name job) "inbox-presence-job") as [->|_].
  { intros [= ->]. unfold InboxQueueProcessor.presence_job.
    destruct (js_or_undef _) as [u|]; [|by apply kept_ret].
    destruct (js_or_undef _) as [st|]; (eapply kept_bind;
      [first [apply setPresence_kept|apply heartbeat_user_kept]|]); intros; by apply kept_ret. }
  destruct (String.eqb (job_name job) "inbox-cleanup-job"); [|intros _; apply kept_throw].
  intros E. eapply kept_bind; [|intros; by apply kept_ret].
  unfold js_or_undef in E. destruct (str_field "tenantId" (job_data job)) as [t|]; [|done].
  destruct (truthy t) eqn:Ht; [|done]. injection E as ->. by apply processDueSnoozes_kept.
Qed.

Lemma inbox_serve_kept r T watched :
  request_tenant r = Some T → (∀ c, watched = Some c → ¬ hands_back T c r) →
  kept T watched (serve r) (λ _, True).
Proof.
  destruct r as [U c|job]; cbn [serve request_tenant].
  - intros [= ->] Hb. apply serve_call_kept. intros i u -> Hw. by apply (Hb i Hw).
  - intros E _. apply kept_discard. unfold process.
    assert (kept T watched (try_catch (InboxQueueProcessor.handleJob job)
       (λ err, handleFailure (Some INBOX) job err ;; throw err)) (λ _, True)) as Hrun.
    { apply kept_try; [by apply inbox_handleJob_kept|]. intros e.
      eapply kept_bind; [apply kept_same, inbox_handleFailure_db|]. intros. apply kept_throw. }
    destruct (job_tenant job) as [t|]; [|done].
    destruct (truthy t); [by apply kept_context|done].
Qed.

Lemma context_holds {A} R `{!PreOrder R} t (m : M InboxW A) :
  keeps (db_rel R) m → keeps (db_rel R) (TenantContext_run t m).
Proof.
  intros Hm w. specialize (Hm (w <| tenantContext := Some t |>)).
  unfold db_rel, final, TenantContext_run in *.
  by destruct (m (w <| tenantContext := Some t |>)) as [r w'].
Qed.

Lemma serve_holds r T W :
  (∀ c, W = Some c → ¬ hands_back T c r) → keeps (db_rel (holds T W)) (serve r).
Proof.
  intros Hb. destruct (request_tenant r) as [U|] eqn:E.
  - apply (kept_holds U T W _ (λ _, True)); [by apply inbox_serve_kept|].
    intros ->. by apply inbox_serve_kept.
  - destruct r as [|job]; [done|]. cbn [serve request_tenant] in *.
    destruct (String.eqb_spec (job_name job) "inbox-cleanup-job") as [En|_]; [|done].
    apply keeps_bind; [apply _| |intros; by apply keeps_ret, _]. unfold process.
    assert (keeps (db_rel (holds T W)) (try_catch (InboxQueueProcessor.handleJob job)
       (λ err, handleFailure (Some INBOX) job err ;; throw err))) as Hrun.
    { apply keeps_try_catch; [apply _| |].
      - unfold InboxQueueProcessor.handleJob. rewrite En. cbn [String.eqb Ascii.eqb Bool.eqb].
        apply keeps_bind; [apply _|apply sweep_holds|]. intros; by apply keeps_ret, _.
      - intros e. apply keeps_bind; [apply _| |intros; by apply keeps_throw, _].
        apply keeps_db_rel; [apply _|]. apply inbox_handleFailure_db. }
    destruct (job_tenant job) as [t|]; [|done].
    destruct (truthy t); [by apply context_holds; [apply _|]|done].
Qed.

Lemma serve_all_holds l T W w :
  Forall (λ r, ∀ c, W = Some c → ¬ hands_back T c r) l →
  inv T W (db w) → inv T W (db (serve_all l w)).
Proof.
  intros Hl. revert w. induction Hl as [|r l Hr Hl IH]; intros w Hw; [done|].
  apply (IH (final (serve r) w)). exact (serve_holds r T W Hr w Hw).
Qed.
End requests.
