(* ===== verification/InboxProofs.v ===== *)
(** * Inbox: properties

    Isolation of the tenants, and the hand-over of a conversation from the AI to an
    agent: both under any sequence of calls and jobs. *)

From S2P Require Import Prelude Platform JsValue Double Sql SqlText Inbox InboxRepo InboxQueries InboxProjection InboxServices InboxIsolation.
Open Scope Z_scope.

(** ** Isolation *)

(** The rows of one tenant. *)
Definition of_tenant (U : string) (d : InboxDb) : InboxDb :=
  {| inboxViews := js_filter (λ r, String.eqb (r_tenantId r) U) (inboxViews d);
     inboxFilters := js_filter (λ r, String.eqb (f_tenantId r) U) (inboxFilters d);
     inboxSavedViews := js_filter (λ r, String.eqb (v_tenantId r) U) (inboxSavedViews d);
     inboxAssignments := js_filter (λ r, String.eqb (a_tenantId r) U) (inboxAssignments d);
     inboxPresence := js_filter (λ r, String.eqb (q_tenantId r) U) (inboxPresence d);
     inboxSnoozes := js_filter (λ r, String.eqb (s_tenantId r) U) (inboxSnoozes d);
     inboxBookmarks := js_filter (λ r, String.eqb (b_tenantId r) U) (inboxBookmarks d);
     inboxActivityFeed := js_filter (λ r, String.eqb (y_tenantId r) U) (inboxActivityFeed d);
     searchCache := None |}.

Lemma inbox_others_of_tenant T U d d' :
  T ≠ U → others T d' = others T d → of_tenant U d' = of_tenant U d.
Proof.
  intros Hne E. injection E as E1 E2 E3 E4 E5 E6 E7 E8. unfold of_tenant.
  f_equal; [exact (tenant_foreign T U _ _ Hne E1)|exact (tenant_foreign T U _ _ Hne E2)
    |exact (tenant_foreign T U _ _ Hne E3)|exact (tenant_foreign T U _ _ Hne E4)
    |exact (tenant_foreign T U _ _ Hne E5)|exact (tenant_foreign T U _ _ Hne E6)
    |exact (tenant_foreign T U _ _ Hne E7)|exact (tenant_foreign T U _ _ Hne E8)].
Qed.

Section proofs.
Context {HE : Env} {HS : SqlScan} {HC : Collation} {HD : InboxDeps}.

(** C5: Starting from well-formed tables (keys distinct, every view readable), any
    sequence of calls of the inbox services and of jobs of the inbox worker, for any
    tenants and whichever of them throw, leaves the tables well formed; and the rows
    that the eight tables hold of a tenant which no call and no job was for (a cleanup
    without a tenant is for all) are what they were. *)
Theorem inbox_calls_isolated l w :
  wf (db w) →
  wf (db (serve_all l w))
  ∧ ∀ U, (∀ r, r ∈ l → ¬ concerns U r) → of_tenant U (db (serve_all l w)) = of_tenant U (db w).
Proof.
  revert w. induction l as [|r l IH]; intros w Hwf; [done|].
  assert (wf (db (final (serve r) w))) as Hwf'.
  { exact (proj1 (serve_holds r "" None ltac:(done) w (inv_wf "" _ Hwf))). }
  destruct (IH _ Hwf') as [Hend Hown]. split; [exact Hend|]. intros U HU.
  cbn [serve_all foldl]. etransitivity; [apply Hown; intros x Hx; apply HU; by right|].
  assert (¬ concerns U r) as Hr by (apply HU; by left).
  unfold concerns in Hr. destruct (request_tenant r) as [T|] eqn:E; [|done].
  destruct (inbox_serve_kept r T None E) with (w := w) as [H _]; [done|by apply inv_wf|].
  destruct (H (inv_wf T _ Hwf)) as [_ Ho]. by eapply inbox_others_of_tenant.
Qed.

(** ** Taken over *)
Lemma takeOver_off T c u w w' :
  wf (db w) → InboxService.takeOverFromAi T c u w = (Ok tt, w') → inv T (Some c) (db w').
Proof.
  intros Hwf E. unfold InboxService.takeOverFromAi, InboxService.change_view in E.
  apply bind_inv in E as (v & w1 & E1 & E). apply bind_inv in E as (v' & w2 & E2 & E).
  apply bind_inv in E as ([] & w3 & E3 & E). apply bind_inv in E3 as (v3 & s & Es & E3).
  destruct (getViewOrThrow_kept T None c w (inv_wf T _ Hwf)) as [H1 HQ1].
  unfold final, outcome in H1, HQ1. rewrite E1 in H1, HQ1. cbn in H1, HQ1.
  destruct (H1 (inv_wf T _ Hwf)) as [Hi1 _]. destruct (HQ1 v eq_refl) as (_ & _ & Hc).
  assert (db w2 = db w1 ∧ conversationId v' = c ∧ is_off (metadata v')) as (Ed & Hc' & Hoff).
  { cbn in E2. injection E2 as <- <-. split_and!; [done|exact Hc|].
    unfold is_off. cbn. by apply lookup_union_Some_l. }
  rewrite <- Ed in Hi1.
  destruct (save_triple T None v' (λ _, True) (off T c) ltac:(done)) with (w := w2) as [H3 HQ3];
    [|by split|].
  { intros x d l' _ _ _ _ El. destruct (save_view_rows T x v' _ _ El) as (_ & (r & Hr & Hs) & _).
    destruct Hs as [Hrc Hrm]. exists r. rewrite <- Hc', Hrm. done. }
  unfold final, outcome in H3, HQ3. rewrite Es in H3, HQ3. cbn in H3, HQ3.
  destruct (HQ3 v3 eq_refl) as [[Hwf3 _] Hoff3].
  assert (inv T (Some c) (db s)) as Hs by (split; [done|]; by intros ? [= <-]).
  assert (kept T (Some c) (publishAll (domainEvents v') ;;
     emit T "inbox.status.changed" (conversationId v')) (λ _, True)) as Hp.
  { eapply kept_bind; [apply kept_same, inbox_publishAll_db|]. intros _ _.
    apply kept_same, emit_db. }
  destruct (Hp s Hs) as [Hp1 _]. unfold final in Hp1. rewrite E3 in Hp1.
  destruct (Hp1 Hs) as [Hi3 _].
  destruct (kept_discard T (Some c) _ (record_kept T (Some c) c "AI_TAKEOVER" (Some u) []) w3 Hi3)
    as [Hr1 _]. unfold final in Hr1. rewrite E in Hr1. exact (proj1 (Hr1 Hi3)).
Qed.

Lemma off_inactive T c w :
  inv T (Some c) (db w) → outcome (InboxService.isAiActive T c) w = Ok false.
Proof.
  intros [Hwf Hoff]. destruct (Hoff c eq_refl) as (r & Hr & Hc & Hm).
  unfold InboxService.isAiActive, findViewByConversation, read, outcome.
  assert (sql_select (of_conversation T c) (inboxViews (db w)) = Some r) as E.
  { apply select_unique; [done..|]. intros x Hx Hxc. symmetry. by eapply view_unique. }
  unfold gets, mbind, M_bind. cbn [rows views_table]. rewrite E.
  pose proof (wf_readable _ Hwf r Hr) as Hread. unfold readable in Hread.
  destruct (viewToDomain r) as [v|] eqn:Ev; [|done]. cbn.
  apply viewToDomain_meta in Ev as (_ & -> & _). unfold InboxService.ai_may_answer.
  unfold is_off in Hm. by rewrite Hm.
Qed.

(** C6: Once [takeOverFromAi] has returned for a conversation, [isAiActive] answers
    [false] for it after any sequence of calls of the inbox services, jobs of the worker
    (projections of messages, tickets, escalations) and sweeps, for any tenants and
    whichever of them throw, until [returnToAi] is called for that conversation. *)
Theorem ai_stays_off T conversation user l w w' :
  wf (db w) →
  InboxService.takeOverFromAi T conversation user w = (Ok tt, w') →
  Forall (λ r, ¬ hands_back T conversation r) l →
  outcome (InboxService.isAiActive T conversation) (serve_all l w') = Ok false.
Proof.
  intros Hwf E Hl. apply off_inactive, serve_all_holds.
  - eapply Forall_impl; [exact Hl|]. by intros r Hr c [= <-].
  - by eapply takeOver_off.
Qed.
End proofs.
