(* ===== verification/InboxReplay.v ===== *)
(** * Inbox: the projection as a fold

    A view is a fold of the events about its conversation.  [Card] is what a view shows
    apart from its keys and its dates, [step] the fold; the consumer, which reads and
    writes a table of views shared by all the conversations, computes the same. *)

From S2P Require Import Prelude Platform JsValue Double Sql SqlText Inbox InboxRepo InboxQueries InboxProjection InboxIsolation.
Import InboxProjectionService InboxEventConsumer.
Open Scope Z_scope.

Record Card := {
  k_customerId : option string;
  k_channelId : option string;
  k_assignedAgentId : option string;
  k_assignedTeamId : option string;
  k_status : InboxStatusEnum;
  k_priority : string;
  k_sentiment : option string;
  k_lastMessage : option string;
  k_lastMessageType : option string;
  k_unread : Z;
  k_tickets : Z;
  k_confidence : option double;
  k_waiting : bool;
  k_metadata : gmap string json;
}.
#[export] Instance Card_Eta : Eta Card := λ k,
  Build_Card (k_customerId k) (k_channelId k) (k_assignedAgentId k) (k_assignedTeamId k)
    (k_status k) (k_priority k) (k_sentiment k) (k_lastMessage k) (k_lastMessageType k)
    (k_unread k) (k_tickets k) (k_confidence k) (k_waiting k) (k_metadata k).

Definition card (v : InboxView) : Card :=
  {| k_customerId := js_or_undef (customerId v); k_channelId := js_or_undef (channelId v);
     k_assignedAgentId := js_or_undef (assignedAgentId v);
     k_assignedTeamId := js_or_undef (assignedTeamId v); k_status := status v;
     k_priority := js_or (Some (priority v)) Priority.MEDIUM;
     k_sentiment := js_or_undef (sentiment v); k_lastMessage := js_or_undef (lastMessage v);
     k_lastMessageType := js_or_undef (lastMessageType v); k_unread := unreadCount v;
     k_tickets := openTicketCount v; k_confidence := aiConfidenceScore v;
     k_waiting := bool_decide (is_Some (waitingSince v)); k_metadata := metadata v |}.

(** ** The fold *)
Definition new_card (p : ConversationProjection) : Card :=
  {| k_customerId := js_or_undef (c_customerId p); k_channelId := js_or_undef (c_channelId p);
     k_assignedAgentId := js_or_undef (c_assignedAgentId p);
     k_assignedTeamId := js_or_undef (c_assignedTeamId p);
     k_status := default OPEN (mapStatus (c_status p));
     k_priority := js_or (mapPriority (c_priority p)) Priority.MEDIUM; k_sentiment := None;
     k_lastMessage := None; k_lastMessageType := None; k_unread := 0; k_tickets := 0;
     k_confidence := None; k_waiting := false; k_metadata := ∅ |}.
(** A text that an event gives replaces the old one, and an empty text is none. *)
Definition replaced (x old : option string) : option string :=
  match x with Some _ => js_or_undef x | None => old end.
Definition step_conversation (p : ConversationProjection) (k : Card) : Card :=
  k <| k_status ::= λ s, default s (mapStatus (c_status p)) |>
    <| k_priority ::= js_or (mapPriority (c_priority p)) |>
    <| k_customerId ::= replaced (c_customerId p) |>
    <| k_channelId ::= replaced (c_channelId p) |>
    <| k_assignedAgentId ::= replaced (c_assignedAgentId p) |>
    <| k_assignedTeamId ::= replaced (c_assignedTeamId p) |>.
Definition step_message (d : Direction) (content type : option string) (k : Card) : Card :=
  k <| k_lastMessage := js_or_undef content |> <| k_lastMessageType := js_or_undef type |>
    <| k_unread ::= λ n, match d with INBOUND => n + 1 | OUTBOUND => 0 end |>
    <| k_waiting := match d with INBOUND => true | OUTBOUND => false end |>.
Definition step_tickets (delta : Z) (k : Card) : Card :=
  k <| k_tickets ::= λ n, Z.max 0 (n + delta) |>.
Definition step_signals (sentiment : option string) (confidence : option double) (k : Card) : Card :=
  k <| k_sentiment ::= λ old, match js_or_undef sentiment with Some s => Some s | None => old end |>
    <| k_confidence ::= if_given confidence |>
    <| k_metadata ::= λ m, {["aiEscalated" := JBool true]} ∪ m |>.

(** What an event does to the card of its conversation, if there is one. *)
Definition step (e : InboxEventEnvelope) (o : option Card) : option Card :=
  let o' := payload e in
  let named (name : string) := String.eqb name (eventName e) in
  let message d :=
    Some (step_message d (str_field "content" o') (str_field "messageType" o')
            (default (new_card no_seed) o)) in
  if named "conversation.created" || named "conversation.updated" then
    Some (step_conversation (conversation_projection o')
            (default (new_card (conversation_projection o')) o))
  else if named "message.received" then message INBOUND
  else if named "message.sent" then message OUTBOUND
  else if named "ticket.created" then Some (step_tickets 1 (default (new_card no_seed) o))
  else if named "ticket.updated" then
    if ticket_over e then Some (step_tickets (-1) (default (new_card no_seed) o)) else o
  else if named "assignment.completed" then
    Some (step_conversation (assignment_projection o')
            (default (new_card (assignment_projection o')) o))
  else if named "ai.escalation.created" then
    Some (step_signals (str_field "sentiment" o') (number_field "confidence" o')
            (default (new_card no_seed) o))
  else o.
Definition about (T c : string) (e : InboxEventEnvelope) : bool :=
  String.eqb (e_tenantId e) T && bool_decide (conversation_of e = Some c).

Section replay.
Context {HE : Env} {HS : SqlScan} {HD : InboxDeps}.
Implicit Types (v : InboxView).

Definition card_of (r : ViewRow) : option Card :=
  match viewToDomain r with Ok v => Some (card v) | Throw _ => None end.
Definition card_at (T c : string) (d : InboxDb) : option Card :=
  r ← sql_select (of_conversation T c) (inboxViews d); card_of r.

(** ** Rows *)
Lemma undef_twice {A} `{Truthy A} (o : option A) : js_or_undef (js_or_undef o) = js_or_undef o.
Proof. unfold js_or_undef. destruct o as [a|]; [|done]. destruct (truthy a) eqn:E; by rewrite ?E. Qed.

Lemma card_columns T u v c d n :
  card_of ((view_columns T u v) <| r_createdAt := c |> <| r_deletedAt := d |> <| r_version := n |>)
  = Some (card v).
Proof.
  unfold card_of. rewrite domain_columns. unfold card. cbn -[js_or_undef js_or].
  rewrite !undef_twice. f_equal. f_equal.
  unfold js_or. by destruct (truthy (priority v)) eqn:Ep; rewrite ?Ep.
Qed.

Lemma card_at_row T c d r :
  wf d → r ∈ inboxViews d → of_conversation T c r = true → card_at T c d = card_of r.
Proof.
  intros Hwf Hr Hc. unfold card_at. rewrite (select_unique _ _ r); [done..|].
  intros x Hx Hxc. symmetry. by eapply view_unique.
Qed.

(** ** A save *)
Lemma card_at_saved T u v d l' :
  wf d → wf (d <| inboxViews := l' |>) →
  sql_upsert (of_conversation T (conversationId v)) (set_view (view_columns T u v))
    (view_columns T u v) (inboxViews d) = Ok l' →
  card_at T (conversationId v) (d <| inboxViews := l' |>) = Some (card v)
  ∧ ∀ U c, (U, c) ≠ (T, conversationId v) →
      card_at U c (d <| inboxViews := l' |>) = card_at U c d.
Proof.
  intros Hwf Hwf' E. destruct (save_view_rows T u v _ _ E) as (Hrows & (y & Hy & Hs) & Hrest).
  split.
  - rewrite (card_at_row _ _ _ y Hwf' Hy (proj1 Hs)).
    destruct (Hrows y Hy) as [[_ F]|[_ (c & de & n & ->)]]; [by rewrite (proj1 Hs) in F|].
    apply card_columns.
  - intros U c Hne.
    assert (∀ r, of_conversation U c r = true → of_conversation T (conversationId v) r = false) as Hsep.
    { intros r [<- <-]%of_conversation_true. apply not_true_iff_false.
      intros [? ?]%of_conversation_true. congruence. }
    destruct (sql_select (of_conversation U c) (inboxViews d)) as [r|] eqn:Er.
    + apply select_some in Er as [Hr Hc]. rewrite (card_at_row _ _ d r) by done.
      apply (card_at_row U c _ r); [done| |done]. apply Hrest; [done|by apply Hsep].
    + unfold card_at. rewrite Er. cbn.
      destruct (sql_select (of_conversation U c) l') as [r|] eqn:Er'; [|done].
      apply select_some in Er' as [Hr Hc]. destruct (Hrows r Hr) as [[Hin _]|[[Hst _] _]].
      * by rewrite (select_none _ _ _ Er Hin) in Hc.
      * by rewrite (Hsep r Hc) in Hst.
Qed.

Definition moved (T c : string) (k : Card) (d d' : InboxDb) : Prop :=
  wf d' ∧ card_at T c d' = Some k
  ∧ ∀ U i, (U, i) ≠ (T, c) → card_at U i d' = card_at U i d.
Lemma saved_card T v w v' w' :
  wf (db w) → saveView v T w = (Ok v', w') →
  moved T (conversationId v) (card v) (db w) (db w').
Proof.
  intros Hwf E.
  destruct (save_triple T None v (eq (db w)) (moved T (conversationId v) (card v) (db w)))
    with (w := w) as [_ HQ]; [done| |by split; [apply inv_wf|]|].
  - intros u d l' [Hd _] <- _ [Hd' _] El. split; [done|]. by apply (card_at_saved T u).
  - unfold final, outcome in HQ. rewrite E in HQ. exact (proj2 (HQ v' eq_refl)).
Qed.

(** ** What the consumer does *)
Lemma keeps_run {A} (m : M InboxW A) w a w' :
  keeps (same db) m → m w = (Ok a, w') → db w' = db w.
Proof. intros Hm E. specialize (Hm w). unfold same, final in Hm. by rewrite E in Hm. Qed.

Lemma persisted_card T v event w w' :
  wf (db w) → persist_as event v T w = (Ok tt, w') →
  moved T (conversationId v) (card v) (db w) (db w').
Proof.
  intros Hwf E. unfold persist_as in E. apply bind_inv in E as (v' & w1 & E1 & E).
  apply bind_inv in E as ([] & w2 & E2 & E). apply saved_card in E1; [|done].
  apply keeps_run in E2; [|apply inbox_publishAll_db]. apply keeps_run in E; [|apply emit_db].
  by rewrite E, E2.
Qed.

Lemma got_card T c seed w v w' :
  wf (db w) → getOrCreate T c seed w = (Ok v, w') →
  db w' = db w ∧ conversationId v = c ∧ card v = default (new_card seed) (card_at T c (db w)).
Proof.
  intros Hwf E. unfold getOrCreate, findViewByConversation, read in E.
  unfold card_at. rewrite bind_assoc, gets_bind in E.
  cbn [rows views_table] in E.
  destruct (sql_select (of_conversation T c) (inboxViews (db w))) as [r|] eqn:Er.
  - apply select_some in Er as [Hin [_ Hc]%of_conversation_true]. unfold card_of. cbn.
    rewrite bind_assoc in E. apply bind_inv in E as (x & s & E1 & E). injection E1 as E1 ->.
    rewrite E1. cbn in E. injection E as -> ->. split_and!; [done| |done].
    apply viewToDomain_meta in E1 as (-> & _). done.
  - cbn in E. injection E as <- <-. split_and!; [done..|]. cbn. unfold card, new_card. cbn.
    f_equal. unfold js_or. destruct (mapPriority (c_priority seed)) as [p|]; [|done].
    by destruct (truthy p) eqn:Ep; rewrite ?Ep.
Qed.

(** A change of a view that is a change of its card. *)
Definition moves (f : InboxView → M InboxW InboxView) (g : Card → Card) : Prop :=
  ∀ v w v' w', f v w = (Ok v', w') →
    db w' = db w ∧ conversationId v' = conversationId v ∧ card v' = g (card v).

Lemma projected T c seed f g event w w' :
  moves f g → wf (db w) →
  (v ← getOrCreate T c seed; v ← f v; persist_as event v T) w = (Ok tt, w') →
  moved T c (g (default (new_card seed) (card_at T c (db w)))) (db w) (db w').
Proof.
  intros Hf Hwf E. apply bind_inv in E as (v & w1 & E1 & E).
  apply bind_inv in E as (v' & w2 & E2 & E). apply got_card in E1 as (D1 & C1 & K1); [|done].
  apply Hf in E2 as (D2 & C2 & K2). rewrite D1 in D2.
  apply persisted_card in E; [|by rewrite D2]. by rewrite K2, K1, C2, C1, D2 in E.
Qed.

Lemma update_moves p : moves (applyConversationUpdate (update_of p)) (step_conversation p).
Proof.
  intros v w v' w' [= <- <-]. split_and!; [done..|]. unfold card, step_conversation. cbn -[replaced].
  assert (∀ x o : option string,
    js_or_undef (if_given x o) = replaced x (js_or_undef o)) as H by (by intros [] o).
  f_equal; try apply H.
  unfold js_or. destruct (mapPriority (c_priority p)) as [q|]; [|done].
  destruct (truthy q) eqn:Eq; rewrite ?Eq; [done|].
  by destruct (truthy (priority v)) eqn:Ep; rewrite ?Ep.
Qed.

Lemma message_moves p : moves (applyMessage p) (step_message (m_direction p) (m_content p) (m_type p)).
Proof.
  intros v w v' w'. unfold applyMessage, or_now.
  destruct (m_at p), (m_direction p); cbn; try (by intros [= <- <-]);
    destruct (waitingSince v); by intros [= <- <-].
Qed.

Lemma tickets_moves delta :
  moves (λ v, setOpenTicketCount (Z.max 0 (openTicketCount v + delta)) v) (step_tickets delta).
Proof. by intros v w v' w' [= <- <-]. Qed.

Lemma signals_moves sentiment confidence :
  moves (apply_signals sentiment confidence true) (step_signals sentiment confidence).
Proof.
  intros v w v' w'. unfold apply_signals, js_or_undef.
  destruct sentiment as [s|]; [destruct (truthy s) eqn:Es|];
    destruct confidence; intros [= <- <-]; (split_and!; [done..|]);
    unfold card, step_signals, js_or_undef; cbn; by rewrite ?Es.
Qed.

Lemma projectConversation_moved T c p w w' :
  wf (db w) → projectConversation T c p w = (Ok tt, w') →
  moved T c (step_conversation p (default (new_card p) (card_at T c (db w)))) (db w) (db w').
Proof. exact (projected T c p _ _ "inbox.conversation.updated" w w' (update_moves p)). Qed.
Lemma projectMessage_moved T c p w w' :
  wf (db w) → projectMessage T c p w = (Ok tt, w') →
  moved T c (step_message (m_direction p) (m_content p) (m_type p)
    (default (new_card no_seed) (card_at T c (db w)))) (db w) (db w').
Proof. exact (projected T c _ _ _ "inbox.message.updated" w w' (message_moves p)). Qed.
Lemma adjustOpenTicketCount_moved T c n w w' :
  wf (db w) → adjustOpenTicketCount T c n w = (Ok tt, w') →
  moved T c (step_tickets n (default (new_card no_seed) (card_at T c (db w)))) (db w) (db w').
Proof. exact (projected T c _ _ _ "inbox.conversation.updated" w w' (tickets_moves n)). Qed.
Lemma projectAiSignals_moved T c s x w w' :
  wf (db w) → projectAiSignals T c s x true w = (Ok tt, w') →
  moved T c (step_signals s x (default (new_card no_seed) (card_at T c (db w)))) (db w) (db w').
Proof. exact (projected T c _ _ _ "inbox.conversation.updated" w w' (signals_moves s x)). Qed.

Lemma recorded T c ty actor data w w' :
  wf (db w) → (_ ← record T c ty actor data; mret tt) w = (Ok tt, w') →
  wf (db w') ∧ inboxViews (db w') = inboxViews (db w).
Proof.
  intros Hwf E. split.
  - destruct (kept_discard T None _ (record_kept T None c ty actor data) w) as [H _];
      [by apply inv_wf|]. unfold final in H. rewrite E in H.
    exact (proj1 (proj1 (H (inv_wf T _ Hwf)))).
  - apply bind_inv in E as (y & s & E1 & E). injection E as <-.
    unfold record in E1. run_inv E1. injection Hrun as _ <-. injection Hrun0 as _ <-.
    injection Hrun1 as _ <-. injection E1 as _ <-.
    unfold addActivity in Hrun2. run_inv Hrun2. injection Hrun as _ <-.
    unfold write in Hrun2. run_inv Hrun2. injection Hrun as _ <-. injection Hrun0 as _ <-.
    by injection Hrun2 as _ <-.
Qed.

(** A handler that projects and records. *)
Lemma project_then_record T c ty actor data (m : M InboxW unit) k w w' :
  (∀ s, m w = (Ok tt, s) → moved T c k (db w) (db s)) →
  (m ;; _ ← record T c ty actor data; mret tt) w = (Ok tt, w') → moved T c k (db w) (db w').
Proof.
  intros Hm E. apply bind_inv in E as ([] & s & E1 & E). apply Hm in E1 as (Hwf & Hk & Ho).
  apply recorded in E as [Hwf' Ev]; [|done]. unfold moved, card_at in *. by rewrite Ev.
Qed.

Definition stepped (T c : string) (e : InboxEventEnvelope) (d d' : InboxDb) : Prop :=
  wf d' ∧ card_at T c d' = step e (card_at T c d)
  ∧ ∀ U i, (U, i) ≠ (T, c) → card_at U i d' = card_at U i d.
Lemma moved_stepped T c e k d d' :
  step e (card_at T c d) = Some k → moved T c k d d' → stepped T c e d d'.
Proof. intros E (? & ? & ?). split_and!; [done|congruence|done]. Qed.

Lemma only_recorded T c e ty actor data w w' :
  step e (card_at T c (db w)) = card_at T c (db w) → wf (db w) →
  (_ ← record T c ty actor data; mret tt) w = (Ok tt, w') → stepped T c e (db w) (db w').
Proof.
  intros Es Hwf E. apply recorded in E as [Hwf' Ev]; [|done]. unfold stepped, card_at in *.
  rewrite Ev, Es. done.
Qed.

(** A handler that projects and records. *)
#[local] Ltac by_projection E moved :=
  eapply moved_stepped;
  [unfold step; match goal with En : _ = eventName _ |- _ => rewrite <- En end;
   repeat match goal with Eo : ticket_over _ = _ |- _ => rewrite Eo; clear Eo end; reflexivity
  |eapply project_then_record; [|exact E]; intros s Hs; by apply moved in Hs].

Lemma message_stepped T c e d w w' name :
  name = eventName e → name = "message.received" ∧ d = INBOUND ∨ name = "message.sent" ∧ d = OUTBOUND →
  wf (db w) → on_message d T c e w = (Ok tt, w') → stepped T c e (db w) (db w').
Proof.
  intros En Hd Hwf E. apply bind_inv in E as (at_ & s & E1 & E). injection E1 as _ <-.
  set (p d := {| m_content := str_field "content" (payload e); m_at := at_;
                 m_type := str_field "messageType" (payload e); m_direction := d |}).
  destruct Hd as [[-> ->]|[-> ->]].
  - by_projection E (projectMessage_moved T c (p INBOUND)).
  - by_projection E (projectMessage_moved T c (p OUTBOUND)).
Qed.
Lemma ticket_stepped T c e w w' :
  "ticket.updated" = eventName e → wf (db w) → on_ticket_updated T c e w = (Ok tt, w') →
  stepped T c e (db w) (db w').
Proof.
  intros En Hwf E. unfold on_ticket_updated in E.
  destruct (ticket_over e) eqn:Eo; cbn [when] in E.
  - by_projection E adjustOpenTicketCount_moved.
  - eapply only_recorded; [by unfold step; rewrite <- En, Eo|done|exact E].
Qed.

Lemma handler_stepped T c e h w w' :
  handler (eventName e) = Some h → wf (db w) → h T c e w = (Ok tt, w') →
  stepped T c e (db w) (db w').
Proof.
  intros Eh Hwf E. unfold handler, js_find, handlers in Eh. cbn [find fst] in Eh.
  repeat match type of Eh with
  | context [String.eqb ?n (eventName e)] => destruct (String.eqb_spec n (eventName e)) as [En|_]
  end; cbn in Eh; try done; injection Eh as <-.
  - by_projection E projectConversation_moved.
  - by_projection E projectConversation_moved.
  - eapply message_stepped; eauto.
  - eapply message_stepped; eauto.
  - by_projection E adjustOpenTicketCount_moved.
  - by apply ticket_stepped in E.
  - by_projection E projectConversation_moved.
  - by_projection E projectAiSignals_moved.
  - eapply only_recorded; [by unfold step; rewrite <- En|done|exact E].
Qed.

(** An event without a handler steps no card. *)
Lemma no_handler_step e o : handler (eventName e) = None → step e o = o.
Proof.
  intros H. unfold handler, js_find, handlers in H. unfold step. cbn [find fst] in H.
  repeat match type of H with context [String.eqb ?n (eventName e)] =>
    destruct (String.eqb n (eventName e)); [cbn in H; discriminate H|]
  end. reflexivity.
Qed.

Lemma handleEvent_cards e w w' :
  wf (db w) → handleEvent e w = (Ok tt, w') →
  wf (db w') ∧ ∀ T c, card_at T c (db w')
    = (if about T c e then step e (card_at T c (db w)) else card_at T c (db w)).
Proof.
  intros Hwf E. unfold handleEvent in E. unfold about.
  destruct (handler (eventName e)) as [h|] eqn:Eh.
  - destruct (conversation_of e) as [i|].
    + destruct (handler_stepped _ i e h w w' Eh Hwf E) as (Hwf' & Hk & Ho). split; [done|].
      intros T c. destruct (String.eqb_spec (e_tenantId e) T) as [<-|Hne]; cbn.
      * case_bool_decide as Hc; [injection Hc as ->; done|]. apply Ho. congruence.
      * apply Ho. congruence.
    + injection E as <-. split; [done|]. intros T c.
      rewrite bool_decide_eq_false_2 by done. by rewrite andb_false_r.
  - injection E as <-. split; [done|]. intros T c. rewrite no_handler_step by done.
    by destruct (_ && _).
Qed.

(** C8: The consumer folds events.  From well-formed tables, when it has taken a list of
    events about any conversations of any tenants, in any interleaving, the view of each
    conversation shows (customer, channel, agent, team, status, priority, sentiment, last
    message, unread messages, open tickets, confidence, whether someone waits, metadata)
    what [step] folds from the events about that conversation alone, in their order,
    over what the view showed before, or over nothing if there was none. *)
Theorem projection_replays T c l w w' :
  wf (db w) → for_each l handleEvent w = (Ok tt, w') →
  card_at T c (db w') = foldl (λ k e, step e k) (card_at T c (db w)) (js_filter (about T c) l).
Proof.
  revert w. induction l as [|e l IH]; intros w Hwf E; cbn [for_each] in E.
  - by injection E as <-.
  - apply bind_inv in E as ([] & s & E1 & E). apply handleEvent_cards in E1 as [Hs Hk]; [|done].
    rewrite (IH s Hs E), (Hk T c). unfold js_filter. cbn [List.filter].
    by destruct (about T c e).
Qed.
End replay.
