(* ===== verification/InboxSweep.v ===== *)
(** * Inbox: the sweep of the snoozes

    [processDueSnoozes] returns, removes the snoozes that are due and reopens the views
    that were snoozed, and no others. *)

From S2P Require Import Prelude Platform JsValue Double Sql SqlText Inbox InboxRepo InboxQueries InboxProjection InboxServices InboxIsolation InboxReplay.
Import InboxSnoozeService.
Open Scope Z_scope.

(** What waking does to a card. *)
Definition woken_card (k : Card) : Card :=
  k <| k_status ::= λ s, if bool_decide (s = SNOOZED) then OPEN else s |>.
Lemma woken_twice k : woken_card (woken_card k) = woken_card k.
Proof. unfold woken_card. cbn. f_equal. by destruct (k_status k). Qed.

Lemma js_filter_twice {A} (p q : A → bool) l :
  js_filter p (js_filter q l) = js_filter (λ x, q x && p x) l.
Proof.
  unfold js_filter. induction l as [|x l IH]; [done|]. cbn.
  destruct (q x); cbn; [destruct (p x)|]; by rewrite ?IH.
Qed.

Lemma js_filter_perm {A} (p : A → bool) l l' : l ≡ₚ l' → js_filter p l ≡ₚ js_filter p l'.
Proof.
  unfold js_filter. induction 1; cbn; repeat case_match; try done; try by constructor.
  by etransitivity.
Qed.

Section sweep.
Context {HE : Env} {HS : SqlScan}.
Implicit Types (v : InboxView).

(** ** A save of a view that was read *)
Lemma viewToDomain_columns r v :
  viewToDomain r = Ok v → id v = r_id r.
Proof. unfold viewToDomain, mbind, result_bind. destruct (InboxStatus_create _); [by intros [= <-]|done]. Qed.

Lemma save_read T c r v v' w :
  wf (db w) → r ∈ inboxViews (db w) → of_conversation T c r = true → viewToDomain r = Ok v →
  id v' = id v → conversationId v' = conversationId v → view_fits v' = true →
  ∃ w', saveView v' T w = (Ok v', w') ∧ inboxSnoozes (db w') = inboxSnoozes (db w)
        ∧ ticks w' = S (ticks w).
Proof.
  intros Hwf Hr Hc Ev Ei Ec Hfit. pose proof Hc as [Ht Hc']%of_conversation_true.
  pose proof (viewToDomain_meta _ _ Ev) as (E2 & _). apply viewToDomain_columns in Ev.
  assert (conversationId v' = c) as Ec' by congruence.
  unfold saveView, new_Date, mbind, M_bind, of_result, column. rewrite Hfit.
  unfold write, gets, mbind, M_bind, of_result, sql_upsert. cbn [rows views_table db].
  rewrite Ec'. change (db (w <| ticks ::= S |>)) with (db w).
  assert (some (of_conversation T c) (inboxViews (db w)) = true) as ->.
  { apply existsb_exists. exists r. by rewrite <- list_elem_of_In. }
  unfold sql_update. rewrite unique_ok; [by eexists|].
  apply distinct_update; [exact (wf_views _ Hwf)|]. intros x Hx Hxc.
  rewrite (view_unique (db w) T c x r) by done. cbn. by rewrite Ei, Ev, Ht, Ec', Hc'.
Qed.

(** ** Waking one conversation *)
Definition woken (T c : string) (d d' : InboxDb) : Prop :=
  wf d' ∧ ∀ U i, card_at U i d'
    = (if bool_decide ((U, i) = (T, c)) then woken_card <$> card_at U i d else card_at U i d).

Lemma wake_runs T c w :
  wf (db w) →
  ∃ b w', wake T c w = (Ok b, w') ∧ inboxSnoozes (db w') = inboxSnoozes (db w)
          ∧ woken T c (db w) (db w').
Proof.
  intros Hwf. unfold wake, findViewByConversation, read. rewrite bind_assoc, gets_bind.
  cbn [rows views_table].
  destruct (sql_select (of_conversation T c) (inboxViews (db w))) as [r|] eqn:Er.
  - pose proof Er as [Hr Hc]%select_some. pose proof (wf_readable _ Hwf r Hr) as Hread.
    unfold readable in Hread. destruct (viewToDomain r) as [v|] eqn:Ev; [|done].
    assert (∃ v' w1, unsnooze v w = (Ok v', w1) ∧ db w1 = db w ∧ id v' = id v
      ∧ conversationId v' = conversationId v ∧ view_fits v' = true
      ∧ card v' = woken_card (card v)) as (v' & w1 & E1 & D1 & Ei & Ec & Hf & Ek).
    { unfold unsnooze. case_bool_decide as Es.
      - eexists _, _. split; [reflexivity|]. split_and!; [done..|].
        unfold woken_card. cbn. by rewrite Es.
      - eexists _, _. split; [reflexivity|]. split_and!; [done..|].
        unfold woken_card, card. cbn. by rewrite (bool_decide_eq_false_2 _ Es). }
    destruct (save_read T c r v v' w1) as (w2 & E2 & Hs & _); rewrite ?D1; try done.
    pose proof (saved_card T v' w1 v' w2) as Hmoved. rewrite D1 in Hmoved.
    destruct (Hmoved Hwf E2) as (Hwf2 & Hk & Ho).
    assert (conversationId v' = c) as Ec'.
    { rewrite Ec. apply viewToDomain_meta in Ev as (-> & _).
      by apply of_conversation_true in Hc as [_ ?]. }
    rewrite Ec' in Hk, Ho. eexists true, _. split.
    { erewrite bind_ok by reflexivity. cbv beta iota. erewrite bind_ok by exact E1.
      erewrite bind_ok by exact E2. reflexivity. }
    match goal with |- inboxSnoozes (db ?x) = _ ∧ _ => assert (db x = db w2) as -> by reflexivity end.
    split; [by rewrite Hs, D1|]. split; [done|]. intros U i. case_bool_decide as Hd.
    + injection Hd as -> ->. rewrite Hk, Ek. unfold card_at. rewrite Er. cbn.
      unfold card_of. by rewrite Ev.
    + by apply Ho.
  - exists false, w. split; [done|]. split; [done|]. split; [done|]. intros U i.
    case_bool_decide as Hd; [|done]. injection Hd as -> ->. unfold card_at. by rewrite Er.
Qed.

(** ** The sweep *)
Lemma snooze_of_true T c s : snooze_of T c s = true ↔ s_tenantId s = T ∧ s_conversationId s = c.
Proof. unfold snooze_of. by rewrite andb_true_iff, !String.eqb_eq. Qed.
(** Whether a list has the snooze of a conversation. *)
Definition snoozed (l : list InboxSnooze) (T c : string) : bool := some (snooze_of T c) l.
Definition of_list (l : list InboxSnooze) (s : InboxSnooze) : bool :=
  snoozed l (s_tenantId s) (s_conversationId s).

Lemma wake_due_runs n s w :
  wf (db w) →
  ∃ w', wake_due n s w = (Ok (n + 1), w')
        ∧ inboxSnoozes (db w')
          = sql_delete (snooze_of (s_tenantId s) (s_conversationId s)) (inboxSnoozes (db w))
        ∧ woken (s_tenantId s) (s_conversationId s) (db w) (db w').
Proof.
  intros Hwf. set (T := s_tenantId s). set (c := s_conversationId s).
  destruct (deleteSnooze_kept T None c w) as [H _]; [by apply inv_wf|].
  destruct (H (inv_wf T _ Hwf)) as [[Hwf' _] _].
  set (w1 := final (deleteSnooze T c) w) in *.
  assert (∃ b, deleteSnooze T c w = (Ok b, w1)) as [b Eb] by (by eexists).
  destruct (wake_runs T c w1 Hwf') as (b' & w2 & E2 & Hs & Hwoken). exists w2. split.
  { unfold wake_due. erewrite bind_ok by exact Eb. erewrite bind_ok by exact E2. done. }
  split; [by rewrite Hs|]. exact Hwoken.
Qed.

Lemma sweep_runs l n w :
  wf (db w) →
  ∃ w', fold_each l n wake_due w = (Ok (n + Z.of_nat (length l)), w') ∧ wf (db w')
        ∧ inboxSnoozes (db w') = js_filter (λ s, negb (of_list l s)) (inboxSnoozes (db w))
        ∧ ∀ U i, card_at U i (db w')
            = (if snoozed l U i then woken_card <$> card_at U i (db w) else card_at U i (db w)).
Proof.
  revert n w. induction l as [|s l IH]; intros n w Hwf.
  - exists w. cbn. rewrite Z.add_0_r. split_and!; [done..| |done].
    unfold js_filter. symmetry. by apply forallb_filter_id, forallb_forall.
  - destruct (wake_due_runs n s w Hwf) as (w1 & E1 & Hs1 & Hwf1 & Hc1).
    destruct (IH (n + 1) w1 Hwf1) as (w2 & E2 & Hwf2 & Hs2 & Hc2). exists w2.
    cbn [fold_each]. erewrite bind_ok by exact E1. rewrite E2. split_and!; [|done| |].
    + do 2 f_equal. cbn [length]. lia.
    + rewrite Hs2, Hs1. unfold sql_delete. rewrite js_filter_twice. apply js_filter_ext.
      intros x _. unfold of_list, snoozed. cbn [some existsb]. rewrite negb_orb. f_equal.
      f_equal. unfold snooze_of. f_equal; apply String.eqb_sym.
    + intros U i. rewrite Hc2, Hc1. unfold snoozed. cbn [some existsb].
      assert (snooze_of U i s = bool_decide ((U, i) = (s_tenantId s, s_conversationId s))) as ->.
      { apply eq_true_iff_eq. rewrite snooze_of_true, bool_decide_eq_true.
        split; [by intros [<- <-]|by intros [= -> ->]]. }
      case_bool_decide; cbn [orb]; [|done].
      destruct (some (snooze_of U i) l); [|done]. destruct (card_at U i (db w)); [|done].
      exact (f_equal Some (woken_twice _)).
Qed.

(** C16: From well-formed tables of which at most 500 snoozes are due (of a tenant if the
    job names one), a sweep returns, with the number of due snoozes; the snoozes left are
    those that were not due; and of the views, those that were snoozed and had a due
    snooze are open, and nothing else about any view changes.  In particular the views of
    due snoozes that were resolved, archived or reopened meanwhile stay so. *)
Theorem sweep_wakes_due tenant w :
  let now := env_clock (ticks w) in
  let due_now := js_filter (due tenant now) (inboxSnoozes (db w)) in
  wf (db w) → (length due_now ≤ SNOOZE_SWEEP_BATCH)%nat →
  ∃ w', processDueSnoozes tenant w = (Ok (Z.of_nat (length due_now)), w') ∧ wf (db w')
    ∧ inboxSnoozes (db w') = js_filter (λ s, negb (due tenant now s)) (inboxSnoozes (db w))
    ∧ ∀ U i, card_at U i (db w')
        = (if snoozed due_now U i then woken_card <$> card_at U i (db w)
           else card_at U i (db w)).
Proof.
  intros now due_now Hwf Hlen. unfold processDueSnoozes.
  erewrite bind_ok by reflexivity. unfold findDueSnoozes. rewrite gets_bind.
  change (db (w <| ticks ::= S |>)) with (db w). fold now.
  set (l := take _ _).
  assert (l ≡ₚ due_now) as Hl.
  { unfold l. rewrite take_ge.
    - rewrite js_sort_perm. apply js_filter_perm, scan_perm.
    - erewrite Permutation_length; [|apply js_sort_perm].
      erewrite Permutation_length; [exact Hlen|]. apply js_filter_perm, scan_perm. }
  set (w1 := w <| ticks ::= S |>). assert (db w1 = db w) as Ed by reflexivity.
  destruct (sweep_runs l 0 w1) as (w' & E & Hwf' & Hs & Hc); [by rewrite Ed|].
  setoid_rewrite Ed in Hs. setoid_rewrite Ed in Hc.
  exists w'. rewrite E, (Permutation_length Hl). split; [done|]. split; [done|].
  assert (∀ U i, snoozed l U i = snoozed due_now U i) as Hsn.
  { intros U i. apply eq_true_iff_eq. unfold snoozed. rewrite !existsb_exists.
    split; intros (x & Hx & ?); exists x; (split; [|done]); revert Hx;
      rewrite <- !list_elem_of_In; by rewrite Hl. }
  split.
  - rewrite Hs. apply js_filter_ext. intros x Hx. f_equal. unfold of_list. rewrite Hsn.
    apply eq_true_iff_eq. unfold snoozed. rewrite existsb_exists. split.
    + intros (y & [Hy Hdue]%list_elem_of_In%js_filter_elem & [E1 E2]%snooze_of_true).
      assert (x = y) as ->; [|done].
      apply (distinct_key (inboxSnoozes (db w)) x y
        ["conversation"; s_tenantId x; s_conversationId x]); [apply Hwf|done|done| |];
        cbn; rewrite ?E1, ?E2; right; by left.
    + intros Hdue. exists x. split; [|by apply snooze_of_true].
      apply list_elem_of_In, js_filter_elem. done.
  - intros U i. rewrite Hc, Hsn. done.
Qed.
End sweep.
