(* ===== verification/InboxFeed.v ===== *)
(** * Inbox: following the conversations

    The conversation module publishes its events on the inbox queue and the inbox worker
    takes them: what a conversation's view shows after an event of the conversation. *)

From S2P Require Import Prelude Platform JsValue Double Conversation ConversationStore Sql SqlText Inbox InboxRepo InboxQueries InboxProjection InboxServices InboxIsolation InboxReplay.
Import InboxProjectionService InboxEventConsumer.
Open Scope Z_scope.

(** The view after an event, over what it was; it is made if there was none. *)
Definition followed (e : ConversationEvent) (o : option Card) : option Card :=
  let k := default (new_card no_seed) o in
  match e with
  | ConversationCreatedEvent _ _ customer channel =>
      Some (k <| k_customerId := js_or_undef (Some customer) |>
              <| k_channelId := js_or_undef (Some channel) |>)
  | ConversationUpdatedEvent _ _ s p =>
      Some (k <| k_status ::= λ old, default old (mapStatus (Some s)) |>
              <| k_priority ::= js_or (mapPriority (Some p)) |>)
  | _ => o
  end.

Section feed.
Context {HE : Env} {HS : SqlScan} {HC : Collation} {HD : InboxDeps}.

(** The inbox jobs that a step has queued. *)
Definition queued {Db A} (m : M (World Db) A) (w : World Db) : list Job :=
  js_filter (λ j, bool_decide (job_queue j = INBOX)) (drop (length (jobs w)) (jobs (final m w))).
Definition work (l : list Job) : M InboxW unit :=
  for_each l (λ j, _ ← InboxQueueProcessor.handleJob j; mret tt).

(** The job of a projected event. *)
Definition projection_job (ambient : option string) (e : ConversationEvent) : Job :=
  {| job_queue := INBOX; job_name := "inbox-projection-job";
     job_data :=
       [("tenantId", JStr (event_tenant e)); ("eventName", JStr (ConversationStore.event_name e));
        ("aggregateId", JStr (getAggregateId e)); ("conversationId", JStr (getAggregateId e));
        ("payload", JObj (event_payload e))]
       ++ [("_tenantContext", JObj (opt_field "tenantId" ambient))];
     job_opts := DEFAULT_JOB_OPTIONS; attemptsMade := 0 |}.

Definition projects (e : ConversationEvent) : bool :=
  match e with
  | ConversationCreatedEvent _ _ _ _ | ConversationUpdatedEvent _ _ _ _ => true
  | _ => false
  end.

Lemma addJob_runs {Db} q n d o (w : World Db) :
  (∀ j, env_queue_add j = None) →
  addJob q n d o w = (Ok tt, w <| jobs ::= λ js, js ++
    [{| job_queue := q; job_name := n;
        job_data := d ++ [("_tenantContext", JObj (opt_field "tenantId" (tenantContext w)))];
        job_opts := o DEFAULT_JOB_OPTIONS; attemptsMade := 0 |}] |>).
Proof.
  intros H. unfold addJob, getTenantId. rewrite gets_bind. by rewrite H.
Qed.

Lemma jobs_added {Db} f (w : World Db) : jobs (w <| jobs ::= f |>) = f (jobs w).
Proof. done. Qed.

Lemma publish_queues e (w : ConvW) :
  (∀ j, env_queue_add j = None) →
  queued (ConversationStore.publish e) w
  = (if projects e then [projection_job (tenantContext w) e] else []).
Proof.
  intros H. unfold queued, ConversationStore.publish, final, try_catch.
  assert (bool_decide (ConversationStore.event_name e ∈ INBOX_PROJECTION_EVENTS) = projects e)
    as -> by (by destruct e).
  destruct (bool_decide (_ ∈ SUMMARY_TRIGGER_EVENTS)), (projects e); cbn [when];
    unfold mbind, M_bind; rewrite ?addJob_runs by done; cbn [mret M_ret snd];
    rewrite ?addJob_runs by done; cbn [snd];
    rewrite ?jobs_added, <- ?app_assoc, ?drop_app_length, ?drop_all; done.
Qed.

(** ** The worker's side *)
Lemma mapPriority_truthy p q : mapPriority p = Some q → truthy q = true.
Proof.
  intros (s & _ & E)%bind_Some. apply fmap_Some in E as (x & [Hx _]%find_some & ->).
  unfold PRIORITY_MAP in Hx. cbn in Hx. by intuition subst.
Qed.

Lemma step_follows ambient e o :
  projects e = true →
  step (InboxQueueProcessor.envelope_of_job (projection_job ambient e)) o = followed e o.
Proof.
  intros Hp.
  assert (step (InboxQueueProcessor.envelope_of_job (projection_job ambient e)) o
    = Some (step_conversation (conversation_projection (event_payload e))
              (default (new_card (conversation_projection (event_payload e))) o))) as ->
    by (by destruct e).
  destruct e; try discriminate Hp.
  - by destruct o.
  - destruct o; [done|].
    assert (conversation_projection (event_payload (ConversationUpdatedEvent tenantId conversationId
        status priority))
      = {| c_customerId := None; c_channelId := None; c_status := Some status;
           c_priority := Some priority; c_assignedAgentId := None; c_assignedTeamId := None |})
      as -> by reflexivity.
    unfold followed, step_conversation, new_card. cbn -[mapStatus mapPriority js_or]. f_equal.
    f_equal; [by destruct (mapStatus (Some status))|].
    unfold js_or. by destruct (mapPriority (Some priority)) as [q|]; [destruct (truthy q)|].
Qed.

(** The tenant of the ambient context, if there is one, is that of the event. *)
Definition same_tenant (ambient : option string) (e : ConversationEvent) : Prop :=
  match js_or_undef ambient with Some t => t = event_tenant e | None => True end.
Lemma about_follows ambient e T c :
  same_tenant ambient e → truthy (getAggregateId e) = true →
  about T c (InboxQueueProcessor.envelope_of_job (projection_job ambient e))
  = bool_decide ((event_tenant e, getAggregateId e) = (T, c)).
Proof.
  intros Ht Hc. unfold about.
  assert (e_tenantId (InboxQueueProcessor.envelope_of_job (projection_job ambient e))
    = event_tenant e) as ->.
  { unfold same_tenant, js_or_undef in Ht. destruct ambient as [t|]; [|done].
    cbn. unfold InboxQueueProcessor.tenant_of_job, js_or_undef. cbn.
    destruct (truthy t) eqn:E; cbn; by rewrite ?E. }
  assert (conversation_of (InboxQueueProcessor.envelope_of_job (projection_job ambient e))
    = Some (getAggregateId e)) as ->.
  { unfold conversation_of, js_or_undef. cbn. by rewrite Hc. }
  apply eq_true_iff_eq. rewrite andb_true_iff, String.eqb_eq, !bool_decide_eq_true.
  split; [by intros [-> [= ->]]|by intros [= -> ->]].
Qed.

(** C9: When the conversation module publishes an event, with a queue that takes its
    jobs, and the inbox worker takes the inbox jobs that this has queued, the view of the
    event's conversation shows what [followed] says: after [conversation.created] the
    customer and the channel, after [conversation.updated] the status and the priority
    translated for the inbox, and after any other event what it showed before; and no
    view of another conversation changes. *)
Theorem inbox_follows_conversation e (wc : ConvW) wi wi' :
  (∀ j, env_queue_add j = None) → same_tenant (tenantContext wc) e →
  truthy (getAggregateId e) = true → wf (db wi) →
  work (queued (ConversationStore.publish e) wc) wi = (Ok tt, wi') →
  ∀ T c, card_at T c (db wi')
    = (if bool_decide ((event_tenant e, getAggregateId e) = (T, c))
       then followed e (card_at T c (db wi)) else card_at T c (db wi)).
Proof.
  intros Hq Ht Hc Hwf E T c. rewrite publish_queues in E by done.
  destruct (projects e) eqn:Hp; unfold work in E; cbn [for_each] in E.
  - apply bind_inv in E as ([] & s & E & Es). injection Es as <-.
    apply bind_inv in E as (j & s' & E & Es). injection Es as <-.
    unfold InboxQueueProcessor.handleJob in E. cbn [job_name projection_job] in E.
    rewrite String.eqb_refl in E. apply bind_inv in E as ([] & s & E & Es). injection Es as _ <-.
    apply handleEvent_cards in E as [_ E]; [|done].
    by rewrite E, about_follows, step_follows.
  - injection E as <-. case_bool_decide; [|done]. by destruct e.
Qed.
End feed.
