(* ===== verification/InboxSamples.v ===== *)
(** * Inbox: the theorems at concrete inputs *)

From S2P Require Import Prelude Platform JsValue Double Conversation ConversationRepo ConversationStore.
From S2P Require Import Sql SqlText Inbox InboxRepo InboxQueries InboxProjection InboxServices.
From S2P Require Import InboxIsolation InboxProofs InboxReplay InboxSweep InboxFeed.
Import InboxEventConsumer.
Open Scope Z_scope.

(** A database that scans in insertion order, an assignment engine that always picks
    Ann, drafts that are sent. *)
#[local] Instance sample_env : Env := ticking_env.
#[local, program] Instance sample_sql : SqlScan := {| scan _ l := l |}.
Next Obligation. done. Qed.
#[local, program] Instance sample_collation : Collation :=
  {| collate s t := js_length s - js_length t |}.
Next Obligation. split; intros; lia. Qed.
#[local, program] Instance sample_deps : InboxDeps :=
  {| assignEntity _ _ _ _ := mret "ann"; draft_send _ _ _ := mret tt;
     draft_discard _ _ := mret tt; Date_parse _ := Some 0; options_hash _ := "h" |}.
Solve All Obligations with done.

Definition no_inbox : InboxDb :=
  {| inboxViews := []; inboxFilters := []; inboxSavedViews := []; inboxAssignments := [];
     inboxPresence := []; inboxSnoozes := []; inboxBookmarks := []; inboxActivityFeed := [];
     searchCache := None |}.
Definition inbox0 : InboxW := fresh_world no_inbox.
Lemma inbox0_wf : wf (db inbox0).
Proof. split; try apply NoDup_nil_2. intros r H. by apply not_elem_of_nil in H. Qed.

Definition event (tenant name conversation : string) (o : list (string * json))
    : InboxEventEnvelope :=
  {| e_tenantId := tenant; eventName := name; aggregateId := "agg";
     e_conversationId := Some conversation; actorId := None; payload := o |}.
Definition opened (tenant conversation : string) : InboxEventEnvelope :=
  event tenant "conversation.created" conversation [("customerId", JStr "ada")].
Definition job_of (e : InboxEventEnvelope) : Job :=
  {| job_queue := INBOX; job_name := "inbox-projection-job";
     job_data := [("tenantId", JStr (e_tenantId e)); ("eventName", JStr (eventName e));
                  ("aggregateId", JStr (aggregateId e))]
                 ++ opt_field "conversationId" (e_conversationId e)
                 ++ [("payload", JObj (payload e))];
     job_opts := DEFAULT_JOB_OPTIONS; attemptsMade := 0 |}.
Definition sweep_job : Job :=
  {| job_queue := INBOX; job_name := "inbox-cleanup-job"; job_data := [];
     job_opts := DEFAULT_JOB_OPTIONS; attemptsMade := 0 |}.

(** Conversation [c1] in two tenants. *)
Definition inbox1 : InboxW :=
  serve_all [Work (job_of (opened "globex" "c1")); Work (job_of (opened "acme" "c1"))] inbox0.
Lemma wf_served l w : wf (db w) → wf (db (serve_all l w)).
Proof.
  intros Hwf. destruct (serve_all_holds l "" None w) as [H _]; [|by apply inv_wf|exact H].
  by apply Forall_true.
Qed.
Lemma inbox1_wf : wf (db inbox1).
Proof. apply wf_served, inbox0_wf. Qed.

(** *** Isolation *)
Definition inbound : InboxEventEnvelope :=
  event "acme" "message.received" "c1" [("content", JStr "help"); ("messageType", JStr "TEXT")].
Definition requests : list Request :=
  [Work (job_of inbound); Api "acme" (Assign "c1" "bob" None None);
   Api "acme" (Snooze "c1" 0 (Some "later") None); Api "acme" (SetPresence "bob" "BUSY" None);
   Api "acme" (Bookmark "c1" "bob"); Api "acme" (Resolve "nowhere" None)].

Example inbox_requests_write :
  let d := db (serve_all requests inbox1) in
  (length (inboxViews d), r_assignedAgentId <$> inboxViews d, length (inboxSnoozes d),
   length (inboxBookmarks d), length (inboxActivityFeed d))
  = (2%nat, [None; Some "bob"], 1%nat, 1%nat, 6%nat).
Proof. vm_compute. reflexivity. Qed.

Lemma inbox_calls_isolated_witness :
  wf (db (serve_all requests inbox1))
  ∧ of_tenant "globex" (db (serve_all requests inbox1)) = of_tenant "globex" (db inbox1).
Proof.
  destruct (inbox_calls_isolated requests inbox1 inbox1_wf) as [Hwf Hothers].
  split; [exact Hwf|]. apply Hothers. apply Forall_forall.
  repeat constructor; vm_compute; discriminate.
Defined.

(** *** The hand-over *)
Definition taken : InboxW :=
  final (InboxService.takeOverFromAi "acme" "c1" "bob") inbox1.
Definition afterwards : list Request :=
  [Work (job_of inbound); Api "acme" (SetAiPaused "c1" false "bob");
   Api "acme" (ReturnToAi "c2" "bob"); Api "globex" (ReturnToAi "c1" "eve");
   Work (job_of (event "acme" "ai.escalation.created" "c1" [])); Work sweep_job].

Lemma taken_over : InboxService.takeOverFromAi "acme" "c1" "bob" inbox1 = (Ok tt, taken).
Proof. unfold taken. apply returned. vm_compute. reflexivity. Qed.

Lemma ai_stays_off_witness :
  outcome (InboxService.isAiActive "acme" "c1") (serve_all afterwards taken) = Ok false.
Proof.
  apply (ai_stays_off "acme" "c1" "bob" afterwards inbox1 taken inbox1_wf taken_over).
  repeat constructor; vm_compute; [intros []|intros []|intros [_ [=]]|intros [[=] _]|intros []|intros []].
Defined.
(** The same call hands it back. *)
Example handed_back :
  outcome (InboxService.isAiActive "acme" "c1")
    (serve_all [Api "acme" (ReturnToAi "c1" "bob")] taken) = Ok true.
Proof. vm_compute. reflexivity. Qed.

(** A view that was read before the takeover and is saved after it erases the takeover. *)
Example takeover_is_overwritten :
  match outcome (getViewOrThrow "acme" "c1") inbox1 with
  | Ok v => outcome (InboxService.isAiActive "acme" "c1")
      (final (InboxProjectionService.message_on "acme"
        {| m_content := Some "help"; m_at := None; m_type := None; m_direction := INBOUND |} v) taken)
      = Ok true
  | Throw _ => False
  end.
Proof. vm_compute. reflexivity. Qed.

(** *** The projection *)
Definition feed : list InboxEventEnvelope :=
  [opened "acme" "c1"; inbound; opened "acme" "c2"; event "acme" "ticket.created" "c1" [];
   event "globex" "ticket.created" "c1" []; inbound;
   event "acme" "ai.escalation.created" "c1" [("sentiment", JStr "angry")];
   event "acme" "conversation.updated" "c2" [("status", JStr "closed")]].

Lemma feed_runs :
  for_each feed handleEvent inbox0 = (Ok tt, final (for_each feed handleEvent) inbox0).
Proof. apply returned. vm_compute. reflexivity. Qed.

Lemma projection_replays_witness :
  ∃ k, card_at "acme" "c1" (db (final (for_each feed handleEvent) inbox0)) = Some k
    ∧ (k_customerId k, k_unread k, k_tickets k, k_sentiment k, k_lastMessage k)
      = (Some "ada", 2, 1, Some "angry", Some "help").
Proof.
  rewrite (projection_replays "acme" "c1" feed inbox0 _ inbox0_wf feed_runs).
  eexists. split; vm_compute; reflexivity.
Defined.
(** Of a ticket that is resolved and then closed, both events count down. *)
Example tickets_count_twice :
  k_tickets <$> foldl (λ k e, step e k) None
    [event "acme" "ticket.created" "c1" []; event "acme" "ticket.created" "c1" [];
     event "acme" "ticket.updated" "c1" [("status", JStr "RESOLVED")];
     event "acme" "ticket.updated" "c1" [("status", JStr "CLOSED")]] = Some 0.
Proof. vm_compute. reflexivity. Qed.

(** *** The sweep *)
Definition asleep : InboxW :=
  serve_all [Work (job_of (opened "acme" "c2")); Api "acme" (Snooze "c1" 0 None None);
             Api "acme" (Snooze "c2" 9000000000000 None None)] inbox1.
Lemma asleep_wf : wf (db asleep).
Proof. apply wf_served, inbox1_wf. Qed.
Lemma one_is_due :
  js_filter (due None (env_clock (ticks asleep))) (inboxSnoozes (db asleep))
  = take 1 (inboxSnoozes (db asleep)).
Proof. vm_compute. reflexivity. Qed.

Lemma sweep_wakes_due_witness :
  ∃ w', InboxSnoozeService.processDueSnoozes None asleep = (Ok 1, w')
    ∧ k_status <$> card_at "acme" "c1" (db w') = Some OPEN
    ∧ k_status <$> card_at "acme" "c2" (db w') = Some SNOOZED.
Proof.
  destruct (sweep_wakes_due None asleep asleep_wf) as (w' & E & _ & _ & Hc).
  - apply (bool_decide_unpack _). vm_compute. exact I.
  - exists w'. rewrite one_is_due in E, Hc. split_and!.
    + rewrite E. vm_compute. reflexivity.
    + rewrite Hc. vm_compute. reflexivity.
    + rewrite Hc. vm_compute. reflexivity.
Defined.
(** A view that the projection snoozed has no snooze: no sweep wakes it. *)
Example projected_snooze_stays :
  k_status <$> card_at "acme" "c1"
    (db (serve_all [Work (job_of (event "acme" "conversation.updated" "c1"
           [("status", JStr "SNOOZED")])); Work sweep_job] inbox1)) = Some SNOOZED.
Proof. vm_compute. reflexivity. Qed.

(** *** The conversations *)
Definition conversations0 : ConvW :=
  fresh_world {| c_conversations := ∅; c_tags := []; c_notes := []; c_participants := [];
                 c_mentions := []; c_assignments := []; c_summary := [] |}.
Definition closing : ConversationEvent := ConversationUpdatedEvent "acme" "c1" "CLOSED" "CRITICAL".
Definition closed_in_inbox : InboxW :=
  final (work (queued (ConversationStore.publish closing) conversations0)) inbox1.
Lemma closing_taken :
  work (queued (ConversationStore.publish closing) conversations0) inbox1
  = (Ok tt, closed_in_inbox).
Proof. unfold closed_in_inbox. apply returned. vm_compute. reflexivity. Qed.

Lemma every_job_accepted : ∀ j : Job, env_queue_add j = None.
Proof. reflexivity. Qed.

Lemma inbox_follows_conversation_witness :
  ∃ k, card_at "acme" "c1" (db closed_in_inbox) = Some k
    ∧ (k_status k, k_priority k) = (RESOLVED, "URGENT").
Proof.
  rewrite (inbox_follows_conversation closing conversations0 inbox1 closed_in_inbox
    every_job_accepted I eq_refl inbox1_wf closing_taken).
  eexists. split; vm_compute; reflexivity.
Defined.
(** [ASSIGNED] is no status of the inbox: its view stays as it was. *)
Example assigned_is_not_shown :
  followed (ConversationUpdatedEvent "acme" "c1" "ASSIGNED" "HIGH") (followed closing None)
  = followed (ConversationUpdatedEvent "acme" "c1" "CLOSED" "HIGH") None.
Proof. vm_compute. reflexivity. Qed.
